(* ===== verification/_CoqProject ===== *)
-Q . S2P
Prelude.v
BaseDef.v
RingBuffer.v
KList.v
Slab.v
SlabZone.v
IoDef.v
Kernel.v
Sched.v
KObj.v
Timer.v
Thread.v
IpcBase.v
Semaphore.v
Mutex.v
Event.v
Mailbox.v
MsgQueue.v
Common.v
Device.v
Console.v
Bus.v
Serial.v
Intc.v
Board.v
Shell.v
Vfs.v
Boot.v
Cpu.v
Context.v
Vector.v
Cache.v
Entry.v
SysInv.v
SysTick.v
SysCalls.v
SysBox.v
System.v
User.v
