(* ===== verification/Prelude.v ===== *)
(** * s-kernel: a verification library

    s-kernel is a small real-time kernel for aarch64: 32 priorities with a bitmap
    of ready queues, threads with their own timers, a tick, a two-level heap,
    a registry of named objects, and semaphores, mutexes, events, mailboxes and
    message queues on top of them; around the kernel devices with a serial driver,
    a console with formatted output, a shell, the skeleton of a file system, the
    interrupt controller and the boot sequence; below it the assembly that enters
    the C code, takes interrupts, switches threads and maintains the caches; above
    it an application of test commands.  This library models it function by
    function and proves what its parts promise, each alone, and all together.
    Names of definitions are those of the source under [src/].

    ** How the code is modelled

    Integers are mathematical integers; a store into a C object converts to the
    width of its type ([u8], [u16], [u32], [u64], [s8], [s32] below).  Memory
    routines and payloads work on a memory of bytes, pointers and stacks on a
    memory of 64-bit words.  A structure is a record found at its address in a
    finite map, so that a pointer that addresses no such structure is an error
    of the run ([None] or [Fault]) and never an invented value.  The list nodes
    embedded in structures are the elements of the type [node] of [Kernel], on
    which the pointer code of [klist.h] runs unchanged.

    The kernel's functions run in a monad over the record [kstate] of the
    kernel's globals.  A run is [Done], or [Switch s k] when the processor went to
    another thread, with the rest of the function as the continuation [k] to be
    applied to the state in which the thread is resumed, or [NoReturn], [Fault]
    or [Spin] (a loop ran out of fuel).  Theorems on blocking calls speak about
    the state at the switch and, for every later state in which the thread may
    be resumed, about what the continuation does.

    Assembly is data: the instructions of the source, with its labels and
    alignments, as lists that a model of the processor ([Cpu]) lays out and
    executes.  The processor has the general registers, both stack pointers, flags,
    mask, system registers and a memory of words.  A theorem on such code says
    which state the instructions reach, and where it is the counterpart of a
    definition over the kernel state ([hw_context_switch], [vector_irq], ...), that
    they implement it.

    The whole system is a step relation: the kernel state with, for every thread
    without the processor, what it does when it gets it back.  A step is a call,
    the continuation of a call, or an interrupt.

    Accesses to device registers are recorded in order; what a read returns is
    the answer of the hardware, an argument of type [hardware] that may depend on
    all accesses before.  Code behind a function pointer that the source does not
    fix (drivers of devices and UARTs, file systems, timeout and cleanup
    functions, interrupt handlers) is an argument too; the classes [TimerClient],
    [Driver], [SerialPort], [Handlers] and [Logger] state what a component needs of
    it, and instances show that the code of the source satisfies them.

    ** Files

    - [Prelude]: integer widths, error numbers of [base_def.h], tactics, generic
      lemmas.
    - [BaseDef]: [include/kernel/base_def.h], the memory and string routines and
      [__sk_ffs].
    - [RingBuffer]: [common/ring_buffer.c].
    - [KList]: [include/kernel/klist.h], and the predicate [Rep] that relates a
      heap of nodes to a map from list heads to sequences.
    - [Slab]: [mem/slab.c], page allocator, zones, [sk_malloc] and [sk_free].
    - [SlabZone]: the contract of [sk_malloc] and [sk_free] for their callers, and
      the invariant of zones, chunks, spare zones and usage array that implements
      it.
    - [IoDef]: the structures of [device.h], [serial.h], [hw.h] and [vfs.h], and the
      part of the globals that belongs to devices, files and hardware.
    - [Kernel]: the structures of [sched.h], [timer.h], [kobj.h] and [ipc.h], the
      state, the monad, interrupt masking and the context switches of
      [context.S], interrupt nesting of [init/irq.c].
    - [Sched]: [thread/schedule.c], with the invariant [sched_inv] of the ready
      queues and the bitmap.
    - [KObj]: [init/kobj.c].
    - [Timer]: [init/sys_tick.c].  The class [TimerClient] states what the timer
      check needs of timeout functions, and by a relation what their calls do to
      the state.
    - [Thread]: [thread/thread.c].  The instance [kernel_client] shows that
      [sk_thread_timeout], and application functions that keep the contract
      [user_contract], satisfy [TimerClient]; the end of a thread, with what it
      gives back to the heap.
    - [IpcBase]: [ipc/ipc_base.c], and what all blocking calls share: joining a
      waiting list, arming the timeout, switching away, waking the first waiter.
    - [Semaphore], [Mutex], [Event], [Mailbox], [MsgQueue]: the files of the same
      names in [ipc/].
    - [Common]: [common/completion.c], ring buffers created on the heap.
    - [Device]: [init/device.c], with the class [Driver].
    - [Console]: [driver/serial/console.c], with the reference renderer [render].
    - [Bus]: loads and stores of device registers.
    - [Serial]: [driver/serial/serial.c], with the class [SerialPort]; the serial
      framework is an instance of [Driver].
    - [Intc]: [arch/aarch64/src/interrupt.c] and [trap.c].
    - [Board]: [bsp/driver/drv_uart.c], an instance of [SerialPort], and the timer
      hardware of [sys_tick.c].
    - [Shell]: the line editor of [common/shell.c] as a function of one character,
      and the abstract editor it implements.
    - [Vfs]: [fs/vfs/vfs.c], [vfs_file.c] and [vfs_fs.c].
    - [Boot]: [init/startup.c], [bsp/driver/board.c], [common/cmd.c], the interrupt
      entry of [vector.S], and the functions of [shell.c] that use devices and
      threads.
    - [Cpu]: the processor, as far as the assembly of the source uses it.
    - [Context]: [context_macro.h] and [context.S] under [arch/aarch64], with the
      frame of [armv8.h]; a saved context as a record, and the memory that holds a
      set of them.
    - [Vector]: [vector.S], the table and the code of the vectors.
    - [Cache]: [cache.S].  [Entry]: [entry_point.S] and [startup.S].
    - [SysInv]: the invariant [sys_inv] of threads, ready queues, waiting lists,
      timers, semaphores, mutexes, events and mailboxes together, what a switch and
      a wake-up do to it, and the executable test [sys_check] of it.
    - [SysTick]: timeouts, tick and the whole interrupt path keep it, and wake a
      thread that sleeps exactly at its tick; [SysCalls]:
      so do the calls on semaphores and mutexes and the sleeps, up to their switch
      and after it; [SysBox]: so do those on events and mailboxes, whose rest may
      switch again.
    - [System]: configurations, the relation [step], and the theorems on all
      reachable configurations; a sleep from its call to its end, along every run
      of interrupts.
    - [User]: [user/main.c], [user/test_ipc.c], the loop of the idle thread, and
      [run_system], which executes the threads of the booted system together, with
      example runs.

    ** What is proved

    - Base: [sk_memcpy] is overlap safe, the string comparisons decide equality
      of prefixes, [__sk_ffs] finds the lowest bit of every 32-bit value.
    - Ring buffer: any sequence of calls, with lengths of 16 and characters of 8
      bits, gives the results of a bounded queue; the writers stay inside the
      buffer.
    - Lists: the pointer operations implement operations on sequences and leave
      other lists alone; iteration ends.
    - Heap: the free list of pages stays sorted and coalesced and covers exactly
      the free pages; allocation followed by release restores it; large blocks
      round trip through [sk_malloc] and [sk_free]; the size classes are tight.
      From start-up on, for all sequences of calls within the contract, blocks in
      use are aligned, large enough, inside the heap and never overlap, NULL means
      that the pages are exhausted, and no list is walked into nowhere.
    - Scheduler: insertion and removal keep bitmap and queues in agreement;
      [sk_schedule] refines the choice of the highest ready thread, and
      afterwards no ready thread precedes the current one.
    - Timers and threads: start, stop, sleep, resume and timeout on every branch;
      [sk_timer_check] terminates and settles all timers of a list of at least
      two, as long as the expiries of the periodic ones do not overflow; the end
      of a thread releases the address of its timer and nothing else.
    - IPC: every wait and release operation implements an abstract object (a
      counter with waiters, an owned and counted lock, a set of event bits, a
      bounded queue of words, a queue of byte strings) on every branch, errors
      and the continuation after a wait included, with the scheduler's invariant
      preserved; a caller that waits has its timer armed for the time it gave,
      and a wait on a semaphore, a mutex or an event is over with [SK_EOK]
      whatever ended it; waiting by priority keeps the list sorted; waking all
      ends.
    - Devices: any sequence of calls with at most 255 opens follows the count of
      clients and does what the driver's own functions do, for every driver that
      keeps its contract; a registered device is found by its name.
    - Console: the formatter writes what the renderer gives; numbers are read
      back as they were printed.
    - Serial, interrupts and board: received bytes are queued and read in order, a
      message reaches the data register of the UART byte by byte, every interrupt
      the controller reports is configured, a trap runs the installed handler and
      ends the interrupt.
    - Shell: every sequence of keys gives the outputs of the abstract editor, as
      long as lines fit; what is typed reaches the editor, as long as it fits the
      receive ring.
    - Files: the descriptors are a table of counted slots; the file system of a
      path is the first whose mount point is a prefix.
    - Boot: whatever the hardware answers, start-up ends in the main thread with
      the scheduler's invariant and an open console.
    - Assembly: [hw_context_switch] exchanges whole contexts and touches no other,
      a new thread starts at its entry with its parameter, an interrupt saves the
      interrupted thread and resumes the requested one exactly when a switch to
      another thread was requested and resumes the interrupted one unchanged
      otherwise, the mask and the request for a switch are what the C model says; the cache
      loops end and reach every line; the entry point clears the words it is given
      and enters the C code.
    - System: every sequence of calls on semaphores, mutexes, events and mailboxes,
      of sleeps and of interrupts between them keeps the invariant, and no call,
      continuation or interrupt faults, spins or gives the processor to a thread
      that cannot go on; the booted kernel starts in this invariant.  A thread
      that sleeps stays suspended until the tick it asked for and is ready from
      this tick on, along every run of interrupts with threads that compute.
    - Application: no theorem; the test commands are executed, each on one booted
      state with an idle machine otherwise, and the examples compare what they
      print (of the mailbox test the first four rounds).

    Where the code does something else than it means to, the theorem says what it
    does: blocks of 1024 to 2047 bytes overlap, the release of a zone loses the
    list of free zones, a timer alone on the list never stops, periodic timers
    whose expiries overflow keep the timer check running, a lock that timed out
    reports success, a full message queue dereferences NULL, a receive wakes
    receivers where it should wake senders, a send of an event looks at the first
    waiter only, a thread that yields is not compared by priority, the stack of
    the idle thread is smaller than its initial frame, waiting for a completion
    does not wait, the end of a thread frees an address inside a block, destroying
    a device frees it twice, messages of more than 64
    bytes overrun a local array and lines of more than 81 characters the line of
    the shell, the lock of the file system excludes nobody, its initialisation
    stores through NULL and unlinking never removes a file, a fault in a handler
    runs the code of another vector, floating-point registers are not switched.

    ** Fuel

    Loops over lists take fuel.  The walks of the page list get one more than
    the number of page headers ([page_fuel]), those of zone lists one more than
    the number of zones; the walks of kernel lists one more
    than the number of nodes ([node_fuel]), which no acyclic list exceeds, and
    the theorems show that the result is reached.  [sk_timer_check] is proved to
    end within [(n + 1)^2] rounds for [n] timers, since a callback may restart
    the walk.  The string loops get the size of the memory, the conversion of a
    number 33 rounds, the formatter one more than the length of the format, the
    loops over interrupt registers one more than the number of interrupts, the
    search for a descriptor one more than the size of the table.  How long the
    receive interrupt and the thread of the shell run is up to the hardware: their
    fuel is an argument, and the theorems ask for more than the bytes received.
    Runs of assembly count instructions; the theorems give the number, or say that
    some number is enough.  In the whole system the timer check gets more than
    [(n + 1)^2] rounds for [n] threads, since each thread has one timer.

    ** Not modelled

    The sources of the memory management unit and of the RAM file system are
    empty.  The kernel state and the state of the processor are two models: the
    theorems of [Context] and [Vector] relate the operations on them, but the
    continuation of a thread in the first is not computed from its stack in the
    second.  In the first a switch leaves the mask alone, where the instructions
    resume a thread with the mask of its saved [SPSR_EL1] ([Context]), until the
    caller of the switch sets it.  In the whole system interrupts occur between calls and while a thread
    waits, not inside a call; a data race of code that runs with interrupts enabled
    is not represented.  Its calls are those on semaphores, mutexes, events and
    mailboxes and the sleeps; message queues are not among them, since a receive
    wakes threads from the list of receivers where it should wake senders and a
    full queue faults ([MsgQueue]).  Its threads are those that exist at the start,
    since the end of a thread damages the heap ([Thread]), and its timers those of
    threads.

    ** Plan

    The start of threads as a call of the whole system, over the contract of the
    heap; the loop of the shell over a running console. *)

From Stdlib Require Import ZArith Lia.
From stdpp Require Export prelude gmap.

#[global] Open Scope Z_scope.

(** ** C integer types of [src/include/kernel/base_def.h]

    A C object of an integer type holds a mathematical integer; a store into
    it converts the value to the width of the type. *)

Declare Scope c_scope.
Delimit Scope c_scope with C.

Definition sk_uint (w x : Z) : Z := x mod 2 ^ w.
Definition sk_sint (w x : Z) : Z := (x + 2 ^ (w - 1)) mod 2 ^ w - 2 ^ (w - 1).

Notation u8 := (sk_uint 8).
Notation u16 := (sk_uint 16).
Notation u32 := (sk_uint 32).
Notation u64 := (sk_uint 64).
Notation s8 := (sk_sint 8).
Notation s16 := (sk_sint 16).
Notation s32 := (sk_sint 32).
Notation s64 := (sk_sint 64).

(** Bitwise complement, and, or, of the C operators. *)
Notation "~~ x" := (Z.lnot x) (at level 35, right associativity) : c_scope.
Infix "&" := Z.land (at level 40, left associativity) : c_scope.
Infix "|||" := Z.lor (at level 50, left associativity) : c_scope.

(** Error numbers and constants of [base_def.h]. *)
Definition SK_NULL : Z := 0.
Definition SK_EOK : Z := 0.
Definition SK_ERROR : Z := -1.
Definition SK_ETIMEOUT : Z := -2.
Definition SK_EFULL : Z := -3.
Definition SK_EEMPTY : Z := -4.
Definition SK_ENOMEM : Z := -5.
Definition SK_EBUSY : Z := -6.
Definition SK_EIO : Z := -7.
Definition SK_EINVAL : Z := -8.
Definition SK_NAME_MAX : Z := 16.

(** ** Hint databases and tactics *)

Create HintDb skernel.
Create HintDb width.

(** Split every boolean test of the goal into the proposition it decides. *)
Ltac case_bool :=
  repeat match goal with
  | |- context [Z.eqb ?a ?b] => destruct (Z.eqb_spec a b)
  | |- context [Z.ltb ?a ?b] => destruct (Z.ltb_spec a b)
  | |- context [Z.leb ?a ?b] => destruct (Z.leb_spec a b)
  end.

(** Invert the conjunctions and equations of the context, then try [lia]. *)
Ltac finish := naive_solver lia.

(** ** Integers at their width *)

Lemma uint_small w x : 0 <= x < 2 ^ w -> sk_uint w x = x.
Proof. intros. unfold sk_uint. by apply Z.mod_small. Qed.

Lemma uint_range w x : 0 <= w -> 0 <= sk_uint w x < 2 ^ w.
Proof. intros. apply Z.mod_pos_bound. lia. Qed.

Lemma sint_small w x :
  0 < w -> - 2 ^ (w - 1) <= x < 2 ^ (w - 1) -> sk_sint w x = x.
Proof.
  intros Hw Hx. unfold sk_sint.
  assert (2 ^ w = 2 * 2 ^ (w - 1)) as E.
  { replace w with (Z.succ (w - 1)) at 1 by lia. rewrite Z.pow_succ_r; lia. }
  rewrite Z.mod_small; lia.
Qed.

#[export] Hint Rewrite uint_small sint_small using lia : width.

(** ** Lists *)

(** Read of a C array at an index; out of range reads 0. *)
Definition znth (l : list Z) (i : Z) : Z := default 0 (l !! Z.to_nat i).

Lemma list_snoc_cases {A} (l : list A) : l = [] \/ exists l' x, l = l' ++ [x].
Proof. induction l using rev_ind; eauto. Qed.

Lemma NoDup_rotate {A} (x : A) l : NoDup (x :: l) <-> NoDup (l ++ [x]).
Proof. by rewrite Permutation_cons_append. Qed.

(** ** Bits *)

Lemma testbit_land_pow2 x i :
  0 <= i -> (Z.land x (2 ^ i) =? 0) = negb (Z.testbit x i).
Proof.
  intros Hi. destruct (Z.testbit x i) eqn:E; simpl.
  - apply Z.eqb_neq. intros H.
    assert (Z.testbit (Z.land x (2 ^ i)) i = false) as F by (by rewrite H, Z.bits_0).
    rewrite Z.land_spec, E, Z.pow2_bits_true in F; done.
  - apply Z.eqb_eq, Z.bits_inj'. intros j Hj. rewrite Z.land_spec, Z.bits_0.
    destruct (decide (i = j)) as [<-|]; [by rewrite E|].
    by rewrite Z.pow2_bits_false, andb_false_r.
Qed.
