(* ===== verification/BaseDef.v ===== *)
(** * The inline helpers of [src/include/kernel/base_def.h]

    Byte memory and the memory and string routines every component calls
    ([sk_memset], [sk_memcpy], [sk_memcmp], [sk_strcmp], [sk_strncmp],
    [sk_strcpy], [sk_strlen]), the alignment macros and the find-first-set
    routine [__sk_ffs] on which the scheduler's priority search rests. *)

From S2P Require Import Prelude.

Local Open Scope c_scope.

(** ** Definitions *)

(** Byte memory: a cell holds a value 0..255 ([char] is unsigned on aarch64). *)
Notation mem := (gmap Z Z).
Definition mget (m : mem) (a : Z) : Z := default 0 (m !! a).
Notation "m .[ a ]" := (mget m a) (at level 2, left associativity, format "m .[ a ]") : c_scope.

(** [SK_ALIGN], [SK_ALIGN_DOWN] and [SK_ISDIGIT] on 64-bit operands. *)
Definition SK_ALIGN (size align : Z) : Z := u64 (u64 (size + align - 1) & ~~ (align - 1)).
Definition SK_ALIGN_DOWN (size align : Z) : Z := u64 (size & ~~ (align - 1)).
Definition SK_ISDIGIT (c : Z) : bool := u32 (c - 48) <? 10.

(** [while(count--) *dst++ = c;] *)
Fixpoint memset_loop (count : nat) (dst c : Z) (m : mem) : mem :=
  match count with
  | O => m
  | S n => memset_loop n (dst + 1) c (<[dst := u8 c]> m)
  end.

Definition sk_memset (s c count : Z) (m : mem) : mem :=
  memset_loop (Z.to_nat count) s c m.

(** [while(count--) *d++ = *s++;] *)
Fixpoint memcpy_up (count : nat) (d s : Z) (m : mem) : mem :=
  match count with
  | O => m
  | S n => memcpy_up n (d + 1) (s + 1) (<[d := m.[s]]> m)
  end.

(** [for(len = count; len > 0; len--) d[len - 1] = s[len - 1];] *)
Fixpoint memcpy_down (len : nat) (d s : Z) (m : mem) : mem :=
  match len with
  | O => m
  | S n => memcpy_down n d s (<[d + Z.of_nat n := m.[s + Z.of_nat n]]> m)
  end.

Definition sk_memcpy (dst src count : Z) (m : mem) : mem :=
  if (dst <=? src) || (src + count <? dst)
  then memcpy_up (Z.to_nat count) dst src m
  else memcpy_down (Z.to_nat count) dst src m.

Fixpoint memcmp_loop (count : nat) (s1 s2 : Z) (m : mem) (ret : Z) : Z :=
  match count with
  | O => ret
  | S n => let ret := m.[s1] - m.[s2] in
           if negb (ret =? 0) then ret else memcmp_loop n (s1 + 1) (s2 + 1) m ret
  end.

Definition sk_memcmp (cs ct count : Z) (m : mem) : Z :=
  memcmp_loop (Z.to_nat count) cs ct m 0.

(** The difference of two characters is stored in an [sk_int8_t]. *)
Fixpoint strcmp_loop (count : nat) (st_1 st_2 : Z) (m : mem) (ret : Z) : Z :=
  match count with
  | O => ret
  | S n => let ret := s8 (m.[st_1] - m.[st_2]) in
           if negb (ret =? 0) || (m.[st_2] =? 0) then ret
           else strcmp_loop n (st_1 + 1) (st_2 + 1) m ret
  end.

Definition sk_strcmp (st_1 st_2 count : Z) (m : mem) : Z :=
  strcmp_loop (Z.to_nat count) st_1 st_2 m 0.

Fixpoint strncmp_loop (count : nat) (cs ct : Z) (m : mem) (ret : Z) : Z :=
  match count with
  | O => ret
  | S n => let ret := s8 (m.[cs] - m.[ct]) in
           if negb (ret =? 0) then ret
           else if (m.[cs] =? 0) || (m.[ct] =? 0) then ret
           else strncmp_loop n (cs + 1) (ct + 1) m ret
  end.

Definition sk_strncmp (cs ct count : Z) (m : mem) : Z :=
  strncmp_loop (Z.to_nat count) cs ct m 0.

(** [sk_strlen] and [sk_strcpy] run to the terminator; the fuel is the number
    of cells of the memory, which bounds the length of a string in it. *)
Fixpoint strlen_loop (fuel : nat) (sc : Z) (m : mem) : Z :=
  match fuel with
  | O => sc
  | S n => if m.[sc] =? 0 then sc else strlen_loop n (sc + 1) m
  end.

Definition sk_strlen (s : Z) (m : mem) : Z := strlen_loop (S (size m)) s m - s.

Fixpoint strcpy_loop (fuel : nat) (dest src : Z) (m : mem) : mem :=
  match fuel with
  | O => m
  | S n => if m.[src] =? 0 then <[dest := 0]> m
           else strcpy_loop n (dest + 1) (src + 1) (<[dest := m.[src]]> m)
  end.

Definition sk_strcpy (dest src : Z) (m : mem) : mem :=
  strcpy_loop (S (size m)) dest src m.

(** [__lowest_bit_bitmap]: sixteen rows that differ in their first entry. *)
Definition lowest_bit_row (hd : Z) : list Z := [hd; 0; 1; 0; 2; 0; 1; 0; 3; 0; 1; 0; 2; 0; 1; 0].

Definition lowest_bit_bitmap : list Z :=
  concat (lowest_bit_row <$> [0; 4; 5; 4; 6; 4; 5; 4; 7; 4; 5; 4; 6; 4; 5; 4]).

Definition lowest_bit (b : Z) : Z := znth lowest_bit_bitmap b.

Definition __sk_ffs (value : Z) : Z :=
  if value =? 0 then 0
  else if negb (value & 0xff =? 0) then lowest_bit (value & 0xff) + 1
  else if negb (value & 0xff00 =? 0) then lowest_bit (Z.shiftr (value & 0xff00) 8) + 9
  else if negb (value & 0xff0000 =? 0) then lowest_bit (Z.shiftr (value & 0xff0000) 16) + 17
  else lowest_bit (Z.shiftr (value & 0xff000000) 24) + 25.

(** The NUL-terminated string [l] stands at address [a]. *)
Definition cstr (m : mem) (a : Z) (l : list Z) : Prop :=
  Forall (fun c => 0 < c < 256) l /\
  (forall i c, l !! i = Some c -> m.[a + Z.of_nat i] = c) /\
  m.[a + Z.of_nat (length l)] = 0.

(** ** The memory routines *)

Lemma mget_insert m a b v : mget (<[a := v]> m) b = if decide (a = b) then v else m.[b].
Proof. unfold mget. rewrite lookup_insert. by case_decide. Qed.

Lemma memcpy_up_spec n d s m a :
  d <= s \/ s + Z.of_nat n <= d ->
  (memcpy_up n d s m).[a] =
    if decide (d <= a < d + Z.of_nat n) then m.[s + (a - d)] else m.[a].
Proof.
  revert d s m; induction n as [|n IH]; intros d s m Hd; simpl.
  { case_decide; [lia|done]. }
  rewrite IH by lia. rewrite !mget_insert.
  repeat case_decide; try lia; subst; f_equal; lia.
Qed.

Lemma memcpy_down_spec n d s m a :
  s <= d ->
  (memcpy_down n d s m).[a] =
    if decide (d <= a < d + Z.of_nat n) then m.[s + (a - d)] else m.[a].
Proof.
  revert m; induction n as [|n IH]; intros m Hd; simpl.
  { case_decide; [lia|done]. }
  rewrite IH by lia. rewrite !mget_insert.
  repeat case_decide; try lia; subst; f_equal; lia.
Qed.

(** [sk_memcpy] behaves as [memmove]: it copies the bytes the source region
    held before the call, whatever the overlap. *)
Lemma memcpy_spec dst src count m a :
  0 <= count ->
  (sk_memcpy dst src count m).[a] =
    if decide (dst <= a < dst + count) then m.[src + (a - dst)] else m.[a].
Proof.
  intros Hc. unfold sk_memcpy.
  destruct (Z.leb_spec dst src), (Z.ltb_spec (src + count) dst); simpl;
    rewrite ?memcpy_up_spec, ?memcpy_down_spec by lia; rewrite Z2Nat.id by lia; done.
Qed.

Lemma memset_loop_spec n d c m a :
  (memset_loop n d c m).[a] = if decide (d <= a < d + Z.of_nat n) then u8 c else m.[a].
Proof.
  revert d m; induction n as [|n IH]; intros d m; simpl.
  { case_decide; [lia|done]. }
  rewrite IH, !mget_insert. repeat case_decide; lia || done.
Qed.

Lemma memset_spec d c n m a :
  0 <= n ->
  (sk_memset d c n m).[a] = if decide (d <= a < d + n) then u8 c else m.[a].
Proof. intros. unfold sk_memset. rewrite memset_loop_spec, Z2Nat.id; done. Qed.

(** The [n] bytes that start at [a]. *)
Definition bytes (m : mem) (a n : Z) : list Z := (fun i => m.[a + i]) <$> seqZ 0 n.

Lemma length_bytes m a n : length (bytes m a n) = Z.to_nat n.
Proof. unfold bytes. by rewrite length_fmap, length_seqZ. Qed.

Lemma bytes_lookup m a n i :
  (Z.of_nat i < n) -> bytes m a n !! i = Some m.[a + Z.of_nat i].
Proof.
  intros. unfold bytes. rewrite list_lookup_fmap, lookup_seqZ_lt by lia. done.
Qed.

Lemma bytes_ext m m' a a' n :
  (forall i, 0 <= i < n -> m.[a + i] = m'.[a' + i]) -> bytes m a n = bytes m' a' n.
Proof.
  intros H. unfold bytes. apply list_fmap_ext. intros k x Hx.
  apply lookup_seqZ in Hx as [-> Hk]. apply H. lia.
Qed.

Lemma bytes_app m a n1 n2 :
  0 <= n1 -> 0 <= n2 -> bytes m a (n1 + n2) = bytes m a n1 ++ bytes m (a + n1) n2.
Proof.
  intros. unfold bytes. rewrite seqZ_app, fmap_app by lia. f_equal.
  rewrite !Z.add_0_l. apply list_eq. intros i.
  rewrite !list_lookup_fmap.
  destruct (decide (Z.of_nat i < n2)).
  - rewrite !lookup_seqZ_lt by lia. simpl. do 2 f_equal. lia.
  - rewrite !lookup_seqZ_ge by lia. done.
Qed.

(** ** Strings *)

Lemma cstr_nil m a : cstr m a [] <-> m.[a] = 0.
Proof. unfold cstr. simpl. rewrite Z.add_0_r. naive_solver. Qed.

Lemma cstr_cons m a c l :
  cstr m a (c :: l) <-> 0 < c < 256 /\ m.[a] = c /\ cstr m (a + 1) l.
Proof.
  unfold cstr. rewrite Forall_cons. split.
  - intros ((Hc & Hl) & Hi & He). split_and!; try lia; try done.
    + specialize (Hi O c eq_refl). simpl in Hi. by rewrite Z.add_0_r in Hi.
    + intros i x Hx. rewrite <- (Hi (S i) x Hx). f_equal. lia.
    + rewrite <- He. f_equal. simpl. lia.
  - intros (Hc & Ha & Hl & Hi & He). split_and!; try lia; try done.
    + intros [|i] x Hx; simpl in Hx.
      * simplify_eq. f_equal. simpl. lia.
      * rewrite <- (Hi i x Hx). f_equal. lia.
    + rewrite <- He. f_equal. simpl. lia.
Qed.

Lemma s8_diff_zero x y : 0 <= x < 256 -> 0 <= y < 256 -> (s8 (x - y) =? 0) = (x =? y).
Proof.
  intros. unfold sk_sint. change (2 ^ (8 - 1)) with 128. change (2 ^ 8) with 256.
  destruct (Z.eqb_spec x y) as [->|Hne].
  - rewrite Z.sub_diag. done.
  - apply Z.eqb_neq. intros Heq.
    pose proof (Z.div_mod (x - y + 128) 256 ltac:(lia)). lia.
Qed.

Ltac cstr_step :=
  repeat match goal with
  | H : cstr _ _ [] |- _ => apply cstr_nil in H
  | H : cstr _ _ (_ :: _) |- _ => apply cstr_cons in H as (? & ? & H)
  end.

(** Both string comparisons return 0 exactly when the first [n] characters of
    the two strings agree. *)
Section compare.
Context (m : mem).

Lemma strcmp_loop_zero n p q a b :
  cstr m p a -> cstr m q b ->
  (strcmp_loop n p q m 0 = 0 <-> take n a = take n b).
Proof.
  revert p q a b; induction n as [|n IH]; intros p q a b Ha Hb; [done|].
  simpl strcmp_loop. rewrite <- Z.eqb_eq.
  destruct a as [|c a], b as [|d b]; cstr_step; simpl take;
    rewrite s8_diff_zero by lia.
  - rewrite Ha, Hb. done.
  - destruct (Z.eqb_spec m.[p] m.[q]); [lia|]. simpl. rewrite s8_diff_zero by lia.
    case_bool; [lia|done].
  - destruct (Z.eqb_spec m.[p] m.[q]); [lia|]. simpl. rewrite s8_diff_zero by lia.
    case_bool; [lia|done].
  - destruct (Z.eqb_spec m.[p] m.[q]) as [E|]; simpl.
    + destruct (Z.eqb_spec m.[q] 0); [lia|]. rewrite E, Z.sub_diag, Z.eqb_eq.
      rewrite (IH (p + 1) (q + 1) a b) by done. split; [intros ->|]; congruence.
    + rewrite s8_diff_zero by lia. case_bool; [lia|]. split; [done|congruence].
Qed.

Lemma strncmp_loop_zero n p q a b :
  cstr m p a -> cstr m q b ->
  (strncmp_loop n p q m 0 = 0 <-> take n a = take n b).
Proof.
  revert p q a b; induction n as [|n IH]; intros p q a b Ha Hb; [done|].
  simpl strncmp_loop. rewrite <- Z.eqb_eq.
  destruct a as [|c a], b as [|d b]; cstr_step; simpl take;
    rewrite s8_diff_zero by lia.
  - rewrite Ha, Hb. done.
  - destruct (Z.eqb_spec m.[p] m.[q]); [lia|]. simpl. rewrite s8_diff_zero by lia.
    case_bool; [lia|done].
  - destruct (Z.eqb_spec m.[p] m.[q]); [lia|]. simpl. rewrite s8_diff_zero by lia.
    case_bool; [lia|done].
  - destruct (Z.eqb_spec m.[p] m.[q]) as [E|]; simpl.
    + destruct (Z.eqb_spec m.[p] 0), (Z.eqb_spec m.[q] 0); try lia. simpl.
      rewrite E, Z.sub_diag, Z.eqb_eq.
      rewrite (IH (p + 1) (q + 1) a b) by done. split; [intros ->|]; congruence.
    + rewrite s8_diff_zero by lia. case_bool; [lia|]. split; [done|congruence].
Qed.

Lemma strlen_loop_spec fuel s l :
  cstr m s l -> (length l < fuel)%nat -> strlen_loop fuel s m = s + Z.of_nat (length l).
Proof.
  revert s l; induction fuel as [|fuel IH]; intros s l Hl Hf; [lia|].
  simpl. destruct l as [|c l]; cstr_step; case_bool; simpl in *; try lia.
  rewrite (IH (s + 1) l) by (done || lia). lia.
Qed.

(** The cells of a string are cells of the memory, so the memory's size is
    fuel enough. *)
Lemma cstr_fits s l : cstr m s l -> (length l <= size m)%nat.
Proof.
  intros (Hl & Hi & _).
  assert (list_to_set ((fun i => s + i) <$> seqZ 0 (Z.of_nat (length l))) ⊆ dom m) as Hsub.
  { intros k (i & -> & Hin)%elem_of_list_to_set%list_elem_of_fmap.
    apply elem_of_seqZ in Hin.
    destruct (lookup_lt_is_Some_2 l (Z.to_nat i)) as [c Hc]; [lia|].
    pose proof (Hi _ _ Hc) as E. rewrite Z2Nat.id in E by lia.
    apply elem_of_dom. destruct (m !! (s + i)) eqn:F; [done|].
    rewrite Forall_lookup in Hl. specialize (Hl _ _ Hc). simpl in Hl.
    unfold mget in E. rewrite F in E. simpl in E. lia. }
  apply subseteq_size in Hsub. rewrite size_dom, size_list_to_set in Hsub.
  - by rewrite length_fmap, length_seqZ, Nat2Z.id in Hsub.
  - apply NoDup_fmap_2; [intros x y; lia | apply NoDup_seqZ].
Qed.

Lemma strlen_spec s l : cstr m s l -> sk_strlen s m = Z.of_nat (length l).
Proof.
  intros Hl. unfold sk_strlen. rewrite (strlen_loop_spec _ _ l); [lia|done|].
  pose proof (cstr_fits _ _ Hl). lia.
Qed.

End compare.

(** ** Find first set *)

Definition lowest_bit_ok (b : Z) : bool :=
  let k := lowest_bit b in
  (0 <=? k) && (k <? 8) && Z.testbit b k &&
  forallb (fun j => negb (Z.testbit b j)) (seqZ 0 k).

Lemma lowest_bit_spec b :
  0 < b < 256 ->
  0 <= lowest_bit b < 8 /\ Z.testbit b (lowest_bit b) = true /\
  forall j, 0 <= j < lowest_bit b -> Z.testbit b j = false.
Proof.
  intros Hb.
  assert (forallb lowest_bit_ok (seqZ 1 255) = true) as H by (vm_compute; reflexivity).
  rewrite forallb_forall in H. specialize (H b).
  rewrite <- list_elem_of_In, elem_of_seqZ in H. specialize (H ltac:(lia)).
  unfold lowest_bit_ok in H. rewrite !andb_true_iff, Z.leb_le, Z.ltb_lt in H.
  destruct H as [[[? ?] ?] H]. split_and!; try done. intros j Hj.
  rewrite forallb_forall in H. specialize (H j).
  rewrite <- list_elem_of_In, elem_of_seqZ in H. specialize (H ltac:(lia)).
  by apply negb_true_iff in H.
Qed.

(** The byte of [v] that the mask [0xff << k] selects. *)
Lemma byte_bits v k i :
  0 <= k -> 0 <= i < 8 ->
  Z.testbit (Z.shiftr (v & Z.shiftl 255 k) k) i = Z.testbit v (i + k).
Proof.
  intros. rewrite Z.shiftr_spec, Z.land_spec, Z.shiftl_spec by lia.
  replace (i + k - k) with i by lia. change 255 with (Z.ones 8).
  by rewrite Z.ones_spec_low, andb_true_r by lia.
Qed.

Lemma byte_range v k : 0 <= k -> 0 <= Z.shiftr (v & Z.shiftl 255 k) k < 256.
Proof.
  intros. rewrite Z.shiftr_land, Z.shiftr_shiftl_l, Z.sub_diag, Z.shiftl_0_r by lia.
  change 255 with (Z.ones 8). rewrite Z.land_ones by lia. by apply Z.mod_pos_bound.
Qed.

Lemma byte_zero v k j :
  0 <= k -> v & Z.shiftl 255 k = 0 -> k <= j < k + 8 -> Z.testbit v j = false.
Proof.
  intros Hk H Hj. replace j with (j - k + k) by lia.
  rewrite <- byte_bits by lia. by rewrite H, Z.shiftr_0_l, Z.bits_0.
Qed.

Lemma byte_nonzero v k :
  0 <= k -> v & Z.shiftl 255 k <> 0 -> 0 < Z.shiftr (v & Z.shiftl 255 k) k.
Proof.
  intros Hk H. pose proof (byte_range v k Hk).
  enough (Z.shiftr (v & Z.shiftl 255 k) k <> 0) by lia. intros E. apply H.
  apply Z.bits_inj'. intros j Hj. rewrite Z.bits_0, Z.land_spec.
  destruct (decide (k <= j < k + 8)).
  - rewrite <- Z.land_spec. replace j with (j - k + k) by lia.
    by rewrite <- Z.shiftr_spec, E, Z.bits_0 by lia.
  - rewrite Z.shiftl_spec by lia. change 255 with (Z.ones 8).
    destruct (decide (j < k)).
    + by rewrite (Z.testbit_neg_r _ (j - k)), andb_false_r by lia.
    + by rewrite Z.ones_spec_high, andb_false_r by lia.
Qed.

Definition lowest_set (v r : Z) : Prop :=
  Z.testbit v r = true /\ forall j, 0 <= j < r -> Z.testbit v j = false.

Lemma lowest_set_unique v r r' :
  0 <= r -> 0 <= r' -> lowest_set v r -> lowest_set v r' -> r = r'.
Proof.
  intros ?? [H1 H2] [H1' H2']. destruct (Z.lt_trichotomy r r') as [Hlt|[?|Hlt]]; [|done|].
  - by rewrite H2' in H1 by lia.
  - by rewrite H2 in H1' by lia.
Qed.

Lemma byte_lowest v k :
  0 <= k -> v & Z.shiftl 255 k <> 0 ->
  (forall j, 0 <= j < k -> Z.testbit v j = false) ->
  let r := lowest_bit (Z.shiftr (v & Z.shiftl 255 k) k) in
  0 <= r < 8 /\ lowest_set v (r + k).
Proof.
  intros Hk Hnz Hlow r. pose proof (byte_range v k Hk). pose proof (byte_nonzero v k Hk Hnz).
  destruct (lowest_bit_spec (Z.shiftr (v & Z.shiftl 255 k) k)) as (Hr & Ht & Hz); [lia|].
  fold r in Hr, Ht, Hz. rewrite byte_bits in Ht by lia. split_and!; try lia. split; [done|].
  intros j Hj. destruct (decide (j < k)); [apply Hlow; lia|].
  replace j with (j - k + k) by lia. rewrite <- byte_bits by lia. apply Hz. lia.
Qed.

Lemma bits32_zero v :
  - 2 ^ 31 <= v < 2 ^ 31 -> (forall j, 0 <= j < 32 -> Z.testbit v j = false) -> v = 0.
Proof.
  intros Hv Hb. assert (v mod 2 ^ 32 = 0) as E.
  { apply Z.bits_inj'. intros j Hj. rewrite Z.bits_0.
    destruct (decide (j < 32)).
    - rewrite Z.mod_pow2_bits_low by lia. apply Hb. lia.
    - by rewrite Z.mod_pow2_bits_high by lia. }
  apply Z.mod_divide in E as [q E]; lia.
Qed.

(** [__sk_ffs] numbers the lowest set bit of a 32-bit [int] from 1, and returns
    0 for 0. *)
Lemma ffs_lowest v :
  - 2 ^ 31 <= v < 2 ^ 31 -> v <> 0 ->
  1 <= __sk_ffs v <= 32 /\ lowest_set v (__sk_ffs v - 1).
Proof.
  intros Hv Hnz. unfold __sk_ffs. destruct (Z.eqb_spec v 0); [done|].
  change 0xff00 with (Z.shiftl 255 8). change 0xff0000 with (Z.shiftl 255 16).
  change 0xff000000 with (Z.shiftl 255 24).
  destruct (Z.eqb_spec (v & 0xff) 0) as [E0|N0]; simpl negb; cbv iota.
  2: { destruct (byte_lowest v 0) as [? Hl]; [lia|done|lia|].
       rewrite Z.shiftl_0_r, Z.shiftr_0_r, Z.add_0_r in *.
       rewrite Z.add_simpl_r. split; [lia|done]. }
  assert (forall j, 0 <= j < 8 -> Z.testbit v j = false) as L0.
  { intros j Hj. by apply (byte_zero v 0); [lia|rewrite Z.shiftl_0_r|lia]. }
  destruct (Z.eqb_spec (v & Z.shiftl 255 8) 0) as [E1|N1]; simpl negb; cbv iota.
  2: { destruct (byte_lowest v 8) as [? Hl]; [lia|done|done|].
       split; [lia|]. by replace (_ + 9 - 1) with (lowest_bit (Z.shiftr (v & Z.shiftl 255 8) 8) + 8) by lia. }
  assert (forall j, 0 <= j < 16 -> Z.testbit v j = false) as L1.
  { intros j Hj. destruct (decide (j < 8)); [apply L0; lia|].
    apply (byte_zero v 8); [lia|done|lia]. }
  destruct (Z.eqb_spec (v & Z.shiftl 255 16) 0) as [E2|N2]; simpl negb; cbv iota.
  2: { destruct (byte_lowest v 16) as [? Hl]; [lia|done|done|].
       split; [lia|]. by replace (_ + 17 - 1) with (lowest_bit (Z.shiftr (v & Z.shiftl 255 16) 16) + 16) by lia. }
  assert (forall j, 0 <= j < 24 -> Z.testbit v j = false) as L2.
  { intros j Hj. destruct (decide (j < 16)); [apply L1; lia|].
    apply (byte_zero v 16); [lia|done|lia]. }
  assert (v & Z.shiftl 255 24 <> 0) as N3.
  { intros E3. apply Hnz, bits32_zero; [lia|]. intros j Hj.
    destruct (decide (j < 24)); [apply L2; lia|]. apply (byte_zero v 24); [lia|done|lia]. }
  destruct (byte_lowest v 24) as [? Hl]; [lia|done|done|].
  split; [lia|]. by replace (_ + 25 - 1) with (lowest_bit (Z.shiftr (v & Z.shiftl 255 24) 24) + 24) by lia.
Qed.

(** ** Properties *)

(** C40: [sk_memcpy] is overlap safe.  For every position of the two regions the
    destination holds afterwards the bytes the source held before the call, and
    no byte outside the destination changes. *)
Theorem sk_memcpy_memmove dst src count m :
  0 <= count ->
  bytes (sk_memcpy dst src count m) dst count = bytes m src count /\
  forall a, ~ (dst <= a < dst + count) -> (sk_memcpy dst src count m).[a] = m.[a].
Proof.
  intros Hc. split.
  - apply bytes_ext. intros i Hi. rewrite memcpy_spec by done. case_decide; [|lia].
    f_equal. lia.
  - intros a Ha. rewrite memcpy_spec by done. by case_decide.
Qed.

Lemma sk_memcpy_memmove_witness :
  let m := list_to_map (zip (seqZ 10 6) [1; 2; 3; 4; 5; 6]) in
  bytes (sk_memcpy 12 10 4 m) 12 4 = bytes m 10 4.
Proof. intros m. apply (sk_memcpy_memmove 12 10 4 m). lia. Defined.

(** The two string comparisons decide equality of the compared prefixes:
    on NUL-terminated strings each returns 0 exactly when the first [count]
    characters agree, although the difference is stored in 8 bits. *)
Theorem sk_str_compare_zero m p q a b count :
  cstr m p a -> cstr m q b ->
  (sk_strcmp p q count m = 0 <-> take (Z.to_nat count) a = take (Z.to_nat count) b) /\
  (sk_strncmp p q count m = 0 <-> take (Z.to_nat count) a = take (Z.to_nat count) b).
Proof.
  intros Ha Hb. split; [by apply strcmp_loop_zero | by apply strncmp_loop_zero].
Qed.

Lemma sk_str_compare_zero_witness :
  let m : mem := list_to_map (zip (seqZ 0 7) [116; 111; 112; 0; 116; 111; 0]) in
  sk_strncmp 0 4 2 m = 0 /\ sk_strcmp 0 4 3 m <> 0.
Proof.
  intros m.
  assert (cstr m 0 [116; 111; 112]) as H1 by
    (rewrite !cstr_cons, cstr_nil; vm_compute; intuition congruence).
  assert (cstr m 4 [116; 111]) as H2 by
    (rewrite !cstr_cons, cstr_nil; vm_compute; intuition congruence).
  split.
  - apply (sk_str_compare_zero m 0 4 _ _ 2 H1 H2). reflexivity.
  - intros E. by apply (sk_str_compare_zero m 0 4 _ _ 3 H1 H2) in E.
Defined.

(** [__sk_ffs] returns 0 for 0 and otherwise one plus the index of the
    lowest set bit, for every 32-bit argument, the negative ones included. *)
Theorem sk_ffs_lowest_bit v :
  - 2 ^ 31 <= v < 2 ^ 31 ->
  if decide (v = 0) then __sk_ffs v = 0
  else 1 <= __sk_ffs v <= 32 /\
       forall r, 0 <= r -> lowest_set v r -> __sk_ffs v = r + 1.
Proof.
  intros Hv. case_decide as E; [by subst|].
  destruct (ffs_lowest v Hv E) as [Hr Hl]. split; [done|].
  intros r Hr' Hl'. rewrite (lowest_set_unique v r (__sk_ffs v - 1)); auto with lia.
Qed.

Lemma sk_ffs_lowest_bit_witness : __sk_ffs (- 2 ^ 31) = 31 + 1.
Proof.
  pose proof (sk_ffs_lowest_bit (- 2 ^ 31) ltac:(lia)) as H. simpl decide in H.
  destruct H as [_ H]. apply H; [lia|]. split; [reflexivity|].
  intros j Hj. change (- 2 ^ 31) with (- Z.shiftl 1 31).
  rewrite <- (Z.lnot_involutive (- Z.shiftl 1 31)), Z.lnot_spec by lia.
  change (Z.lnot (- Z.shiftl 1 31)) with (Z.ones 31). by rewrite Z.ones_spec_low by lia.
Defined.
