(* ===== verification/RingBuffer.v ===== *)
(** * The ring buffer of [src/common/ring_buffer.c]

    [struct sk_ring_buffer] keeps a read and a write position, each a 15-bit
    index with a 1-bit mirror flag, over a buffer of [buffer_size] bytes.  The
    operations are translated over the byte memory of [BaseDef]; [contents]
    reads the bytes in queue order, and the theorems show that the operations
    implement a bounded first-in-first-out queue. *)

From S2P Require Import Prelude BaseDef.

Local Open Scope c_scope.

(** ** State and operations *)

Record sk_ring_buffer := mk_rb {
  buffer : Z;
  read_mirror : Z;
  read_index : Z;
  write_mirror : Z;
  write_index : Z;
  buffer_size : Z
}.

Inductive sk_ring_buffer_state :=
  | SK_RING_BUFFER_EMPTY
  | SK_RING_BUFFER_FULL
  | SK_RING_BUFFER_HALFFULL.

#[export] Instance rb_state_eq_dec : EqDecision sk_ring_buffer_state.
Proof. solve_decision. Defined.

(** Stores into the bit fields: one bit for a mirror, 15 bits for an index. *)
Definition set_read (rb : sk_ring_buffer) (mirror index : Z) : sk_ring_buffer :=
  mk_rb (buffer rb) (sk_uint 1 mirror) (sk_uint 15 index)
        (write_mirror rb) (write_index rb) (buffer_size rb).

Definition set_write (rb : sk_ring_buffer) (mirror index : Z) : sk_ring_buffer :=
  mk_rb (buffer rb) (read_mirror rb) (read_index rb)
        (sk_uint 1 mirror) (sk_uint 15 index) (buffer_size rb).

Definition sk_get_ring_buffer_status (rb : sk_ring_buffer) : sk_ring_buffer_state :=
  if read_index rb =? write_index rb then
    if read_mirror rb =? write_mirror rb then SK_RING_BUFFER_EMPTY
    else SK_RING_BUFFER_FULL
  else SK_RING_BUFFER_HALFFULL.

Definition sk_ring_buffer_data_len (rb : sk_ring_buffer) : Z :=
  match sk_get_ring_buffer_status rb with
  | SK_RING_BUFFER_EMPTY => 0
  | SK_RING_BUFFER_FULL => u64 (buffer_size rb)
  | SK_RING_BUFFER_HALFFULL =>
      if read_index rb <? write_index rb
      then u64 (write_index rb - read_index rb)
      else u64 (buffer_size rb - (read_index rb - write_index rb))
  end.

Definition sk_ring_buffer_space_len (rb : sk_ring_buffer) : Z :=
  u64 (buffer_size rb - sk_ring_buffer_data_len rb).

Definition sk_ring_buffer_init (buf size : Z) : sk_ring_buffer :=
  mk_rb buf 0 0 0 0 (s16 (u16 size)).

(** The caller's [buf] and the buffer are addresses of the memory; each
    operation returns its result, the new descriptor and the new memory.  Lengths
    are of type [sk_uint16_t] and characters of type [sk_uint8_t]: the argument is
    converted when it is passed. *)
Definition sk_ring_buffer_put (rb : sk_ring_buffer) (buf len : Z) (m : mem)
  : Z * sk_ring_buffer * mem :=
  let len := u16 len in
  let size := u16 (sk_ring_buffer_space_len rb) in
  if size =? 0 then (0, rb, m)
  else
    let put_len := if size <? len then size else len in
    let side_len := u16 (buffer_size rb - write_index rb) in
    if put_len <? side_len then
      let m := sk_memcpy (buffer rb + write_index rb) buf put_len m in
      (put_len, set_write rb (write_mirror rb) (write_index rb + put_len), m)
    else
      let m := sk_memcpy (buffer rb + write_index rb) buf side_len m in
      let m := sk_memcpy (buffer rb) (buf + side_len) (put_len - side_len) m in
      (put_len, set_write rb (~~ write_mirror rb) (put_len - side_len), m).

Definition sk_ring_buffer_get (rb : sk_ring_buffer) (buf len : Z) (m : mem)
  : Z * sk_ring_buffer * mem :=
  let len := u16 len in
  let size := u16 (sk_ring_buffer_data_len rb) in
  if size =? 0 then (0, rb, m)
  else
    let get_len := if size <? len then size else len in
    let side_len := u16 (buffer_size rb - read_index rb) in
    if get_len <? side_len then
      let m := sk_memcpy buf (buffer rb + read_index rb) get_len m in
      (get_len, set_read rb (read_mirror rb) (read_index rb + get_len), m)
    else
      let m := sk_memcpy buf (buffer rb + read_index rb) side_len m in
      let m := sk_memcpy (buf + side_len) (buffer rb) (get_len - side_len) m in
      (get_len, set_read rb (~~ read_mirror rb) (get_len - side_len), m).

Definition sk_ring_buffer_putchar (rb : sk_ring_buffer) (data : Z) (m : mem)
  : Z * sk_ring_buffer * mem :=
  if sk_ring_buffer_space_len rb =? 0 then (0, rb, m)
  else
    let m := <[buffer rb + write_index rb := u8 data]> m in
    if write_index rb + 1 =? buffer_size rb
    then (1, set_write rb (~~ write_mirror rb) 0, m)
    else (1, set_write rb (write_mirror rb) (write_index rb + 1), m).

Definition sk_ring_buffer_getchar (rb : sk_ring_buffer) (data : Z) (m : mem)
  : Z * sk_ring_buffer * mem :=
  if sk_ring_buffer_data_len rb =? 0 then (0, rb, m)
  else
    let m := <[data := m.[buffer rb + read_index rb]]> m in
    if read_index rb + 1 =? buffer_size rb
    then (1, set_read rb (~~ read_mirror rb) 0, m)
    else (1, set_read rb (read_mirror rb) (read_index rb + 1), m).

Definition sk_ring_buffer_put_force (rb : sk_ring_buffer) (buf len : Z) (m : mem)
  : Z * sk_ring_buffer * mem :=
  let space_size := u16 (sk_ring_buffer_space_len rb) in
  let put_len := u16 len in
  let side_len := u16 (buffer_size rb - write_index rb) in
  if put_len <? side_len then
    let m := sk_memcpy (buffer rb + write_index rb) buf put_len m in
    (put_len, set_write rb (write_mirror rb) (write_index rb + put_len), m)
  else
    let m := sk_memcpy (buffer rb + write_index rb) buf side_len m in
    let m := sk_memcpy (buffer rb) (buf + side_len) (put_len - side_len) m in
    let rb := set_write rb (~~ write_mirror rb) (put_len - side_len) in
    let rb :=
      if space_size <? put_len then
        let mirror := if write_index rb <=? read_index rb
                      then ~~ read_mirror rb else read_mirror rb in
        set_read rb mirror (write_index rb)
      else rb in
    (put_len, rb, m).

Definition sk_ring_buffer_putchar_force (rb : sk_ring_buffer) (data : Z) (m : mem)
  : Z * sk_ring_buffer * mem :=
  let state := sk_get_ring_buffer_status rb in
  let m := <[buffer rb + write_index rb := u8 data]> m in
  if write_index rb + 1 =? buffer_size rb then
    let rb := set_write rb (~~ write_mirror rb) 0 in
    let rb :=
      if decide (state = SK_RING_BUFFER_FULL) then
        let rb := set_write rb (~~ write_mirror rb) (write_index rb) in
        set_read rb (read_mirror rb) (write_index rb)
      else rb in
    (1, rb, m)
  else
    let rb := set_write rb (write_mirror rb) (write_index rb + 1) in
    let rb :=
      if decide (state = SK_RING_BUFFER_FULL)
      then set_read rb (read_mirror rb) (write_index rb) else rb in
    (1, rb, m).

(** ** The abstraction *)

(** Well-formed: the size fits its 16-bit signed field, the indices lie inside
    the buffer, the mirrors are bits that agree exactly when the write position
    is on the same lap as the read position. *)
Record rb_wf (rb : sk_ring_buffer) : Prop := {
  wf_size : 0 < buffer_size rb < 2 ^ 15;
  wf_read : 0 <= read_index rb < buffer_size rb;
  wf_write : 0 <= write_index rb < buffer_size rb;
  wf_rmirror : 0 <= read_mirror rb < 2;
  wf_wmirror : 0 <= write_mirror rb < 2;
  wf_lap : (read_index rb < write_index rb -> read_mirror rb = write_mirror rb) /\
           (write_index rb < read_index rb -> read_mirror rb <> write_mirror rb)
}.

(** The address of the [i]-th byte after the read position. *)
Definition rb_cell (rb : sk_ring_buffer) (i : Z) : Z :=
  buffer rb + (read_index rb + i) mod buffer_size rb.

(** The queue the ring buffer stands for, oldest byte first. *)
Definition contents (m : mem) (rb : sk_ring_buffer) : list Z :=
  (fun i => m.[rb_cell rb i]) <$> seqZ 0 (sk_ring_buffer_data_len rb).

(** The buffer's cells and the caller's bytes do not overlap. *)
Definition apart (rb : sk_ring_buffer) (buf len : Z) : Prop :=
  buf + len <= buffer rb \/ buffer rb + buffer_size rb <= buf.

(** Outside the buffer the memory is unchanged. *)
Definition only_buffer (rb : sk_ring_buffer) (m m' : mem) : Prop :=
  forall a, ~ (buffer rb <= a < buffer rb + buffer_size rb) -> m'.[a] = m.[a].

(** ** Arithmetic of the positions *)

(** The index [x], at most one lap ahead, brought back into the buffer. *)
Definition wrap (n x : Z) : Z := if x <? n then x else x - n.

Lemma wrap_mod n x : 0 <= x < 2 * n -> x mod n = wrap n x.
Proof.
  intros. unfold wrap. case_bool; [apply Z.mod_small; lia|].
  symmetry. apply (Z.mod_unique_pos _ _ 1); lia.
Qed.

Lemma mirror_flip x : 0 <= x < 2 -> sk_uint 1 (~~ x) = 1 - x.
Proof. intros. assert (x = 0 \/ x = 1) as [-> | ->] by lia; done. Qed.

Ltac rb_unfold :=
  unfold sk_ring_buffer_space_len, sk_ring_buffer_data_len,
    sk_get_ring_buffer_status, set_write, set_read; simpl.

Ltac rb_widths :=
  repeat match goal with
  | |- context [sk_uint ?w ?x] => rewrite (uint_small w x) by lia
  | |- context [sk_uint 1 (~~ ?x)] => rewrite (mirror_flip x) by lia
  end.

Section positions.
Context (rb : sk_ring_buffer) (Hwf : rb_wf rb).

Lemma data_len_cases :
  (read_index rb = write_index rb /\ read_mirror rb = write_mirror rb /\
   sk_ring_buffer_data_len rb = 0) \/
  (read_index rb = write_index rb /\ read_mirror rb <> write_mirror rb /\
   sk_ring_buffer_data_len rb = buffer_size rb) \/
  (read_index rb < write_index rb /\ read_mirror rb = write_mirror rb /\
   sk_ring_buffer_data_len rb = write_index rb - read_index rb) \/
  (write_index rb < read_index rb /\ read_mirror rb <> write_mirror rb /\
   sk_ring_buffer_data_len rb = buffer_size rb - (read_index rb - write_index rb)).
Proof.
  destruct Hwf as [? ? ? ? ? [? ?]]. rb_unfold. case_bool; rb_widths; lia.
Qed.

Lemma data_len_range : 0 <= sk_ring_buffer_data_len rb <= buffer_size rb.
Proof. pose proof data_len_cases. destruct Hwf. lia. Qed.

Lemma space_len_eq :
  sk_ring_buffer_space_len rb = buffer_size rb - sk_ring_buffer_data_len rb.
Proof.
  pose proof data_len_range. destruct Hwf. unfold sk_ring_buffer_space_len. rb_widths. lia.
Qed.

Lemma length_contents m : Z.of_nat (length (contents m rb)) = sk_ring_buffer_data_len rb.
Proof.
  pose proof data_len_range. unfold contents. rewrite length_fmap, length_seqZ. lia.
Qed.

(** The cell [i] places after the end of the data is [i] places after the write
    position. *)
Lemma cell_write i :
  0 <= i -> sk_ring_buffer_data_len rb + i < buffer_size rb ->
  rb_cell rb (sk_ring_buffer_data_len rb + i)
  = buffer rb + wrap (buffer_size rb) (write_index rb + i).
Proof.
  intros. pose proof data_len_cases. destruct Hwf.
  unfold rb_cell. rewrite wrap_mod by lia. unfold wrap. case_bool; lia.
Qed.

Lemma cell_read i :
  0 <= i < buffer_size rb ->
  rb_cell rb i = buffer rb + wrap (buffer_size rb) (read_index rb + i).
Proof. intros. destruct Hwf. unfold rb_cell. rewrite wrap_mod; lia. Qed.

(** Distinct places are distinct cells. *)
Lemma wrap_inj x y :
  0 <= x < 2 * buffer_size rb -> 0 <= y < 2 * buffer_size rb ->
  Z.abs (x - y) < buffer_size rb ->
  wrap (buffer_size rb) x = wrap (buffer_size rb) y -> x = y.
Proof. unfold wrap. case_bool; lia. Qed.

End positions.

(** ** Writing *)

(** Advancing the write position by [k] places that hold [bs] appends [bs]. *)
Lemma contents_append m m' rb rb' (bs : list Z) :
  rb_wf rb ->
  buffer rb' = buffer rb -> buffer_size rb' = buffer_size rb ->
  read_index rb' = read_index rb ->
  sk_ring_buffer_data_len rb + Z.of_nat (length bs) <= buffer_size rb ->
  sk_ring_buffer_data_len rb' = sk_ring_buffer_data_len rb + Z.of_nat (length bs) ->
  (forall i c, bs !! i = Some c ->
     m'.[buffer rb + wrap (buffer_size rb) (write_index rb + Z.of_nat i)] = c) ->
  (forall i, 0 <= i < sk_ring_buffer_data_len rb -> m'.[rb_cell rb i] = m.[rb_cell rb i]) ->
  contents m' rb' = contents m rb ++ bs.
Proof.
  intros Hwf Hb Hn Hr Hroom Hlen Hnew Hold. unfold contents.
  pose proof (data_len_range rb Hwf).
  rewrite Hlen, seqZ_app, fmap_app by lia. f_equal.
  - apply list_fmap_ext. intros k x (-> & Hk)%lookup_seqZ. simpl.
    rewrite <- Hold by lia. unfold rb_cell. by rewrite Hb, Hn, Hr.
  - apply list_eq. intros i. rewrite list_lookup_fmap.
    destruct (bs !! i) as [c|] eqn:E.
    + pose proof (lookup_lt_Some _ _ _ E). rewrite lookup_seqZ_lt by lia. simpl.
      rewrite <- (Hnew _ _ E), <- cell_write by (done || lia).
      unfold rb_cell. by rewrite Hb, Hn, Hr.
    + apply lookup_ge_None in E. by rewrite lookup_seqZ_ge by lia.
Qed.

(** The one or two [sk_memcpy] calls of a write fill [k] places from [w] on. *)
Definition fill (b n w buf k : Z) (m : mem) : mem :=
  if k <? n - w then sk_memcpy (b + w) buf k m
  else sk_memcpy b (buf + (n - w)) (k - (n - w)) (sk_memcpy (b + w) buf (n - w) m).

Lemma fill_spec b n w buf k m a :
  0 <= w < n -> 0 <= k <= n -> buf + k <= b \/ b + n <= buf ->
  (fill b n w buf k m).[a] =
    if decide (b + w <= a < b + Z.min n (w + k)) then m.[buf + (a - (b + w))]
    else if decide (b <= a < b + (w + k - n)) then m.[buf + (a - b + (n - w))]
    else m.[a].
Proof.
  intros. unfold fill. case_bool; rewrite !memcpy_spec by lia;
    repeat case_decide; try lia; f_equal; lia.
Qed.

Lemma fill_new b n w buf k m i :
  0 <= w < n -> 0 <= k <= n -> buf + k <= b \/ b + n <= buf -> 0 <= i < k ->
  (fill b n w buf k m).[b + wrap n (w + i)] = m.[buf + i].
Proof.
  intros. rewrite fill_spec by lia. unfold wrap.
  case_bool; repeat case_decide; try lia; f_equal; lia.
Qed.

Lemma fill_other b n w buf k m a :
  0 <= w < n -> 0 <= k <= n -> buf + k <= b \/ b + n <= buf ->
  (forall i, 0 <= i < k -> a <> b + wrap n (w + i)) ->
  (fill b n w buf k m).[a] = m.[a].
Proof.
  intros ??? Ha. rewrite fill_spec by lia. unfold wrap in Ha.
  case_decide; [|case_decide; [|done]].
  - specialize (Ha (a - (b + w)) ltac:(lia)). revert Ha. case_bool; lia.
  - specialize (Ha (a - b + (n - w)) ltac:(lia)). revert Ha. case_bool; lia.
Qed.

(** The positions after [k] bytes are written or read. *)
Definition advance_write (rb : sk_ring_buffer) (k : Z) : sk_ring_buffer :=
  if k <? buffer_size rb - write_index rb
  then set_write rb (write_mirror rb) (write_index rb + k)
  else set_write rb (~~ write_mirror rb) (k - (buffer_size rb - write_index rb)).

Definition advance_read (rb : sk_ring_buffer) (k : Z) : sk_ring_buffer :=
  if k <? buffer_size rb - read_index rb
  then set_read rb (read_mirror rb) (read_index rb + k)
  else set_read rb (~~ read_mirror rb) (k - (buffer_size rb - read_index rb)).

Lemma advance_write_spec rb k :
  rb_wf rb -> 0 <= k <= sk_ring_buffer_space_len rb ->
  rb_wf (advance_write rb k) /\
  sk_ring_buffer_data_len (advance_write rb k) = sk_ring_buffer_data_len rb + k.
Proof.
  intros Hwf Hk. rewrite (space_len_eq rb Hwf) in Hk.
  pose proof (data_len_cases rb Hwf) as Hc. destruct Hwf as [? ? ? ? ? [? ?]].
  assert (rb_wf (advance_write rb k)) as Hwf'.
  { unfold advance_write, set_write. case_bool; rb_widths; split; simpl; lia. }
  split; [done|]. pose proof (data_len_cases _ Hwf') as Hc'. revert Hc'.
  unfold advance_write, set_write. case_bool; rb_widths; simpl; intros Hc';
    destruct Hc as [Hc|[Hc|[Hc|Hc]]], Hc' as [Hc'|[Hc'|[Hc'|Hc']]]; lia.
Qed.

Lemma advance_read_spec rb k :
  rb_wf rb -> 0 <= k <= sk_ring_buffer_data_len rb ->
  rb_wf (advance_read rb k) /\
  sk_ring_buffer_data_len (advance_read rb k) = sk_ring_buffer_data_len rb - k.
Proof.
  intros Hwf Hk.
  pose proof (data_len_cases rb Hwf) as Hc. destruct Hwf as [? ? ? ? ? [? ?]].
  assert (rb_wf (advance_read rb k)) as Hwf'.
  { unfold advance_read, set_read. case_bool; rb_widths; split; simpl; lia. }
  split; [done|]. pose proof (data_len_cases _ Hwf') as Hc'. revert Hc'.
  unfold advance_read, set_read. case_bool; rb_widths; simpl; intros Hc';
    destruct Hc as [Hc|[Hc|[Hc|Hc]]], Hc' as [Hc'|[Hc'|[Hc'|Hc']]]; lia.
Qed.

Lemma advance_write_fields rb k :
  buffer (advance_write rb k) = buffer rb /\
  buffer_size (advance_write rb k) = buffer_size rb /\
  read_index (advance_write rb k) = read_index rb.
Proof. unfold advance_write, set_write. by case_bool. Qed.

(** The copies of [sk_ring_buffer_get] into the caller's buffer. *)
Definition drain (b n r buf k : Z) (m : mem) : mem :=
  if k <? n - r then sk_memcpy buf (b + r) k m
  else sk_memcpy (buf + (n - r)) b (k - (n - r)) (sk_memcpy buf (b + r) (n - r) m).

Lemma drain_spec b n r buf k m a :
  0 <= r < n -> 0 <= k <= n -> buf + k <= b \/ b + n <= buf ->
  (drain b n r buf k m).[a] =
    if decide (buf <= a < buf + k) then m.[b + wrap n (r + (a - buf))] else m.[a].
Proof.
  intros. unfold drain, wrap. case_bool; rewrite !memcpy_spec by lia;
    repeat case_decide; try lia; f_equal; lia.
Qed.

Lemma memcpy_zero d s m : sk_memcpy d s 0 m = m.
Proof. unfold sk_memcpy. simpl. by destruct (_ || _). Qed.

Lemma put_eq rb buf len m :
  rb_wf rb ->
  let k := Z.min (u16 len) (sk_ring_buffer_space_len rb) in
  sk_ring_buffer_put rb buf len m =
    (k, if sk_ring_buffer_space_len rb =? 0 then rb else advance_write rb k,
     fill (buffer rb) (buffer_size rb) (write_index rb) buf k m).
Proof.
  intros Hwf k. pose proof (data_len_range rb Hwf). pose proof (space_len_eq rb Hwf).
  pose proof (uint_range 16 len ltac:(done)).
  destruct Hwf. unfold sk_ring_buffer_put, advance_write, fill, k. set (n := u16 len) in *.
  rewrite !(uint_small 16) by lia. clearbody n. clear len k. rename n into len.
  replace (if sk_ring_buffer_space_len rb <? len then sk_ring_buffer_space_len rb else len)
    with (Z.min len (sk_ring_buffer_space_len rb)) by (case_bool; lia).
  destruct (Z.eqb_spec (sk_ring_buffer_space_len rb) 0) as [->|E].
  - rewrite Z.min_r by lia. rewrite memcpy_zero. case_bool; done || lia.
  - by destruct (_ <? _).
Qed.

Lemma get_eq rb buf len m :
  rb_wf rb ->
  let k := Z.min (u16 len) (sk_ring_buffer_data_len rb) in
  sk_ring_buffer_get rb buf len m =
    (k, if sk_ring_buffer_data_len rb =? 0 then rb else advance_read rb k,
     drain (buffer rb) (buffer_size rb) (read_index rb) buf k m).
Proof.
  intros Hwf k. pose proof (data_len_range rb Hwf). pose proof (uint_range 16 len ltac:(done)).
  destruct Hwf. unfold sk_ring_buffer_get, advance_read, drain, k. set (n := u16 len) in *.
  rewrite !(uint_small 16) by lia. clearbody n. clear len k. rename n into len.
  replace (if sk_ring_buffer_data_len rb <? len then sk_ring_buffer_data_len rb else len)
    with (Z.min len (sk_ring_buffer_data_len rb)) by (case_bool; lia).
  destruct (Z.eqb_spec (sk_ring_buffer_data_len rb) 0) as [->|E].
  - rewrite Z.min_r by lia. rewrite memcpy_zero. case_bool; done || lia.
  - by destruct (_ <? _).
Qed.

(** Moving the read position [k] places forward drops the [k] oldest bytes. *)
Lemma contents_drop m m' rb k :
  rb_wf rb -> 0 <= k <= sk_ring_buffer_data_len rb ->
  (forall i, 0 <= i < sk_ring_buffer_data_len rb -> m'.[rb_cell rb i] = m.[rb_cell rb i]) ->
  contents m' (advance_read rb k) = drop (Z.to_nat k) (contents m rb).
Proof.
  intros Hwf Hk Hm. pose proof (data_len_range rb Hwf).
  destruct (advance_read_spec rb k Hwf Hk) as [Hwf' Hlen].
  apply list_eq. intros i. rewrite lookup_drop. unfold contents.
  rewrite !list_lookup_fmap, Hlen.
  destruct (decide (Z.of_nat i < sk_ring_buffer_data_len rb - k)).
  - rewrite !lookup_seqZ_lt by lia. simpl. f_equal. rewrite <- Hm by lia. f_equal.
    assert (buffer_size (advance_read rb k) = buffer_size rb) as Hn
      by (unfold advance_read; by case_bool).
    rewrite (cell_read rb), (cell_read (advance_read rb k)) by (done || lia).
    destruct Hwf. unfold advance_read, set_read, wrap.
    case_bool; simpl in *; rewrite ?(uint_small 15) in * by lia; lia.
  - rewrite !lookup_seqZ_ge by lia. done.
Qed.

(** ** The operations on the queue *)

Section operations.
Context (rb : sk_ring_buffer) (m : mem) (Hwf : rb_wf rb).

Lemma old_cell_apart i j :
  0 <= i < sk_ring_buffer_data_len rb -> 0 <= j ->
  sk_ring_buffer_data_len rb + j < buffer_size rb ->
  rb_cell rb i <> buffer rb + wrap (buffer_size rb) (write_index rb + j).
Proof.
  intros. rewrite <- cell_write, !cell_read by (done || lia).
  pose proof (data_len_range rb Hwf). destruct Hwf. intros E.
  assert (read_index rb + i = read_index rb + (sk_ring_buffer_data_len rb + j)); [|lia].
  apply (wrap_inj rb); lia.
Qed.

Lemma cell_in_buffer i :
  0 <= i < buffer_size rb -> buffer rb <= rb_cell rb i < buffer rb + buffer_size rb.
Proof. intros. rewrite cell_read by done. destruct Hwf. unfold wrap. case_bool; lia. Qed.

Lemma put_spec buf len :
  apart rb buf (u16 len) ->
  let '(n, rb', m') := sk_ring_buffer_put rb buf len m in
  n = Z.min (u16 len) (sk_ring_buffer_space_len rb) /\ rb_wf rb' /\
  buffer rb' = buffer rb /\ buffer_size rb' = buffer_size rb /\
  contents m' rb' = contents m rb ++ bytes m buf n /\ only_buffer rb m m'.
Proof.
  intros Hap. rewrite put_eq by done. cbv zeta. pose proof (uint_range 16 len ltac:(done)).
  set (k := Z.min (u16 len) (sk_ring_buffer_space_len rb)).
  pose proof (space_len_eq rb Hwf). pose proof (data_len_range rb Hwf).
  assert (0 <= k <= sk_ring_buffer_space_len rb) by lia.
  destruct (advance_write_spec rb k Hwf ltac:(lia)) as [Hwf' Hdl].
  destruct (advance_write_fields rb k) as (Hb & Hn & Hr).
  assert (buf + k <= buffer rb \/ buffer rb + buffer_size rb <= buf)
    by (unfold apart in Hap; lia).
  assert (only_buffer rb m
    (fill (buffer rb) (buffer_size rb) (write_index rb) buf k m)) as Hob.
  { intros a Ha. destruct Hwf. apply fill_other; try lia.
    intros i Hi ->. apply Ha. unfold wrap. case_bool; lia. }
  destruct (Z.eqb_spec (sk_ring_buffer_space_len rb) 0) as [E|E].
  - assert (k = 0) as -> by lia. split_and!; try done.
    unfold fill. rewrite !memcpy_zero. destruct Hwf.
    destruct (Z.ltb_spec 0 (buffer_size rb - write_index rb)); [|lia]. by rewrite app_nil_r.
  - split_and!; try done. pose proof (length_bytes m buf k) as Hl.
    destruct Hwf. apply contents_append; rewrite ?Hl; try done; try lia.
    + intros i c Hc. pose proof (lookup_lt_Some _ _ _ Hc).
      rewrite fill_new by lia. rewrite bytes_lookup in Hc by lia. by simplify_eq.
    + intros i Hi. apply fill_other; try lia. intros j Hj. apply old_cell_apart; lia.
Qed.

Lemma get_spec buf len :
  apart rb buf (u16 len) ->
  let '(n, rb', m') := sk_ring_buffer_get rb buf len m in
  n = Z.min (u16 len) (sk_ring_buffer_data_len rb) /\ rb_wf rb' /\
  buffer rb' = buffer rb /\ buffer_size rb' = buffer_size rb /\
  bytes m' buf n = take (Z.to_nat n) (contents m rb) /\
  contents m' rb' = drop (Z.to_nat n) (contents m rb) /\
  forall a, ~ (buf <= a < buf + n) -> m'.[a] = m.[a].
Proof.
  intros Hap. rewrite get_eq by done. cbv zeta. pose proof (uint_range 16 len ltac:(done)).
  set (k := Z.min (u16 len) (sk_ring_buffer_data_len rb)).
  pose proof (data_len_range rb Hwf).
  assert (0 <= k <= sk_ring_buffer_data_len rb) by lia.
  assert (buf + k <= buffer rb \/ buffer rb + buffer_size rb <= buf)
    by (unfold apart in Hap; lia).
  set (m' := drain _ _ _ _ _ _).
  assert (forall a, m'.[a] = if decide (buf <= a < buf + k) then
    m.[buffer rb + wrap (buffer_size rb) (read_index rb + (a - buf))] else m.[a]) as Hm.
  { intros a. destruct Hwf. apply drain_spec; lia. }
  assert (forall i, 0 <= i < sk_ring_buffer_data_len rb ->
    m'.[rb_cell rb i] = m.[rb_cell rb i]) as Hold.
  { intros i Hi. rewrite Hm. case_decide; [|done].
    pose proof (cell_in_buffer i ltac:(lia)). lia. }
  assert (bytes m' buf k = take (Z.to_nat k) (contents m rb)) as Hbytes.
  { apply list_eq. intros i. destruct (decide (Z.of_nat i < k)).
    - rewrite bytes_lookup, lookup_take_lt by lia. unfold contents.
      rewrite list_lookup_fmap, lookup_seqZ_lt by lia. simpl. f_equal.
      rewrite Hm, cell_read by (done || lia). case_decide; [|lia]. do 3 f_equal. lia.
    - rewrite !lookup_ge_None_2; rewrite ?length_take, ?length_bytes; lia || done. }
  assert (forall a, ~ (buf <= a < buf + k) -> m'.[a] = m.[a]) as Hframe.
  { intros a Ha. rewrite Hm. by case_decide. }
  pose proof (contents_drop m m' rb k Hwf ltac:(lia) Hold) as Hdrop.
  destruct (Z.eqb_spec (sk_ring_buffer_data_len rb) 0) as [E|E].
  - assert (k = 0) as Ek by lia. rewrite Ek in *. split_and!; try done.
    simpl. apply list_fmap_ext. intros ? x (-> & Hx)%lookup_seqZ. simpl. rewrite Hold; lia.
  - destruct (advance_read_spec rb k Hwf ltac:(lia)) as [Hwf' Hdl].
    split_and!; try done; unfold advance_read; by case_bool.
Qed.

Lemma insert_append data :
  0 < sk_ring_buffer_space_len rb ->
  let rb' := advance_write rb 1 in
  let m' := <[buffer rb + write_index rb := data]> m in
  rb_wf rb' /\ contents m' rb' = contents m rb ++ [data].
Proof.
  intros Hsp rb' m'. pose proof (space_len_eq rb Hwf). pose proof (data_len_range rb Hwf).
  destruct (advance_write_spec rb 1 Hwf ltac:(lia)) as [Hwf' Hdl].
  destruct (advance_write_fields rb 1) as (Hb & Hn & Hr). split; [done|].
  apply contents_append; simpl; try done; try lia.
  - intros [|i] c [=<-]. unfold m'. rewrite mget_insert, decide_True; [done|].
    destruct Hwf. unfold wrap. case_bool; lia.
  - intros i Hi. unfold m'. rewrite mget_insert, decide_False; [done|].
    intros E. apply (old_cell_apart i 0 Hi); [lia..|].
    rewrite <- E. destruct Hwf. unfold wrap. case_bool; lia.
Qed.

Lemma putchar_spec data :
  let '(n, rb', m') := sk_ring_buffer_putchar rb data m in
  n = Z.min 1 (sk_ring_buffer_space_len rb) /\ rb_wf rb' /\
  buffer rb' = buffer rb /\ buffer_size rb' = buffer_size rb /\
  contents m' rb' = contents m rb ++ (if n =? 0 then [] else [u8 data]) /\
  only_buffer rb m m'.
Proof.
  pose proof (space_len_eq rb Hwf). pose proof (data_len_range rb Hwf).
  unfold sk_ring_buffer_putchar. destruct (Z.eqb_spec (sk_ring_buffer_space_len rb) 0) as [->|].
  { rewrite app_nil_r. split_and!; done || lia. }
  destruct (insert_append (u8 data) ltac:(lia)) as [Hwf' Hc].
  assert (only_buffer rb m (<[buffer rb + write_index rb := u8 data]> m)) as Hob.
  { intros a Ha. rewrite mget_insert, decide_False; [done|]. intros <-. destruct Hwf. lia. }
  revert Hwf' Hc. unfold advance_write. destruct Hwf.
  destruct (Z.ltb_spec 1 (buffer_size rb - write_index rb)), (Z.eqb_spec (write_index rb + 1) (buffer_size rb)); try lia;
    intros Hwf' Hc; split_and!; try done; try lia.
  all: by replace (1 - (buffer_size rb - write_index rb)) with 0 in * by lia.
Qed.

Lemma getchar_spec data :
  apart rb data 1 ->
  let '(n, rb', m') := sk_ring_buffer_getchar rb data m in
  n = Z.min 1 (sk_ring_buffer_data_len rb) /\ rb_wf rb' /\
  buffer rb' = buffer rb /\ buffer_size rb' = buffer_size rb /\
  bytes m' data n = take (Z.to_nat n) (contents m rb) /\
  contents m' rb' = drop (Z.to_nat n) (contents m rb) /\
  forall a, a <> data -> m'.[a] = m.[a].
Proof.
  intros Hap. pose proof (data_len_range rb Hwf).
  unfold sk_ring_buffer_getchar. destruct (Z.eqb_spec (sk_ring_buffer_data_len rb) 0) as [->|].
  { split_and!; done || lia. }
  destruct (advance_read_spec rb 1 Hwf ltac:(lia)) as [Hwf' Hdl].
  set (m' := <[data := _]> m).
  assert (forall i, 0 <= i < sk_ring_buffer_data_len rb ->
    m'.[rb_cell rb i] = m.[rb_cell rb i]) as Hold.
  { intros i Hi. unfold m'. rewrite mget_insert, decide_False; [done|].
    pose proof (cell_in_buffer i ltac:(lia)). unfold apart in Hap. lia. }
  pose proof (contents_drop m m' rb 1 Hwf ltac:(lia) Hold) as Hdrop.
  assert (bytes m' data 1 = take 1 (contents m rb)) as Hb.
  { unfold bytes, contents. destruct Hwf.
    replace (sk_ring_buffer_data_len rb) with (1 + (sk_ring_buffer_data_len rb - 1)) by lia.
    rewrite seqZ_app by lia. simpl. f_equal. unfold m'.
    rewrite mget_insert, decide_True by lia. f_equal. rewrite cell_read by (done || lia).
    unfold wrap. case_bool; lia. }
  assert (forall a, a <> data -> m'.[a] = m.[a]) as Hframe.
  { intros a Ha. unfold m'. rewrite mget_insert, decide_False; done. }
  revert Hwf' Hdrop. unfold advance_read. destruct Hwf.
  destruct (Z.ltb_spec 1 (buffer_size rb - read_index rb)), (Z.eqb_spec (read_index rb + 1) (buffer_size rb)); try lia;
    intros Hwf' Hdrop; split_and!; try done; try lia.
  all: by replace (1 - (buffer_size rb - read_index rb)) with 0 in * by lia.
Qed.

End operations.

Lemma contents_same m rb rb' :
  buffer rb' = buffer rb -> buffer_size rb' = buffer_size rb ->
  read_index rb' = read_index rb ->
  sk_ring_buffer_data_len rb' = sk_ring_buffer_data_len rb ->
  contents m rb' = contents m rb.
Proof. intros E1 E2 E3 E4. unfold contents, rb_cell. by rewrite E1, E2, E3, E4. Qed.

Lemma status_full rb :
  rb_wf rb ->
  (sk_get_ring_buffer_status rb = SK_RING_BUFFER_FULL <-> sk_ring_buffer_space_len rb = 0).
Proof.
  intros Hwf. rewrite (space_len_eq rb Hwf). pose proof (data_len_cases rb Hwf) as Hc.
  destruct Hwf. unfold sk_get_ring_buffer_status. case_bool; intuition (done || lia).
Qed.

(** When the buffer is full the two positions advance together: the mirrors
    keep differing and the oldest byte is overwritten. *)
Lemma putchar_force_full m rb data :
  rb_wf rb -> sk_ring_buffer_space_len rb = 0 ->
  let '(n, rb', m') := sk_ring_buffer_putchar_force rb data m in
  n = 1 /\ rb_wf rb' /\ buffer rb' = buffer rb /\ buffer_size rb' = buffer_size rb /\
  contents m' rb' = drop 1 (contents m rb) ++ [u8 data].
Proof.
  intros Hwf Hsp. pose proof (proj2 (status_full rb Hwf) Hsp) as Hst.
  rewrite (space_len_eq rb Hwf) in Hsp.
  pose proof (data_len_cases rb Hwf) as Hc.
  destruct (advance_read_spec rb 1 Hwf) as [Hwf1 Hdl1]; [destruct Hwf; lia|].
  set (rb1 := advance_read rb 1) in *.
  assert (buffer rb1 = buffer rb /\ buffer_size rb1 = buffer_size rb /\
          write_index rb1 = write_index rb /\
          read_index rb1 = wrap (buffer_size rb) (read_index rb + 1)) as (E1 & E2 & E3 & E4).
  { destruct Hwf. unfold rb1, advance_read, set_read, wrap.
    case_bool; simpl; rewrite ?uint_small; lia. }
  destruct (insert_append rb1 m Hwf1 (u8 data)) as [Hwf2 Hc2].
  { rewrite (space_len_eq rb1 Hwf1). lia. }
  rewrite E1, E3 in Hc2.
  assert (contents m rb1 = drop 1 (contents m rb)) as Hd.
  { apply contents_drop; [done|destruct Hwf; lia|done]. }
  rewrite Hd in Hc2.
  destruct (advance_write_spec rb1 1 Hwf1) as [_ Hdl2].
  { rewrite (space_len_eq rb1 Hwf1). lia. }
  destruct (advance_write_fields rb1 1) as (F1 & F2 & F3).
  unfold sk_ring_buffer_putchar_force. rewrite Hst. simpl decide. cbv iota zeta.
  destruct (Z.eqb_spec (write_index rb + 1) (buffer_size rb)) as [Ew|Ew].
  all: destruct Hwf; unfold set_read, set_write; simpl; rb_widths.
  all: match goal with |- 1 = 1 /\ rb_wf ?r /\ _ => assert (rb_wf r) as Hwf' by (split; simpl; lia) end.
  all: split_and!; try done; rewrite <- Hc2; change (Z.to_nat 1) with 1%nat in *.
  all: apply contents_same; simpl; try congruence.
  all: try (rewrite F3, E4; unfold wrap; case_bool; lia).
  all: rewrite Hdl2, Hdl1; pose proof (data_len_cases _ Hwf') as Hc'; simpl in Hc'; lia.
Qed.

Lemma putchar_force_room m rb data :
  rb_wf rb -> 0 < sk_ring_buffer_space_len rb ->
  sk_ring_buffer_putchar_force rb data m = sk_ring_buffer_putchar rb data m.
Proof.
  intros Hwf Hsp. unfold sk_ring_buffer_putchar_force, sk_ring_buffer_putchar.
  destruct (Z.eqb_spec (sk_ring_buffer_space_len rb) 0); [lia|].
  rewrite !decide_False; [done|..]; rewrite status_full by done; lia.
Qed.

(** ** Specification: a bounded queue, and the refinement *)

Inductive rb_op :=
  | OpPut (data : list Z)
  | OpGet (len : Z)
  | OpPutchar (c : Z)
  | OpGetchar
  | OpPutcharForce (c : Z).

(** What a caller observes of an operation: its result and the bytes read. *)
Definition rb_out : Type := Z * list Z.

(** The queue of at most [cap] bytes.  A call passes 16 bits of a length and eight
    bits of a character: a block of 65536 bytes is an empty one. *)
Definition fifo_op (cap : Z) (q : list Z) (op : rb_op) : rb_out * list Z :=
  let len := Z.of_nat (length q) in
  match op with
  | OpPut data =>
      let n := Z.min (u16 (Z.of_nat (length data))) (cap - len) in
      ((n, []), q ++ take (Z.to_nat n) (u8 <$> data))
  | OpGet k =>
      let n := Z.min (u16 k) len in ((n, take (Z.to_nat n) q), drop (Z.to_nat n) q)
  | OpPutchar c => if len <? cap then ((1, []), q ++ [u8 c]) else ((0, []), q)
  | OpGetchar =>
      let n := Z.min 1 len in ((n, take (Z.to_nat n) q), drop (Z.to_nat n) q)
  | OpPutcharForce c =>
      if len <? cap then ((1, []), q ++ [u8 c]) else ((1, []), drop 1 q ++ [u8 c])
  end.

(** A caller stores the bytes it sends in an array at its own address [ubuf], and
    reads there the bytes it receives. *)
Fixpoint store_bytes (a : Z) (l : list Z) (m : mem) : mem :=
  match l with
  | [] => m
  | c :: l => store_bytes (a + 1) l (<[a := c]> m)
  end.

Definition ring_op (ubuf : Z) (st : sk_ring_buffer * mem) (op : rb_op)
  : rb_out * (sk_ring_buffer * mem) :=
  let '(rb, m) := st in
  match op with
  | OpPut data =>
      let '(n, rb, m) :=
        sk_ring_buffer_put rb ubuf (Z.of_nat (length data)) (store_bytes ubuf (u8 <$> data) m) in
      ((n, []), (rb, m))
  | OpGet k =>
      let '(n, rb, m) := sk_ring_buffer_get rb ubuf k m in
      ((n, bytes m ubuf n), (rb, m))
  | OpPutchar c =>
      let '(n, rb, m) := sk_ring_buffer_putchar rb c m in ((n, []), (rb, m))
  | OpGetchar =>
      let '(n, rb, m) := sk_ring_buffer_getchar rb ubuf m in
      ((n, bytes m ubuf n), (rb, m))
  | OpPutcharForce c =>
      let '(n, rb, m) := sk_ring_buffer_putchar_force rb c m in ((n, []), (rb, m))
  end.

(** A sequence of operations, with everything its caller observes. *)
Fixpoint run_ops {S} (step : S -> rb_op -> rb_out * S) (st : S) (ops : list rb_op)
  : list rb_out * S :=
  match ops with
  | [] => ([], st)
  | op :: ops =>
      let '(o, st) := step st op in
      let '(os, st) := run_ops step st ops in (o :: os, st)
  end.

(** The array of the caller holds [cap] bytes. *)
Definition op_fits (cap : Z) (op : rb_op) : Prop :=
  match op with
  | OpPut data => Z.of_nat (length data) <= cap
  | OpGet k => u16 k <= cap
  | _ => True
  end.

Lemma store_bytes_spec a l m x :
  (store_bytes a l m).[x] =
    if decide (a <= x < a + Z.of_nat (length l)) then znth l (x - a) else m.[x].
Proof.
  revert a m; induction l as [|c l IH]; intros a m; simpl.
  { case_decide; [lia|done]. }
  rewrite IH, mget_insert. unfold znth.
  repeat case_decide; try lia; try done; subst.
  - replace (Z.to_nat (x - a)) with (S (Z.to_nat (x - (a + 1)))) by lia. done.
  - by rewrite Z.sub_diag.
Qed.

Lemma bytes_store a l m n :
  0 <= n <= Z.of_nat (length l) -> bytes (store_bytes a l m) a n = take (Z.to_nat n) l.
Proof.
  intros Hn. apply list_eq. intros i. destruct (decide (Z.of_nat i < n)).
  - rewrite bytes_lookup, lookup_take_lt by lia. rewrite store_bytes_spec, decide_True by lia.
    unfold znth. replace (Z.to_nat (a + Z.of_nat i - a)) with i by lia.
    destruct (lookup_lt_is_Some_2 l i) as [c ->]; [lia|done].
  - rewrite !lookup_ge_None_2; rewrite ?length_take, ?length_bytes; lia || done.
Qed.

Section refinement.
Context (ubuf ucap : Z).

(** The descriptor and the memory represent the queue [q]. *)
Record represents (cap : Z) (st : sk_ring_buffer * mem) (q : list Z) : Prop := {
  rep_wf : rb_wf st.1;
  rep_size : buffer_size st.1 = cap;
  rep_apart : apart st.1 ubuf ucap;
  rep_contents : contents st.2 st.1 = q
}.

Lemma ring_op_refines cap st q op :
  1 <= ucap -> represents cap st q -> op_fits ucap op ->
  (ring_op ubuf st op).1 = (fifo_op cap q op).1 /\
  represents cap (ring_op ubuf st op).2 (fifo_op cap q op).2.
Proof.
  destruct st as [rb m]. intros Hu [Hwf <- Hap <-] Hfit. simpl in Hwf, Hap.
  pose proof (length_contents rb Hwf m) as Hlen. pose proof (space_len_eq rb Hwf) as Hsp.
  pose proof (data_len_range rb Hwf).
  assert (forall n, n <= ucap -> apart rb ubuf n) as Hap' by (unfold apart in *; lia).
  destruct op as [data|k|c| |c]; unfold ring_op, fifo_op; simpl fst; simpl snd; rewrite Hlen.
  - set (m1 := store_bytes ubuf (u8 <$> data) m).
    assert (contents m1 rb = contents m rb) as Hc.
    { apply list_fmap_ext. intros j i (-> & Hi)%lookup_seqZ. simpl in *.
      pose proof (cell_in_buffer rb Hwf (0 + Z.of_nat j) ltac:(lia)).
      unfold m1. rewrite store_bytes_spec, length_fmap, decide_False; [done|]. unfold apart in *. lia. }
    assert (0 <= u16 (Z.of_nat (length data)) <= Z.of_nat (length data)) as Hu16
      by (split; [by apply uint_range|apply Z.mod_le; lia]).
    pose proof (put_spec rb m1 Hwf ubuf (Z.of_nat (length data))
      (Hap' (u16 (Z.of_nat (length data))) ltac:(simpl in Hfit; lia))) as Hput.
    destruct (sk_ring_buffer_put _ _ _ _) as [[n rb'] m'].
    destruct Hput as (-> & Hwf' & Hb & Hn & Hcont & _). rewrite Hsp in *. split; [done|].
    split; simpl; [done|done|by unfold apart; rewrite Hb, Hn|].
    rewrite Hcont, Hc. f_equal. apply bytes_store. rewrite length_fmap. lia.
  - simpl in Hfit. pose proof (get_spec rb m Hwf ubuf k (Hap' _ Hfit)) as Hget.
    destruct (sk_ring_buffer_get _ _ _ _) as [[n rb'] m'].
    destruct Hget as (-> & Hwf' & Hb & Hn & Hby & Hcont & _). rewrite Hby. split; [done|].
    split; simpl; [done|done|by unfold apart; rewrite Hb, Hn|done].
  - pose proof (putchar_spec rb m Hwf c) as Hput.
    destruct (sk_ring_buffer_putchar _ _ _) as [[n rb'] m'].
    destruct Hput as (-> & Hwf' & Hb & Hn & Hcont & _). rewrite Hsp in *.
    destruct (Z.ltb_spec (sk_ring_buffer_data_len rb) (buffer_size rb)).
    all: rewrite ?Z.min_l, ?Z.min_r in * by lia; (split; [simpl; f_equal; lia|]).
    all: split; simpl; [done|done|by unfold apart; rewrite Hb, Hn|].
    + done.
    + rewrite Hcont. destruct (Z.eqb_spec (buffer_size rb - sk_ring_buffer_data_len rb) 0); [|lia].
      by rewrite app_nil_r.
  - pose proof (getchar_spec rb m Hwf ubuf (Hap' 1 ltac:(lia))) as Hget.
    destruct (sk_ring_buffer_getchar _ _ _) as [[n rb'] m'].
    destruct Hget as (-> & Hwf' & Hb & Hn & Hby & Hcont & _). rewrite Hby. split; [done|].
    split; simpl; [done|done|by unfold apart; rewrite Hb, Hn|done].
  - destruct (Z.ltb_spec (sk_ring_buffer_data_len rb) (buffer_size rb)).
    + rewrite putchar_force_room by (done || lia). pose proof (putchar_spec rb m Hwf c) as Hput.
      destruct (sk_ring_buffer_putchar _ _ _) as [[n rb'] m'].
      destruct Hput as (-> & Hwf' & Hb & Hn & Hcont & _). rewrite Hsp, Z.min_l in * by lia.
      split; [done|]. split; simpl; [done|done|by unfold apart; rewrite Hb, Hn|done].
    + pose proof (putchar_force_full m rb c Hwf ltac:(lia)) as Hput.
      destruct (sk_ring_buffer_putchar_force _ _ _) as [[n rb'] m'].
      destruct Hput as (-> & Hwf' & Hb & Hn & Hcont).
      split; [done|]. split; simpl; [done|done|by unfold apart; rewrite Hb, Hn|done].
Qed.

Lemma run_ops_refines cap ops st q :
  1 <= ucap -> represents cap st q -> Forall (op_fits ucap) ops ->
  (run_ops (ring_op ubuf) st ops).1 = (run_ops (fifo_op cap) q ops).1 /\
  represents cap (run_ops (ring_op ubuf) st ops).2 (run_ops (fifo_op cap) q ops).2.
Proof.
  intros Hu. revert st q; induction ops as [|op ops IH]; intros st q Hr Hf; simpl; [done|].
  apply Forall_cons in Hf as [Hop Hf].
  destruct (ring_op_refines cap st q op Hu Hr Hop) as [Ho Hr'].
  destruct (ring_op ubuf st op) as [o st'], (fifo_op cap q op) as [o' q']. simpl in *.
  specialize (IH st' q' Hr' Hf).
  destruct (run_ops (ring_op ubuf) st' ops), (run_ops (fifo_op cap) q' ops). simpl in *.
  destruct IH as [-> ?]. by subst.
Qed.

End refinement.

(** ** Properties *)

Lemma init_represents ubuf ucap buf size m :
  0 < size < 2 ^ 15 -> buf + size <= ubuf \/ ubuf + ucap <= buf ->
  represents ubuf ucap size (sk_ring_buffer_init buf size, m) [].
Proof.
  intros Hs Ha. unfold sk_ring_buffer_init.
  rewrite uint_small, sint_small by (simpl; lia).
  split; simpl; [split; simpl; lia|done|unfold apart; simpl; lia|done].
Qed.

(** C15: the ring buffer is a bounded first-in-first-out queue.  Every sequence
    of block and character puts and gets (forced character puts included) on a
    freshly initialised ring buffer returns, call by call, exactly the counts
    and the bytes the queue of [size] bytes returns. *)
Theorem ring_buffer_is_fifo ubuf ucap buf size m ops :
  0 < size < 2 ^ 15 -> 1 <= ucap ->
  buf + size <= ubuf \/ ubuf + ucap <= buf ->
  Forall (op_fits ucap) ops ->
  (run_ops (ring_op ubuf) (sk_ring_buffer_init buf size, m) ops).1
  = (run_ops (fifo_op size) [] ops).1.
Proof.
  intros Hs Hu Ha Hops.
  apply (run_ops_refines ubuf ucap size); [done| by apply init_represents | done].
Qed.

Lemma ring_buffer_is_fifo_witness :
  (run_ops (ring_op 100) (sk_ring_buffer_init 0 3, ∅)
     [OpPut [7; 8]; OpGetchar; OpPut [9; 10; 11]; OpPutcharForce 300; OpGet 65536; OpGet 5]).1
  = [(2, []); (1, [7]); (2, []); (1, []); (0, []); (3, [9; 10; 44])].
Proof.
  rewrite (ring_buffer_is_fifo 100 8 0 3); [vm_compute; reflexivity|lia|lia|lia|].
  repeat first [apply Forall_nil_2|apply Forall_cons_2; [by vm_compute|]].
Defined.

(** The writers stay inside the buffer.  [sk_ring_buffer_put] with a source
    outside the buffer, [sk_ring_buffer_putchar] and
    [sk_ring_buffer_putchar_force] change no byte outside the [buffer_size]
    bytes at [buffer], and keep the descriptor well-formed. *)
Theorem ring_writers_in_bounds rb buf len c m :
  rb_wf rb -> apart rb buf (u16 len) ->
  (let '(_, rb', m') := sk_ring_buffer_put rb buf len m in
   rb_wf rb' /\ only_buffer rb m m') /\
  (let '(_, rb', m') := sk_ring_buffer_putchar rb c m in
   rb_wf rb' /\ only_buffer rb m m') /\
  (let '(_, rb', m') := sk_ring_buffer_putchar_force rb c m in
   rb_wf rb' /\ only_buffer rb m m').
Proof.
  intros Hwf Hap. split_and!.
  - pose proof (put_spec rb m Hwf buf len Hap) as H.
    destruct (sk_ring_buffer_put _ _ _ _) as [[? ?] ?]. naive_solver.
  - pose proof (putchar_spec rb m Hwf c) as H.
    destruct (sk_ring_buffer_putchar _ _ _) as [[? ?] ?]. naive_solver.
  - assert (only_buffer rb m (<[buffer rb + write_index rb := u8 c]> m)) as Hob.
    { intros a Ha. rewrite mget_insert, decide_False; [done|]. intros <-. destruct Hwf. lia. }
    destruct (decide (sk_ring_buffer_space_len rb = 0)) as [E|E].
    + pose proof (putchar_force_full m rb c Hwf E) as H. revert H.
      unfold sk_ring_buffer_putchar_force. case_bool; naive_solver.
    + pose proof (space_len_eq rb Hwf). pose proof (data_len_range rb Hwf).
      rewrite putchar_force_room by (done || lia). pose proof (putchar_spec rb m Hwf c) as H'.
      destruct (sk_ring_buffer_putchar _ _ _) as [[? ?] ?]. naive_solver.
Qed.

Lemma ring_writers_in_bounds_witness :
  let rb := mk_rb 0 0 2 1 2 3 in
  rb_wf rb /\
  let '(_, rb', m') := sk_ring_buffer_putchar_force rb 5 ∅ in
  rb_wf rb' /\ only_buffer rb ∅ m'.
Proof.
  intros rb. assert (rb_wf rb) as Hwf by (split; simpl; lia). split; [done|].
  apply (ring_writers_in_bounds rb 10 1 5 ∅ Hwf). by right.
Defined.

(** [sk_ring_buffer_put_force] does not keep the newest bytes.  On a
    well-formed buffer of 8 bytes that holds 7, forcing 2 more leaves a
    well-formed-looking descriptor that reports 1 byte: when the write does not
    reach the end of the buffer the read position is never moved, so the other
    bytes, 6 old and 1 new, are lost. *)
Theorem ring_put_force_loses_data :
  let rb := mk_rb 0 0 4 1 3 8 in
  rb_wf rb /\ sk_ring_buffer_data_len rb = 7 /\
  let '(n, rb', _) := sk_ring_buffer_put_force rb 100 2 ∅ in
  n = 2 /\ sk_ring_buffer_data_len rb' = 1.
Proof. intros rb. split; [split; simpl; lia|]. by vm_compute. Qed.
