(* ===== verification/KList.v ===== *)
(** * The intrusive doubly linked lists of [src/include/kernel/klist.h]

    A [struct sk_list_node] is a cell of a node heap, with the two pointers
    the source gives it; every list of the kernel (ready queues, suspended
    threads, timers, kernel objects) is a cycle of such cells through a head.
    The operations are translated store by store, a store or load through a
    pointer that is no node being a fault ([None]).  [Rep h L] says that the
    heap [h] holds exactly the lists [L], and one lemma per operation gives
    its effect on [L]: the rest of the development reasons on [L]. *)

From S2P Require Import Prelude.

(** ** Nodes and operations *)

Section klist.
Context {K : Type} `{Countable K}.

Record sk_list_node := mk_node { next : K; prev : K }.

Implicit Types (h : gmap K sk_list_node) (p q : K).

Definition load_next p h : option K := next <$> h !! p.
Definition load_prev p h : option K := prev <$> h !! p.

Definition store_next p q h : option (gmap K sk_list_node) :=
  n ← h !! p; Some (<[p := mk_node q (prev n)]> h).

Definition store_prev p q h : option (gmap K sk_list_node) :=
  n ← h !! p; Some (<[p := mk_node (next n) q]> h).

Definition sk_list_init (list : K) h : option (gmap K sk_list_node) :=
  h ← store_prev list list h; store_next list list h.

Definition __list_add (new prev next : K) h : option (gmap K sk_list_node) :=
  h ← store_prev next new h;
  h ← store_next new next h;
  h ← store_prev new prev h;
  store_next prev new h.

Definition __list_del (prev next : K) h : option (gmap K sk_list_node) :=
  h ← store_prev next prev h; store_next prev next h.

Definition sk_list_add (head new : K) h : option (gmap K sk_list_node) :=
  n ← load_next head h; __list_add new head n h.

Definition sk_list_add_tail (head new : K) h : option (gmap K sk_list_node) :=
  p ← load_prev head h; __list_add new p head h.

Definition sk_list_del (entry : K) h : option (gmap K sk_list_node) :=
  p ← load_prev entry h;
  n ← load_next entry h;
  h ← __list_del p n h;
  h ← store_prev entry entry h;
  store_next entry entry h.

Definition sk_list_empty (head : K) h : option bool :=
  n ← load_next head h; Some (bool_decide (n = head)).

(** [sk_list_for_each]: the nodes the loop cursor takes, with fuel. *)
Fixpoint sk_list_for_each (fuel : nat) (head pos : K) h : option (list K) :=
  match fuel with
  | O => None
  | S fuel =>
      if bool_decide (pos = head) then Some []
      else n ← load_next pos h; l ← sk_list_for_each fuel head n h; Some (pos :: l)
  end.

(** ** Cycles *)

Definition edge h p q : Prop := load_next p h = Some q /\ load_prev q h = Some p.

Fixpoint links h p (l : list K) : Prop :=
  match l with
  | [] => True
  | q :: l => edge h p q /\ links h q l
  end.

(** The node heap holds the list [xs] at the head [hd]. *)
Definition is_list h (hd : K) (xs : list K) : Prop :=
  NoDup (hd :: xs) /\ links h hd (xs ++ [hd]).

Lemma links_app h p l1 q l2 :
  links h p (l1 ++ q :: l2) <-> links h p (l1 ++ [q]) /\ links h q l2.
Proof.
  revert p; induction l1 as [|r l1 IH]; intros p; simpl; [naive_solver|].
  rewrite IH. naive_solver.
Qed.

(** The last node of a nonempty path. *)
Definition tail_of p (l : list K) : K := default p (last l).

Lemma tail_of_cons p q l : tail_of p (q :: l) = tail_of q l.
Proof. unfold tail_of. by destruct l as [|r l] using rev_ind; [|rewrite app_comm_cons, !last_snoc]. Qed.

Lemma links_snoc h p l q : links h p (l ++ [q]) <-> links h p l /\ edge h (tail_of p l) q.
Proof.
  revert p; induction l as [|r l IH]; intros p; simpl; [naive_solver|].
  rewrite IH, tail_of_cons. naive_solver.
Qed.

Lemma tail_of_in p l : tail_of p l ∈ p :: l.
Proof.
  destruct l as [|r l] using rev_ind; unfold tail_of; simpl; [set_solver|].
  rewrite last_snoc. simpl. set_solver.
Qed.

Lemma tail_of_snoc p l q : tail_of p (l ++ [q]) = q.
Proof. unfold tail_of. by rewrite last_snoc. Qed.

(** A cycle read from another of its nodes. *)
Lemma is_list_rotate h p q l : is_list h p (q :: l) <-> is_list h q (l ++ [p]).
Proof.
  unfold is_list. rewrite (links_snoc h q (l ++ [p]) q), tail_of_snoc.
  rewrite app_comm_cons, <- NoDup_rotate. simpl. naive_solver.
Qed.

Lemma is_list_rotate_app h p l1 q l2 :
  is_list h p (l1 ++ q :: l2) <-> is_list h q (l2 ++ p :: l1).
Proof.
  revert p l2; induction l1 as [|r l1 IH]; intros p l2; simpl.
  - by rewrite is_list_rotate.
  - rewrite is_list_rotate, <- app_assoc. simpl. rewrite IH, <- app_assoc. done.
Qed.

(** ** Effect of the stores *)

Lemma load_next_insert p n h q :
  load_next q (<[p := n]> h) = if decide (p = q) then Some (next n) else load_next q h.
Proof. unfold load_next. rewrite lookup_insert. by case_decide. Qed.

Lemma load_prev_insert p n h q :
  load_prev q (<[p := n]> h) = if decide (p = q) then Some (prev n) else load_prev q h.
Proof. unfold load_prev. rewrite lookup_insert. by case_decide. Qed.

(** [h'] is [h] with the [next] of [a] set to [b]. *)
Lemma store_next_spec a b h :
  is_Some (h !! a) ->
  exists h', store_next a b h = Some h' /\
    (forall q, load_next q h' = if decide (a = q) then Some b else load_next q h) /\
    (forall q, load_prev q h' = load_prev q h) /\
    (forall q, q <> a -> h' !! q = h !! q) /\ dom h' = dom h.
Proof.
  intros [n Hn]. unfold store_next. rewrite Hn. simpl. eexists; split_and!; [done|..].
  - intros q. by rewrite load_next_insert.
  - intros q. rewrite load_prev_insert. case_decide; [subst|done].
    unfold load_prev. by rewrite Hn.
  - intros q Hq. by rewrite lookup_insert_ne.
  - rewrite dom_insert_L. apply elem_of_dom_2 in Hn. set_solver.
Qed.

Lemma store_prev_spec a b h :
  is_Some (h !! a) ->
  exists h', store_prev a b h = Some h' /\
    (forall q, load_prev q h' = if decide (a = q) then Some b else load_prev q h) /\
    (forall q, load_next q h' = load_next q h) /\
    (forall q, q <> a -> h' !! q = h !! q) /\ dom h' = dom h.
Proof.
  intros [n Hn]. unfold store_prev. rewrite Hn. simpl. eexists; split_and!; [done|..].
  - intros q. by rewrite load_prev_insert.
  - intros q. rewrite load_next_insert. case_decide; [subst|done].
    unfold load_next. by rewrite Hn.
  - intros q Hq. by rewrite lookup_insert_ne.
  - rewrite dom_insert_L. apply elem_of_dom_2 in Hn. set_solver.
Qed.

Lemma is_Some_dom h h' q : dom h' = dom h -> is_Some (h !! q) -> is_Some (h' !! q).
Proof. intros Hd. by rewrite <- !elem_of_dom, Hd. Qed.

Lemma list_add_spec new p n h :
  is_Some (h !! new) -> is_Some (h !! p) -> is_Some (h !! n) -> new <> p -> new <> n ->
  exists h', __list_add new p n h = Some h' /\
    (forall q, load_next q h' =
       if decide (q = p) then Some new else if decide (q = new) then Some n else load_next q h) /\
    (forall q, load_prev q h' =
       if decide (q = new) then Some p else if decide (q = n) then Some new else load_prev q h) /\
    (forall q, q <> new -> q <> p -> q <> n -> h' !! q = h !! q) /\ dom h' = dom h.
Proof.
  intros Hnew Hp Hn Hne1 Hne2. unfold __list_add.
  destruct (store_prev_spec n new h Hn) as (h1 & -> & P1 & N1 & F1 & D1). simpl.
  destruct (store_next_spec new n h1) as (h2 & -> & N2 & P2 & F2 & D2); [by eapply is_Some_dom|]. simpl.
  destruct (store_prev_spec new p h2) as (h3 & -> & P3 & N3 & F3 & D3); [eapply is_Some_dom; [|done]; congruence|]. simpl.
  destruct (store_next_spec p new h3) as (h4 & -> & N4 & P4 & F4 & D4); [eapply is_Some_dom; [|done]; congruence|].
  exists h4. split_and!; [done|..].
  - intros q. rewrite N4, N3, N2, N1. repeat case_decide; congruence.
  - intros q. rewrite P4, P3, P2, P1. repeat case_decide; congruence.
  - intros q ???. rewrite F4, F3, F2, F1; done.
  - congruence.
Qed.

Lemma list_del_spec p n h :
  is_Some (h !! p) -> is_Some (h !! n) ->
  exists h', __list_del p n h = Some h' /\
    (forall q, load_next q h' = if decide (q = p) then Some n else load_next q h) /\
    (forall q, load_prev q h' = if decide (q = n) then Some p else load_prev q h) /\
    (forall q, q <> p -> q <> n -> h' !! q = h !! q) /\ dom h' = dom h.
Proof.
  intros Hp Hn. unfold __list_del.
  destruct (store_prev_spec n p h Hn) as (h1 & -> & P1 & N1 & F1 & D1). simpl.
  destruct (store_next_spec p n h1) as (h2 & -> & N2 & P2 & F2 & D2); [by eapply is_Some_dom|].
  exists h2. split_and!; [done|..].
  - intros q. rewrite N2, N1. repeat case_decide; congruence.
  - intros q. rewrite P2, P1. repeat case_decide; congruence.
  - intros q ??. rewrite F2, F1; done.
  - congruence.
Qed.

Lemma init_spec a h :
  is_Some (h !! a) ->
  exists h', sk_list_init a h = Some h' /\ edge h' a a /\
    (forall q, q <> a -> h' !! q = h !! q) /\ dom h' = dom h.
Proof.
  intros Ha. unfold sk_list_init.
  destruct (store_prev_spec a a h Ha) as (h1 & -> & P1 & N1 & F1 & D1). simpl.
  destruct (store_next_spec a a h1) as (h2 & -> & N2 & P2 & F2 & D2); [by eapply is_Some_dom|].
  exists h2. split_and!; [done|split|..].
  - rewrite N2. by case_decide.
  - rewrite P2, P1. by case_decide.
  - intros q ?. rewrite F2, F1; done.
  - congruence.
Qed.

(** ** Insertion and removal on one cycle *)

Lemma links_ext h h' p l :
  NoDup (p :: l) ->
  (forall q, q ∈ p :: l -> q <> tail_of p l -> load_next q h' = load_next q h) ->
  (forall q, q ∈ l -> load_prev q h' = load_prev q h) ->
  links h p l -> links h' p l.
Proof.
  revert p; induction l as [|q l IH]; intros p Hnd Hn Hp; simpl; [done|].
  rewrite tail_of_cons in Hn. pose proof (tail_of_in q l) as Ht.
  apply NoDup_cons in Hnd as [Hpl Hnd]. intros [[E1 E2] Hl]. split; [split|].
  - rewrite Hn; [done|set_solver|]. intros ->. done.
  - rewrite Hp; [done|set_solver].
  - apply IH; [done| |set_solver|done]. intros r Hr. apply Hn. set_solver.
Qed.

Lemma edge_dom h p q : edge h p q -> is_Some (h !! p) /\ is_Some (h !! q).
Proof.
  unfold edge, load_next, load_prev. intros [E1 E2].
  destruct (h !! p); [|done]. destruct (h !! q); [|done]. eauto.
Qed.

Lemma links_dom h p l q : links h p l -> q ∈ l -> is_Some (h !! q).
Proof.
  revert p; induction l as [|r l IH]; intros p; simpl; [set_solver|].
  intros [E Hl] [->|Hq]%elem_of_cons; [by apply edge_dom in E as [??]|eauto].
Qed.

Lemma is_list_dom h hd xs q : is_list h hd xs -> q ∈ hd :: xs -> is_Some (h !! q).
Proof. intros [_ Hl] Hq. eapply links_dom; [done|]. set_solver. Qed.

Lemma is_list_prev h hd xs : is_list h hd xs -> load_prev hd h = Some (tail_of hd xs).
Proof. intros [_ Hl]. apply links_snoc in Hl as [_ [_ E]]. done. Qed.

Lemma is_list_next h hd xs : is_list h hd xs -> load_next hd h = Some (default hd (head xs)).
Proof. intros [_ Hl]. destruct xs as [|x xs]; simpl in Hl; destruct Hl as [[E _] _]; done. Qed.

(** The nodes determine the list at a head. *)
Lemma links_inj h hd xs : forall p ys,
  links h p (xs ++ [hd]) -> links h p (ys ++ [hd]) -> hd ∉ xs -> hd ∉ ys -> xs = ys.
Proof.
  induction xs as [|x xs IH]; intros p [|y ys] Hx Hy Nx Ny; simpl in *; [done|..].
  - destruct Hx as [[E1 _] _], Hy as [[E2 _] _]. set_solver.
  - destruct Hx as [[E1 _] _], Hy as [[E2 _] _]. set_solver.
  - destruct Hx as [[E1 _] Hx], Hy as [[E2 _] Hy]. assert (x = y) as <- by congruence. f_equal.
    apply (IH x); [done|done|set_solver|set_solver].
Qed.

Lemma is_list_inj h hd xs ys : is_list h hd xs -> is_list h hd ys -> xs = ys.
Proof. intros [[Nx _]%NoDup_cons Hx] [[Ny _]%NoDup_cons Hy]. by apply (links_inj h hd xs hd). Qed.

Lemma is_list_ext h h' hd xs :
  (forall q, q ∈ hd :: xs -> h' !! q = h !! q) -> is_list h hd xs -> is_list h' hd xs.
Proof.
  intros Hq [Hnd Hl]. split; [done|].
  apply links_snoc in Hl as [Hl [E1 E2]]. apply links_snoc. pose proof (tail_of_in hd xs).
  split; [eapply links_ext; [done|..|done]|split].
  - intros q ? _. unfold load_next. by rewrite Hq.
  - intros q ?. unfold load_prev. rewrite Hq; set_solver.
  - unfold load_next in *. by rewrite Hq.
  - unfold load_prev in *. rewrite Hq; set_solver.
Qed.

(** Only nodes of [l] change. *)
Definition frame (l : list K) h h' : Prop :=
  (forall q, q ∉ l -> h' !! q = h !! q) /\ dom h' = dom h.

Lemma insert_last h x l new :
  is_list h x l -> new ∉ x :: l -> is_Some (h !! new) ->
  exists h', __list_add new (tail_of x l) x h = Some h' /\
    is_list h' x (l ++ [new]) /\ frame (new :: x :: l) h h'.
Proof.
  intros Hl Hnew Hdom. pose proof (tail_of_in x l) as Ht.
  destruct (list_add_spec new (tail_of x l) x h) as (h' & Heq & Hn & Hp & Hf & Hd);
    eauto using is_list_dom; [eapply is_list_dom; [done|set_solver]|set_solver..|].
  exists h'. split_and!; [done|split|split].
  - destruct Hl as [Hnd _]. rewrite app_comm_cons, <- NoDup_rotate. by apply NoDup_cons.
  - destruct Hl as [Hnd Hl]. apply links_snoc in Hl as [Hl _].
    rewrite links_snoc, tail_of_snoc, links_snoc.
    apply NoDup_cons in Hnd as Hnd'. destruct Hnd' as [Hx _].
    split_and!; [eapply links_ext; [done|..|done]|split|split].
    + intros q Hq Hqt. rewrite Hn, !decide_False; set_solver.
    + intros q Hq. rewrite Hp, !decide_False; set_solver.
    + rewrite Hn, decide_True; done.
    + rewrite Hp, decide_True; done.
    + rewrite Hn, decide_False, decide_True; set_solver.
    + rewrite Hp, decide_False, decide_True; set_solver.
  - intros q Hq. apply Hf; set_solver.
  - done.
Qed.

Lemma add_tail_spec h hd xs ys new :
  is_list h hd (xs ++ ys) -> new ∉ hd :: xs ++ ys -> is_Some (h !! new) ->
  exists h', sk_list_add_tail (default hd (head ys)) new h = Some h' /\
    is_list h' hd (xs ++ new :: ys) /\ frame (new :: hd :: xs ++ ys) h h'.
Proof.
  intros Hl Hnew Hdom. unfold sk_list_add_tail. destruct ys as [|y ys]; simpl.
  - rewrite app_nil_r in *. rewrite (is_list_prev _ _ _ Hl). simpl.
    by apply insert_last.
  - rewrite is_list_rotate_app in Hl. rewrite (is_list_prev _ _ _ Hl). simpl.
    destruct (insert_last h y (ys ++ hd :: xs) new) as (h' & -> & Hl' & Hf & Hd);
      [done|set_solver|done|].
    exists h'. split_and!; [done| |split; [intros q Hq; apply Hf; set_solver|done]].
    rewrite <- app_assoc in Hl'. simpl in Hl'. rewrite <- is_list_rotate_app in Hl'.
    by rewrite <- app_assoc in Hl'.
Qed.

Lemma add_spec h hd xs new :
  is_list h hd xs -> new ∉ hd :: xs -> is_Some (h !! new) ->
  exists h', sk_list_add hd new h = Some h' /\
    is_list h' hd (new :: xs) /\ frame (new :: hd :: xs) h h'.
Proof.
  intros Hl Hnew Hdom. unfold sk_list_add. rewrite (is_list_next _ _ _ Hl). simpl.
  destruct xs as [|x xs]; simpl.
  - apply (insert_last h hd [] new) in Hl; done.
  - rewrite is_list_rotate in Hl.
    destruct (insert_last h x (xs ++ [hd]) new) as (h' & Heq & Hl' & Hf & Hd);
      [done|set_solver|done|]. rewrite tail_of_snoc in Heq.
    exists h'. split_and!; [done| |split; [intros q Hq; apply Hf; set_solver|done]].
    rewrite <- app_assoc in Hl'. simpl in Hl'. by rewrite is_list_rotate_app in Hl'.
Qed.

Lemma remove_first h n y l :
  is_list h n (y :: l) ->
  exists h', sk_list_del n h = Some h' /\
    is_list h' y l /\ is_list h' n [] /\ frame (n :: y :: l) h h'.
Proof.
  intros Hl. pose proof (tail_of_in y l) as Ht. unfold sk_list_del.
  rewrite (is_list_prev _ _ _ Hl), (is_list_next _ _ _ Hl). simpl. rewrite tail_of_cons.
  destruct (list_del_spec (tail_of y l) y h) as (h1 & -> & Hn & Hp & Hf & Hd);
    [eapply is_list_dom; [done|set_solver]..|]. simpl.
  destruct (init_spec n h1) as (h2 & Heq & He & Hf2 & Hd2).
  { eapply is_Some_dom; [done|]. eapply is_list_dom; [done|set_solver]. }
  destruct Hl as [Hnd Hl]. simpl in Hl. destruct Hl as [_ Hl].
  apply links_snoc in Hl as [Hl _]. apply NoDup_cons in Hnd as [Hnl Hnd].
  exists h2. split_and!; [exact Heq|split; [done|]| |split].
  - apply NoDup_cons in Hnd as Hnd'. destruct Hnd' as [Hyl _].
    apply links_snoc. split; [eapply links_ext; [done|..|done]|].
    + intros q Hq Hqt. unfold load_next in *. rewrite Hf2 by (intros ->; done).
      pose proof (Hn q) as E. unfold load_next in E. by rewrite E, decide_False.
    + intros q Hq. unfold load_prev in *. rewrite Hf2 by (intros ->; set_solver).
      pose proof (Hp q) as E. unfold load_prev in E. rewrite E, decide_False; set_solver.
    + assert (tail_of y l <> n) by (intros E; by rewrite E in Ht).
      split; unfold load_next, load_prev in *; rewrite Hf2 by set_solver.
      * by rewrite Hn, decide_True.
      * by rewrite Hp, decide_True.
  - split; [apply NoDup_singleton|]. simpl. done.
  - intros q Hq. rewrite Hf2, Hf; set_solver.
  - congruence.
Qed.

Lemma del_spec h hd xs n ys :
  is_list h hd (xs ++ n :: ys) ->
  exists h', sk_list_del n h = Some h' /\
    is_list h' hd (xs ++ ys) /\ is_list h' n [] /\ frame (hd :: xs ++ n :: ys) h h'.
Proof.
  intros Hl. rewrite is_list_rotate_app in Hl. destruct ys as [|y ys]; simpl in Hl.
  - destruct (remove_first h n hd xs Hl) as (h' & ? & ? & ? & Hf & ?). rewrite app_nil_r.
    exists h'. split_and!; [done..|split; [intros q Hq; apply Hf; set_solver|done]].
  - destruct (remove_first h n y (ys ++ hd :: xs) Hl) as (h' & ? & Hl' & ? & Hf & ?).
    rewrite is_list_rotate_app in Hl'.
    exists h'. split_and!; [done..|split; [intros q Hq; apply Hf; set_solver|done]].
Qed.

(** Removing a node that is in no list changes nothing. *)
Lemma del_self h n : is_list h n [] -> sk_list_del n h = Some h.
Proof.
  intros Hl. pose proof (is_list_prev _ _ _ Hl) as Hp. pose proof (is_list_next _ _ _ Hl) as Hn.
  unfold sk_list_del. rewrite Hp, Hn. unfold tail_of. simpl.
  unfold load_prev, load_next in Hp, Hn. destruct (h !! n) as [[nn np]|] eqn:E; [|done].
  simpl in *. simplify_eq.
  assert (forall b, store_prev n n h = Some h /\ (b = n -> store_next n b h = Some h)) as Hid.
  { intros b. unfold store_prev, store_next. rewrite E. simpl.
    split; [|intros ->]; by rewrite insert_id. }
  unfold __list_del. destruct (Hid n) as [-> Hs]. simpl. rewrite (Hs eq_refl). simpl.
  destruct (Hid n) as [-> _]. simpl. by rewrite Hs.
Qed.

Lemma for_each_spec h hd xs fuel :
  is_list h hd xs -> (length xs < fuel)%nat ->
  sk_list_for_each fuel hd (default hd (head xs)) h = Some xs.
Proof.
  intros [Hnd Hl]. apply NoDup_cons in Hnd as [Hhd _].
  destruct xs as [|x xs]; simpl.
  { destruct fuel; [lia|]. simpl. by rewrite bool_decide_true. }
  simpl in Hl. destruct Hl as [_ Hl]. revert x Hl Hhd fuel.
  induction xs as [|y xs IH]; intros x Hl Hhd fuel Hf; (destruct fuel; [simpl in Hf; lia|]);
    simpl; rewrite bool_decide_false by set_solver; simpl in Hl; destruct Hl as [[-> _] Hl]; simpl.
  - destruct fuel; [simpl in Hf; lia|]. simpl. by rewrite bool_decide_true.
  - rewrite (IH y) by (done || set_solver || simpl in *; lia). done.
Qed.

(** ** All the lists of a heap

    [L] maps every list head to its contents; a node that is in no list is the
    head of an empty one. *)

Implicit Types (L : gmap K (list K)).

Record Rep h L : Prop := {
  rep_is_list hd xs : L !! hd = Some xs -> is_list h hd xs;
  rep_disjoint hd1 xs1 hd2 xs2 n :
    L !! hd1 = Some xs1 -> L !! hd2 = Some xs2 -> n ∈ hd1 :: xs1 -> n ∈ hd2 :: xs2 -> hd1 = hd2
}.

(** [n] occurs in no list of [L]. *)
Definition fresh L n : Prop := forall hd xs, L !! hd = Some xs -> n ∉ hd :: xs.

Lemma rep_delete h L n : Rep h L -> Rep h (delete n L).
Proof.
  intros [H1 H2]. split.
  - intros hd xs [_ ?]%lookup_delete_Some. eauto.
  - intros hd1 xs1 hd2 xs2 m [_ ?]%lookup_delete_Some [_ ?]%lookup_delete_Some. eauto.
Qed.

Lemma fresh_delete h L n xs : Rep h L -> L !! n = Some xs -> fresh (delete n L) n.
Proof.
  intros HR Hn hd ys [Hne Hhd]%lookup_delete_Some Hin.
  apply Hne. eapply (rep_disjoint _ _ HR n xs hd ys n); set_solver.
Qed.

(** Replacing the list at [hd] by [xs'], the nodes of which are those of [xs]
    and nodes that were in no list, when only those nodes were stored to. *)
Lemma rep_update h h' L hd xs xs' (l : list K) :
  Rep h L -> L !! hd = Some xs -> is_list h' hd xs' ->
  (forall q, q ∉ l -> h' !! q = h !! q) ->
  (forall q, q ∈ l \/ q ∈ xs' -> q ∈ hd :: xs \/ fresh L q) ->
  Rep h' (<[hd := xs']> L).
Proof.
  intros HR Hhd Hl Hf Hnodes.
  assert (forall hd2 ys n, hd2 <> hd -> L !! hd2 = Some ys -> n ∈ hd2 :: ys ->
            n ∉ hd :: xs' /\ n ∉ l) as Hsep.
  { intros hd2 ys n Hne Hhd2 Hn.
    assert (forall q, q ∈ hd :: xs \/ fresh L q -> n <> q) as Hq.
    { intros q [Hq|Hq] ->.
      - apply Hne. by eapply (rep_disjoint _ _ HR hd2 ys hd xs q).
      - by eapply Hq. }
    split; intros Hin.
    - apply elem_of_cons in Hin as [->|Hin]; [|by eapply Hq; [apply Hnodes; right|]].
      apply (Hq hd); [set_solver|done].
    - by eapply Hq; [apply Hnodes; left|]. }
  split.
  - intros hd2 ys [[<- <-]|[Hne Hhd2]]%lookup_insert_Some; [done|].
    eapply is_list_ext; [|by eapply rep_is_list]. intros q Hq. apply Hf.
    by eapply Hsep.
  - intros hd1 ys1 hd2 ys2 n [[<- <-]|[Hne1 H1]]%lookup_insert_Some
      [[<- <-]|[Hne2 H2]]%lookup_insert_Some Hn1 Hn2; [done|..].
    + by destruct (Hsep hd2 ys2 n ltac:(done) H2 Hn2).
    + by destruct (Hsep hd1 ys1 n ltac:(done) H1 Hn1).
    + by eapply rep_disjoint.
Qed.

Lemma rep_new h L n : Rep h L -> fresh L n -> is_list h n [] -> Rep h (<[n := []]> L).
Proof.
  intros HR Hfr Hl. split.
  - intros hd xs [[<- <-]|[_ ?]]%lookup_insert_Some; [done|by eapply rep_is_list].
  - intros hd1 ys1 hd2 ys2 m [[<- <-]|[Hne1 H1]]%lookup_insert_Some
      [[<- <-]|[Hne2 H2]]%lookup_insert_Some Hn1 Hn2; [done|..].
    + apply list_elem_of_singleton in Hn1 as ->. by destruct (Hfr _ _ H2).
    + apply list_elem_of_singleton in Hn2 as ->. by destruct (Hfr _ _ H1).
    + by eapply rep_disjoint.
Qed.

(** *** One lemma per operation *)

Lemma rep_dom h L n xs : Rep h L -> L !! n = Some xs -> is_Some (h !! n).
Proof. intros HR Hn. eapply is_list_dom; [by eapply rep_is_list|set_solver]. Qed.

(** Insertion before the node that follows [xs] in the list at [hd]; with
    [ys] empty that node is the head and the insertion is at the end. *)
Lemma rep_add_before h L hd xs ys n :
  Rep h L -> L !! hd = Some (xs ++ ys) -> fresh L n -> is_Some (h !! n) ->
  exists h', sk_list_add_tail (default hd (head ys)) n h = Some h' /\
    Rep h' (<[hd := xs ++ n :: ys]> L) /\ dom h' = dom h.
Proof.
  intros HR Hhd Hfr Hdom.
  destruct (add_tail_spec h hd xs ys n) as (h' & Heq & Hl & Hf & Hd);
    [by eapply rep_is_list|by eapply Hfr|done|].
  exists h'. split_and!; [done| |done].
  eapply rep_update; [done..|].
  intros q Hq; destruct (decide (q = n)) as [->|]; [by right|left; set_solver].
Qed.

Lemma rep_add h L hd xs n :
  Rep h L -> L !! hd = Some xs -> fresh L n -> is_Some (h !! n) ->
  exists h', sk_list_add hd n h = Some h' /\
    Rep h' (<[hd := n :: xs]> L) /\ dom h' = dom h.
Proof.
  intros HR Hhd Hfr Hdom.
  destruct (add_spec h hd xs n) as (h' & Heq & Hl & Hf & Hd);
    [by eapply rep_is_list|by eapply Hfr|done|].
  exists h'. split_and!; [done| |done].
  eapply rep_update; [done..|].
  intros q Hq; destruct (decide (q = n)) as [->|]; [by right|left; set_solver].
Qed.

Lemma rep_del h L hd xs n ys :
  Rep h L -> L !! hd = Some (xs ++ n :: ys) ->
  exists h', sk_list_del n h = Some h' /\
    Rep h' (<[n := []]> (<[hd := xs ++ ys]> L)) /\ dom h' = dom h.
Proof.
  intros HR Hhd. pose proof (rep_is_list _ _ HR _ _ Hhd) as Hl0.
  destruct (del_spec h hd xs n ys Hl0) as (h' & Heq & Hl & Hn & Hf & Hd).
  exists h'. split_and!; [done| |done]. destruct Hl0 as [Hnd _].
  apply rep_new; [|intros hd2 zs [[<- <-]|[Hne Hhd2]]%lookup_insert_Some|done].
  - eapply rep_update; [done..|]. intros q [Hq|Hq]; left; set_solver.
  - rewrite app_comm_cons in Hnd. apply NoDup_app in Hnd as (_ & Hx & [Hy _]%NoDup_cons).
    rewrite app_comm_cons, elem_of_app. intros [Hin|Hin]; [|done]. apply (Hx n Hin). set_solver.
  - intros Hin. apply Hne. by eapply (rep_disjoint _ _ HR hd _ hd2 zs n); [done..|set_solver|].
Qed.

Lemma rep_del_self h L n : Rep h L -> L !! n = Some [] -> sk_list_del n h = Some h.
Proof. intros HR Hn. apply del_self. by eapply rep_is_list. Qed.

Lemma rep_empty h L hd xs :
  Rep h L -> L !! hd = Some xs -> sk_list_empty hd h = Some (bool_decide (xs = [])).
Proof.
  intros HR Hhd. pose proof (rep_is_list _ _ HR _ _ Hhd) as Hl. unfold sk_list_empty.
  rewrite (is_list_next _ _ _ Hl). simpl. f_equal. apply bool_decide_ext.
  destruct Hl as [Hnd _]. destruct xs as [|x xs]; simpl; [done|].
  apply NoDup_cons in Hnd as [Hx _]. set_solver.
Qed.

Lemma rep_agree h L L' hd xs ys : Rep h L -> Rep h L' -> L !! hd = Some xs -> L' !! hd = Some ys -> xs = ys.
Proof. intros HR HR' Hx Hy. exact (is_list_inj _ _ _ _ (rep_is_list _ _ HR _ _ Hx) (rep_is_list _ _ HR' _ _ Hy)). Qed.

Lemma rep_next h L hd xs :
  Rep h L -> L !! hd = Some xs -> load_next hd h = Some (default hd (head xs)).
Proof. intros HR Hhd. eapply is_list_next. by eapply rep_is_list. Qed.

Lemma rep_init h L n :
  Rep h L -> fresh L n -> is_Some (h !! n) ->
  exists h', sk_list_init n h = Some h' /\ Rep h' (<[n := []]> L) /\ dom h' = dom h.
Proof.
  intros HR Hfr Hdom. destruct (init_spec n h Hdom) as (h' & Heq & He & Hf & Hd).
  exists h'. split_and!; [done| |done]. apply rep_new; [|done|].
  - split; [|apply HR]. intros hd xs Hhd. eapply is_list_ext; [|by eapply rep_is_list].
    intros q Hq. apply Hf. intros ->. by eapply Hfr.
  - split; [apply NoDup_singleton|]. simpl. done.
Qed.

(** The list of a node is unique. *)
Lemma rep_head_alone h L hd xs n : Rep h L -> L !! hd = Some xs -> n ∈ xs -> L !! n = None.
Proof.
  intros HR Hhd Hn. destruct (L !! n) as [ys|] eqn:E; [|done].
  assert (hd = n) as <- by (eapply (rep_disjoint _ _ HR hd xs n ys n); set_solver).
  destruct (rep_is_list _ _ HR _ _ Hhd) as [Hnd _]. by apply NoDup_cons in Hnd as [? _].
Qed.

(** *** Checking [Rep] on a concrete heap *)

#[global] Instance edge_dec h p q : Decision (edge h p q).
Proof. unfold edge. apply _. Defined.

#[global] Instance links_dec h p l : Decision (links h p l).
Proof.
  revert p. induction l as [|q l IH]; intros p; simpl; [apply _|].
  apply and_dec; [apply _|apply IH].
Defined.

#[global] Instance is_list_dec h hd xs : Decision (is_list h hd xs).
Proof. unfold is_list. apply _. Defined.

Definition rep_check h L : bool :=
  forallb (fun '(hd, xs) => bool_decide (is_list h hd xs)) (map_to_list L) &&
  bool_decide (NoDup (concat ((fun '(hd, xs) => hd :: xs) <$> map_to_list L))).

Lemma concat_NoDup_disjoint {A B} (f : A -> list B) (l : list A) x y z :
  NoDup (concat (f <$> l)) -> x ∈ l -> y ∈ l -> z ∈ f x -> z ∈ f y -> x = y.
Proof.
  induction l as [|a l IH]; simpl; [set_solver|].
  rewrite NoDup_app. intros (_ & Hd & Hl) Hx Hy Hzx Hzy.
  assert (forall w, w ∈ l -> z ∈ f w -> z ∈ concat (f <$> l)) as Hc.
  { intros w Hw Hz. apply list_elem_of_In, in_concat. exists (f w).
    split; apply list_elem_of_In; [|done]. by apply list_elem_of_fmap_2. }
  apply elem_of_cons in Hx as [->|Hx], Hy as [->|Hy]; [done|..|by apply IH].
  - destruct (Hd z Hzx). eauto.
  - destruct (Hd z Hzy). eauto.
Qed.

Lemma rep_check_sound h L : rep_check h L = true -> Rep h L.
Proof.
  unfold rep_check. rewrite andb_true_iff, forallb_forall, bool_decide_eq_true.
  intros [Hl Hd]. split.
  - intros hd xs Hhd. apply elem_of_map_to_list, list_elem_of_In in Hhd.
    specialize (Hl _ Hhd). simpl in Hl. by apply bool_decide_eq_true in Hl.
  - intros hd1 xs1 hd2 xs2 n H1 H2 Hn1 Hn2.
    apply elem_of_map_to_list in H1, H2.
    by pose proof (concat_NoDup_disjoint _ _ _ _ n Hd H1 H2 Hn1 Hn2); simplify_eq.
Qed.

(** ** Properties *)

(** C11: the pointer operations implement lists.  On a heap that holds the lists
    [L], inserting at the front, inserting before any position (at the end with
    [ys] empty) and removing from any position produce exactly the expected
    list, leave every other list unchanged, and never follow a pointer that is
    no node; the emptiness test is exact, and the iteration of
    [sk_list_for_each] ends after visiting the elements in order. *)
Theorem klist_refines_lists h L hd xs ys n :
  Rep h L -> L !! hd = Some (xs ++ ys) -> fresh L n -> is_Some (h !! n) ->
  (exists h', sk_list_add hd n h = Some h' /\ Rep h' (<[hd := n :: xs ++ ys]> L)) /\
  (exists h', sk_list_add_tail (default hd (head ys)) n h = Some h' /\
     Rep h' (<[hd := xs ++ n :: ys]> L)) /\
  (forall y zs, ys = y :: zs -> exists h', sk_list_del y h = Some h' /\
     Rep h' (<[y := []]> (<[hd := xs ++ zs]> L))) /\
  sk_list_empty hd h = Some (bool_decide (xs ++ ys = [])) /\
  exists pos, load_next hd h = Some pos /\
    forall fuel, (length (xs ++ ys) < fuel)%nat ->
      sk_list_for_each fuel hd pos h = Some (xs ++ ys).
Proof.
  intros HR Hhd Hfr Hdom. split_and!.
  - destruct (rep_add h L hd (xs ++ ys) n) as (h' & ? & ? & ?); eauto.
  - destruct (rep_add_before h L hd xs ys n) as (h' & ? & ? & ?); eauto.
  - intros y zs ->. destruct (rep_del h L hd xs y zs) as (h' & ? & ? & ?); eauto.
  - by eapply rep_empty.
  - eexists. split; [by eapply rep_next|]. intros fuel Hf.
    apply for_each_spec; [by eapply rep_is_list|done].
Qed.

End klist.

Arguments sk_list_node : clear implicits.

Lemma klist_refines_lists_witness :
  let h := {[1 := mk_node 2 2; 2 := mk_node 1 1; 3 := mk_node 3 3]} : gmap Z (sk_list_node Z) in
  exists h', sk_list_add_tail 2 3 h = Some h' /\ Rep h' {[1 := [3; 2]]}.
Proof.
  intros h.
  assert (Rep h {[1 := [2]]}) as HR by (apply rep_check_sound; vm_compute; reflexivity).
  destruct (klist_refines_lists h {[1 := [2]]} 1 [] [2] 3 HR) as (_ & Hadd & _).
  - reflexivity.
  - intros hd xs Hx. apply lookup_singleton_Some in Hx as [<- <-]. set_solver.
  - eexists. reflexivity.
  - exact Hadd.
Defined.
