(* ===== verification/Slab.v ===== *)
(** * The memory allocator of [src/mem/slab.c]

    A page allocator over a sorted free list ([sk_page_init], [sk_page_alloc],
    [sk_page_free]) and, on top of it, a zone allocator with 72 size classes
    ([zone_index], [sk_malloc], [sk_free]).  The structures the allocator keeps
    inside the heap it manages (page heads, zone headers, the links of free
    chunks, the page usage array) are maps from their address; a load through
    an address that holds no such structure is a fault ([None]). *)

From S2P Require Import Prelude BaseDef.

Local Open Scope c_scope.

(** ** State *)

Definition SK_PAGE_SIZE : Z := 4096.
Definition SK_PAGE_SHIFT : Z := 12.
Definition SK_PAGE_MASK : Z := SK_PAGE_SIZE - 1.
Definition SK_ALLOC_SLAB_MAGIC : Z := 0x24310326.
Definition SK_ZONE_LIMIT : Z := 16 * 1024.
Definition SK_ALLOC_MIN_ZONE_SIZE : Z := 32 * 1024.
Definition SK_ALLOC_MAX_ZONE_SIZE : Z := 128 * 1024.
Definition SK_PAGE_TYPE_FREE : Z := 0.
Definition SK_PAGE_TYPE_SMALL : Z := 1.
Definition SK_PAGE_TYPE_LARGE : Z := 2.
Definition SK_NUM_ZONES : Z := 72.
Definition SK_ZONE_RELEASE_NUM : Z := 2.
Definition SK_MIN_CHUNK_SIZE : Z := 8.
Definition SK_MIN_CHUNK_MASK : Z := SK_MIN_CHUNK_SIZE - 1.

Record sk_page_head := mk_page { pnext : Z; page : Z }.

Record sk_mem_usage := mk_usage { utype : Z; usize : Z }.

Record slab_zone := mk_zone {
  z_magic : Z;
  z_nfree : Z;
  z_nmax : Z;
  z_next : Z;
  z_baseptr : Z;
  z_uindex : Z;
  z_chunksize : Z;
  z_zoneindex : Z;
  z_freechunk : Z
}.

(** [sizeof(struct slab_zone)] and [sizeof(struct sk_mem_usage)] on aarch64. *)
Definition sizeof_slab_zone : Z := 56.
Definition sizeof_mem_usage : Z := 4.

Record slab_state := mk_slab {
  sys_mem_start : Z;
  sys_mem_end : Z;
  sys_page_list : Z;
  sys_mem_usage : Z;
  sys_zone_array : gmap Z Z;
  sys_zone_free : Z;
  sys_zone_free_cnt : Z;
  sys_zone_size : Z;
  sys_zone_limit : Z;
  sys_zone_page_cnt : Z;
  pages : gmap Z sk_page_head;
  usage : gmap Z sk_mem_usage;
  zones : gmap Z slab_zone;
  chunks : gmap Z Z
}.

Definition set_page_list (p : Z) (s : slab_state) : slab_state :=
  mk_slab (sys_mem_start s) (sys_mem_end s) p (sys_mem_usage s) (sys_zone_array s)
    (sys_zone_free s) (sys_zone_free_cnt s) (sys_zone_size s) (sys_zone_limit s)
    (sys_zone_page_cnt s) (pages s) (usage s) (zones s) (chunks s).
Definition set_pages (f : gmap Z sk_page_head -> gmap Z sk_page_head) (s : slab_state) : slab_state :=
  mk_slab (sys_mem_start s) (sys_mem_end s) (sys_page_list s) (sys_mem_usage s)
    (sys_zone_array s) (sys_zone_free s) (sys_zone_free_cnt s) (sys_zone_size s)
    (sys_zone_limit s) (sys_zone_page_cnt s) (f (pages s)) (usage s) (zones s) (chunks s).
Definition set_usage (f : gmap Z sk_mem_usage -> gmap Z sk_mem_usage) (s : slab_state) : slab_state :=
  mk_slab (sys_mem_start s) (sys_mem_end s) (sys_page_list s) (sys_mem_usage s)
    (sys_zone_array s) (sys_zone_free s) (sys_zone_free_cnt s) (sys_zone_size s)
    (sys_zone_limit s) (sys_zone_page_cnt s) (pages s) (f (usage s)) (zones s) (chunks s).
Definition set_zones (f : gmap Z slab_zone -> gmap Z slab_zone) (s : slab_state) : slab_state :=
  mk_slab (sys_mem_start s) (sys_mem_end s) (sys_page_list s) (sys_mem_usage s)
    (sys_zone_array s) (sys_zone_free s) (sys_zone_free_cnt s) (sys_zone_size s)
    (sys_zone_limit s) (sys_zone_page_cnt s) (pages s) (usage s) (f (zones s)) (chunks s).
Definition set_chunks (f : gmap Z Z -> gmap Z Z) (s : slab_state) : slab_state :=
  mk_slab (sys_mem_start s) (sys_mem_end s) (sys_page_list s) (sys_mem_usage s)
    (sys_zone_array s) (sys_zone_free s) (sys_zone_free_cnt s) (sys_zone_size s)
    (sys_zone_limit s) (sys_zone_page_cnt s) (pages s) (usage s) (zones s) (f (chunks s)).
Definition set_zone_array (f : gmap Z Z -> gmap Z Z) (s : slab_state) : slab_state :=
  mk_slab (sys_mem_start s) (sys_mem_end s) (sys_page_list s) (sys_mem_usage s)
    (f (sys_zone_array s)) (sys_zone_free s) (sys_zone_free_cnt s) (sys_zone_size s)
    (sys_zone_limit s) (sys_zone_page_cnt s) (pages s) (usage s) (zones s) (chunks s).
Definition set_zone_free (zf cnt : Z) (s : slab_state) : slab_state :=
  mk_slab (sys_mem_start s) (sys_mem_end s) (sys_page_list s) (sys_mem_usage s)
    (sys_zone_array s) zf cnt (sys_zone_size s)
    (sys_zone_limit s) (sys_zone_page_cnt s) (pages s) (usage s) (zones s) (chunks s).

(** [sys_zone_array[i]]; the array is zero-initialised. *)
Definition zone_at (s : slab_state) (i : Z) : Z := default 0 (sys_zone_array s !! i).

(** ** The page allocator *)

Definition sk_page_init (addr npages : Z) (s : slab_state) : slab_state :=
  set_page_list addr (set_pages (<[addr := mk_page 0 npages]>) s).

(** A [struct sk_page_head **]: the list head or the [next] field of a page. *)
Inductive page_ref := PHead | PNext (b : Z).

Definition load_ref (r : page_ref) (s : slab_state) : option Z :=
  match r with
  | PHead => Some (sys_page_list s)
  | PNext b => pnext <$> pages s !! b
  end.

Definition store_ref (r : page_ref) (v : Z) (s : slab_state) : option slab_state :=
  match r with
  | PHead => Some (set_page_list v s)
  | PNext b => p ← pages s !! b; Some (set_pages (<[b := mk_page v (page p)]>) s)
  end.

(** [n->page = num; n->next = nxt;] *)
Definition store_page (n nxt num : Z) (s : slab_state) : slab_state :=
  set_pages (<[n := mk_page nxt num]>) s.

(** [for(prev = &sys_page_list; (b = *prev) != SK_NULL; prev = &(b->next))] *)
Fixpoint page_free_loop (fuel : nat) (prev : page_ref) (n num_pages : Z) (s : slab_state)
  : option slab_state :=
  match fuel with
  | O => None
  | S fuel =>
      b ← load_ref prev s;
      if b =? 0 then store_ref prev n (store_page n b num_pages s)
      else
        pb ← pages s !! b;
        if b + SK_PAGE_SIZE * page pb =? n then
          let s := store_page b (pnext pb) (page pb + num_pages) s in
          if b + SK_PAGE_SIZE * (page pb + num_pages) =? pnext pb then
            px ← pages s !! pnext pb;
            Some (store_page b (pnext px) (page pb + num_pages + page px) s)
          else Some s
        else if b =? n + SK_PAGE_SIZE * num_pages then
          store_ref prev n (store_page n (pnext pb) (page pb + num_pages) s)
        else if n + SK_PAGE_SIZE * num_pages <? b then
          store_ref prev n (store_page n b num_pages s)
        else page_free_loop fuel (PNext b) n num_pages s
  end.

(** The fuel of the list walks: no acyclic free list is longer. *)
Definition page_fuel (s : slab_state) : nat := S (size (pages s)).

Definition sk_page_free (addr num_pages : Z) (s : slab_state) : option slab_state :=
  page_free_loop (page_fuel s) PHead addr num_pages s.

Fixpoint page_alloc_loop (fuel : nat) (prev : page_ref) (npages : Z) (s : slab_state)
  : option (Z * slab_state) :=
  match fuel with
  | O => None
  | S fuel =>
      b ← load_ref prev s;
      if b =? 0 then Some (b, s)
      else
        pb ← pages s !! b;
        if npages <? page pb then
          let n := b + SK_PAGE_SIZE * npages in
          s ← store_ref prev n (store_page n (pnext pb) (page pb - npages) s);
          Some (b, s)
        else if page pb =? npages then
          s ← store_ref prev (pnext pb) s;
          Some (b, s)
        else page_alloc_loop fuel (PNext b) npages s
  end.

Definition sk_page_alloc (npages : Z) (s : slab_state) : option (Z * slab_state) :=
  if npages =? 0 then Some (0, s)
  else page_alloc_loop (page_fuel s) PHead npages s.

(** ** Initialisation *)

(** [while(zone_size < MAX && (zone_size << 1) < (limit_size / 1024)) zone_size <<= 1;]
    The size doubles from 32K and stops at 128K: three rounds are enough. *)
Fixpoint zone_size_loop (fuel : nat) (zone_size limit_size : Z) : Z :=
  match fuel with
  | O => zone_size
  | S fuel =>
      if (zone_size <? SK_ALLOC_MAX_ZONE_SIZE) && (Z.shiftl zone_size 1 <? limit_size / 1024)
      then zone_size_loop fuel (Z.shiftl zone_size 1) limit_size
      else zone_size
  end.

Definition sk_system_mem_init (begin_addr end_addr : Z) (s : slab_state)
  : option (Z * slab_state) :=
  let mem_start := SK_ALIGN begin_addr SK_PAGE_SIZE in
  let mem_end := SK_ALIGN end_addr SK_PAGE_SIZE in
  let s := mk_slab mem_start mem_end (sys_page_list s) (sys_mem_usage s) (sys_zone_array s)
    (sys_zone_free s) (sys_zone_free_cnt s) (sys_zone_size s) (sys_zone_limit s)
    (sys_zone_page_cnt s) (pages s) (usage s) (zones s) (chunks s) in
  if mem_end <? mem_start then Some (SK_EINVAL, s)
  else
    let limit_size := u32 (mem_end - mem_start) in
    let num_pages := limit_size / SK_PAGE_SIZE in
    let s := sk_page_init mem_start num_pages s in
    let zone_size := zone_size_loop 3 SK_ALLOC_MIN_ZONE_SIZE limit_size in
    let zone_limit := zone_size / 4 in
    let zone_limit := if SK_ZONE_LIMIT <? zone_limit then SK_ZONE_LIMIT else zone_limit in
    let zone_page_cnt := zone_size / SK_PAGE_SIZE in
    let limit_size := u32 (num_pages * sizeof_mem_usage) in
    let limit_size := u32 (SK_ALIGN limit_size SK_PAGE_SIZE) in
    '(u, s) ← sk_page_alloc (limit_size / SK_PAGE_SIZE) s;
    Some (SK_EOK,
      mk_slab mem_start mem_end (sys_page_list s) u (sys_zone_array s)
        (sys_zone_free s) (sys_zone_free_cnt s) zone_size zone_limit zone_page_cnt
        (pages s) (usage s) (zones s) (chunks s)).

(** ** Zones *)

(** The zone index of a request and the rounded request; a request of 16384
    bytes or more falls off the end of the C function ([None]). *)
Definition zone_index (bytes : Z) : option (Z * Z) :=
  let n := bytes in
  if n <? 128 then let n := SK_ALIGN n 8 in Some (s32 (u64 (n / 8 - 1)), n)
  else if n <? 256 then let n := SK_ALIGN n 16 in Some (n / 16 + 7, n)
  else if n <? 512 then let n := SK_ALIGN n 32 in Some (n / 32 + 15, n)
  else if n <? 1024 then let n := SK_ALIGN n 64 in Some (n / 64 + 23, n)
  else if n <? 2048 then let n := SK_ALIGN n 127 in Some (n / 128 + 31, n)
  else if n <? 4096 then let n := SK_ALIGN n 256 in Some (n / 256 + 39, n)
  else if n <? 8192 then let n := SK_ALIGN n 512 in Some (n / 512 + 47, n)
  else if n <? 16384 then let n := SK_ALIGN n 1024 in Some (n / 1024 + 55, n)
  else None.

(** [btokup(addr)]: the index of the page's entry in [sys_mem_usage]. *)
Definition btokup (s : slab_state) (addr : Z) : Z :=
  Z.shiftr (addr - sys_mem_start s) SK_PAGE_SHIFT.

(** [for(off = ..., kup = btokup(zone); off < cnt; off++) { ...; kup++; }] *)
Fixpoint mark_small (cnt : nat) (off kup : Z) (u : gmap Z sk_mem_usage) : gmap Z sk_mem_usage :=
  match cnt with
  | O => u
  | S cnt => mark_small cnt (off + 1) (kup + 1) (<[kup := mk_usage SK_PAGE_TYPE_SMALL off]> u)
  end.

Fixpoint mark_free (cnt : nat) (kup : Z) (u : gmap Z sk_mem_usage) : gmap Z sk_mem_usage :=
  match cnt with
  | O => u
  | S cnt => mark_free cnt (kup + 1) (<[kup := mk_usage SK_PAGE_TYPE_FREE 0]> u)
  end.

(** The offset of the first chunk in a zone of chunks of [size] bytes: chunks
    of a power of two are aligned to their size. *)
Definition zone_offset (size : Z) : Z :=
  if (size ||| (size - 1)) + 1 =? Z.shiftl size 1
  then (sizeof_slab_zone + size - 1) & ~~ (size - 1)
  else (sizeof_slab_zone + SK_MIN_CHUNK_MASK) & ~~ SK_MIN_CHUNK_MASK.

(** The header of a zone taken from the page allocator holds what the page
    held; only [z_freechunk] is not assigned before use. *)
Definition raw_zone (s : slab_state) (zone : Z) : slab_zone :=
  default (mk_zone 0 0 0 0 0 0 0 0 0) (zones s !! zone).

Definition malloc_large (size : Z) (s : slab_state) : option (Z * slab_state) :=
  let size := SK_ALIGN size SK_PAGE_SIZE in
  '(chunk, s) ← sk_page_alloc (Z.shiftr size SK_PAGE_SHIFT) s;
  if chunk =? 0 then Some (0, s)
  else
    let kup := btokup s chunk in
    Some (chunk, set_usage (<[kup := mk_usage SK_PAGE_TYPE_LARGE
      (sk_uint 30 (Z.shiftr size SK_PAGE_SHIFT))]>) s).

(** Allocation from the first zone of the class. *)
Definition malloc_zone (index size zone : Z) (s : slab_state) : option (Z * slab_state) :=
  z ← zones s !! zone;
  let nfree := z_nfree z - 1 in
  let s := if nfree =? 0 then set_zone_array (<[index := z_next z]>) s else s in
  let znext := if nfree =? 0 then 0 else z_next z in
  if negb (z_uindex z + 1 =? z_nmax z) then
    let uindex := z_uindex z + 1 in
    Some (z_baseptr z + uindex * size,
      set_zones (<[zone := mk_zone (z_magic z) nfree (z_nmax z) znext (z_baseptr z) uindex
        (z_chunksize z) (z_zoneindex z) (z_freechunk z)]>) s)
  else
    let chunk := z_freechunk z in
    c_next ← chunks s !! chunk;
    Some (chunk,
      set_zones (<[zone := mk_zone (z_magic z) nfree (z_nmax z) znext (z_baseptr z) (z_uindex z)
        (z_chunksize z) (z_zoneindex z) c_next]>) s).

(** A zone for a class that has none: from the free zones or from pages. *)
Definition take_zone (s : slab_state) : option (Z * slab_state) :=
  let zone := sys_zone_free s in
  if negb (zone =? 0) then
    z ← zones s !! zone;
    Some (zone, set_zone_free (z_next z) (sys_zone_free_cnt s - 1) s)
  else
    '(zone, s) ← sk_page_alloc (sys_zone_size s / SK_PAGE_SIZE) s;
    if zone =? 0 then Some (0, s)
    else Some (zone, set_usage (mark_small (Z.to_nat (sys_zone_page_cnt s)) 0 (btokup s zone)) s).

Definition malloc_new_zone (index size : Z) (s : slab_state) : option (Z * slab_state) :=
  '(zone, s) ← take_zone s;
  if zone =? 0 then Some (0, s)
  else
    let off := zone_offset size in
    let nmax := (sys_zone_size s - off) / size in
    let z := mk_zone SK_ALLOC_SLAB_MAGIC (nmax - 1) nmax (zone_at s index) (zone + off) 0 size
      index (z_freechunk (raw_zone s zone)) in
    Some (z_baseptr z + z_uindex z * size,
      set_zone_array (<[index := zone]>) (set_zones (<[zone := z]>) s)).

Definition sk_malloc (size : Z) (s : slab_state) : option (Z * slab_state) :=
  if size =? 0 then Some (0, s)
  else if sys_zone_limit s <=? size then malloc_large size s
  else
    '(index, size) ← zone_index size;
    let zone := zone_at s index in
    if negb (zone =? 0) then malloc_zone index size zone s
    else malloc_new_zone index size s.

(** [for(pz = &sys_zone_array[i]; zone != *pz; pz = &( *pz)->z_next);
    *pz = zone->z_next;]  [prevz] is the zone whose [z_next] is [*pz]. *)
Fixpoint unlink_zone (fuel : nat) (index : Z) (prevz : option Z) (zone znext : Z)
  (s : slab_state) : option slab_state :=
  match fuel with
  | O => None
  | S fuel =>
      cur ← match prevz with
            | None => Some (zone_at s index)
            | Some p => z_next <$> zones s !! p
            end;
      if cur =? zone then
        match prevz with
        | None => Some (set_zone_array (<[index := znext]>) s)
        | Some p =>
            z ← zones s !! p;
            Some (set_zones (<[p := mk_zone (z_magic z) (z_nfree z) (z_nmax z) znext
              (z_baseptr z) (z_uindex z) (z_chunksize z) (z_zoneindex z) (z_freechunk z)]>) s)
        end
      else unlink_zone fuel index (Some cur) zone znext s
  end.

(** A zone all of whose chunks are free moves to the free zones; with more than
    [SK_ZONE_RELEASE_NUM] of those the first goes back to the page allocator.
    The source decrements the list head [sys_zone_free], not its counter. *)
Definition retire_zone (zone : Z) (s : slab_state) : option slab_state :=
  z ← zones s !! zone;
  s ← unlink_zone (S (size (zones s))) (z_zoneindex z) None zone (z_next z) s;
  z ← zones s !! zone;
  let s := set_zones (<[zone := mk_zone (-1) (z_nfree z) (z_nmax z) (sys_zone_free s)
    (z_baseptr z) (z_uindex z) (z_chunksize z) (z_zoneindex z) (z_freechunk z)]>) s in
  let s := set_zone_free zone (sys_zone_free_cnt s + 1) s in
  if SK_ZONE_RELEASE_NUM <? sys_zone_free_cnt s then
    let zone := sys_zone_free s in
    z ← zones s !! zone;
    let s := set_zone_free (z_next z - sizeof_slab_zone) (sys_zone_free_cnt s) s in
    let s := set_usage (mark_free (Z.to_nat (sys_zone_page_cnt s)) (btokup s zone)) s in
    sk_page_free zone (sys_zone_size s / SK_PAGE_SIZE) s
  else Some s.

Definition free_chunk (ptr zone : Z) (s : slab_state) : option slab_state :=
  z ← zones s !! zone;
  let s := set_chunks (<[ptr := z_freechunk z]>) s in
  let znext := if z_nfree z =? 0 then zone_at s (z_zoneindex z) else z_next z in
  let s := if z_nfree z =? 0 then set_zone_array (<[z_zoneindex z := zone]>) s else s in
  let s := set_zones (<[zone := mk_zone (z_magic z) (z_nfree z + 1) (z_nmax z) znext
    (z_baseptr z) (z_uindex z) (z_chunksize z) (z_zoneindex z) ptr]>) s in
  if (z_nfree z + 1 =? z_nmax z) &&
     (negb (znext =? 0) || negb (zone_at s (z_zoneindex z) =? zone))
  then retire_zone zone s
  else Some s.

Definition sk_free (ptr : Z) (s : slab_state) : option slab_state :=
  if ptr =? 0 then Some s
  else
    let pg := ptr & ~~ SK_PAGE_MASK in
    let kup := btokup s pg in
    u ← usage s !! kup;
    if utype u =? SK_PAGE_TYPE_LARGE then
      let size := usize u in
      sk_page_free ptr size (set_usage (<[kup := mk_usage (utype u) 0]>) s)
    else free_chunk ptr (pg - usize u * SK_PAGE_SIZE) s.

(** ** The free list as a sequence of segments *)

(** A segment: the address of its first page and its number of pages. *)
Notation seg := (Z * Z)%type.

Fixpoint chain (pg : gmap Z sk_page_head) (hd : Z) (l : list seg) : Prop :=
  match l with
  | [] => hd = 0
  | (a, n) :: l => hd = a /\ exists nx, pg !! a = Some (mk_page nx n) /\ chain pg nx l
  end.

(** Nonempty, in ascending order, and no two segments touch: the list is
    coalesced. *)
Fixpoint segs_wf (lo : Z) (l : list seg) : Prop :=
  match l with
  | [] => True
  | (a, n) :: l => lo < a /\ 0 < n /\ segs_wf (a + SK_PAGE_SIZE * n) l
  end.

Fixpoint covers (l : list seg) (p : Z) : Prop :=
  match l with
  | [] => False
  | (a, n) :: l => a <= p < a + SK_PAGE_SIZE * n \/ covers l p
  end.

(** The free segments of a state. *)
Definition free_list (s : slab_state) (l : list seg) : Prop :=
  chain (pages s) (sys_page_list s) l /\ segs_wf 0 l.

(** The effect of [sk_page_free] and of [sk_page_alloc] on the segments. *)
Fixpoint seg_free (n num : Z) (l : list seg) : list seg :=
  match l with
  | [] => [(n, num)]
  | (b, k) :: l' =>
      if b + SK_PAGE_SIZE * k =? n then
        match l' with
        | (c, j) :: l'' =>
            if b + SK_PAGE_SIZE * (k + num) =? c then (b, k + num + j) :: l''
            else (b, k + num) :: l'
        | [] => [(b, k + num)]
        end
      else if b =? n + SK_PAGE_SIZE * num then (n, k + num) :: l'
      else if n + SK_PAGE_SIZE * num <? b then (n, num) :: l
      else (b, k) :: seg_free n num l'
  end.

Fixpoint seg_alloc (k : Z) (l : list seg) : option (Z * list seg) :=
  match l with
  | [] => None
  | (b, j) :: l' =>
      if k <? j then Some (b, (b + SK_PAGE_SIZE * k, j - k) :: l')
      else if j =? k then Some (b, l')
      else '(r, l'') ← seg_alloc k l'; Some (r, (b, j) :: l'')
  end.

Definition seg_apart (n num : Z) (l : list seg) : Prop :=
  forall p, n <= p < n + SK_PAGE_SIZE * num -> ~ covers l p.

(** [lia] and [nia] with the page size in view. *)
Ltac pg := unfold SK_PAGE_SIZE in *; lia.
Ltac cov := unfold SK_PAGE_SIZE in *; split; intros; destruct_or?; (try by auto); lia.

Section segments.
Local Notation PS := SK_PAGE_SIZE.

Lemma page_size_pos : 0 < PS.
Proof. done. Qed.

Lemma segs_wf_weaken lo lo' l : lo' <= lo -> segs_wf lo l -> segs_wf lo' l.
Proof. destruct l as [|[a n] l]; simpl; [done|]. intros ? (? & ? & ?). split_and!; try done. pg. Qed.

Lemma covers_above lo l p : segs_wf lo l -> covers l p -> lo < p.
Proof.
  revert lo; induction l as [|[a n] l IH]; intros lo; simpl; [done|].
  intros (? & ? & Hwf) [?|Hc]; [pg|]. pose proof (IH _ Hwf Hc). pose proof page_size_pos. pg.
Qed.

Lemma seg_apart_cons n num a k l :
  0 < num -> 0 < k -> seg_apart n num ((a, k) :: l) ->
  (a + PS * k <= n \/ n + PS * num <= a) /\ seg_apart n num l.
Proof.
  intros Hn Hk Hap. split; [|intros p Hp ?; by apply (Hap p Hp); right].
  pose proof page_size_pos.
  destruct (decide (a + PS * k <= n)); [by left|]. right.
  destruct (decide (n + PS * num <= a)); [done|]. exfalso.
  apply (Hap (Z.max a n)); [|left]; pg.
Qed.

(** Freeing keeps the list sorted and coalesced, and adds exactly the freed
    pages. *)
Lemma seg_free_wf lo n num l :
  segs_wf lo l -> lo < n -> 0 < num -> seg_apart n num l -> segs_wf lo (seg_free n num l).
Proof.
  pose proof page_size_pos.
  revert lo; induction l as [|[b k] l IH]; intros lo Hwf Hn Hnum Hap; simpl; [done|].
  simpl in Hwf. destruct Hwf as (Hb & Hk & Hwf).
  apply seg_apart_cons in Hap as [Hd Hap]; [|done..].
  destruct (Z.eqb_spec (b + PS * k) n) as [E|NE].
  - destruct l as [|[c j] l]; simpl in *; [pg|]. destruct Hwf as (Hc & Hj & Hwf).
    apply seg_apart_cons in Hap as [Hd' _]; [|done..].
    destruct (Z.eqb_spec (b + PS * (k + num)) c) as [E'|NE']; simpl; split_and!; try pg; try done.
    by replace (b + PS * (k + num + j)) with (c + PS * j) by pg.
  - destruct (Z.eqb_spec b (n + PS * num)) as [E'|NE'].
    { simpl. split_and!; try pg. by replace (n + PS * (k + num)) with (b + PS * k) by pg. }
    destruct (Z.ltb_spec (n + PS * num) b); simpl; [split_and!; try pg; done|].
    split_and!; try done. apply IH; try done. pg.
Qed.

Lemma seg_free_covers lo n num l p :
  segs_wf lo l -> 0 < num -> seg_apart n num l ->
  (covers (seg_free n num l) p <-> covers l p \/ n <= p < n + PS * num).
Proof.
  pose proof page_size_pos.
  revert lo; induction l as [|[b k] l IH]; intros lo Hwf Hnum Hap; simpl; [pg|].
  simpl in Hwf. destruct Hwf as (Hb & Hk & Hwf).
  apply seg_apart_cons in Hap as [Hd Hap]; [|done..].
  destruct (Z.eqb_spec (b + PS * k) n) as [E|NE].
  - destruct l as [|[c j] l]; simpl in *; [cov|]. destruct Hwf as (Hc & Hj & Hwf).
    destruct (Z.eqb_spec (b + PS * (k + num)) c) as [E'|NE']; simpl; cov.
  - destruct (Z.eqb_spec b (n + PS * num)) as [E'|NE']; simpl; [cov|].
    destruct (Z.ltb_spec (n + PS * num) b); simpl; [cov|].
    rewrite (IH _ Hwf) by done. cov.
Qed.

(** Allocation is first fit: it takes pages that were free, leaves the others
    free, and fails only when no segment is large enough. *)
Lemma seg_alloc_spec lo k l :
  segs_wf lo l -> 0 < k ->
  match seg_alloc k l with
  | None => Forall (fun sg => sg.2 < k) l
  | Some (b, l') =>
      lo < b /\ segs_wf lo l' /\
      (forall p, b <= p < b + PS * k -> covers l p) /\
      (forall p, covers l' p <-> covers l p /\ ~ (b <= p < b + PS * k))
  end.
Proof.
  pose proof page_size_pos.
  revert lo; induction l as [|[b j] l IH]; intros lo Hwf Hk; simpl; [constructor|].
  simpl in Hwf. destruct Hwf as (Hb & Hj & Hwf).
  assert (forall p, covers l p -> b + PS * j < p) as Habove by (eauto using covers_above).
  destruct (Z.ltb_spec k j); [|destruct (Z.eqb_spec j k) as [->|]].
  - simpl. split_and!; try pg.
    + by replace (b + PS * k + PS * (j - k)) with (b + PS * j) by pg.
    + intros p. split; [intros [?|Hc]|intros [[?|Hc] ?]].
      * split; [left; pg|pg].
      * split; [by right|]. specialize (Habove p Hc). pg.
      * left. pg.
      * by right.
  - split_and!; try done.
    + eapply segs_wf_weaken; [|done]. pg.
    + intros p Hp. by left.
    + intros p. split; [intros Hc|intros [[?|Hc] ?]; [pg|done]].
      split; [by right|]. specialize (Habove p Hc). pg.
  - specialize (IH _ Hwf Hk). destruct (seg_alloc k l) as [[r l'']|]; simpl.
    + destruct IH as (? & Hwf' & Hin & Hcov). split_and!; try done; try pg.
      * intros p Hp. right. eauto.
      * intros p. rewrite Hcov. split; [intros [?|[? ?]]|]; try tauto. split; [by left|pg].
    + constructor; [simpl; pg|done].
Qed.

(** A coalesced list is determined by the pages it covers. *)
Lemma segs_unique lo l l' :
  segs_wf lo l -> segs_wf lo l' -> (forall p, covers l p <-> covers l' p) -> l = l'.
Proof.
  pose proof page_size_pos.
  revert lo l'; induction l as [|[a n] l IH]; intros lo [|[a' n'] l'] Hwf Hwf' Hc; simpl in *; try done.
  - destruct Hwf' as (? & ? & _). destruct (Hc a') as [_ []]. left. pg.
  - destruct Hwf as (? & ? & _). destruct (Hc a) as [[] _]. left. pg.
  - destruct Hwf as (Ha & Hn & Hwf), Hwf' as (Ha' & Hn' & Hwf').
    assert (forall p, covers l p -> a + PS * n < p) as Hab by eauto using covers_above.
    assert (forall p, covers l' p -> a' + PS * n' < p) as Hab' by eauto using covers_above.
    assert (a = a') as <-.
    { destruct (proj1 (Hc a)) as [?|Hx]; [left; pg| |specialize (Hab' _ Hx)];
      destruct (proj2 (Hc a')) as [?|Hy]; try (left; pg); try specialize (Hab _ Hy); pg. }
    assert (n = n') as <-.
    { destruct (Z.lt_trichotomy n n') as [Hlt|[?|Hlt]]; [|done|].
      - destruct (proj2 (Hc (a + PS * n))) as [?|Hx]; [left; pg|pg|specialize (Hab _ Hx); pg].
      - destruct (proj1 (Hc (a + PS * n'))) as [?|Hx]; [left; pg|pg|specialize (Hab' _ Hx); pg]. }
    f_equal. apply (IH (a + PS * n)); try done.
    intros p. split; intros Hp.
    + destruct (proj1 (Hc p) (or_intror Hp)); [|done]. specialize (Hab p Hp). pg.
    + destruct (proj2 (Hc p) (or_intror Hp)); [|done]. specialize (Hab' p Hp). pg.
Qed.

End segments.

(** ** The loops compute on the segments *)

Section page_loops.
Local Notation PS := SK_PAGE_SIZE.

(** [s'] differs from [s] in the list head and the page heads only, in the
    page heads only at [prev] (its link) and inside [P]. *)
Definition page_frame (prev : page_ref) (P : Z -> Prop) (s s' : slab_state) : Prop :=
  s' = set_page_list (sys_page_list s') (set_pages (fun _ => pages s') s) /\
  (forall a, ~ P a -> prev <> PNext a -> pages s' !! a = pages s !! a) /\
  (forall b, prev = PNext b -> page <$> pages s' !! b = page <$> pages s !! b) /\
  (prev <> PHead -> sys_page_list s' = sys_page_list s).

Lemma seg_head_covered lo l a n : segs_wf lo l -> (a, n) ∈ l -> covers l a.
Proof.
  pose proof page_size_pos.
  revert lo; induction l as [|[b k] l IH]; intros lo; simpl; [by intros _ ?%elem_of_nil|].
  intros (? & ? & Hwf) [[= -> ->]|Hin]%elem_of_cons; [left; pg|right; eauto].
Qed.

Lemma chain_ext pg pg' hd l :
  (forall a n, (a, n) ∈ l -> pg' !! a = pg !! a) -> chain pg hd l -> chain pg' hd l.
Proof.
  revert hd; induction l as [|[b k] l IH]; intros hd Heq; simpl; [done|].
  intros [-> (nx & Hb & Hc)]. split; [done|]. exists nx.
  rewrite (Heq b k) by left. split; [done|]. apply IH; [|done]. intros a n ?. apply (Heq a n). by right.
Qed.

(** The page heads of a chain outside [P] are untouched. *)
Lemma chain_frame lo prev P s s' hd l :
  page_frame prev P s s' -> segs_wf lo l ->
  (forall a, covers l a -> ~ P a /\ prev <> PNext a) ->
  chain (pages s) hd l -> chain (pages s') hd l.
Proof.
  intros (_ & Hf & _) Hwf HP. apply chain_ext. intros a n Hin.
  apply (seg_head_covered lo) in Hin; [|done]. destruct (HP a Hin). by apply Hf.
Qed.

Lemma page_frame_store prev (P : Z -> Prop) s n nxt num :
  P n -> prev <> PNext n -> page_frame prev P s (store_page n nxt num s).
Proof.
  intros Hn Hp. unfold store_page, set_pages, page_frame; simpl. split_and!.
  - by destruct s.
  - intros a Ha Hpa. rewrite lookup_insert_ne; [done|]. intros ->. done.
  - intros b ->. rewrite lookup_insert_ne; [done|]. congruence.
  - done.
Qed.

Lemma page_frame_trans prev P s1 s2 s3 :
  page_frame prev P s1 s2 -> page_frame prev P s2 s3 -> page_frame prev P s1 s3.
Proof.
  intros (E1 & A1 & B1 & C1) (E2 & A2 & B2 & C2). split_and!.
  - rewrite E2, E1. by destruct s1.
  - intros. rewrite A2, A1; done.
  - intros. rewrite B2, B1; done.
  - intros. rewrite C2, C1; done.
Qed.

(** Writing through [prev]. *)
Lemma store_ref_spec prev (P : Z -> Prop) s v hd :
  load_ref prev s = Some hd ->
  exists s', store_ref prev v s = Some s' /\ load_ref prev s' = Some v /\
    page_frame prev P s s' /\ (forall a, prev <> PNext a -> pages s' !! a = pages s !! a).
Proof.
  destruct prev as [|b]; simpl.
  - intros _. eexists. split_and!; try done.
  - destruct (pages s !! b) as [pb|] eqn:Hb; simpl; [|done]. intros _. eexists. split_and!; try done.
    + simpl. by rewrite lookup_insert_eq.
    + split_and!; simpl; try done.
      * intros a _ ?. rewrite lookup_insert_ne; [done|congruence].
      * intros ? [= <-]. by rewrite lookup_insert_eq, Hb.
    + intros a ?. simpl. rewrite lookup_insert_ne; [done|congruence].
Qed.

(** [n->page = num; n->next = nxt; *prev = n;] *)
Lemma link_page prev (P : Z -> Prop) s n nxt num hd lo l :
  load_ref prev s = Some hd -> P n -> prev <> PNext n ->
  chain (pages s) nxt l -> segs_wf lo l -> (forall a, covers l a -> a <> n /\ prev <> PNext a) ->
  exists s', store_ref prev n (store_page n nxt num s) = Some s' /\
    load_ref prev s' = Some n /\ chain (pages s') n ((n, num) :: l) /\ page_frame prev P s s'.
Proof.
  intros Hld Hn Hp Hc Hwf Hl.
  assert (load_ref prev (store_page n nxt num s) = Some hd) as Hld'.
  { destruct prev as [|b]; simpl in *; [done|]. rewrite lookup_insert_ne; [done|congruence]. }
  destruct (store_ref_spec prev P _ n hd Hld') as (s' & Hst & Hld2 & Hfr & Hoth).
  exists s'. split_and!; try done.
  - simpl. split; [done|]. exists nxt. rewrite Hoth by done. unfold store_page. simpl.
    rewrite lookup_insert_eq. split; [done|].
    eapply chain_ext, Hc. intros a m Hin. apply (seg_head_covered lo) in Hin; [|done].
    destruct (Hl a Hin). rewrite Hoth by done. unfold store_page. simpl. by rewrite lookup_insert_ne.
  - eapply page_frame_trans; [by apply page_frame_store|done].
Qed.

(** Recursion on the tail of the list, from the [next] field of its head. *)
Lemma page_step_frame prev (P P' : Z -> Prop) s s' b k hd' l' :
  pages s !! b = Some (mk_page hd' k) ->
  load_ref prev s = Some b ->
  page_frame (PNext b) P' s s' -> (forall a, P' a \/ a = b -> P a) ->
  (forall a, P a -> prev <> PNext a) ->
  (exists nx, load_ref (PNext b) s' = Some nx /\ chain (pages s') nx l') ->
  load_ref prev s' = Some b /\ chain (pages s') b ((b, k) :: l') /\ page_frame prev P s s'.
Proof.
  intros Hb Hld (E & A & B & C) HP Hprev (nx & Hnx & Hc). split_and!.
  - destruct prev as [|a]; simpl in *; [by rewrite C|].
    rewrite A; [done| |].
    + intros Ha. by apply (Hprev a); [auto|].
    + intros [= <-]. apply (Hprev b); auto.
  - simpl. split; [done|]. exists nx. split; [|done].
    specialize (B b eq_refl). rewrite Hb in B. simpl in *.
    destruct (pages s' !! b) as [[]|]; simpl in *; congruence.
  - split_and!; try done.
    + intros a Ha Hp. apply A; [auto|]. intros [= <-]. auto.
    + intros a ->. assert (a <> b) by (intros ->; apply (Hprev b); auto).
      rewrite A; [done| |congruence]. intros ?. apply (Hprev a); auto.
    + intros _. by apply C.
Qed.


(** The freed block follows the segment [b], which grows, over the next
    segment too if that follows the block. *)
Lemma page_free_after n num b k nx l s prev :
  load_ref prev s = Some b -> pages s !! b = Some (mk_page nx k) -> chain (pages s) nx l ->
  segs_wf (b + PS * k) l -> 0 < b -> 0 < k -> 0 < num -> b + PS * k = n ->
  (forall a, covers ((b, k) :: l) a -> prev <> PNext a) ->
  exists s',
    (let s0 := store_page b nx (k + num) s in
     if b + PS * (k + num) =? nx then
       px ← pages s0 !! nx; Some (store_page b (pnext px) (k + num + page px) s0)
     else Some s0) = Some s' /\ load_ref prev s' = Some b /\
    chain (pages s') b (seg_free n num ((b, k) :: l)) /\
    page_frame prev (fun a => covers ((b, k) :: l) a \/ a = n) s s'.
Proof.
  pose proof page_size_pos as HPS. intros Hld Hb Hc Hwf Hb0 Hk Hnum E Hprev.
  assert (prev <> PNext b) as Hpb by (apply Hprev; left; pg).
  cbn [seg_free]. rewrite (proj2 (Z.eqb_eq _ _) E). cbv zeta. destruct l as [|[c j] l]; simpl in Hc.
  { subst nx. destruct (Z.eqb_spec (b + PS * (k + num)) 0); [pg|]. eexists. split; [done|split; [|split; [simpl|]]].
    - destruct prev; simpl in *; [done|]. by rewrite lookup_insert_ne by congruence.
    - split; [done|]. exists 0. by rewrite lookup_insert_eq.
    - apply page_frame_store; [left; simpl; left; pg|done]. }
  destruct Hc as [-> (nx' & Hcj & Hc)]. simpl in Hwf. destruct Hwf as (Hbc & Hj & Hwf).
  assert (forall a m, (a, m) ∈ l -> b < a /\ c < a) as Habove.
  { intros a m Hin. apply (seg_head_covered _ _ _ _ Hwf) in Hin. eapply covers_above in Hin; [|done]. pg. }
  destruct (Z.eqb_spec (b + PS * (k + num)) c) as [E'|NE'].
  - simpl. rewrite lookup_insert_ne by pg. rewrite Hcj; simpl.
    eexists. split; [done|split; [|split; [simpl|]]].
    + destruct prev; simpl in *; [done|]. by rewrite !lookup_insert_ne by congruence.
    + split; [done|]. exists nx'. rewrite lookup_insert_eq. split; [done|].
      eapply chain_ext, Hc. intros a m Hin. specialize (Habove _ _ Hin). by rewrite !lookup_insert_ne by lia.
    + eapply page_frame_trans; apply page_frame_store; simpl; try done; left; left; pg.
  - eexists. split; [done|split; [|split; [simpl|]]].
    + destruct prev; simpl in *; [done|]. by rewrite lookup_insert_ne by congruence.
    + split; [done|]. exists c. rewrite lookup_insert_eq. split; [done|]. split; [done|].
      exists nx'. rewrite lookup_insert_ne by pg. split; [done|].
      eapply chain_ext, Hc. intros a m Hin. specialize (Habove _ _ Hin). by rewrite lookup_insert_ne by lia.
    + apply page_frame_store; [left; simpl; left; pg|done].
Qed.

(** [sk_page_free]'s walk inserts the freed pages as [seg_free] does. *)
Lemma page_free_loop_spec n num l : forall fuel prev lo s hd,
  (length l < fuel)%nat -> load_ref prev s = Some hd -> chain (pages s) hd l ->
  0 <= lo -> segs_wf lo l -> 0 < n -> 0 < num -> seg_apart n num l ->
  (forall a, covers l a \/ a = n -> prev <> PNext a) ->
  exists s' hd', page_free_loop fuel prev n num s = Some s' /\ load_ref prev s' = Some hd' /\
    chain (pages s') hd' (seg_free n num l) /\
    page_frame prev (fun a => covers l a \/ a = n) s s'.
Proof.
  pose proof page_size_pos as HPS.
  induction l as [|[b k] l IH]; intros [|fuel] prev lo s hd Hfuel Hld Hc Hlo Hwf Hn Hnum Hap Hprev;
    simpl in Hfuel; try lia.
  - simpl in Hc. subst hd. simpl. rewrite Hld. simpl.
    destruct (link_page prev (fun a => False \/ a = n) s n 0 num 0 lo []) as (s' & ? & ? & ? & ?);
      simpl; auto; try tauto. by eexists _, n.
  - destruct Hc as [-> (nx & Hb & Hc)]. destruct Hwf as (Hblo & Hk & Hwf).
    pose proof (seg_apart_cons _ _ _ _ _ Hnum Hk Hap) as [Hd Hapl].
    assert (forall a, covers l a -> b + PS * k < a) as Habove by eauto using covers_above.
    simpl. rewrite Hld; simpl. destruct (Z.eqb_spec b 0); [lia|]. rewrite Hb; simpl.
    assert (b <> n) as Hbn by pg.
    assert (~ covers l n) as Hnl by (apply Hapl; pg).
    assert (prev <> PNext b) as Hpb by (apply Hprev; left; simpl; left; pg).
    destruct (Z.eqb_spec (b + PS * k) n) as [E|NE].
    + destruct (page_free_after n num b k nx l s prev) as (s' & Hrun & Hld' & Hch & Hfr);
        try done; try pg; [intros a Ha; apply Hprev; by left|].
      exists s', b. cbn [seg_free] in Hch. rewrite (proj2 (Z.eqb_eq _ _) E) in Hch. done.
    + destruct (Z.eqb_spec b (n + PS * num)) as [E'|NE'].
      { destruct (link_page prev (fun a => covers ((b, k) :: l) a \/ a = n) s n nx (k + num) b (b + PS * k) l
          Hld) as (s' & ? & ? & ? & ?); [by right|apply Hprev; by right|done|done| |by eexists _, n].
        intros a Ha. split; [intros ->; done|]. apply Hprev. left. by right. }
      destruct (Z.ltb_spec (n + PS * num) b).
      { destruct (link_page prev (fun a => covers ((b, k) :: l) a \/ a = n) s n b num b lo ((b, k) :: l)
          Hld) as (s' & ? & ? & ? & ?); [by right|apply Hprev; by right|by simpl; eauto|done| |by eexists _, n].
        intros a Ha. split; [|apply Hprev; by left]. intros ->. destruct Ha; [pg|done]. }
      destruct (IH fuel (PNext b) (b + PS * k) s nx) as (s' & hd' & Hrun & Hld' & Hc' & Hfr);
        simpl; try done; try pg.
      { by rewrite Hb. }
      { intros a Ha [= <-]. destruct Ha as [Ha| ->]; [|done]. specialize (Habove _ Ha). pg. }
      exists s', b. split; [done|].
      destruct (page_step_frame prev (fun a => covers ((b, k) :: l) a \/ a = n) _ s s' b k nx
        (seg_free n num l) Hb Hld Hfr) as (? & ? & ?); eauto.
      * intros a [[?| ->]| ->]; [by left; right|by right|left; left; pg].
Qed.

(** [sk_page_alloc]'s walk takes pages as [seg_alloc] does. *)
Lemma page_alloc_loop_spec k l : forall fuel prev lo s hd,
  (length l < fuel)%nat -> load_ref prev s = Some hd -> chain (pages s) hd l ->
  0 <= lo -> segs_wf lo l -> 0 < k -> (forall a, covers l a -> prev <> PNext a) ->
  match seg_alloc k l with
  | None => page_alloc_loop fuel prev k s = Some (0, s)
  | Some (r, l') =>
      exists s' hd', page_alloc_loop fuel prev k s = Some (r, s') /\ load_ref prev s' = Some hd' /\
        chain (pages s') hd' l' /\ page_frame prev (covers l) s s'
  end.
Proof.
  pose proof page_size_pos as HPS.
  induction l as [|[b j] l IH]; intros [|fuel] prev lo s hd Hfuel Hld Hc Hlo Hwf Hk Hprev;
    simpl in Hfuel; try lia.
  - simpl in Hc. subst hd. simpl. by rewrite Hld.
  - destruct Hc as [-> (nx & Hb & Hc)]. destruct Hwf as (Hblo & Hj & Hwf).
    assert (forall a, covers l a -> b + PS * j < a) as Habove by eauto using covers_above.
    simpl. rewrite Hld; simpl. destruct (Z.eqb_spec b 0); [lia|]. rewrite Hb; simpl.
    destruct (Z.ltb_spec k j) as [Hkj|Hkj]; [|destruct (Z.eqb_spec j k) as [->|Hne]].
    + destruct (link_page prev (covers ((b, j) :: l)) s (b + PS * k) nx (j - k) b (b + PS * j) l Hld)
        as (s' & Hst & ? & ? & ?); [left; pg|apply Hprev; left; pg|done|done| |].
      * intros a Ha. split; [specialize (Habove _ Ha); pg|apply Hprev; by right].
      * rewrite Hst. simpl. by eexists _, (b + PS * k).
    + destruct (store_ref_spec prev (covers ((b, k) :: l)) s nx b Hld) as (s' & Hst & ? & ? & Hoth).
      rewrite Hst. simpl. exists s', nx. split_and!; try done.
      eapply chain_ext, Hc. intros a m Hin. apply Hoth, Hprev. right. by eapply seg_head_covered.
    + specialize (IH fuel (PNext b) (b + PS * j) s nx). simpl in IH. rewrite Hb in IH.
      destruct (seg_alloc k l) as [[r l']|]; simpl.
      * destruct IH as (s' & hd' & Hrun & Hld' & Hc' & Hfr); try done; try pg.
        { intros a Ha [= <-]. specialize (Habove _ Ha). pg. }
        exists s', b. split; [done|].
        destruct (page_step_frame prev (covers ((b, j) :: l)) _ s s' b j nx l' Hb Hld Hfr)
          as (? & ? & ?); eauto.
        intros a [?| ->]; [by right|left; pg].
      * apply IH; try done; try pg. intros a Ha [= <-]. specialize (Habove _ Ha). pg.
Qed.

(** A chain is no longer than the number of page heads, so the fuel is enough. *)
Lemma chain_fuel pg hd lo l : chain pg hd l -> segs_wf lo l -> (length l <= size pg)%nat.
Proof.
  intros Hc Hwf. rewrite <- (length_fmap fst l).
  assert (NoDup l.*1) as Hnd.
  { clear Hc. revert lo Hwf; induction l as [|[a n] l IH]; intros lo; simpl; [constructor|].
    intros (? & ? & Hwf). constructor; [|by eapply IH].
    intros ([a' n'] & -> & Hin)%list_elem_of_fmap. simpl in *.
    apply (seg_head_covered _ _ _ _ Hwf), (covers_above _ _ _ Hwf) in Hin. pg. }
  rewrite <- (size_list_to_set (C := gset Z) l.*1) by done. rewrite <- size_dom.
  apply subseteq_size. intros a Ha. apply elem_of_list_to_set in Ha. apply elem_of_dom.
  apply list_elem_of_fmap in Ha as ([a' n] & -> & Hin). simpl. clear -Hc Hin. revert hd Hc.
  induction l as [|[b k] l IH]; intros hd; simpl; [by apply elem_of_nil in Hin|].
  intros [-> (nx & Hb & Hc)]. apply elem_of_cons in Hin as [[= -> ->]|Hin]; eauto.
Qed.

Lemma sk_page_free_segs n num s l :
  free_list s l -> 0 < n -> 0 < num -> seg_apart n num l ->
  exists s', sk_page_free n num s = Some s' /\ free_list s' (seg_free n num l) /\
    page_frame PHead (fun a => covers l a \/ a = n) s s'.
Proof.
  intros [Hc Hwf] Hn Hnum Hap. pose proof (chain_fuel _ _ _ _ Hc Hwf).
  destruct (page_free_loop_spec n num l (page_fuel s) PHead 0 s (sys_page_list s))
    as (s' & hd' & ? & [= <-] & ? & ?); try done; try (unfold page_fuel; lia).
  exists s'. split_and!; try done. split; [done|by apply seg_free_wf].
Qed.

Lemma sk_page_alloc_segs k s l :
  free_list s l -> 0 < k ->
  match seg_alloc k l with
  | None => sk_page_alloc k s = Some (0, s)
  | Some (r, l') =>
      exists s', sk_page_alloc k s = Some (r, s') /\ free_list s' l' /\
        page_frame PHead (covers l) s s'
  end.
Proof.
  intros [Hc Hwf] Hk. pose proof (chain_fuel _ _ _ _ Hc Hwf).
  unfold sk_page_alloc. destruct (Z.eqb_spec k 0); [lia|].
  pose proof (page_alloc_loop_spec k l (page_fuel s) PHead 0 s (sys_page_list s)) as Hrun.
  pose proof (seg_alloc_spec 0 k l Hwf Hk) as Hspec.
  destruct (seg_alloc k l) as [[r l']|].
  - destruct Hrun as (s' & hd' & ? & [= <-] & ? & ?); try done; try (unfold page_fuel; lia).
    exists s'. split_and!; try done. split; [done|by destruct Hspec as (_ & ? & _)].
  - apply Hrun; try done; unfold page_fuel; lia.
Qed.

End page_loops.

(** ** Properties of the page allocator *)

(** Page-aligned segments. *)
Definition segs_aligned (l : list seg) : Prop := Forall (fun sg => sg.1 mod SK_PAGE_SIZE = 0) l.

Lemma seg_alloc_aligned k l b l' :
  seg_alloc k l = Some (b, l') -> segs_aligned l -> b mod SK_PAGE_SIZE = 0.
Proof.
  revert l'; induction l as [|[c j] l IH]; intros l'; simpl; [done|].
  destruct (k <? j); [by intros [= <- _] [? _]%Forall_cons|].
  destruct (j =? k); [by intros [= <- _] [? _]%Forall_cons|].
  destruct (seg_alloc k l) as [[r m]|]; simpl; [|done].
  intros [= -> _] [_ ?]%Forall_cons. by eapply IH.
Qed.

(** The pages [sk_page_alloc] took are apart from what is left, and freeing
    them restores the list. *)
Lemma seg_alloc_free lo k l b l' :
  segs_wf lo l -> 0 <= lo -> 0 < k -> seg_alloc k l = Some (b, l') ->
  0 < b /\ seg_apart b k l' /\ seg_free b k l' = l.
Proof.
  intros Hwf Hlo Hk E. pose proof (seg_alloc_spec lo k l Hwf Hk) as Hs. rewrite E in Hs.
  destruct Hs as (Hb & Hwf' & Hin & Hcov).
  assert (seg_apart b k l') as Hap by (intros p Hp [_ Hn]%Hcov; done).
  split_and!; [lia|done|].
  eapply (segs_unique lo); [by apply seg_free_wf|done|].
  intros p. rewrite (seg_free_covers lo) by done. rewrite Hcov. split.
  - intros [[? _]|?]; auto.
  - intros Hp. destruct (decide (b <= p < b + SK_PAGE_SIZE * k)); auto.
Qed.

(** C13: [sk_page_free] on a block that is not free returns, and afterwards the
    free list is again sorted and coalesced (no two neighbouring segments touch)
    and holds exactly the pages that were free before together with the pages
    of the block. *)
Theorem page_free_correct (addr num : Z) (s : slab_state) (l : list seg) :
  free_list s l -> 0 < addr -> 0 < num -> seg_apart addr num l ->
  exists s' l', sk_page_free addr num s = Some s' /\ free_list s' l' /\
    forall p, covers l' p <-> covers l p \/ addr <= p < addr + SK_PAGE_SIZE * num.
Proof.
  intros Hf Ha Hn Hap. destruct (sk_page_free_segs addr num s l) as (s' & ? & ? & _); try done.
  exists s', (seg_free addr num l). split_and!; try done.
  intros p. destruct Hf. by apply (seg_free_covers 0).
Qed.

(** [sk_page_alloc k] returns; a NULL result leaves the allocator as it was
    and means that no free segment has [k] pages; otherwise the [k] pages at
    the result were free, and exactly they are no longer free. *)
Theorem page_alloc_correct (k : Z) (s : slab_state) (l : list seg) :
  free_list s l -> 0 < k ->
  exists b s', sk_page_alloc k s = Some (b, s') /\
    ((b = 0 /\ s' = s /\ Forall (fun sg => sg.2 < k) l) \/
     (0 < b /\ (forall p, b <= p < b + SK_PAGE_SIZE * k -> covers l p) /\
      exists l', free_list s' l' /\
        forall p, covers l' p <-> covers l p /\ ~ (b <= p < b + SK_PAGE_SIZE * k))).
Proof.
  intros Hf Hk. pose proof (sk_page_alloc_segs k s l Hf Hk) as Hrun.
  destruct Hf as [_ Hwf]. pose proof (seg_alloc_spec 0 k l Hwf Hk) as Hs.
  destruct (seg_alloc k l) as [[b l']|].
  - destruct Hrun as (s' & ? & ? & _), Hs as (? & ? & ? & ?).
    exists b, s'. split; [done|]. right. eauto.
  - exists 0, s. auto.
Qed.

(** C14: allocating [k] pages and freeing them again restores the free list
    exactly, segment by segment, whatever was split or merged in between. *)
Theorem page_alloc_free_roundtrip (k b : Z) (s s' : slab_state) (l : list seg) :
  free_list s l -> 0 < k -> sk_page_alloc k s = Some (b, s') -> b <> 0 ->
  exists s'', sk_page_free b k s' = Some s'' /\ free_list s'' l.
Proof.
  intros Hf Hk E Hb. pose proof (sk_page_alloc_segs k s l Hf Hk) as Hrun.
  destruct (seg_alloc k l) as [[r l']|] eqn:Es; [|congruence].
  destruct Hrun as (s1 & E1 & Hf1 & _), Hf as [_ Hwf]. simplify_eq.
  destruct (seg_alloc_free 0 k l b l') as (Hr & Hap & <-); try done.
  destruct (sk_page_free_segs b k s' l') as (s2 & ? & ? & _); eauto.
Qed.

Lemma mask_down p : 0 <= p -> (p & ~~ SK_PAGE_MASK) = SK_PAGE_SIZE * (p / SK_PAGE_SIZE).
Proof.
  intros Hp. change SK_PAGE_MASK with (Z.ones 12). rewrite <- Z.ldiff_land, Z.ldiff_ones_r by lia.
  rewrite Z.shiftl_mul_pow2, Z.shiftr_div_pow2 by lia. change (2 ^ 12) with SK_PAGE_SIZE. lia.
Qed.

(** The number of pages of a large request. *)
Lemma align_pages size :
  0 < size <= 0x100000000 ->
  Z.shiftr (SK_ALIGN size SK_PAGE_SIZE) SK_PAGE_SHIFT = (size + (SK_PAGE_SIZE - 1)) / SK_PAGE_SIZE.
Proof.
  intros Hs. unfold SK_ALIGN. rewrite (uint_small 64 (size + _ - 1)) by (unfold SK_PAGE_SIZE; lia).
  change (SK_PAGE_SIZE - 1) with SK_PAGE_MASK. rewrite mask_down by (unfold SK_PAGE_SIZE; lia).
  replace (size + SK_PAGE_SIZE - 1) with (size + SK_PAGE_MASK) by (unfold SK_PAGE_MASK; lia).
  set (q := (size + SK_PAGE_MASK) / SK_PAGE_SIZE).
  assert (0 <= q <= 0x200000) by (unfold q, SK_PAGE_MASK, SK_PAGE_SIZE;
    split; [apply Z.div_pos|apply Z.div_le_upper_bound]; lia).
  rewrite uint_small by (unfold SK_PAGE_SIZE; lia).
  rewrite Z.shiftr_div_pow2 by done. change (2 ^ SK_PAGE_SHIFT) with SK_PAGE_SIZE.
  rewrite Z.mul_comm. by apply Z.div_mul.
Qed.

(** A large allocation (at or above the zone limit) that succeeds can be
    freed through its pointer alone: the page count recorded in the usage array
    is the one allocated, and the free list is restored exactly. *)
Theorem malloc_large_free_roundtrip (size p : Z) (s s' : slab_state) (l : list seg) :
  free_list s l -> segs_aligned l ->
  0 < size <= 0x100000000 -> sys_zone_limit s <= size ->
  sk_malloc size s = Some (p, s') -> p <> 0 ->
  exists s'', sk_free p s' = Some s'' /\ free_list s'' l.
Proof.
  intros Hf Hal Hsz Hlim E Hp. unfold sk_malloc in E.
  destruct (Z.eqb_spec size 0); [lia|]. destruct (Z.leb_spec (sys_zone_limit s) size); [|lia].
  unfold malloc_large in E. rewrite (align_pages size Hsz) in E.
  set (k := (size + (SK_PAGE_SIZE - 1)) / SK_PAGE_SIZE) in *.
  assert (0 < k < 2 ^ 30) as Hk.
  { unfold k, SK_PAGE_SIZE. split; [apply Z.div_str_pos; lia|apply Z.div_lt_upper_bound; lia]. }
  pose proof (sk_page_alloc_segs k s l Hf (proj1 Hk)) as Hrun.
  destruct (seg_alloc k l) as [[r l']|] eqn:Es; [|rewrite Hrun in E; simpl in E; congruence].
  destruct Hrun as (s1 & E1 & Hf1 & _), Hf as [_ Hwf]. rewrite E1 in E; simpl in E.
  destruct (seg_alloc_free 0 k l r l') as (Hr & Hap & <-); try done; [lia|].
  destruct (Z.eqb_spec r 0); [lia|]. simplify_eq.
  unfold sk_free. destruct (Z.eqb_spec p 0); [lia|].
  rewrite mask_down by lia. rewrite <- (Z_div_exact_2 p SK_PAGE_SIZE) by (done || by eapply seg_alloc_aligned).
  unfold btokup, set_usage; simpl. rewrite lookup_insert_eq; simpl.
  rewrite uint_small by lia.
  match goal with |- context [sk_page_free p k ?st] => destruct (sk_page_free_segs p k st l')
    as (s2 & ? & ? & _) end; [done|done|lia|done|by exists s2].
Qed.

(** ** Size classes *)

(** The chunk size of a zone index, from the table above [zone_index]. *)
Definition class_size (i : Z) : Z :=
  if i <=? 15 then 8 * (i + 1)
  else if i <=? 23 then 16 * (i - 7)
  else if i <=? 31 then 32 * (i - 15)
  else if i <=? 39 then 64 * (i - 23)
  else if i <=? 47 then 128 * (i - 31)
  else if i <=? 55 then 256 * (i - 39)
  else if i <=? 63 then 512 * (i - 47)
  else 1024 * (i - 55).

Definition class_ok (n : Z) : bool :=
  match zone_index n with
  | Some (i, r) =>
      (0 <=? i) && (i <? SK_NUM_ZONES) && (r =? class_size i) && (n <=? r) &&
      ((i =? 0) || (class_size (i - 1) <? n))
  | None => false
  end.

Lemma class_ok_range lo len :
  forallb class_ok (seqZ lo len) = true ->
  forall n, lo <= n < lo + len -> class_ok n = true.
Proof. rewrite forallb_forall. intros H n Hn. apply H, list_elem_of_In, elem_of_seqZ. lia. Qed.

Lemma class_ok_low n : 1 <= n < 1024 -> class_ok n = true.
Proof. apply (class_ok_range 1 1023). by vm_compute. Qed.

Lemma class_ok_high n : 2048 <= n < 16384 -> class_ok n = true.
Proof. apply (class_ok_range 2048 14336). vm_cast_no_check (eq_refl true). Qed.

(** Outside the range 1024 to 2047 a request below 16 KB gets the smallest
    of the 72 size classes that can hold it, and the rounded size handed to
    [sk_malloc] is the chunk size of that class: all requests that share a
    zone agree on its chunk size. *)
Theorem zone_index_smallest_class (n : Z) :
  1 <= n < 1024 \/ 2048 <= n < 16384 ->
  exists i, zone_index n = Some (i, class_size i) /\ 0 <= i < SK_NUM_ZONES /\
    n <= class_size i /\ (i = 0 \/ class_size (i - 1) < n).
Proof.
  intros Hn. assert (class_ok n = true) as Hok by (destruct Hn; auto using class_ok_low, class_ok_high).
  unfold class_ok in Hok. destruct (zone_index n) as [[i r]|]; [|done].
  rewrite !andb_true_iff, orb_true_iff, !Z.eqb_eq, !Z.leb_le, !Z.ltb_lt in Hok.
  destruct Hok as [[[[? ?] ->] ?] ?]. exists i. auto.
Qed.

(** ** Concrete heaps *)

Definition slab_zero : slab_state :=
  mk_slab 0 0 0 0 ∅ 0 0 0 0 0 ∅ ∅ ∅ ∅.

(** The state after [sk_system_mem_init] on a heap of 16 MB at 1 GB. *)
Definition heap16 : slab_state :=
  match sk_system_mem_init 0x40000000 0x41000000 slab_zero with
  | Some (_, s) => s
  | None => slab_zero
  end.

Definition heap16_segs : list seg := [(0x40000000 + 4 * 4096, 4092)].

Lemma heap16_free_list : free_list heap16 heap16_segs.
Proof.
  split; [|by vm_compute]. vm_compute. split; [done|]. exists 0. split; [done|]. done.
Qed.

Lemma page_free_correct_witness :
  exists s' l', sk_page_free 0x40000000 4 heap16 = Some s' /\ free_list s' l' /\
    forall p, covers l' p <-> covers heap16_segs p \/ 0x40000000 <= p < 0x40000000 + SK_PAGE_SIZE * 4.
Proof.
  apply page_free_correct; [apply heap16_free_list|lia|lia|].
  intros p Hp. unfold heap16_segs, SK_PAGE_SIZE in *; simpl. lia.
Defined.

Lemma page_alloc_correct_witness :
  exists b s', sk_page_alloc 3 heap16 = Some (b, s') /\
    ((b = 0 /\ s' = heap16 /\ Forall (fun sg => sg.2 < 3) heap16_segs) \/
     (0 < b /\ (forall p, b <= p < b + SK_PAGE_SIZE * 3 -> covers heap16_segs p) /\
      exists l', free_list s' l' /\
        forall p, covers l' p <-> covers heap16_segs p /\ ~ (b <= p < b + SK_PAGE_SIZE * 3))).
Proof. apply page_alloc_correct; [apply heap16_free_list|lia]. Defined.

Definition heap16_alloc3 : slab_state :=
  match sk_page_alloc 3 heap16 with Some (_, s) => s | None => heap16 end.

Lemma page_alloc_free_roundtrip_witness :
  exists s'', sk_page_free 0x40004000 3 heap16_alloc3 = Some s'' /\ free_list s'' heap16_segs.
Proof.
  apply (page_alloc_free_roundtrip 3 0x40004000 heap16 heap16_alloc3);
    [apply heap16_free_list|lia|by vm_compute|lia].
Defined.

Definition heap16_malloc : slab_state :=
  match sk_malloc 20000 heap16 with Some (_, s) => s | None => heap16 end.

Lemma malloc_large_free_roundtrip_witness :
  exists s'', sk_free 0x40004000 heap16_malloc = Some s'' /\ free_list s'' heap16_segs.
Proof.
  apply (malloc_large_free_roundtrip 20000 0x40004000 heap16 heap16_malloc);
    [apply heap16_free_list|by repeat constructor|lia|by vm_compute|by vm_compute|lia].
Defined.

(** Run a sequence of requests, collecting the results. *)
Fixpoint malloc_all (sizes : list Z) (s : slab_state) : option (list Z * slab_state) :=
  match sizes with
  | [] => Some ([], s)
  | n :: sizes => '(p, s) ← sk_malloc n s; '(ps, s) ← malloc_all sizes s; Some (p :: ps, s)
  end.

Fixpoint free_all (ptrs : list Z) (s : slab_state) : option slab_state :=
  match ptrs with
  | [] => Some s
  | p :: ptrs => s ← sk_free p s; free_all ptrs s
  end.

(** Requests from 1024 to 2047 bytes are rounded to a multiple of 127
    instead of 128, so two requests that share a zone disagree on its chunk
    size: after requests of 1024, 1025 and 1024 bytes on a fresh heap the
    second and the third block, both live, overlap. *)
Theorem zone_1024_blocks_overlap :
  exists p1 p2 p3 s, malloc_all [1024; 1025; 1024] heap16 = Some ([p1; p2; p3], s) /\
    p2 < p3 < p2 + 1025.
Proof. eexists _, _, _, _. split; [by vm_compute|]. lia. Qed.

(** The release of a third free zone decrements the list head
    [sys_zone_free] instead of its counter: after twelve blocks of 8190 bytes
    (four zones) are allocated and freed, the next request of a class without a
    zone reads a zone header that does not exist. *)
Theorem zone_release_corrupts_free_zones :
  ('(ps, s) ← malloc_all (replicate 12 8190) heap16;
   s ← free_all ps s;
   Some (sk_malloc 8 s)) = Some None.
Proof. vm_cast_no_check (eq_refl (A := option (option (Z * slab_state))) (Some None)). Qed.
