(* ===== verification/SlabZone.v ===== *)
(** * The zones of [src/mem/slab.c]: small blocks

    What [sk_malloc] and [sk_free] promise their callers: blocks that are in use
    never overlap, each is at least as large as was asked for, and NULL means that
    the pages are exhausted.  The heap is described by a ghost record: the free
    pages, what every allocated run of pages is (a zone with the list of its freed
    chunks, a spare zone, a large block), for every size class the zones with free
    chunks, and the spare zones.  The invariant relates it to the zone headers, the
    links of free chunks, the arrays of zone lists and the usage array.

    Two ways in which the code fails are outside of it: requests of 1024 to 2047
    bytes, whose blocks overlap ([zone_1024_blocks_overlap]), and the release of
    a zone when two zones are spare already ([zone_release_corrupts_free_zones]). *)

From S2P Require Import Prelude BaseDef Slab.

Local Open Scope c_scope.

(** ** The ghost heap *)

(** What a run of allocated pages is. *)
Inductive region :=
  | RZone (fr : list Z)   (* a zone in use, with its freed chunks *)
  | RSpare                (* a zone on the list [sys_zone_free] *)
  | RLarge (k : Z).       (* a block of [k] pages *)

Record heap := mk_heap {
  h_segs : list seg;
  h_reg : gmap Z region;
  h_lists : Z -> list Z;
  h_spare : list Z
}.

(** The pages of a region. *)
Definition rpages (s : slab_state) (r : region) : Z :=
  match r with RLarge k => k | _ => sys_zone_page_cnt s end.

(** The list of zones that starts at [hd], along [z_next]. *)
Fixpoint zchain (zs : gmap Z slab_zone) (hd : Z) (l : list Z) : Prop :=
  match l with
  | [] => hd = 0
  | a :: l => hd = a /\ a <> 0 /\ exists z, zs !! a = Some z /\ zchain zs (z_next z) l
  end.

(** The first chunks of the list that starts at [hd].  What follows the last
    of them is whatever the zone held before. *)
Fixpoint fchain (ck : gmap Z Z) (hd : Z) (fr : list Z) : Prop :=
  match fr with
  | [] => True
  | p :: fr => hd = p /\ exists nx, ck !! p = Some nx /\ fchain ck nx fr
  end.

Definition csize (z : slab_zone) : Z := class_size (z_zoneindex z).

Record zone_ok (zsize : Z) (ck : gmap Z Z) (a : Z) (fr : list Z) (z : slab_zone) : Prop := {
  zo_index : 0 <= z_zoneindex z < SK_NUM_ZONES;
  zo_small : 4 * csize z <= zsize;
  zo_size : z_chunksize z = csize z;
  zo_base : z_baseptr z = a + zone_offset (csize z);
  zo_nmax : z_nmax z = (zsize - zone_offset (csize z)) / csize z;
  zo_uindex : 0 <= z_uindex z < z_nmax z;
  zo_nfree : z_nfree z = Z.of_nat (length fr) + (z_nmax z - 1 - z_uindex z);
  zo_nodup : NoDup fr;
  zo_fr : forall p, p ∈ fr -> exists i, 0 <= i <= z_uindex z /\ p = z_baseptr z + i * csize z;
  zo_chain : fchain ck (z_freechunk z) fr
}.

(** The usage entries of the pages of a zone. *)
Definition used_small (s : slab_state) (a : Z) : Prop :=
  forall j, 0 <= j < sys_zone_page_cnt s ->
    usage s !! (btokup s a + j) = Some (mk_usage SK_PAGE_TYPE_SMALL j).

Definition region_ok (s : slab_state) (a : Z) (r : region) : Prop :=
  match r with
  | RZone fr => used_small s a /\
      exists z, zones s !! a = Some z /\ zone_ok (sys_zone_size s) (chunks s) a fr z
  | RSpare => used_small s a /\ is_Some (zones s !! a)
  | RLarge k => k < 2 ^ 30 /\ usage s !! btokup s a = Some (mk_usage SK_PAGE_TYPE_LARGE k)
  end.

(** The pages that the heap manages are those from [lo] to [hi]. *)
Section heap.
Context (lo hi : Z).

(** [k] pages at [a] that belong neither to the free pages nor to a region. *)
Record owned (h : heap) (s : slab_state) (a k : Z) : Prop := {
  ow_pos : 0 < a;
  ow_align : a mod SK_PAGE_SIZE = 0;
  ow_pages : 0 < k;
  ow_range : lo <= a /\ a + SK_PAGE_SIZE * k <= hi;
  ow_segs : seg_apart a k (h_segs h);
  ow_none : h_reg h !! a = None;
  ow_apart : forall b r, h_reg h !! b = Some r ->
    a + SK_PAGE_SIZE * k <= b \/ b + SK_PAGE_SIZE * rpages s r <= a
}.

(** A zone of class [i] with a free chunk. *)
Definition avail (h : heap) (s : slab_state) (i a : Z) : Prop :=
  exists fr z, h_reg h !! a = Some (RZone fr) /\ zones s !! a = Some z /\
    z_zoneindex z = i /\ z_nfree z <> 0.

Record geometry (s : slab_state) : Prop := {
  ge_size : sys_zone_size s = 32768 \/ sys_zone_size s = 65536 \/ sys_zone_size s = 131072;
  ge_limit : sys_zone_limit s = Z.min (sys_zone_size s / 4) SK_ZONE_LIMIT;
  ge_pages : sys_zone_size s = SK_PAGE_SIZE * sys_zone_page_cnt s
}.

Definition reg_apart (reg : gmap Z region) (s : slab_state) : Prop :=
  forall a b r q, reg !! a = Some r -> reg !! b = Some q -> a < b ->
    a + SK_PAGE_SIZE * rpages s r <= b.

(** Pages and zones, apart from the lists of zones. *)
Record heap_core (h : heap) (s : slab_state) : Prop := {
  hi_geom : geometry s;
  hi_free : free_list s (h_segs h);
  hi_aligned : segs_aligned (h_segs h);
  hi_space : forall a r, h_reg h !! a = Some r ->
    0 < a /\ a mod SK_PAGE_SIZE = 0 /\ 0 < rpages s r /\ seg_apart a (rpages s r) (h_segs h);
  hi_apart : reg_apart (h_reg h) s;
  hi_region : forall a r, h_reg h !! a = Some r -> region_ok s a r;
  hi_segs : forall p, covers (h_segs h) p -> lo <= p < hi;
  hi_range : forall a r, h_reg h !! a = Some r -> lo <= a /\ a + SK_PAGE_SIZE * rpages s r <= hi
}.

Record heap_inv (h : heap) (s : slab_state) : Prop := {
  hi_core :> heap_core h s;
  hi_lists : forall i, zchain (zones s) (zone_at s i) (h_lists h i) /\ NoDup (h_lists h i) /\
    forall a, a ∈ h_lists h i <-> avail h s i a;
  hi_spare : zchain (zones s) (sys_zone_free s) (h_spare h) /\ NoDup (h_spare h) /\
    (forall a, a ∈ h_spare h <-> h_reg h !! a = Some RSpare) /\
    sys_zone_free_cnt s = Z.of_nat (length (h_spare h))
}.

(** A block in use: a chunk below the watermark of its zone that is not on the
    zone's free list, or a large block. *)
Definition live (h : heap) (s : slab_state) (p n : Z) : Prop :=
  (exists a fr z i, h_reg h !! a = Some (RZone fr) /\ zones s !! a = Some z /\
     0 <= i <= z_uindex z /\ p = z_baseptr z + i * csize z /\ p ∉ fr /\ n = csize z) \/
  (exists k, h_reg h !! p = Some (RLarge k) /\ n = SK_PAGE_SIZE * k).

(** ** The contract *)

(** The state of the heap for a client: its free pages and its blocks. *)
Definition heap_rep (s : slab_state) (l : list seg) (B : gmap Z Z) : Prop :=
  exists h, heap_inv h s /\ h_segs h = l /\ forall p n, B !! p = Some n <-> live h s p n.

(** The pages a request needs when no chunk is at hand, and the size of its block. *)
Definition need_pages (size : Z) (s : slab_state) : Z :=
  if sys_zone_limit s <=? size then (size + (SK_PAGE_SIZE - 1)) / SK_PAGE_SIZE
  else sys_zone_page_cnt s.

Definition block_size (size : Z) (s : slab_state) : Z :=
  if sys_zone_limit s <=? size then SK_PAGE_SIZE * ((size + (SK_PAGE_SIZE - 1)) / SK_PAGE_SIZE)
  else match zone_index size with Some (_, n) => n | None => 0 end.

Inductive heap_call := Malloc (size : Z) | Free (ptr : Z).

Definition run_heap (c : heap_call) (s : slab_state) : option (Z * slab_state) :=
  match c with
  | Malloc size => sk_malloc size s
  | Free ptr => s ← sk_free ptr s; Some (0, s)
  end.

(** The calls the contract is about: not the class whose blocks overlap, and no
    release of a zone. *)
Definition allowed (s : slab_state) (B : gmap Z Z) (c : heap_call) : Prop :=
  match c with
  | Malloc size => 0 <= size <= 0x100000000 /\ ~ 1024 <= size < 2048
  | Free ptr => ptr = 0 \/ (is_Some (B !! ptr) /\ sys_zone_free_cnt s < SK_ZONE_RELEASE_NUM)
  end.

(** The blocks after the call [c] has returned [r]. *)
Definition blocks_after (s : slab_state) (B : gmap Z Z) (c : heap_call) (r : Z) : gmap Z Z :=
  match c with
  | Malloc size => if r =? 0 then B else <[r := block_size size s]> B
  | Free ptr => delete ptr B
  end.

(** What the result of a call may be: a new block at an address that is a multiple
    of eight, as large as asked for and apart from all others, or NULL when the
    pages do not suffice. *)
Definition call_result (s : slab_state) (l : list seg) (B : gmap Z Z) (c : heap_call) (r : Z) (s' : slab_state) : Prop :=
  match c with
  | Malloc size =>
      (r = 0 /\ s' = s /\ (size = 0 \/ Forall (fun sg => sg.2 < need_pages size s) l)) \/
      (0 < r /\ r mod 8 = 0 /\ size <= block_size size s /\
       lo <= r /\ r + block_size size s <= hi /\
       forall q m, B !! q = Some m -> r + block_size size s <= q \/ q + m <= r)
  | Free ptr => r = 0
  end.

(** ** Lists of zones and of chunks *)

Lemma zchain_ext zs zs' hd l :
  (forall b, b ∈ l -> z_next <$> zs' !! b = z_next <$> zs !! b) ->
  zchain zs hd l -> zchain zs' hd l.
Proof.
  revert hd. induction l as [|b l IH]; intros hd Hx; simpl; [done|].
  intros (-> & Hb & z & Ez & Hc). split_and!; [done..|].
  specialize (Hx b (list_elem_of_here _ _)) as Hxb. rewrite Ez in Hxb.
  destruct (zs' !! b) as [z'|] eqn:E; simplify_eq/=. exists z'. split; [done|].
  rewrite Hxb. apply IH; [|done]. intros c Hc'. apply Hx. by right.
Qed.

(** A zone that is not on a list can be written. *)
Lemma zchain_insert zs hd l a z : a ∉ l -> zchain zs hd l -> zchain (<[a := z]> zs) hd l.
Proof. intros Ha. apply zchain_ext. intros b Hb. rewrite lookup_insert_ne; [done|]. by intros ->. Qed.

(** So can one on a list, when the link stays. *)
Lemma zchain_update zs hd l a z z' :
  zs !! a = Some z -> z_next z' = z_next z -> zchain zs hd l -> zchain (<[a := z']> zs) hd l.
Proof.
  intros Ez En. apply zchain_ext. intros b _. destruct (decide (b = a)) as [->|].
  - rewrite lookup_insert_eq, Ez. simpl. by rewrite En.
  - by rewrite lookup_insert_ne.
Qed.

Lemma zchain_zones zs hd l a : zchain zs hd l -> a ∈ l -> is_Some (zs !! a).
Proof.
  revert hd. induction l as [|b l IH]; intros hd; simpl; [by intros _ ?%elem_of_nil|].
  intros (-> & _ & z & Ez & Hc) [->|Hin]%elem_of_cons; eauto.
Qed.

Lemma zchain_head zs hd l : zchain zs hd l -> hd <> 0 -> exists l', l = hd :: l'.
Proof. destruct l as [|a l]; simpl; [done|]. intros (-> & _) _. eauto. Qed.

(** No list of zones is longer than the number of zones. *)
Lemma zchain_length zs hd l : zchain zs hd l -> NoDup l -> (length l <= size zs)%nat.
Proof.
  intros Hc Hnd. rewrite <- (size_list_to_set (C := gset Z) l) by done. rewrite <- size_dom.
  apply subseteq_size. intros a Ha. apply elem_of_list_to_set in Ha. apply elem_of_dom.
  by eapply zchain_zones.
Qed.

Lemma fchain_ext ck ck' hd fr :
  (forall p, p ∈ fr -> ck' !! p = ck !! p) -> fchain ck hd fr -> fchain ck' hd fr.
Proof.
  revert hd. induction fr as [|p fr IH]; intros hd Hx; simpl; [done|].
  intros (-> & nx & E & Hc). split; [done|]. exists nx. rewrite Hx by left. split; [done|].
  apply IH; [|done]. intros q Hq. apply Hx. by right.
Qed.

(** ** Chunks *)

(** The first chunk lies behind the header and leaves room for two chunks at
    least; sizes and offsets are multiples of eight. *)
Definition class_fits (i : Z) : bool :=
  let c := class_size i in
  let off := zone_offset c in
  (8 <=? c) && (c mod 8 =? 0) && (off mod 8 =? 0) && (sizeof_slab_zone <=? off) &&
  ((off + 2 * c <=? 4 * c) || (off + 2 * c <=? 32768)).

Lemma class_fits_all i :
  0 <= i < SK_NUM_ZONES ->
  8 <= class_size i /\ class_size i mod 8 = 0 /\ zone_offset (class_size i) mod 8 = 0 /\
  sizeof_slab_zone <= zone_offset (class_size i) /\
  (zone_offset (class_size i) + 2 * class_size i <= 4 * class_size i \/
   zone_offset (class_size i) + 2 * class_size i <= 32768).
Proof.
  intros Hi. assert (forallb class_fits (seqZ 0 SK_NUM_ZONES) = true) as H by by vm_compute.
  rewrite forallb_forall in H. specialize (H i). rewrite <- list_elem_of_In, elem_of_seqZ in H.
  specialize (H ltac:(lia)). unfold class_fits in H.
  rewrite !andb_true_iff, orb_true_iff, !Z.leb_le, !Z.eqb_eq in H. tauto.
Qed.

Section zone.
Context (zsize : Z) (ck : gmap Z Z) (a : Z) (fr : list Z) (z : slab_zone).
Hypothesis Hok : zone_ok zsize ck a fr z.

Lemma csize_pos : 8 <= csize z.
Proof. apply class_fits_all, (zo_index _ _ _ _ _ Hok). Qed.

(** A chunk lies inside its zone, behind the header. *)
Lemma chunk_inside i :
  0 <= i < z_nmax z ->
  a + sizeof_slab_zone <= z_baseptr z + i * csize z /\
  z_baseptr z + i * csize z + csize z <= a + zsize.
Proof.
  pose proof csize_pos as Hc. destruct Hok as [Hi _ _ -> -> _ _ _ _ _].
  destruct (class_fits_all _ Hi) as (_ & _ & _ & Ho & _). unfold csize in *.
  set (c := class_size (z_zoneindex z)) in *. set (q := (zsize - zone_offset c) / c). intros Hr.
  assert (c * q <= zsize - zone_offset c) by (apply Z.mul_div_le; lia). nia.
Qed.

Lemma chunk_inj i j : z_baseptr z + i * csize z = z_baseptr z + j * csize z -> i = j.
Proof. pose proof csize_pos. intros. nia. Qed.

End zone.

(** ** What the parts of the invariant depend on *)

(** Two zone headers that differ in their links at most. *)
Definition eq_but_next (z z' : slab_zone) : Prop := exists n, z' = mk_zone (z_magic z) (z_nfree z)
  (z_nmax z) n (z_baseptr z) (z_uindex z) (z_chunksize z) (z_zoneindex z) (z_freechunk z).

Lemma eq_but_next_refl z : eq_but_next z z.
Proof. exists (z_next z). by destruct z. Qed.

Lemma zone_ok_next zsize ck a fr z z' :
  eq_but_next z z' -> zone_ok zsize ck a fr z -> zone_ok zsize ck a fr z'.
Proof. intros [n ->] []. split; done. Qed.

(** The fields that neither page nor zone operations write. *)
Definition same_layout (s s' : slab_state) : Prop :=
  sys_mem_start s' = sys_mem_start s /\ sys_zone_size s' = sys_zone_size s /\
  sys_zone_limit s' = sys_zone_limit s /\ sys_zone_page_cnt s' = sys_zone_page_cnt s.

Lemma same_layout_btokup s s' p : same_layout s s' -> btokup s' p = btokup s p.
Proof. intros (E & _). unfold btokup. by rewrite E. Qed.

Lemma same_layout_rpages s s' r : same_layout s s' -> rpages s' r = rpages s r.
Proof. intros (_ & _ & _ & E). destruct r; simpl; congruence. Qed.

Lemma same_layout_geometry s s' : same_layout s s' -> geometry s -> geometry s'.
Proof. intros (_ & E1 & E2 & E3) []. split; congruence. Qed.

Definition inside (s : slab_state) (a : Z) (r : region) (p : Z) : Prop :=
  a <= p < a + SK_PAGE_SIZE * rpages s r.

(** The chunks of a zone are inside it. *)
Lemma zone_fr_inside s a fr z p :
  geometry s -> zone_ok (sys_zone_size s) (chunks s) a fr z -> p ∈ fr -> inside s a (RZone fr) p.
Proof.
  intros G Hok Hp. destruct (zo_fr _ _ _ _ _ Hok p Hp) as (i & Hi & ->).
  pose proof (zo_uindex _ _ _ _ _ Hok). pose proof (csize_pos _ _ _ _ _ Hok).
  destruct (chunk_inside _ _ _ _ _ Hok i) as [? ?]; [lia|].
  unfold inside, sizeof_slab_zone in *; simpl. rewrite <- (ge_pages _ G). lia.
Qed.

(** A region stays in order when its usage entries, its chunks and all of its
    header but the link stay. *)
Lemma region_ok_frame s s' a r :
  geometry s -> same_layout s s' ->
  (forall j, 0 <= j < rpages s r -> usage s' !! (btokup s a + j) = usage s !! (btokup s a + j)) ->
  (forall z, zones s !! a = Some z -> exists z', zones s' !! a = Some z' /\ eq_but_next z z') ->
  (forall p, inside s a r p -> chunks s' !! p = chunks s !! p) ->
  0 < rpages s r -> region_ok s a r -> region_ok s' a r.
Proof.
  intros G HL Hu Hz Hk Hpos. assert (sys_zone_page_cnt s' = sys_zone_page_cnt s) as Ec by apply HL.
  assert (used_small s a -> (forall j, 0 <= j < sys_zone_page_cnt s ->
    usage s' !! (btokup s a + j) = usage s !! (btokup s a + j)) -> used_small s' a) as Hsmall.
  { intros Hs Hu' j Hj. rewrite Ec in Hj. rewrite (same_layout_btokup _ _ _ HL), Hu' by done. auto. }
  destruct r as [fr| |k]; simpl in *.
  - intros (Hs & z & Ez & Hok). split; [auto|]. destruct (Hz z Ez) as (z' & Ez' & Hn).
    exists z'. split; [done|]. apply (zone_ok_next _ _ _ _ z); [done|].
    assert (sys_zone_size s' = sys_zone_size s) as -> by apply HL.
    pose proof (fun p => zone_fr_inside s a fr z p G Hok) as Hin. destruct Hok. split; try done.
    eapply fchain_ext; [|done]. auto.
  - intros (Hs & z & Ez). split; [auto|]. destruct (Hz z Ez) as (z' & -> & _). done.
  - intros [Hk30 Eu]. split; [done|]. rewrite (same_layout_btokup _ _ _ HL).
    specialize (Hu 0 ltac:(lia)). rewrite Z.add_0_r in Hu. by rewrite Hu.
Qed.

(** ** Pages *)

(** Usage entries of disjoint runs of pages are different. *)
Lemma btokup_apart s a k b j :
  a + SK_PAGE_SIZE * k <= b -> btokup s a + k <= btokup s b + j \/ j < 0.
Proof.
  intros Hab. destruct (Z.neg_nonneg_cases j); [by right|left].
  unfold btokup. rewrite !Z.shiftr_div_pow2 by done. change (2 ^ SK_PAGE_SHIFT) with SK_PAGE_SIZE.
  assert ((a - sys_mem_start s + k * SK_PAGE_SIZE) / SK_PAGE_SIZE <= (b - sys_mem_start s) / SK_PAGE_SIZE)
    as Hle by (apply Z.div_le_mono; pg).
  rewrite Z.div_add in Hle by done. lia.
Qed.

(** The page allocator changes the list of free pages only. *)
Lemma page_frame_fields P s s' :
  page_frame PHead P s s' ->
  same_layout s s' /\ usage s' = usage s /\ zones s' = zones s /\ chunks s' = chunks s /\
  sys_zone_array s' = sys_zone_array s /\ sys_zone_free s' = sys_zone_free s /\
  sys_zone_free_cnt s' = sys_zone_free_cnt s.
Proof. intros [E _]. rewrite E. by repeat split. Qed.

Definition with_segs (l : list seg) (h : heap) : heap := mk_heap l (h_reg h) (h_lists h) (h_spare h).

Lemma heap_inv_pages h s s' l P :
  heap_inv h s -> page_frame PHead P s s' -> free_list s' l -> segs_aligned l ->
  (forall a r, h_reg h !! a = Some r -> seg_apart a (rpages s r) l) ->
  (forall p, covers l p -> lo <= p < hi) ->
  heap_inv (with_segs l h) s'.
Proof.
  intros [[G F Al Sp Ap Rg Rs Rr] Li Sr] Hf Hfl Hal Hap Hrg.
  destruct (page_frame_fields _ _ _ Hf) as (HL & Eu & Ez & Ec & Ea & Efr & Ecn).
  split; [split|..]; simpl; try done.
  - by eapply same_layout_geometry.
  - intros a r Hr. rewrite (same_layout_rpages _ _ _ HL). destruct (Sp a r Hr) as (? & ? & ? & _). auto.
  - intros a b r q Hr Hq Hab. rewrite (same_layout_rpages _ _ _ HL). by eapply Ap.
  - intros a r Hr. destruct (Sp a r Hr) as (_ & _ & Hpos & _).
    apply (region_ok_frame s); auto; try (intros; congruence).
    intros z Hz. exists z. rewrite Ez. auto using eq_but_next_refl.
  - intros a r Hr. rewrite (same_layout_rpages _ _ _ HL). auto.
  - intros i. unfold zone_at, avail in *. simpl. rewrite Ea, Ez. apply Li.
  - rewrite Ez, Efr, Ecn. apply Sr.
Qed.

Lemma seg_apart_subset a k l l' :
  (forall p, covers l' p -> covers l p) -> seg_apart a k l -> seg_apart a k l'.
Proof. intros Hs Hap p Hp Hc. by apply (Hap p Hp), Hs. Qed.

Lemma seg_alloc_segs_aligned k l b l' :
  seg_alloc k l = Some (b, l') -> segs_aligned l -> segs_aligned l'.
Proof.
  revert l'. induction l as [|[c j] l IH]; intros l'; simpl; [done|]. unfold segs_aligned.
  destruct (k <? j); [|destruct (j =? k)].
  - intros [= _ <-] [Hc Hl]%Forall_cons. constructor; [|done]. simpl in *.
    rewrite Z.mul_comm, Z.mod_add by done. done.
  - intros [= _ <-] [_ Hl]%Forall_cons. done.
  - destruct (seg_alloc k l) as [[r m]|]; simpl; [|done].
    intros [= <- <-] [Hc Hl]%Forall_cons. constructor; [done|]. by eapply IH.
Qed.

Lemma seg_free_segs_aligned n num l :
  n mod SK_PAGE_SIZE = 0 -> segs_aligned l -> segs_aligned (seg_free n num l).
Proof.
  intros Hn. induction l as [|[b k] l IH]; simpl; [by repeat constructor|].
  intros [Hb Hl]%Forall_cons. unfold segs_aligned in *. simpl in *.
  destruct (_ =? n).
  { destruct l as [|[c j] l]; [by repeat constructor|]. apply Forall_cons in Hl as [Hc Hl].
    destruct (_ =? c); by repeat constructor. }
  destruct (b =? _); [by constructor|]. destruct (_ <? b); repeat constructor; auto.
Qed.

(** [sk_page_alloc] hands out pages that nobody has. *)
Lemma page_take h s k :
  heap_inv h s -> 0 < k ->
  (sk_page_alloc k s = Some (0, s) /\ Forall (fun sg => sg.2 < k) (h_segs h)) \/
  exists a l s', sk_page_alloc k s = Some (a, s') /\ 0 < a /\
    page_frame PHead (covers (h_segs h)) s s' /\
    heap_inv (with_segs l h) s' /\ owned (with_segs l h) s' a k.
Proof.
  intros HI Hk. pose proof (hi_free _ _ HI) as Hf. pose proof (sk_page_alloc_segs k s _ Hf Hk) as Hrun.
  destruct Hf as [_ Hwf]. pose proof (seg_alloc_spec 0 k _ Hwf Hk) as Hs.
  destruct (seg_alloc k (h_segs h)) as [[a l]|] eqn:Es; [right|left; auto].
  destruct Hrun as (s' & E & Hf' & Hfr), Hs as (Ha & Hwf' & Hin & Hcov).
  pose proof (hi_aligned _ _ HI) as Hal.
  exists a, l, s'. split_and!; try done.
  - eapply heap_inv_pages; eauto using seg_alloc_segs_aligned.
    + intros b r Hr. eapply seg_apart_subset; [|by apply (hi_space _ _ HI)]. intros p. rewrite Hcov. tauto.
    + intros p [Hp _]%Hcov. by apply (hi_segs _ _ HI).
  - assert (forall b r, h_reg h !! b = Some r ->
      a + SK_PAGE_SIZE * k <= b \/ b + SK_PAGE_SIZE * rpages s r <= a) as Hsep.
    { intros b r Hr. destruct (hi_space _ _ HI b r Hr) as (_ & _ & Hp & Hap).
      destruct (decide (a + SK_PAGE_SIZE * k <= b)); [by left|right].
      destruct (decide (b + SK_PAGE_SIZE * rpages s r <= a)); [done|exfalso].
      apply (Hap (Z.max a b)); [|apply Hin]; pg. }
    split; simpl; try done.
    + by eapply seg_alloc_aligned.
    + pose proof (hi_segs _ _ HI a (Hin a ltac:(pg))).
      pose proof (hi_segs _ _ HI (a + SK_PAGE_SIZE * k - 1) (Hin (a + SK_PAGE_SIZE * k - 1) ltac:(pg))). lia.
    + intros p Hp [_ Hn]%Hcov. done.
    + destruct (h_reg h !! a) as [r|] eqn:Er; [|done].
      destruct (hi_space _ _ HI a r Er) as (_ & _ & Hp & _), (Hsep a r Er); pg.
    + intros b r Hr. rewrite (same_layout_rpages s); [auto|]. by eapply page_frame_fields.
Qed.

(** [sk_page_free] takes back what a caller owns. *)
Lemma page_give h s a k :
  heap_inv h s -> owned h s a k ->
  exists s' P, sk_page_free a k s = Some s' /\ page_frame PHead P s s' /\
    heap_inv (with_segs (seg_free a k (h_segs h)) h) s'.
Proof.
  intros HI [Hpos Hal Hk Hrg Hap _ Hsep]. pose proof (hi_free _ _ HI) as Hf.
  destruct (sk_page_free_segs a k s _ Hf Hpos Hk Hap) as (s' & E & Hf' & Hfr).
  exists s', (fun b => covers (h_segs h) b \/ b = a). split_and!; [done..|].
  pose proof (hi_aligned _ _ HI). eapply heap_inv_pages; eauto using seg_free_segs_aligned.
  - intros b r Hr p Hp. rewrite (seg_free_covers 0) by (done || apply Hf).
    destruct (hi_space _ _ HI b r Hr) as (_ & _ & _ & Hb). specialize (Hb p Hp).
    destruct (Hsep b r Hr); intros [?|?]; [done|pg|done|pg].
  - intros p. rewrite (seg_free_covers 0) by (done || apply Hf). intros [?|?]; [by apply (hi_segs _ _ HI)|lia].
Qed.

(** ** Regions *)

Lemma owned_layout h s s' a k : same_layout s s' -> owned h s a k -> owned h s' a k.
Proof.
  intros HL [? ? ? ? ? ? Hs]. split; try done. intros b r Hr. rewrite (same_layout_rpages _ _ _ HL). auto.
Qed.

(** The regions stay as they are while an owner writes its own pages: usage
    entries, headers and chunks of others are not touched, links may change. *)
Lemma core_frame h s s' :
  heap_core h s -> same_layout s s' -> sys_page_list s' = sys_page_list s -> pages s' = pages s ->
  (forall a r j, h_reg h !! a = Some r -> 0 <= j < rpages s r ->
     usage s' !! (btokup s a + j) = usage s !! (btokup s a + j)) ->
  (forall a r z, h_reg h !! a = Some r -> zones s !! a = Some z ->
     exists z', zones s' !! a = Some z' /\ eq_but_next z z') ->
  (forall a r p, h_reg h !! a = Some r -> inside s a r p -> chunks s' !! p = chunks s !! p) ->
  heap_core h s'.
Proof.
  intros [G F Al Sp Ap Rg Rs Rr] HL El Ep Hu Hz Hk. split; try done.
  - by eapply same_layout_geometry.
  - unfold free_list. by rewrite El, Ep.
  - intros a r Hr. rewrite (same_layout_rpages _ _ _ HL). auto.
  - intros a b r q Hr Hq Hab. rewrite (same_layout_rpages _ _ _ HL). by eapply Ap.
  - intros a r Hr. destruct (Sp a r Hr) as (_ & _ & Hpos & _). apply (region_ok_frame s); eauto.
  - intros a r Hr. rewrite (same_layout_rpages _ _ _ HL). auto.
Qed.

Definition with_reg (reg : gmap Z region) (h : heap) : heap :=
  mk_heap (h_segs h) reg (h_lists h) (h_spare h).

(** What is owned becomes a region. *)
Lemma core_add h s a r :
  heap_core h s -> owned h s a (rpages s r) -> region_ok s a r ->
  heap_core (with_reg (<[a := r]> (h_reg h)) h) s.
Proof.
  intros [G F Al Sp Ap Rg Rs Rr] [Hpos Hal Hk Hrg Hseg Hn Hsep] Hr. split; simpl; try done.
  - intros b q [[<- <-]|[Hne Hq]]%lookup_insert_Some; auto.
  - intros b c q t [[<- <-]|[Hb Hq]]%lookup_insert_Some [[<- <-]|[Hc Ht]]%lookup_insert_Some Hlt;
      try lia; [| |by eapply Ap].
    + destruct (Hsep c t Ht), (Sp c t Ht) as (_ & _ & ? & _); [done|pg].
    + destruct (Hsep b q Hq); pg.
  - intros b q [[<- <-]|[Hne Hq]]%lookup_insert_Some; auto.
  - intros b q [[<- <-]|[Hne Hq]]%lookup_insert_Some; auto.
Qed.

(** A region that is given up is owned. *)
Lemma core_remove h s a r :
  heap_core h s -> h_reg h !! a = Some r ->
  heap_core (with_reg (delete a (h_reg h)) h) s /\
  owned (with_reg (delete a (h_reg h)) h) s a (rpages s r).
Proof.
  intros [G F Al Sp Ap Rg Rs Rr] Hr. destruct (Sp a r Hr) as (Hpos & Hal & Hk & Hseg). split; split; simpl; try done.
  - intros b q [_ Hq]%lookup_delete_Some. auto.
  - intros b c q t [_ Hq]%lookup_delete_Some [_ Ht]%lookup_delete_Some. by apply (Ap b c q t).
  - intros b q [_ Hq]%lookup_delete_Some. auto.
  - intros b q [_ Hq]%lookup_delete_Some. auto.
  - by apply Rr.
  - apply lookup_delete_eq.
  - intros b q [Hne Hq]%lookup_delete_Some. destruct (Z.lt_total a b) as [?|[?|?]]; [left|done|right].
    + by apply (Ap a b r q).
    + by apply (Ap b a q r).
Qed.

(** Usage entries of owned pages belong to no region. *)
Lemma owned_usage h s a k b r j :
  owned h s a k -> h_reg h !! b = Some r -> 0 <= j < rpages s r ->
  ~ (btokup s a <= btokup s b + j < btokup s a + k).
Proof.
  intros Ho Hr Hj. destruct (ow_apart _ _ _ _ Ho b r Hr) as [Hs|Hs].
  - destruct (btokup_apart s a k b j Hs); lia.
  - pose proof (ow_pages _ _ _ _ Ho). destruct (btokup_apart s b (rpages s r) a 0 Hs); lia.
Qed.

Lemma heap_inv_usage h s a k f :
  heap_inv h s -> owned h s a k ->
  (forall i, ~ (btokup s a <= i < btokup s a + k) -> f (usage s) !! i = usage s !! i) ->
  heap_inv h (set_usage f s).
Proof.
  intros [Hc Li Sr] Ho Hf. split; [|done|done].
  apply (core_frame h s); try done.
  - intros b r j Hr Hj. apply Hf. by eapply owned_usage.
  - intros b r z _ Hz. exists z. auto using eq_but_next_refl.
Qed.

(** So does the header of an owned zone. *)
Lemma heap_inv_header h s a z :
  heap_inv h s -> h_reg h !! a = None -> heap_inv h (set_zones (<[a := z]>) s).
Proof.
  intros HI Hn. pose proof HI as [Hc Li Sr].
  assert (forall b r, h_reg h !! b = Some r -> a <> b) as Hne by (intros b r Hr ->; congruence).
  split; simpl.
  - apply (core_frame h s); try done. intros b r z' Hr Hz. exists z'. simpl.
    rewrite lookup_insert_ne by eauto. auto using eq_but_next_refl.
  - intros i. destruct (Li i) as (Hz & Hnd & Hav). split_and!; [|done|].
    + apply zchain_insert; [|done]. rewrite Hav. intros (fr & z' & Hr & _). congruence.
    + intros b. rewrite Hav. unfold avail; simpl.
      split; intros (fr & z' & Hr & Hb & ?); exists fr, z'; rewrite lookup_insert_ne in * by eauto; auto.
  - destruct Sr as (Hz & Hnd & Hsp & Hcnt). split_and!; try done.
    apply zchain_insert; [|done]. rewrite Hsp. congruence.
Qed.

(** ** Blocks in use *)

Lemma zsize_big s : geometry s -> 32768 <= sys_zone_size s.
Proof. intros []. lia. Qed.

Lemma inside_unique h s a b r q p :
  heap_core h s -> h_reg h !! a = Some r -> h_reg h !! b = Some q ->
  inside s a r p -> inside s b q p -> a = b.
Proof.
  intros Hc Hr Hq Ha Hb. unfold inside in *. destruct (Z.lt_total a b) as [?|[?|?]]; [|done|].
  - assert (a + SK_PAGE_SIZE * rpages s r <= b) by by apply (hi_apart _ _ Hc a b r q). lia.
  - assert (b + SK_PAGE_SIZE * rpages s q <= a) by by apply (hi_apart _ _ Hc b a q r). lia.
Qed.

(** The zone at [a], from the invariant. *)
Lemma core_zone_ok h s a fr z :
  heap_core h s -> h_reg h !! a = Some (RZone fr) -> zones s !! a = Some z ->
  zone_ok (sys_zone_size s) (chunks s) a fr z.
Proof. intros Hc Hr Hz. destruct (hi_region _ _ Hc a _ Hr) as (_ & z' & Ez & ?). by simplify_eq. Qed.

(** The blocks in use of one region. *)
Definition live_at (s : slab_state) (a : Z) (r : region) (p n : Z) : Prop :=
  match r with
  | RZone fr => exists z i, zones s !! a = Some z /\ 0 <= i <= z_uindex z /\
      p = z_baseptr z + i * csize z /\ p ∉ fr /\ n = csize z
  | RSpare => False
  | RLarge k => p = a /\ n = SK_PAGE_SIZE * k
  end.

Lemma live_regions h s p n : live h s p n <-> exists a r, h_reg h !! a = Some r /\ live_at s a r p n.
Proof.
  split.
  - intros [(a & fr & z & i & Hr & ?)|(k & Hr & ->)]; [exists a, (RZone fr)|exists p, (RLarge k)].
    + split; [done|]. simpl. eauto.
    + done.
  - intros (a & [fr| |k] & Hr & Hl); simpl in Hl; [|done|].
    + destruct Hl as (z & i & ?). left. by exists a, fr, z, i.
    + destruct Hl as [-> ->]. right. eauto.
Qed.

(** A block in use lies inside its region, aligned. *)
Lemma live_at_inside h s a r p n :
  heap_core h s -> h_reg h !! a = Some r -> live_at s a r p n ->
  a <= p /\ p + n <= a + SK_PAGE_SIZE * rpages s r /\ 8 <= n /\ p mod 8 = 0.
Proof.
  intros Hc Hr Hl. destruct (hi_space _ _ Hc a r Hr) as (Hpos & Hal & Hk & _).
  assert (a mod 8 = 0) as Ha8.
  { apply Z.mod_divide in Hal as [q ->]; [|done]. unfold SK_PAGE_SIZE.
    replace (q * 4096) with (q * 512 * 8) by lia. by apply Z.mod_mul. }
  destruct r as [fr| |k]; simpl in *; [|done|destruct Hl as [-> ->]; pg].
  destruct Hl as (z & i & Hz & Hi & -> & _ & ->). pose proof (core_zone_ok _ _ _ _ _ Hc Hr Hz) as Hok.
  pose proof (zo_uindex _ _ _ _ _ Hok). pose proof (csize_pos _ _ _ _ _ Hok).
  destruct (chunk_inside _ _ _ _ _ Hok i) as [? ?]; [lia|]. unfold sizeof_slab_zone in *.
  rewrite <- (ge_pages _ (hi_geom _ _ Hc)). split_and!; try lia.
  rewrite (zo_base _ _ _ _ _ Hok). destruct (class_fits_all _ (zo_index _ _ _ _ _ Hok)) as (_ & Hc8 & Ho8 & _).
  fold (csize z) in *. apply Z.mod_divide in Ha8 as [x Hx], Hc8 as [y Hy], Ho8 as [w Hw]; try done.
  rewrite Hx, Hw, Hy. replace (x * 8 + w * 8 + i * (y * 8)) with ((x + w + i * y) * 8) by lia.
  by apply Z.mod_mul.
Qed.

Lemma live_at_in h s a r p n :
  heap_core h s -> h_reg h !! a = Some r -> live_at s a r p n -> inside s a r p.
Proof. intros Hc Hr Hl. destruct (live_at_inside _ _ _ _ _ _ Hc Hr Hl) as (? & ? & ? & _). split; lia. Qed.

(** Blocks in use do not overlap. *)
Lemma live_disjoint h s p n q m :
  heap_core h s -> live h s p n -> live h s q m -> (p = q /\ n = m) \/ p + n <= q \/ q + m <= p.
Proof.
  intros Hc (a & r & Hr & Hp)%live_regions (b & t & Ht & Hq)%live_regions.
  destruct (live_at_inside _ _ _ _ _ _ Hc Hr Hp) as (? & ? & ? & _).
  destruct (live_at_inside _ _ _ _ _ _ Hc Ht Hq) as (? & ? & ? & _).
  destruct (Z.lt_total a b) as [Hlt|[<-|Hlt]].
  - pose proof (hi_apart _ _ Hc a b r t Hr Ht Hlt). lia.
  - simplify_eq. destruct r as [fr| |k]; simpl in *; [|done|left; by destruct Hp as [-> ->], Hq as [-> ->]].
    destruct Hp as (z & i & Hz & Hi & -> & _ & ->), Hq as (z' & j & Hz' & Hj & -> & _ & ->). simplify_eq.
    destruct (Z.lt_total i j) as [?|[->|?]]; [right; left|by left|right; right]; nia.
  - pose proof (hi_apart _ _ Hc b a t r Ht Hr Hlt). lia.
Qed.

(** The blocks after the region at [a] has changed: those of the other regions
    and those of the new region. *)
Lemma live_update h s s' a r r' h' :
  heap_core h s -> h_reg h !! a = Some r -> h_reg h' = <[a := r']> (h_reg h) ->
  (forall b q p n, a <> b -> h_reg h !! b = Some q -> live_at s' b q p n <-> live_at s b q p n) ->
  forall p n, live h' s' p n <-> (live h s p n /\ ~ inside s a r p) \/ live_at s' a r' p n.
Proof.
  intros Hc Hr Er Hsame p n. rewrite !live_regions, Er. split.
  - intros (b & q & [[<- <-]|[Hne Hq]]%lookup_insert_Some & Hl); [by right|left].
    apply Hsame in Hl; [|done..]. split; [eauto|]. intros Hin. apply Hne.
    eapply (inside_unique h s); eauto using live_at_in.
  - intros [[(b & q & Hq & Hl) Hn]|Hl].
    + assert (a <> b) by (intros <-; simplify_eq; eauto using live_at_in).
      exists b, q. rewrite lookup_insert_ne by done. split; [done|]. by apply Hsame.
    + exists a, r'. by rewrite lookup_insert_eq.
Qed.

(** After a region has been added. *)
Lemma live_added h s s' a r' h' :
  h_reg h !! a = None -> h_reg h' = <[a := r']> (h_reg h) ->
  (forall b q p n, a <> b -> h_reg h !! b = Some q -> live_at s' b q p n <-> live_at s b q p n) ->
  forall p n, live h' s' p n <-> live h s p n \/ live_at s' a r' p n.
Proof.
  intros Hr Er Hsame p n. rewrite !live_regions, Er. split.
  - intros (b & q & [[<- <-]|[Hne Hq]]%lookup_insert_Some & Hl); [by right|left].
    apply Hsame in Hl; eauto.
  - intros [(b & q & Hq & Hl)|Hl]; [|exists a, r'; by rewrite lookup_insert_eq].
    assert (a <> b) by congruence.
    exists b, q. rewrite lookup_insert_ne by done. split; [done|]. by apply Hsame.
Qed.

(** Headers outside of the region [b] do not matter to it. *)
Lemma live_at_zones s s' b q p n :
  (forall z, zones s !! b = Some z -> exists z', zones s' !! b = Some z' /\ eq_but_next z z') ->
  (forall z', zones s' !! b = Some z' -> is_Some (zones s !! b)) ->
  live_at s' b q p n <-> live_at s b q p n.
Proof.
  intros H1 H2. destruct q as [fr| |k]; simpl; [|done|done]. split.
  - intros (z' & i & Hz' & Hl). destruct (H2 _ Hz') as [z Hz], (H1 _ Hz) as (z'' & Hz'' & nx & ->).
    simplify_eq. exists z, i. done.
  - intros (z & i & Hz & Hl). destruct (H1 _ Hz) as (z' & Hz' & nx & ->). eexists _, i. split; [done|]. done.
Qed.

Lemma live_at_insert s s' a z b q p n :
  zones s' = <[a := z]> (zones s) -> a <> b -> live_at s' b q p n <-> live_at s b q p n.
Proof.
  intros E Hne. apply live_at_zones; rewrite E, lookup_insert_ne by done; intros z' Hz; eauto.
  exists z'. auto using eq_but_next_refl.
Qed.

(** A block has come into use. *)
Definition grows (h : heap) (s : slab_state) (h' : heap) (s' : slab_state) (p n : Z) : Prop :=
  (forall q m, live h' s' q m <-> live h s q m \/ (q = p /\ m = n)) /\ forall m, ~ live h s p m.

(** ** Large blocks *)

Definition add_large (a k : Z) (h : heap) : heap := with_reg (<[a := RLarge k]> (h_reg h)) h.

(** A large region is on no list of zones. *)
Lemma heap_inv_large h s a k :
  heap_inv h s -> owned h s a k -> region_ok s a (RLarge k) -> heap_inv (add_large a k h) s.
Proof.
  intros [Hc Li Sr] Ho Hr. pose proof (ow_none _ _ _ _ Ho) as Hn. split; [by apply core_add|..]; simpl.
  - intros i. destruct (Li i) as (? & ? & Hav). split_and!; [done..|]. intros b. rewrite Hav.
    unfold avail, add_large; simpl. destruct (decide (a = b)) as [<-|].
    + rewrite lookup_insert_eq. split; intros (fr & z & E & _); congruence.
    + by rewrite lookup_insert_ne.
  - destruct Sr as (? & ? & Hsp & ?). split_and!; try done. intros b. rewrite Hsp.
    destruct (decide (a = b)) as [<-|]; [rewrite lookup_insert_eq|by rewrite lookup_insert_ne]. split; congruence.
Qed.

Lemma live_owned h s a k p n :
  heap_core h s -> owned h s a k -> a <= p < a + SK_PAGE_SIZE * k -> ~ live h s p n.
Proof.
  intros Hc Ho Hp (b & r & Hr & Hl)%live_regions.
  destruct (live_at_inside _ _ _ _ _ _ Hc Hr Hl) as (? & ? & ? & _).
  destruct (ow_apart _ _ _ _ Ho b r Hr); lia.
Qed.

(** A request at or above the limit. *)
Lemma malloc_large_spec h s size :
  heap_inv h s -> 0 < size <= 0x100000000 ->
  let k := (size + (SK_PAGE_SIZE - 1)) / SK_PAGE_SIZE in
  (malloc_large size s = Some (0, s) /\ Forall (fun sg => sg.2 < k) (h_segs h)) \/
  exists p h' s', malloc_large size s = Some (p, s') /\ 0 < p /\
    heap_inv h' s' /\ grows h s h' s' p (SK_PAGE_SIZE * k).
Proof.
  intros HI Hs k. assert (0 < k < 2 ^ 30) as Hk.
  { unfold k, SK_PAGE_SIZE. split; [apply Z.div_str_pos; lia|apply Z.div_lt_upper_bound; lia]. }
  unfold malloc_large. rewrite (align_pages size Hs). fold k.
  destruct (page_take h s k HI (proj1 Hk)) as [[-> ?]|(a & l & s1 & -> & Ha & Hfr & HI1 & Ho)];
    [by left|right]; simpl.
  destruct (Z.eqb_spec a 0); [lia|]. rewrite (uint_small 30) by lia.
  set (f := <[btokup s1 a := mk_usage SK_PAGE_TYPE_LARGE k]>).
  exists a, (add_large a k (with_segs l h)), (set_usage f s1).
  assert (heap_inv (with_segs l h) (set_usage f s1)) as HI2.
  { eapply heap_inv_usage; [done..|]. intros i Hi. unfold f. rewrite lookup_insert_ne; [done|]. lia. }
  split_and!; [done..| |].
  - apply heap_inv_large; [done|by apply (owned_layout _ s1)|]. split; [lia|].
    simpl. unfold f. apply lookup_insert_eq.
  - destruct (page_frame_fields _ _ _ Hfr) as (_ & _ & Ez & _). split.
    + intros q m. rewrite (live_added (with_segs l h) s _ a (RLarge k)).
      * done.
      * apply (ow_none _ _ _ _ Ho).
      * done.
      * intros b r p' n' _ _. apply live_at_zones; simpl; rewrite Ez; eauto using eq_but_next_refl.
    + intros m Hl. assert (live (with_segs l h) s1 a m) as Hl1.
      { revert Hl. unfold live. by rewrite Ez. }
      eapply (live_owned (with_segs l h) s1 a k a); eauto using hi_core. pg.
Qed.

(** ** New zones *)

Lemma mark_small_lookup cnt off kup u i :
  mark_small cnt off kup u !! i =
    if (kup <=? i) && (i <? kup + Z.of_nat cnt)
    then Some (mk_usage SK_PAGE_TYPE_SMALL (off + (i - kup))) else u !! i.
Proof.
  revert off kup u. induction cnt as [|cnt IH]; intros off kup u; simpl mark_small.
  - destruct (Z.leb_spec kup i), (Z.ltb_spec i (kup + Z.of_nat 0)); simpl; try done; lia.
  - rewrite IH. destruct (decide (i = kup)) as [->|].
    + destruct (Z.leb_spec (kup + 1) kup); [lia|]. simpl. rewrite lookup_insert_eq.
      destruct (Z.leb_spec kup kup), (Z.ltb_spec kup (kup + Z.of_nat (S cnt))); try lia. simpl. do 2 f_equal. lia.
    + rewrite lookup_insert_ne by done.
      destruct (Z.leb_spec (kup + 1) i), (Z.ltb_spec i (kup + 1 + Z.of_nat cnt)), (Z.leb_spec kup i),
        (Z.ltb_spec i (kup + Z.of_nat (S cnt))); simpl; try lia; try done. do 2 f_equal. lia.
Qed.

Lemma zone_pages s : geometry s -> sys_zone_size s / SK_PAGE_SIZE = sys_zone_page_cnt s /\ 0 < sys_zone_page_cnt s.
Proof.
  intros G. pose proof (zsize_big s G). rewrite (ge_pages _ G) in *. rewrite Z.mul_comm, Z.div_mul by done. pg.
Qed.

(** A spare zone leaves its list. *)
Lemma spare_taken h s a l :
  heap_inv h s -> h_spare h = a :: l ->
  exists z, zones s !! a = Some z /\ let s' := set_zone_free (z_next z) (sys_zone_free_cnt s - 1) s in
    let h' := mk_heap (h_segs h) (delete a (h_reg h)) (h_lists h) l in
    heap_inv h' s' /\ owned h' s' a (sys_zone_page_cnt s') /\ used_small s' a /\ sys_zone_free s = a /\
    (forall p n, live h' s' p n <-> live h s p n).
Proof.
  intros [Hc Li Sr] El. destruct Sr as (Hz & Hnd & Hsp & Hcnt). rewrite El in *.
  destruct Hz as (Ea & Ha0 & z & Ez & Hz). exists z. split; [done|]. intros s' h'.
  assert (h_reg h !! a = Some RSpare) as Hr by (apply Hsp; left).
  destruct (core_remove h s a RSpare Hc Hr) as [Hc' Ho].
  apply NoDup_cons in Hnd as [Hni Hnd].
  assert (heap_core h' s') as Hcore.
  { apply (core_frame h' s); try done; [by destruct Hc'|]. intros b r z' _ Hz'.
    exists z'. auto using eq_but_next_refl. }
  split_and!.
  - split; [done|..]; simpl.
    + intros i. destruct (Li i) as (? & ? & Hav). split_and!; [done..|]. intros b. rewrite Hav.
      unfold avail; simpl. split; intros (fr & z' & Hb & ?); exists fr, z'.
      * rewrite lookup_delete_ne by congruence. done.
      * apply lookup_delete_Some in Hb as [_ Hb]. done.
    + split_and!; [done..| |simpl in Hcnt; lia]. intros b. rewrite lookup_delete_Some, <- Hsp.
      rewrite elem_of_cons. split; [|intros [? [?|?]]; congruence].
      intros Hb. split; [by intros <-|by right].
  - by destruct Ho.
  - apply (hi_region _ _ Hc a RSpare Hr).
  - done.
  - intros p n. rewrite !live_regions. simpl. split; intros (b & r & Hb & Hl); exists b, r.
    + apply lookup_delete_Some in Hb as [_ Hb]. done.
    + rewrite lookup_delete_ne; [done|]. intros <-. by simplify_eq.
Qed.

(** [take_zone] gives pages marked as those of a zone, that nobody has. *)
Lemma take_zone_spec h s :
  heap_inv h s ->
  (take_zone s = Some (0, s) /\ Forall (fun sg => sg.2 < sys_zone_page_cnt s) (h_segs h)) \/
  exists a h' s', take_zone s = Some (a, s') /\ 0 < a /\ heap_inv h' s' /\ same_layout s s' /\
    owned h' s' a (sys_zone_page_cnt s') /\ used_small s' a /\
    sys_zone_array s' = sys_zone_array s /\ h_lists h' = h_lists h /\
    (forall p n, live h' s' p n <-> live h s p n).
Proof.
  intros HI. pose proof (hi_geom _ _ HI) as G. destruct (zone_pages s G) as [Epg Hpg].
  unfold take_zone. destruct (hi_spare _ _ HI) as (Hz & _). destruct (Z.eqb_spec (sys_zone_free s) 0) as [E0|Hne]; simpl.
  - rewrite Epg. destruct (page_take h s _ HI Hpg) as [[-> ?]|(a & l & s1 & -> & Ha & Hfr & HI1 & Ho)];
      [by left|right]; simpl.
    destruct (Z.eqb_spec a 0); [lia|]. destruct (page_frame_fields _ _ _ Hfr) as (HL & _ & Ez & _ & Ea & _).
    assert (sys_zone_page_cnt s1 = sys_zone_page_cnt s) as Ecnt by apply HL.
    eexists a, (with_segs l h), _. split; [done|]. split_and!; try done.
    + eapply heap_inv_usage; [done..|]. intros i Hi. rewrite mark_small_lookup.
      destruct (Z.leb_spec (btokup s1 a) i), (Z.ltb_spec i (btokup s1 a + Z.of_nat (Z.to_nat (sys_zone_page_cnt s1))));
        simpl; try done; lia.
    + apply (owned_layout _ s1); [done|]. simpl. by rewrite Ecnt.
    + intros j Hj. simpl in *. change (btokup (set_usage _ s1) a) with (btokup s1 a).
      rewrite mark_small_lookup.
      destruct (Z.leb_spec (btokup s1 a) (btokup s1 a + j)),
        (Z.ltb_spec (btokup s1 a + j) (btokup s1 a + Z.of_nat (Z.to_nat (sys_zone_page_cnt s1)))); try lia.
      simpl. do 2 f_equal. lia.
    + intros p n'. unfold live; simpl. by rewrite Ez.
  - right. destruct (zchain_head _ _ _ Hz Hne) as (l & El).
    destruct (spare_taken h s _ l HI El) as (z & -> & HI' & Ho & Hu & _ & Hlive). simpl.
    eexists _, _, _. split; [done|]. split_and!; try done. apply Ho.
Qed.

(** Functional update of the lists. *)
Definition set_list (i : Z) (l : list Z) (f : Z -> list Z) (j : Z) : list Z := if j =? i then l else f j.

(** A zone with free chunks becomes the first of its class. *)
Lemma zone_linked h s a fr z i :
  heap_inv h s -> owned h s a (sys_zone_page_cnt s) -> used_small s a ->
  zones s !! a = Some z -> zone_ok (sys_zone_size s) (chunks s) a fr z ->
  z_zoneindex z = i -> z_next z = zone_at s i -> z_nfree z <> 0 ->
  let h' := mk_heap (h_segs h) (<[a := RZone fr]> (h_reg h)) (set_list i (a :: h_lists h i) (h_lists h)) (h_spare h) in
  let s' := set_zone_array (<[i := a]>) s in
  heap_inv h' s' /\ (forall p n, live h' s' p n <-> live h s p n \/ live_at s a (RZone fr) p n).
Proof.
  intros HI Ho Hu Hz Hok Hi Hnx Hnf h' s'. pose proof HI as [Hc Li Sr].
  pose proof (ow_none _ _ _ _ Ho) as Hn. split.
  2: { intros p n. apply (live_added h s s' a (RZone fr)); done. }
  split; simpl.
  - assert (heap_core h' s) as Hc' by (destruct (core_add h s a (RZone fr) Hc Ho); [by split; eauto|by split]).
    apply (core_frame h' s); try done. intros b r z' _ Hz'. exists z'. auto using eq_but_next_refl.
  - intros j. destruct (Li j) as (Hch & Hnd & Hav).
    assert (forall b, avail h' s' j b <-> avail h s j b \/ (b = a /\ j = i)) as Hav'.
    { intros b. unfold avail, h', s'; simpl. destruct (decide (a = b)) as [<-|Hne].
      - rewrite lookup_insert_eq. split; [|intros [(fr' & z' & E & _)|[_ ->]]; [congruence|eauto 10]].
        intros (fr' & z' & E & Ez & Ei & _). right. simplify_eq. done.
      - rewrite lookup_insert_ne by done. split; [by left|]. intros [?|[? _]]; [done|congruence]. }
    unfold set_list, zone_at, s'; simpl. destruct (Z.eqb_spec j i) as [->|Hji].
    + rewrite lookup_insert_eq. simpl. split_and!; [done|pose proof (ow_pos _ _ _ _ Ho); lia| | |].
      * exists z. split; [done|]. by rewrite Hnx.
      * constructor; [|done]. rewrite Hav. intros (fr' & z' & E & _). congruence.
      * intros b. etrans; [|symmetry; apply Hav']. rewrite elem_of_cons, Hav. tauto.
    + rewrite lookup_insert_ne by done. split_and!; [done..|]. intros b. etrans; [|symmetry; apply Hav']. rewrite Hav. tauto.
  - destruct Sr as (? & ? & Hsp & ?). split_and!; try done. intros b. rewrite Hsp.
    destruct (decide (a = b)) as [<-|]; [rewrite lookup_insert_eq|by rewrite lookup_insert_ne]. split; congruence.
Qed.

(** A fresh header describes a zone whose first chunk is in use. *)
Lemma fresh_zone_ok zsize ck a i nx fc :
  0 <= i < SK_NUM_ZONES -> 4 * class_size i <= zsize -> 32768 <= zsize ->
  let off := zone_offset (class_size i) in
  let nmax := (zsize - off) / class_size i in
  zone_ok zsize ck a [] (mk_zone SK_ALLOC_SLAB_MAGIC (nmax - 1) nmax nx (a + off) 0 (class_size i) i fc) /\
  2 <= nmax.
Proof.
  intros Hi Hc Hz off nmax. destruct (class_fits_all i Hi) as (? & _ & _ & _ & Hf).
  assert (2 <= nmax) by (apply Z.div_le_lower_bound; unfold off; lia).
  split; [|done]. split; unfold csize; simpl; try done; try lia; [constructor|by intros p ?%elem_of_nil].
Qed.

Lemma malloc_new_zone_spec h s i :
  heap_inv h s -> 0 <= i < SK_NUM_ZONES -> 4 * class_size i <= sys_zone_size s ->
  (malloc_new_zone i (class_size i) s = Some (0, s) /\
     Forall (fun sg => sg.2 < sys_zone_page_cnt s) (h_segs h)) \/
  exists p h' s', malloc_new_zone i (class_size i) s = Some (p, s') /\ 0 < p /\
    heap_inv h' s' /\ grows h s h' s' p (class_size i).
Proof.
  intros HI Hi Hc. unfold malloc_new_zone. pose proof (hi_geom _ _ HI) as G.
  destruct (take_zone_spec h s HI) as [[-> ?]|(a & h1 & s1 & -> & Ha & HI1 & HL & Ho & Hu & _ & _ & Hl1)];
    [by left|right]; simpl.
  destruct (Z.eqb_spec a 0); [lia|]. assert (sys_zone_size s1 = sys_zone_size s) as -> by apply HL.
  pose proof (zsize_big s G) as Hbig. destruct (class_fits_all i Hi) as (? & _ & _ & Hoff & Hfit).
  unfold sizeof_slab_zone in Hoff. rewrite Z.add_0_r.
  match goal with |- context [set_zones (<[a := ?z0]>) s1] => set (z := z0) end.
  destruct (fresh_zone_ok (sys_zone_size s) (chunks s1) a i (zone_at s1 i) (z_freechunk (raw_zone s1 a)))
    as [Hok Hmax]; [done..|].
  destruct (zone_linked h1 (set_zones (<[a := z]>) s1) a [] z i) as [HI' Hlive']; simpl; try done.
  - apply heap_inv_header; [done|]. by apply (ow_none _ _ _ _ Ho).
  - by apply (owned_layout _ s1).
  - apply lookup_insert_eq.
  - by rewrite (proj1 (proj2 HL)).
  - unfold z; simpl. lia.
  - eexists _, _, _. split; [done|]. split_and!; [lia|exact HI'|]. split.
    + intros q m. rewrite Hlive', <- Hl1. apply Morphisms_Prop.or_iff_morphism.
      * assert (forall b r, h_reg h1 !! b = Some r ->
          live_at (set_zones (<[a := z]>) s1) b r q m <-> live_at s1 b r q m) as Hsame.
        { intros b r Hb. apply (live_at_insert s1 _ a z); [done|]. intros <-.
          pose proof (ow_none _ _ _ _ Ho). congruence. }
        rewrite !live_regions. split; intros (b & r & Hb & Hl); exists b, r; (split; [done|]); by apply Hsame.
      * simpl. rewrite lookup_insert_eq. unfold z, csize. split.
        -- intros (z' & j & [= <-] & Hj & -> & _ & ->). simpl in *. assert (j = 0) as -> by lia. lia.
        -- intros [-> ->]. eexists _, 0. split; [done|]. simpl. split_and!; try lia. by apply not_elem_of_nil.
    + intros m. rewrite <- Hl1. apply (live_owned h1 s1 a (sys_zone_page_cnt s1)); [apply HI1|done|].
      rewrite <- (ge_pages s1) by apply HI1. rewrite (proj1 (proj2 HL)). lia.
Qed.

(** ** Zones in use *)

(** A write to the header of the zone at [a]; lists and chunks may change too. *)
Record zone_write (s s' : slab_state) (a : Z) (z' : slab_zone) : Prop := {
  zw_zones : zones s' = <[a := z']> (zones s);
  zw_layout : same_layout s s';
  zw_list : sys_page_list s' = sys_page_list s;
  zw_pages : pages s' = pages s;
  zw_usage : usage s' = usage s;
  zw_free : sys_zone_free s' = sys_zone_free s;
  zw_cnt : sys_zone_free_cnt s' = sys_zone_free_cnt s
}.

(** The zone at [a] gets a new header and a new list of freed chunks. *)
Section zone_update.
Context (h : heap) (s s' : slab_state) (a : Z) (fr : list Z) (z : slab_zone) (fr' : list Z) (z' : slab_zone).
Hypothesis Hr : h_reg h !! a = Some (RZone fr).
Hypothesis Hz : zones s !! a = Some z.
Hypothesis Hw : zone_write s s' a z'.
Hypothesis Hk : forall p, ~ inside s a (RZone fr) p -> chunks s' !! p = chunks s !! p.
Hypothesis Hok : zone_ok (sys_zone_size s) (chunks s') a fr' z'.

Lemma core_zone : heap_core h s -> heap_core (with_reg (<[a := RZone fr']> (h_reg h)) h) s'.
Proof.
  intros Hc. destruct Hw as [Ez HL El Ep Eu _ _]. destruct (core_remove h s a _ Hc Hr) as [Hc1 Ho].
  assert (heap_core (with_reg (delete a (h_reg h)) h) s') as Hc2.
  { apply (core_frame _ s); simpl; try done.
    - intros. by rewrite Eu.
    - intros b r zb [Hne Hb]%lookup_delete_Some Hzb. exists zb.
      rewrite Ez, lookup_insert_ne by done. auto using eq_but_next_refl.
    - intros b r p [Hne Hb]%lookup_delete_Some Hin. apply Hk. intros Ha.
      by apply Hne, (inside_unique h s a b (RZone fr) r p). }
  pose proof (core_add _ s' a (RZone fr') Hc2) as Hadd. simpl in Hadd.
  unfold with_reg in Hadd |- *; simpl in Hadd. rewrite insert_delete_eq in Hadd. apply Hadd.
  - assert (sys_zone_page_cnt s' = sys_zone_page_cnt s) as -> by apply HL. by apply (owned_layout _ s).
  - destruct (hi_region _ _ Hc a _ Hr) as [Hu _]. split.
    + intros j Hj. rewrite (same_layout_btokup _ _ _ HL), Eu. apply Hu.
      by rewrite <- (proj2 (proj2 (proj2 HL))).
    + exists z'. rewrite Ez, lookup_insert_eq. split; [done|]. by rewrite (proj1 (proj2 HL)).
Qed.

(** Its class gets the list [l]; the other lists stay. *)
Lemma heap_inv_zone l :
  heap_inv h s -> z_zoneindex z' = z_zoneindex z ->
  (forall j, j <> z_zoneindex z -> zone_at s' j = zone_at s j) ->
  zchain (zones s') (zone_at s' (z_zoneindex z)) l -> NoDup l ->
  (forall b, b ∈ l <-> (b <> a /\ b ∈ h_lists h (z_zoneindex z)) \/ (b = a /\ z_nfree z' <> 0)) ->
  heap_inv (mk_heap (h_segs h) (<[a := RZone fr']> (h_reg h)) (set_list (z_zoneindex z) l (h_lists h)) (h_spare h)) s'.
Proof.
  intros [Hc Li Sr] Ei Hat Hch Hnd Hl. pose proof (core_zone Hc) as [G F Al Sp Ap Rg Rs Rr].
  destruct Hw as [Ez HL El Ep Eu Ef Ecn]. split; [by split|..]; simpl.
  - intros j. destruct (Li j) as (Hchj & Hndj & Hav).
    assert (forall b, b <> a -> avail h s j b <->
      exists fr0 z0, <[a := RZone fr']> (h_reg h) !! b = Some (RZone fr0) /\ zones s' !! b = Some z0 /\
        z_zoneindex z0 = j /\ z_nfree z0 <> 0) as Hother.
    { intros b Hne. unfold avail. by rewrite Ez, !lookup_insert_ne. }
    assert (forall b, avail h s j b -> j <> z_zoneindex z -> b <> a) as Hne.
    { intros b (fr0 & z0 & Hb & Hzb & <- & _) Hne ->. congruence. }
    unfold set_list. destruct (Z.eqb_spec j (z_zoneindex z)) as [->|Hji].
    + split_and!; [done..|]. intros b. rewrite Hl, Hav. unfold avail at 2; simpl.
      destruct (decide (b = a)) as [->|Hba]; [|rewrite <- Hother by done; tauto].
      rewrite Ez, !lookup_insert_eq. split; [|intros (? & ? & ? & ? & ?); right; naive_solver].
      intros [[? _]|[_ Hn]]; [done|]. exists fr', z'. auto.
    + split_and!; [|done|].
      * rewrite Hat by done. rewrite Ez. apply zchain_insert; [|done]. rewrite Hav. intros H. by apply (Hne a).
      * intros b. rewrite Hav. unfold avail at 2; simpl. destruct (decide (b = a)) as [->|Hba]; [|by apply Hother].
        split; [intros H; by apply Hne in H|]. rewrite Ez, !lookup_insert_eq. intros (? & ? & _ & [= <-] & ? & _). congruence.
  - destruct Sr as (Hcs & Hnds & Hsp & Hcnt). rewrite Ez, Ef, Ecn. split_and!; try done.
    + apply zchain_insert; [|done]. rewrite Hsp. congruence.
    + intros b. rewrite Hsp. destruct (decide (a = b)) as [<-|]; [rewrite lookup_insert_eq|by rewrite lookup_insert_ne].
      split; congruence.
Qed.

(** The blocks of the other regions stay. *)
Lemma live_zone_update lists spare p n :
  heap_core h s ->
  live (mk_heap (h_segs h) (<[a := RZone fr']> (h_reg h)) lists spare) s' p n <->
  (live h s p n /\ ~ inside s a (RZone fr) p) \/ live_at s' a (RZone fr') p n.
Proof.
  intros Hc. apply (live_update h s s' a (RZone fr)); try done.
  intros b q p' n' Hne _. eapply live_at_insert; [apply Hw|done].
Qed.
End zone_update.

Lemma live_zone h s a r p n :
  heap_core h s -> h_reg h !! a = Some r ->
  live h s p n <-> (live h s p n /\ ~ inside s a r p) \/ live_at s a r p n.
Proof. intros Hc Hr. apply (live_update h s s a r r h); try done. by rewrite insert_id. Qed.

Lemma live_in_zone h s a r p n :
  heap_core h s -> h_reg h !! a = Some r -> inside s a r p -> live h s p n -> live_at s a r p n.
Proof. intros Hc Hr Hin Hl. rewrite (live_zone h s a r) in Hl by done. tauto. Qed.

(** ** Taking a chunk *)

(** The state after a chunk of the first zone of class [i] has been taken. *)
Definition taken (i a : Z) (z z' : slab_zone) (s : slab_state) : slab_state :=
  set_zones (<[a := z']>) (if z_nfree z - 1 =? 0 then set_zone_array (<[i := z_next z]>) s else s).

Lemma taken_write i a z z' s : zone_write s (taken i a z z' s) a z' /\ chunks (taken i a z z' s) = chunks s.
Proof. unfold taken. destruct (_ =? 0); done. Qed.

Lemma heap_inv_taken h s i a fr z fr' z' l :
  heap_inv h s -> h_lists h i = a :: l -> h_reg h !! a = Some (RZone fr) -> zones s !! a = Some z ->
  z_zoneindex z = i -> z_zoneindex z' = i -> z_nfree z' = z_nfree z - 1 ->
  (z_nfree z' <> 0 -> z_next z' = z_next z) -> zone_ok (sys_zone_size s) (chunks s) a fr' z' ->
  let h' := mk_heap (h_segs h) (<[a := RZone fr']> (h_reg h))
    (set_list i (if z_nfree z - 1 =? 0 then l else a :: l) (h_lists h)) (h_spare h) in
  heap_inv h' (taken i a z z' s).
Proof.
  intros HI Hli Hr Hz Hi Hi' Hnf Hnx Hok h'. destruct (taken_write i a z z' s) as [Hw Ek].
  destruct (hi_lists _ _ HI i) as (Hch & Hnd & Hav). rewrite Hli in *.
  destruct Hch as (Eat & Ha & z0 & Hz0 & Hch). rewrite Hz in Hz0. injection Hz0 as <-. subst i.
  apply NoDup_cons in Hnd as [Hni Hnd]. unfold h'. apply (heap_inv_zone h s _ a fr z fr' z'); try done.
  - by rewrite Ek.
  - by rewrite Ek.
  - intros j Hj. unfold taken, zone_at. destruct (_ =? 0); simpl; [by rewrite lookup_insert_ne|done].
  - rewrite (zw_zones _ _ _ _ Hw). unfold taken, zone_at. destruct (Z.eqb_spec (z_nfree z - 1) 0); simpl.
    + rewrite lookup_insert_eq. by apply zchain_insert.
    + split; [done|]. split; [done|]. exists z'. rewrite lookup_insert_eq. split; [done|].
      rewrite Hnx by lia. by apply zchain_insert.
  - destruct (_ =? 0); [done|by constructor].
  - intros b. rewrite Hli, Hnf. destruct (Z.eqb_spec (z_nfree z - 1) 0); rewrite ?elem_of_cons.
    + split; [intros Hb|naive_solver]. left. split; [by intros ->|by right].
    + destruct (decide (b = a)); naive_solver.
Qed.

(** What became of the blocks. *)
Lemma grows_taken h s i a fr z fr' z' lists p :
  heap_core h s -> h_reg h !! a = Some (RZone fr) -> zones s !! a = Some z ->
  (forall q m, live_at (taken i a z z' s) a (RZone fr') q m <->
     live_at s a (RZone fr) q m \/ (q = p /\ m = csize z)) ->
  inside s a (RZone fr) p -> (forall m, ~ live_at s a (RZone fr) p m) ->
  grows h s (mk_heap (h_segs h) (<[a := RZone fr']> (h_reg h)) lists (h_spare h)) (taken i a z z' s) p (csize z).
Proof.
  intros Hc Hr Hz Hq Hin Hnew. destruct (taken_write i a z z' s) as [Hw _]. split.
  - intros q m. rewrite (live_zone_update h s _ a fr fr' z'), Hq by done.
    rewrite (live_zone h s a (RZone fr) q m) by done. tauto.
  - intros m Hl. eapply Hnew, (live_in_zone h s); done.
Qed.

(** The next chunk that was never used. *)
Lemma zone_ok_fresh_chunk zsize ck a fr z nx :
  zone_ok zsize ck a fr z -> z_uindex z + 1 <> z_nmax z ->
  zone_ok zsize ck a fr (mk_zone (z_magic z) (z_nfree z - 1) (z_nmax z) nx (z_baseptr z) (z_uindex z + 1)
    (z_chunksize z) (z_zoneindex z) (z_freechunk z)).
Proof.
  intros [] Hu. split; simpl; try done; try lia. intros p Hp.
  destruct (zo_fr0 p Hp) as (i & ? & ?). exists i. split; [lia|done].
Qed.

(** The first freed chunk. *)
Lemma zone_ok_freed_chunk zsize ck a p fr z nx :
  zone_ok zsize ck a (p :: fr) z ->
  exists c_next, z_freechunk z = p /\ ck !! p = Some c_next /\
    zone_ok zsize ck a fr (mk_zone (z_magic z) (z_nfree z - 1) (z_nmax z) nx (z_baseptr z) (z_uindex z)
      (z_chunksize z) (z_zoneindex z) c_next).
Proof.
  intros []. destruct zo_chain0 as (Efc & nx' & Hck & Hch). exists nx'. split_and!; [done..|].
  apply NoDup_cons in zo_nodup0 as [_ ?].
  split; simpl in *; try done; [lia|]. intros q Hq. apply zo_fr0. by right.
Qed.

(** The chunks of a zone in use, with the header known. *)
Lemma live_at_zone s a fr z p n :
  zones s !! a = Some z ->
  live_at s a (RZone fr) p n <->
  exists i, 0 <= i <= z_uindex z /\ p = z_baseptr z + i * csize z /\ p ∉ fr /\ n = csize z.
Proof.
  intros Hz. simpl. rewrite Hz. split; [intros (? & i & [= <-] & ?); eauto|].
  intros (i & ?). by exists z, i.
Qed.

Lemma taken_header i a z z' s : zones (taken i a z z' s) !! a = Some z'.
Proof. destruct (taken_write i a z z' s) as [Hw _]. rewrite (zw_zones _ _ _ _ Hw). apply lookup_insert_eq. Qed.

(** The first zone of a class, from the invariant. *)
Lemma first_zone h s i :
  heap_inv h s -> zone_at s i <> 0 ->
  exists l fr z, h_lists h i = zone_at s i :: l /\ h_reg h !! zone_at s i = Some (RZone fr) /\
    zones s !! zone_at s i = Some z /\ z_zoneindex z = i /\ z_nfree z <> 0 /\
    zone_ok (sys_zone_size s) (chunks s) (zone_at s i) fr z.
Proof.
  intros HI Hne. destruct (hi_lists _ _ HI i) as (Hch & _ & Hav).
  destruct (zchain_head _ _ _ Hch Hne) as (l & El). exists l.
  destruct (proj1 (Hav (zone_at s i))) as (fr & z & Hr & Hz & ? & ?); [rewrite El; left|].
  exists fr, z. split_and!; try done. apply (core_zone_ok h); [apply HI|done..].
Qed.

(** A request that a zone of its class can serve. *)
Lemma malloc_zone_spec h s i :
  heap_inv h s -> zone_at s i <> 0 ->
  exists p h' s', malloc_zone i (class_size i) (zone_at s i) s = Some (p, s') /\ 0 < p /\
    heap_inv h' s' /\ grows h s h' s' p (class_size i).
Proof.
  intros HI Hne. destruct (first_zone h s i HI Hne) as (l & fr & z & El & Hr & Hz & Hi & Hnf & Hok).
  set (a := zone_at s i) in *. unfold malloc_zone. rewrite Hz; simpl.
  destruct (hi_space _ _ HI a _ Hr) as (Hpos & _). pose proof (zo_uindex _ _ _ _ _ Hok) as Hu.
  assert (class_size i = csize z) as Ec by (unfold csize; by rewrite Hi).
  set (nx := if z_nfree z - 1 =? 0 then 0 else z_next z).
  assert (z_nfree z - 1 <> 0 -> nx = z_next z) as Hnx by (unfold nx; by destruct (Z.eqb_spec (z_nfree z - 1) 0)).
  assert (forall j, 0 <= j < z_nmax z -> inside s a (RZone fr) (z_baseptr z + j * csize z) /\
    0 < z_baseptr z + j * csize z) as Hins.
  { intros j Hj. pose proof (csize_pos _ _ _ _ _ Hok). destruct (chunk_inside _ _ _ _ _ Hok j Hj).
    unfold inside, sizeof_slab_zone in *; simpl. rewrite <- (ge_pages s) by apply HI. lia. }
  destruct (Z.eqb_spec (z_uindex z + 1) (z_nmax z)) as [Eu|Nu]; simpl.
  - destruct fr as [|p fr]; [pose proof (zo_nfree _ _ _ _ _ Hok); simpl in *; lia|].
    destruct (zone_ok_freed_chunk _ _ _ _ _ _ nx Hok) as (cn & -> & Hck & Hok').
    replace (chunks (if z_nfree z - 1 =? 0 then _ else s)) with (chunks s) by by destruct (z_nfree z - 1 =? 0).
    rewrite Hck; simpl.
    destruct (zo_fr _ _ _ _ _ Hok p) as (j & Hj & Ep); [left|]. destruct (Hins j) as [Hinp Hp0]; [lia|].
    rewrite <- Ep in *. pose proof (zo_nodup _ _ _ _ _ Hok) as [Hni _]%NoDup_cons.
    eexists p, _, _. split; [done|]. split; [done|]. rewrite Ec.
    split; [by eapply (heap_inv_taken h s i a (p :: fr))|].
    apply (grows_taken h s i a (p :: fr)); try done; [apply HI|..].
    + intros q m. rewrite (live_at_zone _ _ _ _ _ _ Hz), (live_at_zone _ _ _ _ _ _ (taken_header _ _ _ _ _)).
      unfold csize at 1 2; simpl; fold (csize z). setoid_rewrite not_elem_of_cons. split.
      * intros (x & ? & -> & ? & ->). destruct (decide (z_baseptr z + x * csize z = p)); [by right|left; eauto 10].
      * intros [(x & ? & -> & [? ?] & ->)|[-> ->]]; [by exists x|exists j; by rewrite <- Ep].
    + intros m. rewrite (live_at_zone _ _ _ _ _ _ Hz). intros (x & _ & _ & Hn & _). apply Hn. left.
  - destruct (Hins (z_uindex z + 1)) as [Hinp Hp0]; [lia|]. rewrite Ec.
    eexists _, _, _. split; [done|]. split; [done|].
    split; [eapply (heap_inv_taken h s i a fr); try done; by apply zone_ok_fresh_chunk|].
    assert (forall x, x <= z_uindex z -> z_baseptr z + x * csize z <> z_baseptr z + (z_uindex z + 1) * csize z) as Hlt.
    { intros x Hx ->%(chunk_inj _ _ _ _ _ Hok). lia. }
    apply (grows_taken h s i a fr); try done; [apply HI|..].
    + intros q m. rewrite (live_at_zone _ _ _ _ _ _ Hz), (live_at_zone _ _ _ _ _ _ (taken_header _ _ _ _ _)).
      unfold csize at 1 2; simpl; fold (csize z). split.
      * intros (x & ? & -> & ? & ->). destruct (decide (x = z_uindex z + 1)) as [->|]; [by right|left].
        exists x. split; [lia|done].
      * intros [(x & ? & -> & ? & ->)|[-> ->]]; [exists x; split; [lia|done]|].
        exists (z_uindex z + 1). split_and!; try done; [lia..|].
        intros (x & Hx & E)%(zo_fr _ _ _ _ _ Hok). apply (Hlt x); [lia|done].
    + intros m. rewrite (live_at_zone _ _ _ _ _ _ Hz). intros (x & Hx & E & _). apply (Hlt x); [lia|done].
Qed.

(** ** The end of a zone *)

(** A state in which some zones have other links and the list heads may differ. *)
Record relinked (s s' : slab_state) (L : list Z) (i : Z) : Prop := {
  re_rest : s' = set_zone_array (fun _ => sys_zone_array s') (set_zones (fun _ => zones s') s);
  re_in : forall b z, zones s !! b = Some z -> exists z', zones s' !! b = Some z' /\ eq_but_next z z';
  re_out : forall b, b ∉ L -> zones s' !! b = zones s !! b;
  re_at : forall j, j <> i -> zone_at s' j = zone_at s j
}.

Lemma relinked_fields s s' L i :
  relinked s s' L i ->
  same_layout s s' /\ sys_page_list s' = sys_page_list s /\ pages s' = pages s /\ usage s' = usage s /\
  chunks s' = chunks s /\ sys_zone_free s' = sys_zone_free s /\ sys_zone_free_cnt s' = sys_zone_free_cnt s.
Proof. intros [E _ _ _]. rewrite E. by repeat split. Qed.

Lemma eq_but_next_set z n : eq_but_next z (mk_zone (z_magic z) (z_nfree z) (z_nmax z) n (z_baseptr z)
  (z_uindex z) (z_chunksize z) (z_zoneindex z) (z_freechunk z)).
Proof. by exists n. Qed.

(** The walk to the zone, from the link of the zone [p] before it. *)
Lemma unlink_inner fuel i p zp a za l1 l2 s :
  zones s !! p = Some zp -> zchain (zones s) (z_next zp) (l1 ++ a :: l2) -> zones s !! a = Some za ->
  NoDup (p :: l1 ++ a :: l2) -> (length l1 < fuel)%nat ->
  exists s' zp', unlink_zone fuel i (Some p) a (z_next za) s = Some s' /\ relinked s s' (p :: l1) i /\
    zone_at s' i = zone_at s i /\ zones s' !! p = Some zp' /\ zchain (zones s') (z_next zp') (l1 ++ l2).
Proof.
  revert p zp l1. induction fuel as [|fuel IH]; intros p zp l1 Hp Hch Ha Hnd Hf; [lia|].
  simpl. rewrite Hp; simpl. destruct l1 as [|b l1]; simpl in Hch.
  - destruct Hch as (-> & Ha0 & z & Hz & Hch). simplify_eq. rewrite Z.eqb_refl.
    apply NoDup_cons in Hnd as [Hni _]. eexists _, _. split; [done|]. split_and!.
    + split; [done| | |done]; simpl.
      * intros b zb Hb. destruct (decide (p = b)) as [<-|]; simplify_eq.
        -- eexists. split; [apply lookup_insert_eq|apply eq_but_next_set].
        -- exists zb. rewrite lookup_insert_ne by done. auto using eq_but_next_refl.
      * intros b Hb. rewrite lookup_insert_ne; [done|]. intros <-. apply Hb. left.
    + done.
    + apply lookup_insert_eq.
    + simpl. apply zchain_insert; [|done]. intros Hin. apply Hni. by right.
  - destruct Hch as (Eb & Hb0 & zb & Hzb & Hch). rewrite Eb.
    apply NoDup_cons in Hnd as [Hni Hnd]. pose proof Hnd as [Hnib _]%NoDup_cons.
    destruct (Z.eqb_spec b a) as [->|_]; [exfalso; apply Hnib; set_solver|].
    destruct (IH b zb l1) as (s' & zb' & E & Hre & Hat & Hzb' & Hch'); try done; [simpl in Hf; lia|].
    exists s', zp. split; [done|]. split_and!.
    + destruct Hre. split; try done. intros c Hc. apply re_out0. set_solver.
    + done.
    + rewrite (re_out _ _ _ _ Hre); [done|]. set_solver.
    + simpl. rewrite Eb. eauto.
Qed.

(** The zone [a] leaves the list of its class. *)
Lemma unlink_zone_spec s i a za l :
  zchain (zones s) (zone_at s i) l -> NoDup l -> a ∈ l -> zones s !! a = Some za ->
  exists s' l1 l2, unlink_zone (S (size (zones s))) i None a (z_next za) s = Some s' /\
    l = l1 ++ a :: l2 /\ relinked s s' l1 i /\ zchain (zones s') (zone_at s' i) (l1 ++ l2).
Proof.
  intros Hch Hnd Hin Ha. pose proof (zchain_length _ _ _ Hch Hnd) as Hlen.
  apply list_elem_of_split in Hin as (l1 & l2 & ->). rewrite length_app in Hlen. simpl in Hlen.
  destruct l1 as [|p l1]; simpl in Hch |- *.
  - destruct Hch as (-> & _ & z & Hz & Hch). simplify_eq. rewrite Z.eqb_refl.
    eexists _, [], l2. split; [done|]. split_and!; [done| |].
    + split; try done; simpl.
      * intros b z0 Hb. exists z0. auto using eq_but_next_refl.
      * intros j Hj. unfold zone_at; simpl. by rewrite lookup_insert_ne.
    + unfold zone_at; simpl. by rewrite lookup_insert_eq.
  - destruct Hch as (Ep & Hp0 & zp & Hzp & Hch). rewrite Ep.
    pose proof Hnd as [Hni _]%NoDup_cons.
    destruct (Z.eqb_spec p a) as [->|_]; [exfalso; apply Hni; set_solver|].
    destruct (unlink_inner (size (zones s)) i p zp a za l1 l2 s) as (s' & zp' & E & Hre & Hat & Hzp' & Hch');
      try done; [simpl in *; lia|].
    exists s', (p :: l1), l2. split_and!; try done. simpl. rewrite Hat, Ep. eauto.
Qed.

(** When the count of free chunks is that of all chunks, none is in use. *)
Lemma zone_all_free zsize ck a fr z i :
  zone_ok zsize ck a fr z -> z_nfree z = z_nmax z -> 0 <= i <= z_uindex z -> z_baseptr z + i * csize z ∈ fr.
Proof.
  intros Hok E Hi. pose proof (zo_nfree _ _ _ _ _ Hok). pose proof (zo_uindex _ _ _ _ _ Hok).
  set (L := (fun j => z_baseptr z + j * csize z) <$> seqZ 0 (z_uindex z + 1)).
  assert (fr ≡ₚ L) as ->.
  { apply submseteq_length_Permutation; [|unfold L; rewrite length_fmap, length_seqZ; lia].
    apply NoDup_submseteq; [apply (zo_nodup _ _ _ _ _ Hok)|]. intros p Hp.
    destruct (zo_fr _ _ _ _ _ Hok p Hp) as (j & Hj & ->). apply list_elem_of_fmap.
    exists j. rewrite elem_of_seqZ. split; [done|lia]. }
  apply list_elem_of_fmap. exists i. rewrite elem_of_seqZ. split; [done|lia].
Qed.

Lemma no_live_free_zone h s a fr z p n :
  heap_core h s -> h_reg h !! a = Some (RZone fr) -> zones s !! a = Some z -> z_nfree z = z_nmax z ->
  live h s p n -> ~ inside s a (RZone fr) p.
Proof.
  intros Hc Hr Hz E Hl Hin. apply (live_in_zone _ _ _ _ _ _ Hc Hr Hin) in Hl.
  apply (live_at_zone _ _ _ _ _ _ Hz) in Hl as (i & Hi & -> & Hn & _). apply Hn.
  eapply zone_all_free; [by apply (core_zone_ok h s)|done|done].
Qed.

(** The zone at [a] leaves its class for the spare zones. *)
Section retire.
Context (h : heap) (s s1 : slab_state) (a : Z) (fr : list Z) (z : slab_zone) (l1 l2 : list Z).
Let i := z_zoneindex z.
Hypothesis HI : heap_inv h s.
Hypothesis Hr : h_reg h !! a = Some (RZone fr).
Hypothesis Hz : zones s !! a = Some z.
Hypothesis Hall : z_nfree z = z_nmax z.
Hypothesis Hl : h_lists h i = l1 ++ a :: l2.
Hypothesis Hre : relinked s s1 l1 i.
Hypothesis Hch : zchain (zones s1) (zone_at s1 i) (l1 ++ l2).

Let z' := mk_zone (-1) (z_nfree z) (z_nmax z) (sys_zone_free s1) (z_baseptr z) (z_uindex z) (z_chunksize z)
  (z_zoneindex z) (z_freechunk z).
Let s' := set_zone_free a (sys_zone_free_cnt s1 + 1) (set_zones (<[a := z']>) s1).
Let h' := mk_heap (h_segs h) (<[a := RSpare]> (h_reg h)) (set_list i (l1 ++ l2) (h_lists h)) (a :: h_spare h).

Lemma retire_zones b : b <> a -> zones s' !! b = zones s1 !! b.
Proof. intros. unfold s'; simpl. by rewrite lookup_insert_ne. Qed.

Lemma retire_headers b zb :
  b <> a -> zones s !! b = Some zb -> exists zb', zones s' !! b = Some zb' /\ eq_but_next zb zb'.
Proof. intros Hne Hb. rewrite retire_zones by done. by apply (re_in _ _ _ _ Hre). Qed.

Lemma retire_core : heap_core h' s'.
Proof.
  pose proof (hi_core _ _ HI) as Hc. destruct (core_remove h s a _ Hc Hr) as [Hc1 Ho].
  destruct (relinked_fields _ _ _ _ Hre) as (HL & El & Ep & Eu & Ek & _).
  assert (heap_core (with_reg (delete a (h_reg h)) h) s') as Hc2.
  { apply (core_frame _ s); simpl; try done.
    - intros. by rewrite Eu.
    - intros b r zb [Hne _]%lookup_delete_Some Hb. by apply retire_headers.
    - intros. by rewrite Ek. }
  pose proof (core_add _ s' a RSpare Hc2) as Hadd. unfold with_reg in Hadd; simpl in Hadd.
  rewrite insert_delete_eq in Hadd. destruct Hadd as [G F Al Sp Ap Rg Rs Rr]; [| |by split].
  - apply (owned_layout _ s); [done|]. simpl. by rewrite (proj2 (proj2 (proj2 HL))).
  - split; [|unfold s'; simpl; by rewrite lookup_insert_eq].
    destruct (hi_region _ _ Hc a _ Hr) as [Hu _]. intros j Hj. change (usage s') with (usage s1).
    change (btokup s' a) with (btokup s1 a). rewrite Eu, (same_layout_btokup _ _ _ HL). apply Hu.
    by rewrite <- (proj2 (proj2 (proj2 HL))).
Qed.

Lemma retire_avail j b : avail h' s' j b <-> b <> a /\ avail h s j b.
Proof.
  unfold avail, h'; simpl. destruct (decide (b = a)) as [->|Hne].
  { rewrite lookup_insert_eq. split; [intros (? & ? & ? & _); congruence|tauto]. }
  rewrite lookup_insert_ne by done. split.
  - intros (fr0 & zb' & Hb & Hzb' & Hj & Hn). split; [done|].
    destruct (hi_region _ _ HI b _ Hb) as (_ & zb & Hzb & _).
    destruct (retire_headers b zb Hne Hzb) as (z0 & Hz0 & nx & ->). simplify_eq/=. eauto 10.
  - intros [_ (fr0 & zb & Hb & Hzb & Hj & Hn)].
    destruct (retire_headers b zb Hne Hzb) as (z0 & Hz0 & nx & ->). eauto 10.
Qed.

(** Zones outside of the class keep their links. *)
Lemma retire_links b : b ∉ h_lists h i -> zones s' !! b = zones s !! b.
Proof.
  rewrite Hl. intros Hb. rewrite retire_zones by set_solver. apply (re_out _ _ _ _ Hre). set_solver.
Qed.

Lemma retire_inv : heap_inv h' s'.
Proof.
  split; [apply retire_core|..].
  - intros j. destruct (hi_lists _ _ HI j) as (Hcj & Hnd & Hav). unfold h', set_list; simpl h_lists.
    destruct (Z.eqb_spec j i) as [->|Hji].
    + rewrite Hl in Hnd. apply NoDup_app in Hnd as (Hnd1 & Hd & [Ha2 Hnd2]%NoDup_cons).
      assert (a ∉ l1 ++ l2) as Hni by (rewrite elem_of_app; intros [H|H]; [apply (Hd a H); left|done]).
      split_and!.
      * unfold s'. by apply zchain_insert.
      * apply NoDup_app. split_and!; try done. intros b Hb Hb2. apply (Hd b Hb). by right.
      * intros b. etrans; [|symmetry; apply retire_avail]. rewrite <- Hav, Hl. set_solver.
    + assert (forall b, b ∈ h_lists h j -> b ∉ h_lists h i) as Hdis.
      { intros b (? & zb & _ & Hzb & Hj & _)%Hav Hin. apply (hi_lists _ _ HI i) in Hin as (? & ? & _ & ? & ? & _).
        congruence. }
      split_and!; [|done|].
      * unfold s' at 2. change (zone_at _ j) with (zone_at s1 j). rewrite (re_at _ _ _ _ Hre) by done.
        apply (zchain_ext (zones s)); [|done]. intros b Hb. by rewrite retire_links by auto.
      * intros b. etrans; [|symmetry; apply retire_avail]. rewrite Hav. split; [|tauto]. intros Ha.
        split; [|done]. intros ->. apply (Hdis a); [by apply Hav|]. rewrite Hl. set_solver.
  - destruct (hi_spare _ _ HI) as (Hcs & Hnd & Hsp & Hcnt). destruct (relinked_fields _ _ _ _ Hre) as (_ & _ & _ & _ & _ & Ef & Ec).
    assert (forall b, b ∈ h_spare h -> b <> a /\ b ∉ h_lists h i) as Hdis.
    { intros b Hb%Hsp. split; [congruence|]. intros (? & ? & ? & _)%(hi_lists _ _ HI i). congruence. }
    destruct (hi_space _ _ HI a _ Hr) as (Hpos & _). unfold h'; simpl. split_and!; try done; try lia.
    + exists z'. rewrite lookup_insert_eq. split; [done|]. simpl.
      rewrite Ef.
      apply (zchain_ext (zones s)); [|done]. intros b Hb. change (<[a := z']> (zones s1)) with (zones s').
      by rewrite retire_links by (by apply Hdis).
    + constructor; [|done]. intros Hb%Hdis. tauto.
    + intros b. rewrite elem_of_cons, Hsp. destruct (decide (b = a)) as [->|].
      * rewrite lookup_insert_eq. tauto.
      * rewrite lookup_insert_ne by done. tauto.
Qed.

Lemma retire_live p n : live h' s' p n <-> live h s p n.
Proof.
  rewrite (live_update h s s' a (RZone fr) RSpare h'); try done; [|apply HI|].
  - simpl. split; [tauto|]. intros Hp. left. split; [done|]. eapply no_live_free_zone; [apply HI|done..].
  - intros b q p' n' Hne Hb. apply live_at_zones.
    + intros zb Hzb. by apply retire_headers.
    + intros zb Hzb. destruct q as [fr0| |k]; [| |].
      * destruct (hi_region _ _ HI b _ Hb) as (_ & z0 & -> & _). done.
      * by destruct (hi_region _ _ HI b _ Hb) as (_ & ?).
      * rewrite retire_zones in Hzb by done. destruct (zones s !! b) eqn:E; [done|].
        rewrite (re_out _ _ _ _ Hre) in Hzb; [congruence|]. intros Hin.
        assert (b ∈ h_lists h i) as (? & ? & ? & _)%(hi_lists _ _ HI i) by (rewrite Hl; set_solver). congruence.
Qed.
End retire.

Lemma retire_zone_spec h s a fr z :
  heap_inv h s -> h_reg h !! a = Some (RZone fr) -> zones s !! a = Some z -> z_nfree z = z_nmax z ->
  sys_zone_free_cnt s < SK_ZONE_RELEASE_NUM ->
  exists h' s', retire_zone a s = Some s' /\ heap_inv h' s' /\ h_segs h' = h_segs h /\
    forall p n, live h' s' p n <-> live h s p n.
Proof.
  intros HI Hr Hz Hall Hcnt. pose proof (core_zone_ok h s a fr z HI Hr Hz) as Hok.
  destruct (hi_lists _ _ HI (z_zoneindex z)) as (Hch & Hnd & Hav).
  assert (a ∈ h_lists h (z_zoneindex z)) as Hin.
  { apply Hav. exists fr, z. split_and!; try done. pose proof (zo_uindex _ _ _ _ _ Hok). lia. }
  destruct (unlink_zone_spec s _ a z _ Hch Hnd Hin Hz) as (s1 & l1 & l2 & E & El & Hre & Hch1).
  unfold retire_zone. rewrite Hz. cbn [mbind option_bind]. rewrite E. cbn [mbind option_bind].
  rewrite El in Hnd. apply NoDup_app in Hnd as (_ & Hd & _).
  rewrite (re_out _ _ _ _ Hre a), Hz by (intros H; apply (Hd a H); left). simpl.
  destruct (relinked_fields _ _ _ _ Hre) as (_ & _ & _ & _ & _ & _ & Ec).
  destruct (Z.ltb_spec SK_ZONE_RELEASE_NUM (sys_zone_free_cnt s1 + 1)); [lia|].
  eexists _, _. split; [done|].
  split; [by apply (retire_inv h s s1 a fr z l1 l2)|]. split; [done|]. intros p n.
  by apply (retire_live h s s1 a fr z l1 l2).
Qed.

(** ** Giving a chunk back *)

(** The header after the chunk [p] has come back. *)
Definition freed (p nx : Z) (z : slab_zone) : slab_zone :=
  mk_zone (z_magic z) (z_nfree z + 1) (z_nmax z) nx (z_baseptr z) (z_uindex z) (z_chunksize z)
    (z_zoneindex z) p.

Lemma zone_ok_freed zsize ck a fr z p i nx :
  zone_ok zsize ck a fr z -> p = z_baseptr z + i * csize z -> 0 <= i <= z_uindex z -> p ∉ fr ->
  zone_ok zsize (<[p := z_freechunk z]> ck) a (p :: fr) (freed p nx z).
Proof.
  intros [] Ep Hi Hn. split; unfold freed; simpl; try done; try lia.
  - by constructor.
  - intros q [->|Hq]%elem_of_cons; [by exists i|auto].
  - split; [done|]. exists (z_freechunk z). rewrite lookup_insert_eq. split; [done|].
    eapply fchain_ext; [|done]. intros q Hq. rewrite lookup_insert_ne; [done|]. by intros <-.
Qed.

(** The state after the chunk [p] has come back to the zone at [a]. *)
Definition freed_state (p a : Z) (z : slab_zone) (s : slab_state) : slab_state :=
  let i := z_zoneindex z in
  let nx := if z_nfree z =? 0 then zone_at s i else z_next z in
  let s := set_chunks (<[p := z_freechunk z]>) s in
  let s := if z_nfree z =? 0 then set_zone_array (<[i := a]>) s else s in
  set_zones (<[a := freed p nx z]>) s.

Definition freed_heap (p a : Z) (fr : list Z) (z : slab_zone) (h : heap) : heap :=
  let i := z_zoneindex z in
  mk_heap (h_segs h) (<[a := RZone (p :: fr)]> (h_reg h))
    (set_list i (if z_nfree z =? 0 then a :: h_lists h i else h_lists h i) (h_lists h)) (h_spare h).

Section free_chunk.
Context (h : heap) (s : slab_state) (a : Z) (fr : list Z) (z : slab_zone) (p i : Z).
Hypothesis HI : heap_inv h s.
Hypothesis Hr : h_reg h !! a = Some (RZone fr).
Hypothesis Hz : zones s !! a = Some z.
Hypothesis Hi : 0 <= i <= z_uindex z.
Hypothesis Hp : p = z_baseptr z + i * csize z.
Hypothesis Hn : p ∉ fr.

Let nx := if z_nfree z =? 0 then zone_at s (z_zoneindex z) else z_next z.

Lemma freed_write :
  zone_write s (freed_state p a z s) a (freed p nx z) /\
  chunks (freed_state p a z s) = <[p := z_freechunk z]> (chunks s).
Proof. unfold freed_state. subst nx. destruct (z_nfree z =? 0); done. Qed.

Lemma freed_chunk_inside : inside s a (RZone fr) p.
Proof.
  assert (live_at s a (RZone fr) p (csize z)) as Hl by (simpl; eauto 10).
  eapply live_at_in; [apply HI|done|exact Hl].
Qed.

Lemma freed_zone_ok : zone_ok (sys_zone_size s) (chunks (freed_state p a z s)) a (p :: fr) (freed p nx z).
Proof.
  rewrite (proj2 freed_write). eapply zone_ok_freed; [|done..]. eapply core_zone_ok; [apply HI|done..].
Qed.

Lemma freed_inv : heap_inv (freed_heap p a fr z h) (freed_state p a z s).
Proof.
  pose proof freed_zone_ok as Hok. destruct freed_write as [Hw Ek].
  destruct (hi_lists _ _ HI (z_zoneindex z)) as (Hch & Hnd & Hav).
  destruct (hi_space _ _ HI a _ Hr) as (Hpos & _).
  assert (0 <= z_nfree z) as Hnf.
  { pose proof (core_zone_ok h s a fr z HI Hr Hz) as Ho. pose proof (zo_nfree _ _ _ _ _ Ho).
    pose proof (zo_uindex _ _ _ _ _ Ho). lia. }
  assert (a ∈ h_lists h (z_zoneindex z) <-> z_nfree z <> 0) as Hina.
  { rewrite Hav. split; [intros (? & ? & ? & ? & ? & ?); congruence|]. intros. by exists fr, z. }
  unfold freed_heap. apply (heap_inv_zone h s _ a fr z (p :: fr) (freed p nx z)); try done.
  - intros q Hq. rewrite Ek, lookup_insert_ne; [done|]. intros <-. by apply Hq, freed_chunk_inside.
  - intros j Hj. unfold freed_state, zone_at. destruct (_ =? 0); simpl; [by rewrite lookup_insert_ne|done].
  - rewrite (zw_zones _ _ _ _ Hw). unfold freed_state, nx. destruct (Z.eqb_spec (z_nfree z) 0); simpl.
    + unfold zone_at at 1; simpl. rewrite lookup_insert_eq. split; [done|]. split; [lia|].
      eexists. rewrite lookup_insert_eq. split; [done|]. simpl. apply zchain_insert; [|done]. tauto.
    + by apply (zchain_update _ _ _ _ z).
  - destruct (Z.eqb_spec (z_nfree z) 0); [|done]. constructor; [tauto|done].
  - intros b. simpl. destruct (Z.eqb_spec (z_nfree z) 0); rewrite ?elem_of_cons.
    + destruct (decide (b = a)) as [->|]; [|tauto]. split; [intros; right; split; [done|lia]|]. auto.
    + destruct (decide (b = a)) as [->|]; [|tauto]. split; [intros; right; split; [done|lia]|]. tauto.
Qed.

Lemma freed_live q m : live (freed_heap p a fr z h) (freed_state p a z s) q m <-> live h s q m /\ q <> p.
Proof.
  destruct freed_write as [Hw Ek]. pose proof freed_chunk_inside as Hin.
  unfold freed_heap. rewrite (live_zone_update h s _ a fr (p :: fr) (freed p nx z)) by (done || apply HI).
  rewrite (live_zone h s a (RZone fr) q m) by (done || apply HI).
  rewrite (live_at_zone _ _ _ _ _ _ Hz), (live_at_zone _ _ _ (freed p nx z)).
  2: { rewrite (zw_zones _ _ _ _ Hw). apply lookup_insert_eq. }
  unfold csize at 1 2; simpl; fold (csize z). setoid_rewrite not_elem_of_cons. split.
  - intros [[? ?]|(x & ? & ? & [? ?] & ?)]; split; eauto 10. intros ->. done.
  - intros [[[? ?]|(x & ? & ? & ? & ?)] ?]; eauto 10.
Qed.
End free_chunk.

(** A block has gone out of use. *)
Definition shrinks (h : heap) (s : slab_state) (h' : heap) (s' : slab_state) (p : Z) : Prop :=
  forall q m, live h' s' q m <-> live h s q m /\ q <> p.

Lemma free_chunk_spec h s a fr p n :
  heap_inv h s -> h_reg h !! a = Some (RZone fr) -> live_at s a (RZone fr) p n ->
  sys_zone_free_cnt s < SK_ZONE_RELEASE_NUM ->
  exists h' s', free_chunk p a s = Some s' /\ heap_inv h' s' /\ h_segs h' = h_segs h /\ shrinks h s h' s' p.
Proof.
  intros HI Hr (z & i & Hz & Hi & Hp & Hn & _) Hcnt.
  pose proof (freed_inv h s a fr z p i HI Hr Hz Hi Hp Hn) as HI1.
  pose proof (freed_live h s a fr z p i HI Hr Hz Hi Hp Hn) as Hl1.
  destruct (freed_write s a z p) as [Hw _].
  unfold free_chunk. rewrite Hz. cbn [mbind option_bind].
  match goal with |- context [retire_zone a ?s1] => change s1 with (freed_state p a z s) end.
  match goal with |- context [if ?c then retire_zone _ _ else _] => destruct c eqn:Ec end.
  2: { by exists (freed_heap p a fr z h), (freed_state p a z s). }
  apply andb_true_iff in Ec as [Hall%Z.eqb_eq _].
  destruct (retire_zone_spec (freed_heap p a fr z h) (freed_state p a z s) a (p :: fr)
    (freed p (if z_nfree z =? 0 then zone_at s (z_zoneindex z) else z_next z) z)) as (h' & s' & E & HI' & Es & Hl);
    try done.
  - apply lookup_insert_eq.
  - rewrite (zw_zones _ _ _ _ Hw). apply lookup_insert_eq.
  - by rewrite (zw_cnt _ _ _ _ Hw).
  - exists h', s'. split_and!; try done. intros q m. by rewrite Hl, Hl1.
Qed.

(** The page of an address inside a zone. *)
Lemma page_of_inside s a p :
  0 < a -> a mod SK_PAGE_SIZE = 0 -> a <= p < a + SK_PAGE_SIZE * sys_zone_page_cnt s ->
  exists j, (p & ~~ SK_PAGE_MASK) = a + SK_PAGE_SIZE * j /\ 0 <= j < sys_zone_page_cnt s /\
    btokup s (p & ~~ SK_PAGE_MASK) = btokup s a + j.
Proof.
  intros Ha Hal Hp. apply Z.mod_divide in Hal as [x Hx]; [|done]. exists (p / SK_PAGE_SIZE - x).
  rewrite mask_down by lia.
  assert (x <= p / SK_PAGE_SIZE) by (apply Z.div_le_lower_bound; pg).
  assert (p / SK_PAGE_SIZE < x + sys_zone_page_cnt s) by (apply Z.div_lt_upper_bound; pg).
  split_and!; try pg. unfold btokup. rewrite !Z.shiftr_div_pow2 by done. change (2 ^ SK_PAGE_SHIFT) with SK_PAGE_SIZE.
  replace (SK_PAGE_SIZE * (p / SK_PAGE_SIZE) - sys_mem_start s)
    with (a - sys_mem_start s + (p / SK_PAGE_SIZE - x) * SK_PAGE_SIZE) by pg.
  by rewrite Z.div_add.
Qed.

Definition drop_region (a : Z) (h : heap) : heap := with_reg (delete a (h_reg h)) h.

(** A large block leaves the regions; its pages are then owned by [sk_free]. *)
Lemma heap_inv_drop_large h s a k :
  heap_inv h s -> h_reg h !! a = Some (RLarge k) ->
  heap_inv (drop_region a h) s /\ owned (drop_region a h) s a k.
Proof.
  intros HI Hr. pose proof HI as [Hc Li Sr]. destruct (core_remove h s a _ Hc Hr) as [Hc1 Ho]. split; [|done].
  assert (forall b r, h_reg h !! b = Some r -> r <> RLarge k -> delete a (h_reg h) !! b = Some r) as Hd.
  { intros b r Hb Hne. rewrite lookup_delete_ne; [done|]. intros <-. congruence. }
  split; [done|..]; simpl.
  - intros j. destruct (Li j) as (? & ? & Hav). split_and!; try done. intros b. rewrite Hav. unfold avail; simpl.
    split; intros (fr & z & Hb & ?); exists fr, z; (split; [|done]); [by apply Hd|].
    by apply lookup_delete_Some in Hb as [_ ?].
  - destruct Sr as (? & ? & Hsp & ?). split_and!; try done. intros b. rewrite Hsp.
    split; [intros; by apply Hd|intros [_ ?]%lookup_delete_Some; done].
Qed.

Lemma free_large_spec h s p k :
  heap_inv h s -> h_reg h !! p = Some (RLarge k) ->
  exists h' s', sk_page_free p k (set_usage (<[btokup s p := mk_usage SK_PAGE_TYPE_LARGE 0]>) s) = Some s' /\
    heap_inv h' s' /\ h_segs h' = seg_free p k (h_segs h) /\ shrinks h s h' s' p.
Proof.
  intros HI Hr. destruct (heap_inv_drop_large h s p k HI Hr) as [HI1 Ho].
  set (f := <[btokup s p := mk_usage SK_PAGE_TYPE_LARGE 0]>).
  assert (heap_inv (drop_region p h) (set_usage f s)) as HI2.
  { eapply heap_inv_usage; [done..|]. intros i Hi. unfold f. apply lookup_insert_ne. intros <-. apply Hi.
    pose proof (ow_pages _ _ _ _ Ho). lia. }
  destruct (page_give _ (set_usage f s) p k HI2) as (s' & P & E & Hfr & HI3); [by apply (owned_layout _ s)|].
  destruct (page_frame_fields _ _ _ Hfr) as (_ & _ & Ez & _). eexists _, s'. split_and!; try done.
  intros q m. rewrite !live_regions. simpl. split.
  - intros (b & r & [Hne Hb]%lookup_delete_Some & Hl). rewrite (live_at_zones s) in Hl
      by (rewrite Ez; simpl; eauto using eq_but_next_refl).
    split; [eauto|]. intros ->. apply Hne. eapply (inside_unique h s p b _ _ p (hi_core _ _ HI) Hr Hb).
    + destruct (hi_space _ _ HI p _ Hr) as (? & ? & ? & _). unfold inside; simpl in *. pg.
    + eapply live_at_in; [apply HI|done|exact Hl].
  - intros [(b & r & Hb & Hl) Hne]. exists b, r. split.
    + rewrite lookup_delete_ne; [done|]. intros <-. simplify_eq. destruct Hl as [-> _]. done.
    + apply (live_at_zones s); [rewrite Ez; simpl; eauto using eq_but_next_refl..|done].
Qed.

(** [sk_free] on a block in use. *)
Lemma sk_free_spec h s p n :
  heap_inv h s -> live h s p n -> sys_zone_free_cnt s < SK_ZONE_RELEASE_NUM ->
  exists h' s', sk_free p s = Some s' /\ heap_inv h' s' /\ shrinks h s h' s' p.
Proof.
  intros HI (a & r & Hr & Hl)%live_regions Hcnt.
  destruct (hi_space _ _ HI a r Hr) as (Hpos & Hal & Hk & _).
  pose proof (live_at_in h s a r p n HI Hr Hl) as Hin. unfold inside in Hin.
  unfold sk_free. destruct (Z.eqb_spec p 0); [lia|].
  destruct r as [fr| |k]; [|by destruct Hl|].
  - destruct (page_of_inside s a p Hpos Hal Hin) as (j & Epg & Hj & ->).
    destruct (hi_region _ _ HI a _ Hr) as [Hu _]. rewrite (Hu j Hj). simpl.
    replace ((p & ~~ SK_PAGE_MASK) - j * SK_PAGE_SIZE) with a by lia.
    destruct (free_chunk_spec h s a fr p n HI Hr Hl Hcnt) as (h' & s' & ? & ? & _ & ?). eauto.
  - destruct Hl as [-> ->]. destruct (hi_region _ _ HI a _ Hr) as [Hk30 Hu].
    rewrite mask_down by lia. rewrite <- (Z_div_exact_2 a SK_PAGE_SIZE) by done. rewrite Hu. simpl.
    destruct (free_large_spec h s a k HI Hr) as (h' & s' & ? & ? & _ & ?). eauto.
Qed.

(** ** The allocator implements its contract *)

(** A class below the limit fits four times into a zone. *)
Lemma class_below_limit i n limit zsize :
  0 <= i < SK_NUM_ZONES -> (i = 0 \/ class_size (i - 1) < n) -> n < limit ->
  zsize = 32768 \/ zsize = 65536 \/ zsize = 131072 -> limit = Z.min (zsize / 4) SK_ZONE_LIMIT ->
  4 * class_size i <= zsize.
Proof.
  intros Hi Hn Hlim Hz ->.
  assert (forallb (fun i => (class_size i <=? 16384) &&
    ((i =? 0) || (8192 <=? class_size (i - 1)) || (class_size i <=? 8192))) (seqZ 0 SK_NUM_ZONES) = true) as H
    by by vm_compute.
  rewrite forallb_forall in H. specialize (H i). rewrite <- list_elem_of_In, elem_of_seqZ in H.
  specialize (H ltac:(lia)). rewrite !andb_true_iff, !orb_true_iff, !Z.leb_le, Z.eqb_eq in H.
  destruct H as [H1 H2]. destruct Hz as [->|[->| ->]]; [|lia..].
  change (Z.min (32768 / 4) SK_ZONE_LIMIT) with 8192 in Hlim.
  destruct Hn as [->|Hn]; [done|]. destruct H2 as [[->|?]|?]; [done|lia|lia].
Qed.

Lemma sk_malloc_spec h s size :
  heap_inv h s -> 0 < size <= 0x100000000 -> ~ 1024 <= size < 2048 ->
  size <= block_size size s /\
  ((sk_malloc size s = Some (0, s) /\ Forall (fun sg => sg.2 < need_pages size s) (h_segs h)) \/
   exists p h' s', sk_malloc size s = Some (p, s') /\ 0 < p /\ heap_inv h' s' /\
     grows h s h' s' p (block_size size s)).
Proof.
  intros HI Hs Hbad. pose proof (hi_geom _ _ HI) as G. unfold sk_malloc, need_pages, block_size.
  destruct (Z.eqb_spec size 0); [lia|]. destruct (Z.leb_spec (sys_zone_limit s) size) as [Hl|Hl].
  - split; [|by apply malloc_large_spec].
    pose proof (Z.mul_succ_div_gt (size + (SK_PAGE_SIZE - 1)) SK_PAGE_SIZE). pg.
  - assert (size < 16384) by (rewrite (ge_limit _ G) in Hl; unfold SK_ZONE_LIMIT in Hl; lia).
    destruct (zone_index_smallest_class size) as (i & -> & Hi & Hle & Hmin); [lia|]. split; [done|]. simpl.
    assert (4 * class_size i <= sys_zone_size s) by (apply (class_below_limit i size (sys_zone_limit s)); (done || apply G)).
    destruct (Z.eqb_spec (zone_at s i) 0); simpl; [by apply malloc_new_zone_spec|].
    right. by apply malloc_zone_spec.
Qed.

Lemma heap_rep_live h s (B : gmap Z Z) p n :
  heap_core h s -> (forall p n, B !! p = Some n <-> live h s p n) -> B !! p = Some n ->
  0 < p /\ p mod 8 = 0 /\ lo <= p /\ p + n <= hi.
Proof.
  intros Hc HB (a & r & Hr & Hl)%HB%live_regions.
  destruct (live_at_inside _ _ _ _ _ _ Hc Hr Hl) as (? & ? & ? & ?), (hi_range _ _ Hc a r Hr),
    (hi_space _ _ Hc a r Hr) as (? & _). split_and!; try done; lia.
Qed.

Lemma malloc_refines s l B size :
  heap_rep s l B -> allowed s B (Malloc size) ->
  exists r s' l', run_heap (Malloc size) s = Some (r, s') /\ call_result s l B (Malloc size) r s' /\
    heap_rep s' l' (blocks_after s B (Malloc size) r).
Proof.
  intros (h & HI & <- & HB) [Hs Hbad]. simpl. destruct (decide (size = 0)) as [->|Hne].
  { exists 0, s, (h_segs h). split; [done|]. split; [auto|]. by exists h. }
  destruct (sk_malloc_spec h s size HI) as [Hle [[E Hf]|(p & h' & s' & E & Hp & HI' & Hg & Hnew)]]; [lia|done|..].
  { exists 0, s, (h_segs h). split; [done|]. split; [auto|]. by exists h. }
  assert (B !! p = None) as Hn.
  { destruct (B !! p) eqn:Ep; [|done]. apply HB in Ep. by destruct (Hnew _ Ep). }
  set (B' := <[p := block_size size s]> B).
  assert (forall q m, B' !! q = Some m <-> live h' s' q m) as HB'.
  { intros q m. unfold B'. rewrite Hg, lookup_insert_Some, HB. split; [intros [[<- <-]|[? ?]]; auto|].
    intros [Hl|[-> ->]]; [right|auto]. split; [|done]. intros <-. by apply (Hnew m). }
  exists p, s', (h_segs h'). split; [done|]. destruct (Z.eqb_spec p 0); [lia|]. split; [|by exists h'].
  destruct (heap_rep_live h' s' B' p (block_size size s)) as (? & ? & ? & ?); [apply HI'|done|apply lookup_insert_eq|].
  right. split_and!; try done. intros q m Hq.
  destruct (live_disjoint h' s' p (block_size size s) q m) as [[-> _]|?]; try done; [apply HI'|..].
  - apply HB', lookup_insert_eq.
  - apply HB'. unfold B'. rewrite lookup_insert_ne; congruence.
  - congruence.
Qed.

Lemma free_refines s l B ptr :
  heap_rep s l B -> allowed s B (Free ptr) ->
  exists r s' l', run_heap (Free ptr) s = Some (r, s') /\ call_result s l B (Free ptr) r s' /\
    heap_rep s' l' (blocks_after s B (Free ptr) r).
Proof.
  intros (h & HI & <- & HB) Hok. simpl. destruct (decide (ptr = 0)) as [->|Hne].
  { exists 0, s, (h_segs h). split_and!; [done..|]. exists h. split_and!; try done.
    intros p n. rewrite lookup_delete_Some, HB. split; [tauto|]. intros Hl. split; [|done]. intros <-.
    apply HB, (heap_rep_live h s B) in Hl; [lia|apply HI|done]. }
  destruct Hok as [?|[[n Hn%HB] Hcnt]]; [done|].
  destruct (sk_free_spec h s ptr n HI Hn Hcnt) as (h' & s' & E & HI' & Hsh). rewrite E; simpl.
  exists 0, s', (h_segs h'). split_and!; [done..|]. exists h'. split_and!; try done.
  intros q m. rewrite lookup_delete_Some, HB. unfold shrinks in Hsh. rewrite Hsh. intuition congruence.
Qed.

(** Blocks never overlap. *)
Lemma heap_rep_disjoint s l B p n q m :
  heap_rep s l B -> B !! p = Some n -> B !! q = Some m -> p = q \/ p + n <= q \/ q + m <= p.
Proof.
  intros (h & HI & _ & HB) Hp%HB Hq%HB. destruct (live_disjoint h s p n q m) as [[? _]|?]; auto. apply HI.
Qed.
End heap.

(** ** The heap after start-up *)

Lemma align_page x : 0 <= x <= 2 ^ 63 -> SK_ALIGN x SK_PAGE_SIZE = SK_PAGE_SIZE * ((x + 4095) / SK_PAGE_SIZE).
Proof.
  intros Hx. unfold SK_ALIGN. change (SK_PAGE_SIZE - 1) with SK_PAGE_MASK.
  replace (x + SK_PAGE_SIZE - 1) with (x + 4095) by pg. rewrite (uint_small 64 (x + 4095)) by lia.
  rewrite mask_down by lia. pose proof (Z.mul_div_le (x + 4095) SK_PAGE_SIZE ltac:(done)).
  apply uint_small. split; [|lia]. apply Z.mul_nonneg_nonneg; [done|]. by apply Z.div_pos; [lia|].
Qed.

Lemma zone_size_loop_cases limit :
  let z := zone_size_loop 3 SK_ALLOC_MIN_ZONE_SIZE limit in z = 32768 \/ z = 65536 \/ z = 131072.
Proof.
  unfold SK_ALLOC_MIN_ZONE_SIZE. simpl. destruct (_ <? limit / 1024); simpl; [|by left].
  destruct (_ <? limit / 1024); simpl; auto.
Qed.

Section init.
Context (begin_addr end_addr : Z).

(** The pages of the heap, and those that the usage array takes. *)
Definition heap_start : Z := SK_ALIGN begin_addr SK_PAGE_SIZE.
Definition heap_end : Z := SK_ALIGN end_addr SK_PAGE_SIZE.
Definition heap_pages : Z := (heap_end - heap_start) / SK_PAGE_SIZE.
Definition usage_pages : Z := (heap_pages * sizeof_mem_usage + 4095) / SK_PAGE_SIZE.
Definition heap_base : Z := heap_start + SK_PAGE_SIZE * usage_pages.

(** A range of addresses that can be managed: at least two pages, and less than
    4 GB, since sizes are computed in 32 bits. *)
Definition heap_range : Prop :=
  0 < begin_addr <= end_addr /\ end_addr <= 2 ^ 48 /\
  2 * SK_PAGE_SIZE <= heap_end - heap_start < 2 ^ 32.

Lemma heap_range_pages :
  heap_range -> 0 < heap_start /\ heap_start mod SK_PAGE_SIZE = 0 /\
    heap_end = heap_start + SK_PAGE_SIZE * heap_pages /\ 2 <= heap_pages < 2 ^ 20 /\
    0 < usage_pages < heap_pages.
Proof.
  intros (Hb & He & Hsz). unfold heap_pages, usage_pages, heap_pages, heap_start, heap_end in *.
  rewrite !align_page in * by lia.
  set (x := (begin_addr + 4095) / SK_PAGE_SIZE) in *. set (y := (end_addr + 4095) / SK_PAGE_SIZE) in *.
  assert (0 < x) by (apply Z.div_str_pos; pg).
  replace (SK_PAGE_SIZE * y - SK_PAGE_SIZE * x) with ((y - x) * SK_PAGE_SIZE) in * by lia.
  rewrite Z.div_mul by done. unfold sizeof_mem_usage. split_and!; try pg.
  - rewrite Z.mul_comm. by apply Z.mod_mul.
  - apply Z.div_str_pos. pg.
  - apply Z.div_lt_upper_bound; pg.
Qed.

(** The free pages at the start. *)
Definition heap_segs : list seg := [(heap_base, heap_pages - usage_pages)].

Lemma mem_init_pages s0 :
  heap_range ->
  let s1 := sk_page_init heap_start heap_pages s0 in
  exists s', sk_page_alloc usage_pages s1 = Some (heap_start, s') /\ free_list s' heap_segs /\
    page_frame PHead (covers [(heap_start, heap_pages)]) s1 s'.
Proof.
  intros HR s1. destruct (heap_range_pages HR) as (Hpos & Hal & He & Hp & Hu).
  assert (free_list s1 [(heap_start, heap_pages)]) as Hf.
  { split; simpl; [|lia]. split; [done|]. exists 0. by rewrite lookup_insert_eq. }
  pose proof (sk_page_alloc_segs usage_pages s1 _ Hf (proj1 Hu)) as Hrun. simpl in Hrun.
  destruct (Z.ltb_spec usage_pages heap_pages); [done|lia].
Qed.

(** [sk_system_mem_init] leaves a heap without blocks, all of whose pages but those
    of the usage array are free. *)
Lemma mem_init_rep :
  heap_range ->
  exists s, sk_system_mem_init begin_addr end_addr slab_zero = Some (SK_EOK, s) /\
    heap_rep heap_base heap_end s heap_segs ∅.
Proof.
  intros HR. destruct (heap_range_pages HR) as (Hpos & Hal & He & Hp & Hu).
  unfold sk_system_mem_init. fold heap_start heap_end.
  destruct (Z.ltb_spec heap_end heap_start); [pg|].
  rewrite (uint_small 32 (heap_end - heap_start)) by (unfold heap_range in HR; pg). fold heap_pages.
  pose proof (zone_size_loop_cases (heap_end - heap_start)) as Hzs. cbv zeta in Hzs.
  set (zs := zone_size_loop 3 SK_ALLOC_MIN_ZONE_SIZE (heap_end - heap_start)) in *. clearbody zs.
  rewrite (uint_small 32 (heap_pages * sizeof_mem_usage)) by (unfold sizeof_mem_usage; lia).
  rewrite (align_page (heap_pages * _)) by (unfold sizeof_mem_usage; lia). fold usage_pages.
  rewrite (uint_small 32) by pg. rewrite (Z.mul_comm SK_PAGE_SIZE), Z.div_mul by done.
  match goal with |- context [sk_page_init _ _ ?s0] =>
    destruct (mem_init_pages s0 HR) as (s1 & E & Hf & Hfr) end.
  rewrite E. simpl. eexists. split; [done|].
  destruct (page_frame_fields _ _ _ Hfr) as (_ & _ & Ez & _ & Ea & Efr & Ecn).
  exists (mk_heap heap_segs ∅ (fun _ => []) []). split_and!; [|done|].
  - split; [split|..]; simpl; try done.
    + destruct Hzs as [->|[->| ->]]; split; simpl; auto.
    + constructor; [|done]. unfold heap_base; simpl. rewrite (Z.mul_comm SK_PAGE_SIZE), Z.mod_add by done. done.
    + intros p [Hp'|[]]. unfold heap_base in *. lia.
    + intros i. unfold zone_at; simpl. rewrite Ea. split_and!; [done|constructor|].
      intros a. rewrite elem_of_nil. split; [done|]. by intros (? & ? & ? & _).
    + rewrite Efr, Ecn. split_and!; [done|constructor| |done]. intros a. by rewrite elem_of_nil.
  - intros p n. split; [done|]. intros [(? & ? & ? & ? & ? & _)|(? & ? & _)]; done.
Qed.

(** The states of the heap that start-up and calls within the contract lead to, with
    the blocks in use. *)
Inductive heap_reach : slab_state -> gmap Z Z -> Prop :=
  | reach_init s :
      sk_system_mem_init begin_addr end_addr slab_zero = Some (SK_EOK, s) -> heap_reach s ∅
  | reach_call s B c r s' :
      heap_reach s B -> allowed s B c -> run_heap c s = Some (r, s') ->
      heap_reach s' (blocks_after s B c r).

Lemma run_heap_refines lo hi s l B c :
  heap_rep lo hi s l B -> allowed s B c ->
  exists r s' l', run_heap c s = Some (r, s') /\ call_result lo hi s l B c r s' /\
    heap_rep lo hi s' l' (blocks_after s B c r).
Proof. destruct c; [apply malloc_refines|apply free_refines]. Qed.

Lemma heap_reach_rep s B : heap_range -> heap_reach s B -> exists l, heap_rep heap_base heap_end s l B.
Proof.
  intros HR. induction 1 as [s E|s B c r s' _ [l IH] Hok E].
  - destruct (mem_init_rep HR) as (s0 & E0 & ?). simplify_eq. eauto.
  - destruct (run_heap_refines _ _ s l B c IH Hok) as (r0 & s0 & l' & E0 & _ & ?). simplify_eq. eauto.
Qed.
End init.

(** C12: on a heap set up by [sk_system_mem_init] over any range of two pages to
    4 GB, every sequence of [sk_malloc] (of at most 4 GB, and other than of 1024 to
    2047 bytes) and of [sk_free] of blocks in use (while fewer than two zones are spare) runs without
    a bad access.  In every state reached, an allocation returns a block at a
    multiple of eight, at least as large as asked for, inside the heap and behind
    the usage array, apart from every block in use, or NULL with nothing changed and
    only when no run of free pages is long enough; a release takes exactly its block
    out of use; and the blocks in use never overlap. *)
Theorem heap_calls_safe (begin_addr end_addr : Z) (s : slab_state) (B : gmap Z Z) :
  heap_range begin_addr end_addr -> heap_reach begin_addr end_addr s B ->
  (forall c, allowed s B c ->
     exists r s' l, run_heap c s = Some (r, s') /\ free_list s l /\
       call_result (heap_base begin_addr end_addr) (heap_end end_addr) s l B c r s' /\
       heap_reach begin_addr end_addr s' (blocks_after s B c r)) /\
  (forall p n q m, B !! p = Some n -> B !! q = Some m -> p = q \/ p + n <= q \/ q + m <= p).
Proof.
  intros HR Hre. destruct (heap_reach_rep _ _ _ _ HR Hre) as (l & Hrep). split.
  - intros c Hc. destruct (run_heap_refines _ _ _ _ _ c Hrep Hc) as (r & s' & l' & E & Hres & _).
    exists r, s', l. split_and!; try done; [|by eapply reach_call].
    destruct Hrep as (h & HI & <- & _). apply (hi_free _ _ _ _ HI).
  - intros p n q m. by apply (heap_rep_disjoint _ _ _ _ _ _ _ _ _ Hrep).
Qed.

(** ** A heap in use *)

#[export] Instance allowed_dec s B c : Decision (allowed s B c).
Proof. destruct c; apply _. Defined.

(** Calls one after the other, as long as the contract allows them. *)
Fixpoint heap_exec (cs : list heap_call) (s : slab_state) (B : gmap Z Z) : option (slab_state * gmap Z Z) :=
  match cs with
  | [] => Some (s, B)
  | c :: cs =>
      if decide (allowed s B c)
      then '(r, s') ← run_heap c s; heap_exec cs s' (blocks_after s B c r)
      else None
  end.

Lemma heap_exec_reach b e cs s B s' B' :
  heap_reach b e s B -> heap_exec cs s B = Some (s', B') -> heap_reach b e s' B'.
Proof.
  revert s B. induction cs as [|c cs IH]; intros s B Hre; simpl; [by intros [= <- <-]|].
  destruct (decide (allowed s B c)); [|done]. destruct (run_heap c s) as [[r s1]|] eqn:E; simpl; [|done].
  apply IH. by eapply reach_call.
Qed.

(** Small, large and released blocks: three chunks of one class, the first of them
    given back, chunks of two other classes, and whole pages. *)
Definition heap_example : list heap_call :=
  [Malloc 100; Malloc 100; Malloc 3000; Malloc 20000; Free (0x40004000 + 56); Malloc 5000; Malloc 104].

Definition heap16_used : slab_state * gmap Z Z := default (heap16, ∅) (heap_exec heap_example heap16 ∅).

Lemma heap_calls_safe_witness :
  (heap_range 0x40000000 0x41000000 /\ heap_reach 0x40000000 0x41000000 heap16_used.1 heap16_used.2) /\
  (size heap16_used.2 = 5%nat /\
   (forall c, allowed heap16_used.1 heap16_used.2 c ->
     exists r s' l, run_heap c heap16_used.1 = Some (r, s') /\ free_list heap16_used.1 l /\
       call_result (heap_base 0x40000000 0x41000000) (heap_end 0x41000000) heap16_used.1 l heap16_used.2 c r s' /\
       heap_reach 0x40000000 0x41000000 s' (blocks_after heap16_used.1 heap16_used.2 c r))) /\
  (forall p n q m, heap16_used.2 !! p = Some n -> heap16_used.2 !! q = Some m ->
     p = q \/ p + n <= q \/ q + m <= p).
Proof.
  assert (heap_range 0x40000000 0x41000000) as HR by (split_and!; done).
  assert (heap_reach 0x40000000 0x41000000 heap16_used.1 heap16_used.2) as Hre.
  { apply (heap_exec_reach _ _ heap_example heap16 ∅); [|by vm_compute].
    apply reach_init. by vm_compute. }
  split; [done|]. destruct (heap_calls_safe 0x40000000 0x41000000 heap16_used.1 heap16_used.2 HR Hre) as [Hc Hd].
  split; [|exact Hd]. split; [by vm_compute|exact Hc].
Defined.
