(* ===== verification/IoDef.v ===== *)
(** * Devices, descriptors and the hardware bus: the data

    The structures of [src/include/kernel/device.h], [src/include/kernel/hw.h],
    [src/include/driver/serial.h] and [src/include/fs/vfs.h] as records, and the
    part of the kernel's globals that belongs to devices and files.  Accesses to
    device registers are recorded in the order in which they happen; what a read
    returns is the answer of the hardware, a parameter of the definitions that
    read. *)

From S2P Require Import Prelude BaseDef RingBuffer.

Local Open Scope c_scope.

(** ** Devices *)

(** [struct sk_device] after its object header.  [ops], [rx_indicate] and
    [tx_complete] are addresses of code and of tables of code. *)
Record sk_device := mk_device {
  dev_type : Z;
  dev_flag : Z;
  ref_cnt : Z;
  device_id : Z;
  rx_indicate : Z;
  tx_complete : Z;
  dev_ops : Z;
  dev_user_data : Z
}.

Definition SK_DEVICE_FLAG_RDWR : Z := 0x003.
Definition SK_DEVICE_FLAG_CLOSE : Z := 0x000.
Definition SK_DEVICE_FLAG_ACTIVATED : Z := 0x010.
Definition SK_DEVICE_FLAG_OPEN : Z := 0x020.
Definition SK_DEVICE_CHAR : Z := 0.

Definition set_dev_flag (fl : Z) (d : sk_device) : sk_device :=
  mk_device (dev_type d) (u16 fl) (ref_cnt d) (device_id d) (rx_indicate d) (tx_complete d)
    (dev_ops d) (dev_user_data d).
Definition set_ref_cnt (n : Z) (d : sk_device) : sk_device :=
  mk_device (dev_type d) (dev_flag d) (u8 n) (device_id d) (rx_indicate d) (tx_complete d)
    (dev_ops d) (dev_user_data d).

(** ** Serial devices *)

Record sk_serial_configure := mk_config {
  baud_rate : Z;
  data_bits : Z;
  stop_bits : Z;
  parity : Z;
  flowcontrol : Z;
  bit_order : Z;
  rx_buf_size : Z;
  tx_buf_size : Z
}.

(** [SK_DEFAULT_SERIAL_CONFIG] *)
Definition SK_SERIAL_RX_BUF_SIZE : Z := 64.
Definition SK_SERIAL_TX_BUF_SIZE : Z := 128.
Definition SK_DEFAULT_SERIAL_CONFIG : sk_serial_configure :=
  mk_config 115200 8 0 0 0 0 SK_SERIAL_RX_BUF_SIZE SK_SERIAL_TX_BUF_SIZE.

Definition SK_SERIAL_RX_NON_BLOCK : Z := 0x200.
Definition SK_SERIAL_EVENT_RX_IND : Z := 0x01.
Definition SK_SERIAL_EVENT_TX_DONE : Z := 0x02.
Definition SK_SERIAL_EVENT_RX_DMADONE : Z := 0x03.

(** [struct sk_serial_rx_fifo] and [struct sk_serial_tx_fifo]; their completions
    are never used, and the flexible array [buffer] is in the byte memory at a
    fixed offset from the structure. *)
Record sk_serial_rx_fifo := mk_rx { rx_rb : sk_ring_buffer }.
Record sk_serial_tx_fifo := mk_tx { tx_rb : sk_ring_buffer; put_size : Z; activated : Z }.

(** [struct sk_serial_device] after its [struct sk_device]. *)
Record sk_serial_device := mk_serial {
  serial_ops_ptr : Z;
  serial_config : sk_serial_configure;
  serial_rx : Z;
  serial_tx : Z
}.

(** ** Interrupt controller and timer *)

Record gic_info := mk_gic { offset : Z; dist_base : Z; cpu_base : Z }.

Record sk_irq_desc := mk_irq { handler : Z; irq_param : Z }.

(** [timer_val] and [timer_step] of [sys_tick.c]. *)
Record timer_reg := mk_timer_reg { timer_val : Z; timer_step : Z }.

(** ** File systems *)

Record sk_vfs_fd := mk_fd {
  fd_magic : Z;
  fd_type : Z;
  fd_path : Z;
  ref_count : Z;
  fd_fs : Z;
  fd_fops : Z;
  fd_flag : Z;
  fd_size : Z;
  fd_pos : Z;
  fd_data : Z
}.

(** [struct sk_vfs_filesystem]; [fs_ops] is the address of its operations. *)
Record sk_vfs_filesystem := mk_fs { dev_id : Z; fs_path : Z; fs_ops : Z; fs_data : Z }.

(** [file_system], [fd_tab.max_fd], [fd_tab.fds], the memory of descriptors at
    their addresses and of the array [fds] points to. *)
Record vfs_state := mk_vfs {
  file_system : list sk_vfs_filesystem;
  max_fd : Z;
  fds : Z;
  fd_mem : gmap Z sk_vfs_fd
}.

(** ** Accesses to hardware *)

Inductive sysreg := CNTV_CVAL_EL0 | CNTV_CTL_EL0 | CNTFRQ_EL0 | VBAR_EL1.

#[global] Instance sysreg_eq_dec : EqDecision sysreg.
Proof. solve_decision. Defined.

(** 32-bit loads and stores of device registers, moves from and to system
    registers. *)
Inductive access :=
  | BusRead (a v : Z)
  | BusWrite (a v : Z)
  | Mrs (r : sysreg) (v : Z)
  | Msr (r : sysreg) (v : Z).

#[global] Instance access_eq_dec : EqDecision access.
Proof. solve_decision. Defined.

(** The hardware answers a read of a register by what happened before: any
    deterministic device is such a function. *)
Definition hardware : Type := list access -> Z -> Z.

(** ** The globals *)

Record io_state := mk_io {
  io_devices : gmap Z sk_device;
  io_serials : gmap Z sk_serial_device;
  io_rxs : gmap Z sk_serial_rx_fifo;
  io_txs : gmap Z sk_serial_tx_fifo;
  io_console : Z;
  io_gic : gic_info;
  io_isr : list sk_irq_desc;
  io_timer : timer_reg;
  io_vfs : vfs_state;
  io_bus : list access
}.

(** [set_io_f g] applies [g] to the field [io_f]. *)
Definition set_io_devices (g : (gmap Z sk_device) -> (gmap Z sk_device)) (i : io_state) : io_state :=
  mk_io (g (io_devices i)) (io_serials i) (io_rxs i) (io_txs i) (io_console i) (io_gic i)
    (io_isr i) (io_timer i) (io_vfs i) (io_bus i).
Definition set_io_serials (g : (gmap Z sk_serial_device) -> (gmap Z sk_serial_device)) (i : io_state) : io_state :=
  mk_io (io_devices i) (g (io_serials i)) (io_rxs i) (io_txs i) (io_console i) (io_gic i)
    (io_isr i) (io_timer i) (io_vfs i) (io_bus i).
Definition set_io_rxs (g : (gmap Z sk_serial_rx_fifo) -> (gmap Z sk_serial_rx_fifo)) (i : io_state) : io_state :=
  mk_io (io_devices i) (io_serials i) (g (io_rxs i)) (io_txs i) (io_console i) (io_gic i)
    (io_isr i) (io_timer i) (io_vfs i) (io_bus i).
Definition set_io_txs (g : (gmap Z sk_serial_tx_fifo) -> (gmap Z sk_serial_tx_fifo)) (i : io_state) : io_state :=
  mk_io (io_devices i) (io_serials i) (io_rxs i) (g (io_txs i)) (io_console i) (io_gic i)
    (io_isr i) (io_timer i) (io_vfs i) (io_bus i).
Definition set_io_console (g : Z -> Z) (i : io_state) : io_state :=
  mk_io (io_devices i) (io_serials i) (io_rxs i) (io_txs i) (g (io_console i)) (io_gic i)
    (io_isr i) (io_timer i) (io_vfs i) (io_bus i).
Definition set_io_gic (g : gic_info -> gic_info) (i : io_state) : io_state :=
  mk_io (io_devices i) (io_serials i) (io_rxs i) (io_txs i) (io_console i) (g (io_gic i))
    (io_isr i) (io_timer i) (io_vfs i) (io_bus i).
Definition set_io_isr (g : (list sk_irq_desc) -> (list sk_irq_desc)) (i : io_state) : io_state :=
  mk_io (io_devices i) (io_serials i) (io_rxs i) (io_txs i) (io_console i) (io_gic i)
    (g (io_isr i)) (io_timer i) (io_vfs i) (io_bus i).
Definition set_io_timer (g : timer_reg -> timer_reg) (i : io_state) : io_state :=
  mk_io (io_devices i) (io_serials i) (io_rxs i) (io_txs i) (io_console i) (io_gic i)
    (io_isr i) (g (io_timer i)) (io_vfs i) (io_bus i).
Definition set_io_vfs (g : vfs_state -> vfs_state) (i : io_state) : io_state :=
  mk_io (io_devices i) (io_serials i) (io_rxs i) (io_txs i) (io_console i) (io_gic i)
    (io_isr i) (io_timer i) (g (io_vfs i)) (io_bus i).
Definition set_io_bus (g : (list access) -> (list access)) (i : io_state) : io_state :=
  mk_io (io_devices i) (io_serials i) (io_rxs i) (io_txs i) (io_console i) (io_gic i)
    (io_isr i) (io_timer i) (io_vfs i) (g (io_bus i)).

(** Everything zero: no device, no file, no handler of [GIC_MAX_HANDLERS]. *)
Definition GIC_MAX_HANDLERS : Z := 96.
Definition VFS_MAX_FS_TYPE : Z := 3.

Definition io_zero : io_state :=
  mk_io ∅ ∅ ∅ ∅ SK_NULL (mk_gic 0 0 0) (replicate 96 (mk_irq SK_NULL SK_NULL)) (mk_timer_reg 0 0)
    (mk_vfs (replicate 3 (mk_fs 0 SK_NULL SK_NULL SK_NULL)) 0 SK_NULL ∅) [].
