(* ===== verification/Kernel.v ===== *)
(** * The state of the kernel and its control flow

    The structures of [src/include/kernel/sched.h], [timer.h], [kobj.h] and
    [ipc.h] as records, the kernel's global variables as the record [kstate],
    and the monad of the kernel's C functions.  A structure is identified by
    its address; the list nodes embedded in structures and the list heads among
    the globals are the constructors of [node], so that [sk_list_entry] is the
    inverse of a constructor.  A kernel function may lose the processor in
    [hw_context_switch]: its run is then a [Switch] with the rest of the
    function as a continuation, to be resumed in the state in which the thread
    is switched back to. *)

From S2P Require Import Prelude BaseDef KList Slab IoDef.

Local Open Scope c_scope.

(** ** List nodes *)

(** [NPrio i] is [sk_thread_prio_table[i]], [NTimerList] is [__timer_list] and
    [NObjList ty] is [_object_container[ty].obj_list]; [NTlist t] is the member
    [tlist] of the thread [t], [NObj o] the member [list] of the object [o],
    [NTimer tm] the member [list] of the timer [tm], [NSuspend ipc] the member
    [suspend_thread] of an IPC object and [NSender ipc] the member
    [suspend_sender_thread] of a mailbox or message queue. *)
Inductive node :=
  | NNull
  | NPrio (i : Z)
  | NTimerList
  | NObjList (ty : Z)
  | NTlist (t : Z)
  | NObj (o : Z)
  | NTimer (tm : Z)
  | NSuspend (ipc : Z)
  | NSender (ipc : Z).

#[global] Instance node_eq_dec : EqDecision node.
Proof. solve_decision. Defined.

Definition node_encode (n : node) : Z * Z :=
  match n with
  | NNull => (0, 0) | NPrio i => (1, i) | NTimerList => (2, 0) | NObjList ty => (3, ty)
  | NTlist t => (4, t) | NObj o => (5, o) | NTimer tm => (6, tm)
  | NSuspend i => (7, i) | NSender i => (8, i)
  end.

Definition node_decode (p : Z * Z) : option node :=
  match p with
  | (0, _) => Some NNull | (1, i) => Some (NPrio i) | (2, _) => Some NTimerList
  | (3, ty) => Some (NObjList ty) | (4, t) => Some (NTlist t) | (5, o) => Some (NObj o)
  | (6, tm) => Some (NTimer tm) | (7, i) => Some (NSuspend i) | (8, i) => Some (NSender i)
  | _ => None
  end.

#[global] Program Instance node_countable : Countable node :=
  inj_countable node_encode node_decode _.
Next Obligation. by intros []. Qed.

(** ** Structures *)

Definition SK_THREAD_INIT : Z := 0x00.
Definition SK_THREAD_READY : Z := 0x01.
Definition SK_THREAD_SUSPEND : Z := 0x02.
Definition SK_THREAD_RUNNING : Z := 0x04.
Definition SK_THREAD_CLOSE : Z := 0x08.
Definition SK_THREAD_MASK : Z := 0x0F.
Definition SK_THREAD_YIELD : Z := 0x10.
Definition SK_THREAD_PRIORITY_MAX : Z := 32.

(** [struct sk_object]: the name is in the byte memory at the object's
    address, the list node is [NObj]. *)
Record sk_object := mk_object { obj_type : Z; obj_flag : Z }.

(** [struct sk_thread] after its object header, list nodes and timer. *)
Record sk_thread := mk_thread {
  stat : Z;
  current_pri : Z;
  init_pri : Z;
  number_mask : Z;
  sp : Z;
  entry : Z;
  param : Z;
  stack_addr : Z;
  stack_size : Z;
  init_tick : Z;
  remain_tick : Z;
  event_set : Z;
  event_info : Z;
  cleanup : Z;
  user_data : Z
}.

(** The offset of [thread_timer] in [struct sk_thread], and of [sp], on aarch64. *)
Definition thread_timer (t : Z) : Z := t + 120.
Definition thread_sp (t : Z) : Z := t + 64.

Record sk_sys_timer := mk_timer {
  timeout_func : Z;
  tparam : Z;
  tinit_tick : Z;
  timeout_tick : Z
}.

Record sk_mutex := mk_mutex {
  mvalue : Z;
  original_pri : Z;
  hold : Z;
  owner : Z
}.

Record sk_mailbox := mk_mailbox {
  mb_pool : Z;
  mb_size : Z;
  mb_entry : Z;
  in_offset : Z;
  out_offset : Z
}.

Record sk_msg_queue := mk_mq {
  mq_pool : Z;
  msg_size : Z;
  max_msgs : Z;
  mq_entry : Z;
  msg_queue_head : Z;
  msg_queue_tail : Z;
  msg_queue_free : Z
}.

Definition SK_OBJECT_THREAD : Z := 0.
Definition SK_OBJECT_SEMAPHORE : Z := 1.
Definition SK_OBJECT_MUTEX : Z := 2.
Definition SK_OBJECT_EVENT : Z := 3.
Definition SK_OBJECT_MAILBOX : Z := 4.
Definition SK_OBJECT_MSQUE : Z := 5.
Definition SK_OBJECT_DEVICE : Z := 6.
Definition SK_OBJECT_TIMER : Z := 7.
Definition SK_OBJECT_UNKNOWN : Z := 8.

(** [thread_switch_interrupt_flag], [interrupt_from_thread] and
    [interrupt_to_thread] of [context.S]. *)
Record switch_request := mk_switch { sw_flag : Z; sw_from : Z; sw_to : Z }.

(** ** The globals of the kernel *)

Record kstate := mk_kstate {
  ks_nodes : gmap node (sk_list_node node);
  ks_objs : gmap Z sk_object;
  ks_threads : gmap Z sk_thread;
  ks_timers : gmap Z sk_sys_timer;
  ks_current : Z;
  ks_group : Z;
  ks_daif : Z;
  ks_nest : Z;
  ks_tick : Z;
  ks_need_schedule : bool;
  ks_switch : switch_request;
  ks_sems : gmap Z Z;
  ks_mutexes : gmap Z sk_mutex;
  ks_events : gmap Z Z;
  ks_mailboxes : gmap Z sk_mailbox;
  ks_mqs : gmap Z sk_msg_queue;
  ks_words : gmap Z Z;
  ks_mem : mem;
  ks_heap : slab_state;
  ks_io : io_state
}.

(** [upd_f g] applies [g] to the field [ks_f]. *)
Definition upd_nodes (g : (gmap node (sk_list_node node)) -> (gmap node (sk_list_node node))) (s : kstate) : kstate :=
  mk_kstate
    (g (ks_nodes s)) (ks_objs s) (ks_threads s) (ks_timers s) (ks_current s) (ks_group s)
    (ks_daif s) (ks_nest s) (ks_tick s) (ks_need_schedule s) (ks_switch s) (ks_sems s)
    (ks_mutexes s) (ks_events s) (ks_mailboxes s) (ks_mqs s) (ks_words s) (ks_mem s)
    (ks_heap s) (ks_io s).
Definition upd_objs (g : (gmap Z sk_object) -> (gmap Z sk_object)) (s : kstate) : kstate :=
  mk_kstate
    (ks_nodes s) (g (ks_objs s)) (ks_threads s) (ks_timers s) (ks_current s) (ks_group s)
    (ks_daif s) (ks_nest s) (ks_tick s) (ks_need_schedule s) (ks_switch s) (ks_sems s)
    (ks_mutexes s) (ks_events s) (ks_mailboxes s) (ks_mqs s) (ks_words s) (ks_mem s)
    (ks_heap s) (ks_io s).
Definition upd_threads (g : (gmap Z sk_thread) -> (gmap Z sk_thread)) (s : kstate) : kstate :=
  mk_kstate
    (ks_nodes s) (ks_objs s) (g (ks_threads s)) (ks_timers s) (ks_current s) (ks_group s)
    (ks_daif s) (ks_nest s) (ks_tick s) (ks_need_schedule s) (ks_switch s) (ks_sems s)
    (ks_mutexes s) (ks_events s) (ks_mailboxes s) (ks_mqs s) (ks_words s) (ks_mem s)
    (ks_heap s) (ks_io s).
Definition upd_timers (g : (gmap Z sk_sys_timer) -> (gmap Z sk_sys_timer)) (s : kstate) : kstate :=
  mk_kstate
    (ks_nodes s) (ks_objs s) (ks_threads s) (g (ks_timers s)) (ks_current s) (ks_group s)
    (ks_daif s) (ks_nest s) (ks_tick s) (ks_need_schedule s) (ks_switch s) (ks_sems s)
    (ks_mutexes s) (ks_events s) (ks_mailboxes s) (ks_mqs s) (ks_words s) (ks_mem s)
    (ks_heap s) (ks_io s).
Definition upd_current (g : Z -> Z) (s : kstate) : kstate :=
  mk_kstate
    (ks_nodes s) (ks_objs s) (ks_threads s) (ks_timers s) (g (ks_current s)) (ks_group s)
    (ks_daif s) (ks_nest s) (ks_tick s) (ks_need_schedule s) (ks_switch s) (ks_sems s)
    (ks_mutexes s) (ks_events s) (ks_mailboxes s) (ks_mqs s) (ks_words s) (ks_mem s)
    (ks_heap s) (ks_io s).
Definition upd_group (g : Z -> Z) (s : kstate) : kstate :=
  mk_kstate
    (ks_nodes s) (ks_objs s) (ks_threads s) (ks_timers s) (ks_current s) (g (ks_group s))
    (ks_daif s) (ks_nest s) (ks_tick s) (ks_need_schedule s) (ks_switch s) (ks_sems s)
    (ks_mutexes s) (ks_events s) (ks_mailboxes s) (ks_mqs s) (ks_words s) (ks_mem s)
    (ks_heap s) (ks_io s).
Definition upd_daif (g : Z -> Z) (s : kstate) : kstate :=
  mk_kstate
    (ks_nodes s) (ks_objs s) (ks_threads s) (ks_timers s) (ks_current s) (ks_group s) (g
    (ks_daif s)) (ks_nest s) (ks_tick s) (ks_need_schedule s) (ks_switch s) (ks_sems s)
    (ks_mutexes s) (ks_events s) (ks_mailboxes s) (ks_mqs s) (ks_words s) (ks_mem s)
    (ks_heap s) (ks_io s).
Definition upd_nest (g : Z -> Z) (s : kstate) : kstate :=
  mk_kstate
    (ks_nodes s) (ks_objs s) (ks_threads s) (ks_timers s) (ks_current s) (ks_group s)
    (ks_daif s) (g (ks_nest s)) (ks_tick s) (ks_need_schedule s) (ks_switch s) (ks_sems s)
    (ks_mutexes s) (ks_events s) (ks_mailboxes s) (ks_mqs s) (ks_words s) (ks_mem s)
    (ks_heap s) (ks_io s).
Definition upd_tick (g : Z -> Z) (s : kstate) : kstate :=
  mk_kstate
    (ks_nodes s) (ks_objs s) (ks_threads s) (ks_timers s) (ks_current s) (ks_group s)
    (ks_daif s) (ks_nest s) (g (ks_tick s)) (ks_need_schedule s) (ks_switch s) (ks_sems s)
    (ks_mutexes s) (ks_events s) (ks_mailboxes s) (ks_mqs s) (ks_words s) (ks_mem s)
    (ks_heap s) (ks_io s).
Definition upd_need_schedule (g : bool -> bool) (s : kstate) : kstate :=
  mk_kstate
    (ks_nodes s) (ks_objs s) (ks_threads s) (ks_timers s) (ks_current s) (ks_group s)
    (ks_daif s) (ks_nest s) (ks_tick s) (g (ks_need_schedule s)) (ks_switch s) (ks_sems s)
    (ks_mutexes s) (ks_events s) (ks_mailboxes s) (ks_mqs s) (ks_words s) (ks_mem s)
    (ks_heap s) (ks_io s).
Definition upd_switch (g : switch_request -> switch_request) (s : kstate) : kstate :=
  mk_kstate
    (ks_nodes s) (ks_objs s) (ks_threads s) (ks_timers s) (ks_current s) (ks_group s)
    (ks_daif s) (ks_nest s) (ks_tick s) (ks_need_schedule s) (g (ks_switch s)) (ks_sems s)
    (ks_mutexes s) (ks_events s) (ks_mailboxes s) (ks_mqs s) (ks_words s) (ks_mem s)
    (ks_heap s) (ks_io s).
Definition upd_sems (g : (gmap Z Z) -> (gmap Z Z)) (s : kstate) : kstate :=
  mk_kstate
    (ks_nodes s) (ks_objs s) (ks_threads s) (ks_timers s) (ks_current s) (ks_group s)
    (ks_daif s) (ks_nest s) (ks_tick s) (ks_need_schedule s) (ks_switch s) (g (ks_sems s))
    (ks_mutexes s) (ks_events s) (ks_mailboxes s) (ks_mqs s) (ks_words s) (ks_mem s)
    (ks_heap s) (ks_io s).
Definition upd_mutexes (g : (gmap Z sk_mutex) -> (gmap Z sk_mutex)) (s : kstate) : kstate :=
  mk_kstate
    (ks_nodes s) (ks_objs s) (ks_threads s) (ks_timers s) (ks_current s) (ks_group s)
    (ks_daif s) (ks_nest s) (ks_tick s) (ks_need_schedule s) (ks_switch s) (ks_sems s) (g
    (ks_mutexes s)) (ks_events s) (ks_mailboxes s) (ks_mqs s) (ks_words s) (ks_mem s)
    (ks_heap s) (ks_io s).
Definition upd_events (g : (gmap Z Z) -> (gmap Z Z)) (s : kstate) : kstate :=
  mk_kstate
    (ks_nodes s) (ks_objs s) (ks_threads s) (ks_timers s) (ks_current s) (ks_group s)
    (ks_daif s) (ks_nest s) (ks_tick s) (ks_need_schedule s) (ks_switch s) (ks_sems s)
    (ks_mutexes s) (g (ks_events s)) (ks_mailboxes s) (ks_mqs s) (ks_words s) (ks_mem s)
    (ks_heap s) (ks_io s).
Definition upd_mailboxes (g : (gmap Z sk_mailbox) -> (gmap Z sk_mailbox)) (s : kstate) : kstate :=
  mk_kstate
    (ks_nodes s) (ks_objs s) (ks_threads s) (ks_timers s) (ks_current s) (ks_group s)
    (ks_daif s) (ks_nest s) (ks_tick s) (ks_need_schedule s) (ks_switch s) (ks_sems s)
    (ks_mutexes s) (ks_events s) (g (ks_mailboxes s)) (ks_mqs s) (ks_words s) (ks_mem s)
    (ks_heap s) (ks_io s).
Definition upd_mqs (g : (gmap Z sk_msg_queue) -> (gmap Z sk_msg_queue)) (s : kstate) : kstate :=
  mk_kstate
    (ks_nodes s) (ks_objs s) (ks_threads s) (ks_timers s) (ks_current s) (ks_group s)
    (ks_daif s) (ks_nest s) (ks_tick s) (ks_need_schedule s) (ks_switch s) (ks_sems s)
    (ks_mutexes s) (ks_events s) (ks_mailboxes s) (g (ks_mqs s)) (ks_words s) (ks_mem s)
    (ks_heap s) (ks_io s).
Definition upd_words (g : (gmap Z Z) -> (gmap Z Z)) (s : kstate) : kstate :=
  mk_kstate
    (ks_nodes s) (ks_objs s) (ks_threads s) (ks_timers s) (ks_current s) (ks_group s)
    (ks_daif s) (ks_nest s) (ks_tick s) (ks_need_schedule s) (ks_switch s) (ks_sems s)
    (ks_mutexes s) (ks_events s) (ks_mailboxes s) (ks_mqs s) (g (ks_words s)) (ks_mem s)
    (ks_heap s) (ks_io s).
Definition upd_mem (g : mem -> mem) (s : kstate) : kstate :=
  mk_kstate
    (ks_nodes s) (ks_objs s) (ks_threads s) (ks_timers s) (ks_current s) (ks_group s)
    (ks_daif s) (ks_nest s) (ks_tick s) (ks_need_schedule s) (ks_switch s) (ks_sems s)
    (ks_mutexes s) (ks_events s) (ks_mailboxes s) (ks_mqs s) (ks_words s) (g (ks_mem s))
    (ks_heap s) (ks_io s).
Definition upd_heap (g : slab_state -> slab_state) (s : kstate) : kstate :=
  mk_kstate
    (ks_nodes s) (ks_objs s) (ks_threads s) (ks_timers s) (ks_current s) (ks_group s)
    (ks_daif s) (ks_nest s) (ks_tick s) (ks_need_schedule s) (ks_switch s) (ks_sems s)
    (ks_mutexes s) (ks_events s) (ks_mailboxes s) (ks_mqs s) (ks_words s) (ks_mem s) (g
    (ks_heap s)) (ks_io s).

Definition upd_io (g : io_state -> io_state) (s : kstate) : kstate :=
  mk_kstate
    (ks_nodes s) (ks_objs s) (ks_threads s) (ks_timers s) (ks_current s) (ks_group s)
    (ks_daif s) (ks_nest s) (ks_tick s) (ks_need_schedule s) (ks_switch s) (ks_sems s)
    (ks_mutexes s) (ks_events s) (ks_mailboxes s) (ks_mqs s) (ks_words s) (ks_mem s)
    (ks_heap s) (g (ks_io s)).

(** ** Runs of kernel functions *)

(** [Done s a]: returns [a] in the state [s].  [Switch s k]: the processor went
    to the thread [ks_current s], and [k] is what remains to run when this
    thread gets it back.  [NoReturn]: control left for good.  [Fault]: a load or
    store through a pointer that addresses no such structure.  [Spin]: a loop
    ran out of the fuel its caller gave it. *)
Inductive res (A : Type) :=
  | Done (s : kstate) (a : A)
  | Switch (s : kstate) (k : kstate -> res A)
  | NoReturn (s : kstate)
  | Fault
  | Spin.
Arguments Done {A} s a.
Arguments Switch {A} s k.
Arguments NoReturn {A} s.
Arguments Fault {A}.
Arguments Spin {A}.

Definition M (A : Type) : Type := kstate -> res A.

Fixpoint bind_res {A B} (r : res A) (f : A -> M B) : res B :=
  match r with
  | Done s a => f a s
  | Switch s k => Switch s (fun s' => bind_res (k s') f)
  | NoReturn s => NoReturn s
  | Fault => Fault
  | Spin => Spin
  end.

#[global] Instance M_ret : MRet M := fun A a s => Done s a.
#[global] Instance M_bind : MBind M := fun A B f m s => bind_res (m s) f.

Definition gets {A} (f : kstate -> A) : M A := fun s => Done s (f s).
Definition modify (f : kstate -> kstate) : M unit := fun s => Done (f s) tt.
Definition fault {A} : M A := fun _ => Fault.
Definition spin {A} : M A := fun _ => Spin.
Definition lift_option {A} (o : option A) : M A := fun s =>
  match o with Some a => Done s a | None => Fault end.

(** [if(c) m;] *)
Definition when_ (c : bool) (m : M unit) : M unit := if c then m else mret tt.

(** A structure is read whole or updated at its address; a pointer that
    addresses none faults. *)
Definition read_at {A} (f : kstate -> gmap Z A) (p : Z) : M A := fun s =>
  match f s !! p with Some a => Done s a | None => Fault end.
Definition update_at {A} (f : kstate -> gmap Z A)
  (u : (gmap Z A -> gmap Z A) -> kstate -> kstate) (p : Z) (g : A -> A) : M unit := fun s =>
  match f s !! p with Some a => Done (u (<[p := g a]>) s) tt | None => Fault end.

Definition get_thread (t : Z) : M sk_thread := read_at ks_threads t.
Definition upd_thread (t : Z) (g : sk_thread -> sk_thread) : M unit :=
  update_at ks_threads upd_threads t g.
Definition get_timer (t : Z) : M sk_sys_timer := read_at ks_timers t.
Definition upd_timer (t : Z) (g : sk_sys_timer -> sk_sys_timer) : M unit :=
  update_at ks_timers upd_timers t g.
Definition get_obj (o : Z) : M sk_object := read_at ks_objs o.
Definition upd_obj (o : Z) (g : sk_object -> sk_object) : M unit :=
  update_at ks_objs upd_objs o g.

(** The list operations on the kernel's nodes. *)
Definition on_nodes (f : gmap node (sk_list_node node) -> option (gmap node (sk_list_node node)))
  : M unit := fun s =>
  match f (ks_nodes s) with Some h => Done (upd_nodes (fun _ => h) s) tt | None => Fault end.
Definition list_init (n : node) : M unit := on_nodes (sk_list_init n).
Definition list_add (hd n : node) : M unit := on_nodes (sk_list_add hd n).
Definition list_add_tail (hd n : node) : M unit := on_nodes (sk_list_add_tail hd n).
Definition list_del (n : node) : M unit := on_nodes (sk_list_del n).
Definition list_empty (n : node) : M bool := fun s => lift_option (sk_list_empty n (ks_nodes s)) s.
Definition node_next (n : node) : M node := fun s => lift_option (load_next n (ks_nodes s)) s.
Definition node_prev (n : node) : M node := fun s => lift_option (load_prev n (ks_nodes s)) s.

(** [sk_list_entry(n, struct sk_thread, tlist)] and the like: defined on nodes
    that are that member of a structure. *)
Definition entry_thread (n : node) : M Z :=
  match n with NTlist t => mret t | _ => fault end.
Definition entry_object (n : node) : M Z :=
  match n with NObj o => mret o | _ => fault end.
Definition entry_timer (n : node) : M Z :=
  match n with NTimer tm => mret tm | _ => fault end.

(** ** Interrupts: [src/arch/aarch64/src/context.S] and [src/init/irq.c] *)

(** [mrs x0, daif; msr daifset, #3] *)
Definition hw_interrupt_disable : M Z := fun s =>
  Done (upd_daif (fun d => d ||| 0xC0) s) (ks_daif s).

(** [ands x0, x0, #0xC0; b.ne exit; msr daifclr, #3] *)
Definition hw_interrupt_enable (level : Z) : M unit :=
  modify (fun s => if level & 0xC0 =? 0 then upd_daif (fun d => d & ~~ 0xC0) s else s).

#[global] Arguments hw_interrupt_enable level s : simpl never.

(** The values of [daif] the kernel runs with: interrupts on or off. *)
Definition irq_wf (s : kstate) : Prop := ks_daif s = 0 \/ ks_daif s = 0xC0.

Definition sk_interrupt_enter : M unit :=
  level ← hw_interrupt_disable;
  modify (upd_nest (fun n => u8 (n + 1)));;
  hw_interrupt_enable level.

Definition sk_interrupt_leave : M unit :=
  level ← hw_interrupt_disable;
  modify (upd_nest (fun n => u8 (n - 1)));;
  hw_interrupt_enable level.

Definition sk_interrupt_get_nest : M Z :=
  level ← hw_interrupt_disable;
  ret ← gets ks_nest;
  hw_interrupt_enable level;;
  mret ret.

Definition sk_is_in_interrupt : M bool := gets (fun s => negb (ks_nest s =? 0)).

(** ** Context switches *)

(** The source saves the registers on the stack of [from] and continues with
    those of [to]; the function returns when the thread is switched to again.  The
    mask stays as it is here: the instructions resume a thread with the mask of the
    status at its last exception, which counts until its caller of the scheduler
    sets the mask; [Context] has what they do. *)
Definition hw_context_switch (from to : Z) : M unit := fun s =>
  Switch s (fun s' => Done s' tt).

(** In an interrupt the switch is recorded and performed by [vector_irq]. *)
Definition hw_context_switch_interrupt (from to : Z) : M unit :=
  modify (upd_switch (fun w =>
    if sw_flag w =? 1 then mk_switch (sw_flag w) (sw_from w) to else mk_switch 1 from to)).

Definition hw_context_switch_to (to : Z) : M unit := fun s => NoReturn s.

(** ** Memory *)

Definition kmalloc (size : Z) : M Z := fun s =>
  match sk_malloc size (ks_heap s) with
  | Some (p, h) => Done (upd_heap (fun _ => h) s) p
  | None => Fault
  end.

Definition kfree (p : Z) : M unit := fun s =>
  match sk_free p (ks_heap s) with
  | Some h => Done (upd_heap (fun _ => h) s) tt
  | None => Fault
  end.

Definition kmemcpy (dst src count : Z) : M unit := modify (upd_mem (sk_memcpy dst src count)).
Definition kmemset (dst c count : Z) : M unit := modify (upd_mem (sk_memset dst c count)).

Definition read_word (a : Z) : M Z := gets (fun s => default 0 (ks_words s !! a)).
Definition write_word (a v : Z) : M unit := modify (upd_words (<[a := u64 v]>)).

Definition sk_current_thread : M Z := gets ks_current.

(** ** Running the monad *)

Lemma bind_done {A B} (m : M A) (f : A -> M B) s s' a :
  m s = Done s' a -> (m ≫= f) s = f a s'.
Proof. intros E. unfold mbind, M_bind. by rewrite E. Qed.

Lemma read_at_ok {A} (f : kstate -> gmap Z A) p s a :
  f s !! p = Some a -> read_at f p s = Done s a.
Proof. unfold read_at. by intros ->. Qed.

Lemma update_at_ok {A} (f : kstate -> gmap Z A) u p g s a :
  f s !! p = Some a -> update_at f u p g s = Done (u (<[p := g a]>) s) tt.
Proof. unfold update_at. by intros ->. Qed.

Lemma on_nodes_ok f s h : f (ks_nodes s) = Some h -> on_nodes f s = Done (upd_nodes (fun _ => h) s) tt.
Proof. unfold on_nodes. by intros ->. Qed.

(** Interrupts off. *)
Definition masked (s : kstate) : kstate := upd_daif (fun _ => 0xC0) s.

Lemma disable_ok s : irq_wf s -> hw_interrupt_disable s = Done (masked s) (ks_daif s).
Proof. intros [E|E]; unfold hw_interrupt_disable; rewrite E; destruct s; simpl in *; by subst. Qed.

Lemma enable_ok d s :
  d = 0 \/ d = 0xC0 -> ks_daif s = 0xC0 ->
  hw_interrupt_enable d s = Done (upd_daif (fun _ => d) s) tt.
Proof. intros [-> | ->] E; destruct s; simpl in *; by subst. Qed.

Lemma masked_idem s : masked (masked s) = masked s.
Proof. done. Qed.

Lemma irq_wf_masked s : irq_wf (masked s).
Proof. by right. Qed.

#[export] Hint Resolve irq_wf_masked : skernel.

(** Run the first action of a sequence by an equation for it. *)
Ltac kstep E := rewrite (bind_done _ _ _ _ _ E); cbn beta.

(** Take the branch of a condition that has been evaluated. *)
Ltac kif := cbv beta iota zeta delta [negb andb orb].

(** The same actions from states to be shown equal. *)
Ltac same_run := match goal with |- ?k ?a = ?k ?b => refine (f_equal k _) end.

(** Evaluate a sequence of updates of a state given by its components. *)
Ltac kstate_eval :=
  cbv beta iota delta [masked upd_nodes upd_objs upd_threads upd_timers upd_current upd_group upd_daif
    upd_nest upd_tick upd_need_schedule upd_switch upd_sems upd_mutexes upd_events upd_mailboxes
    upd_mqs upd_words upd_mem upd_heap upd_io ks_nodes ks_objs ks_threads ks_timers ks_current ks_group
    ks_daif ks_nest ks_tick ks_need_schedule ks_switch ks_sems ks_mutexes ks_events ks_mailboxes
    ks_mqs ks_words ks_mem ks_heap ks_io].
