(* ===== verification/Sched.v ===== *)
(** * The scheduler of [src/thread/schedule.c]

    The ready table (32 priority queues and the bitmap of the nonempty ones),
    [sk_schedule_insert_thread], [sk_schedule_remove_thread], [sk_schedule] and
    the start of the scheduler, with the invariant of the ready table and what
    each operation does to the queues. *)

From S2P Require Import Prelude BaseDef KList Slab IoDef Kernel.

Local Open Scope c_scope.

(** ** Operations *)

(** [thread->stat = st] *)
Definition set_stat (st : Z) (t : sk_thread) : sk_thread :=
  mk_thread st (current_pri t) (init_pri t) (number_mask t) (sp t) (entry t) (param t)
    (stack_addr t) (stack_size t) (init_tick t) (remain_tick t) (event_set t) (event_info t)
    (cleanup t) (user_data t).

(** The thread and the priority the source returns through its argument. *)
Definition __schedule_get_hp_thread : M (Z * Z) :=
  group ← gets ks_group;
  let ready_prio := u64 (__sk_ffs (s32 group) - 1) in
  n ← node_next (NPrio ready_prio);
  thread ← entry_thread n;
  mret (thread, ready_prio).

Definition sk_schedule_remove_thread (thread : Z) : M unit :=
  level ← hw_interrupt_disable;
  list_del (NTlist thread);;
  t ← get_thread thread;
  e ← list_empty (NPrio (current_pri t));
  when_ e (modify (upd_group (fun g => u32 (g & ~~ number_mask t))));;
  hw_interrupt_enable level.

Definition sk_schedule_insert_thread (thread : Z) : M unit :=
  level ← hw_interrupt_disable;
  cur ← gets ks_current;
  if thread =? cur then upd_thread thread (set_stat SK_THREAD_RUNNING)
  else
    upd_thread thread (set_stat SK_THREAD_READY);;
    t ← get_thread thread;
    list_add_tail (NPrio (current_pri t)) (NTlist thread);;
    modify (upd_group (fun g => g ||| number_mask t));;
    hw_interrupt_enable level.

Fixpoint prio_table_init (cnt : nat) (index : Z) : M unit :=
  match cnt with
  | O => mret tt
  | S cnt => list_init (NPrio index);; prio_table_init cnt (index + 1)
  end.

Definition sk_system_scheduler_init : M unit :=
  level ← hw_interrupt_disable;
  prio_table_init (Z.to_nat SK_THREAD_PRIORITY_MAX) 0;;
  modify (upd_group (fun _ => 0));;
  hw_interrupt_enable level.

(** The part of [sk_schedule] that replaces [current_thread] by [to_thread]. *)
Definition schedule_switch (to_thread : Z) : M unit :=
  from_thread ← gets ks_current;
  modify (upd_current (fun _ => to_thread));;
  from ← get_thread from_thread;
  when_ (negb (stat from =? SK_THREAD_SUSPEND) && negb (stat from =? SK_THREAD_CLOSE))
    (sk_schedule_insert_thread from_thread);;
  cur ← gets ks_current;
  upd_thread cur (fun t => set_stat (u8 (stat t & ~~ SK_THREAD_YIELD)) t);;
  sk_schedule_remove_thread to_thread;;
  upd_thread to_thread (set_stat SK_THREAD_RUNNING);;
  irq ← sk_is_in_interrupt;
  if (irq : bool) then hw_context_switch_interrupt (thread_sp from_thread) (thread_sp to_thread)
  else hw_context_switch (thread_sp from_thread) (thread_sp to_thread).

Definition sk_schedule : M unit :=
  level ← hw_interrupt_disable;
  group ← gets ks_group;
  when_ (negb (group =? 0)) (
    '(to_thread, ready_hp_prio) ← __schedule_get_hp_thread;
    current_thread ← gets ks_current;
    cur ← get_thread current_thread;
    let to_thread :=
      if (stat cur =? SK_THREAD_RUNNING) && (current_pri cur <=? ready_hp_prio)
      then current_thread else to_thread in
    when_ (negb (current_thread =? to_thread)) (schedule_switch to_thread));;
  hw_interrupt_enable level.

Definition sk_system_scheduler_start : M unit :=
  '(to_thread, _) ← __schedule_get_hp_thread;
  modify (upd_current (fun _ => to_thread));;
  sk_schedule_remove_thread to_thread;;
  upd_thread to_thread (set_stat SK_THREAD_RUNNING);;
  hw_context_switch_to (thread_sp to_thread).

(** ** The ready table *)

Notation lists := (gmap node (list node)).

(** The threads [ts] are ready at priority [i]. *)
Definition queue (L : lists) (i : Z) (ts : list Z) : Prop :=
  L !! NPrio i = Some (NTlist <$> ts).

(** The thread is on no list. *)
Definition detached (L : lists) (t : Z) : Prop := L !! NTlist t = Some [].

(** Every priority has its queue, which holds threads of that priority; the
    mask of a thread is the bit of its priority; a bit of the group is set
    exactly when the queue is not empty. *)
Record sched_inv (L : lists) (s : kstate) : Prop := {
  si_rep : Rep (ks_nodes s) L;
  si_irq : irq_wf s;
  si_queue : forall i, 0 <= i < 32 -> exists ts, queue L i ts /\
    forall t, t ∈ ts -> exists th, ks_threads s !! t = Some th /\ current_pri th = i;
  si_thread : forall t th, ks_threads s !! t = Some th ->
    0 <= current_pri th < 32 /\ number_mask th = 2 ^ current_pri th;
  si_range : 0 <= ks_group s < 2 ^ 32;
  si_group : forall i ts, 0 <= i < 32 -> queue L i ts -> Z.testbit (ks_group s) i = bool_decide (ts <> [])
}.

(** [t] heads the queue of the highest (numerically lowest) ready priority [p]. *)
Definition highest (L : lists) (p t : Z) (ts : list Z) : Prop :=
  0 <= p < 32 /\ queue L p (t :: ts) /\ forall i, 0 <= i < p -> queue L i [].

(** The state after [t] has joined the queue of its priority, and after it has
    left it. *)
Definition inserted (t : Z) (th : sk_thread) h (s : kstate) : kstate :=
  upd_group (fun g => g ||| number_mask th) (upd_nodes (fun _ => h)
    (upd_threads (<[t := set_stat SK_THREAD_READY th]>) s)).

Definition removed (th : sk_thread) (last : bool) h (s : kstate) : kstate :=
  upd_group (fun g => if last then u32 (g & ~~ number_mask th) else g) (upd_nodes (fun _ => h) s).

#[global] Instance NTlist_inj : Inj (=) (=) NTlist.
Proof. by intros ? ? [=]. Qed.

Section queues.
Implicit Types (L : lists) (s : kstate).

Lemma queue_inj L i ts ts' : queue L i ts -> queue L i ts' -> ts = ts'.
Proof. unfold queue. intros -> [= E]. by apply list_fmap_eq_inj in E; [|apply _]. Qed.

Lemma testbit_s32 g i : 0 <= i < 32 -> Z.testbit (s32 g) i = Z.testbit g i.
Proof.
  intros Hi. rewrite <- (Z.mod_pow2_bits_low (s32 g) 32 i), <- (Z.mod_pow2_bits_low g 32 i) by lia.
  f_equal. unfold sk_sint. rewrite Zminus_mod_idemp_l. f_equal. lia.
Qed.

Lemma s32_range g : - 2 ^ 31 <= s32 g < 2 ^ 31.
Proof. unfold sk_sint. pose proof (Z.mod_pos_bound (g + 2 ^ (32 - 1)) (2 ^ 32)). lia. Qed.

(** The search finds the highest ready priority. *)
Lemma get_hp_thread_spec L s :
  sched_inv L s -> ks_group s <> 0 ->
  exists p t ts, highest L p t ts /\ __schedule_get_hp_thread s = Done s (t, p).
Proof.
  intros HI Hg. destruct (ffs_lowest (s32 (ks_group s)) (s32_range _)) as [Hr [Hset Hlow]].
  { intros E. apply Hg. apply Z.bits_inj'. intros i Hi. rewrite Z.bits_0.
    destruct (decide (i < 32)).
    - rewrite <- testbit_s32 by lia. by rewrite E, Z.bits_0.
    - rewrite <- (Z.mod_small _ _ (si_range _ _ HI)). apply Z.mod_pow2_bits_high. lia. }
  set (p := __sk_ffs (s32 (ks_group s)) - 1) in *.
  destruct (si_queue _ _ HI p) as (ts & Hq & _); [lia|].
  rewrite testbit_s32 in Hset by lia. rewrite (si_group _ _ HI p ts) in Hset by (done || lia).
  apply bool_decide_eq_true in Hset. destruct ts as [|t ts]; [done|].
  exists p, t, ts. split.
  - split_and!; [lia|lia|done|]. intros i Hi. destruct (si_queue _ _ HI i) as (us & Hu & _); [lia|].
    specialize (Hlow i Hi). rewrite testbit_s32 in Hlow by lia.
    rewrite (si_group _ _ HI i us) in Hlow by (done || lia).
    apply bool_decide_eq_false in Hlow. by apply dec_stable in Hlow as ->.
  - unfold __schedule_get_hp_thread, mbind, M_bind. simpl. fold p.
    rewrite uint_small by lia. unfold node_next. rewrite (rep_next _ _ _ _ (si_rep _ _ HI) Hq). done.
Qed.


(** *** Bits of the group *)

Lemma lor_pow2_bit g p i : 0 <= p -> 0 <= i ->
  Z.testbit (g ||| 2 ^ p) i = if decide (i = p) then true else Z.testbit g i.
Proof.
  intros. rewrite Z.lor_spec, Z.pow2_bits_eqb by done. case_decide as E.
  - subst. by rewrite Z.eqb_refl, orb_true_r.
  - rewrite (proj2 (Z.eqb_neq p i)) by done. by rewrite orb_false_r.
Qed.

Lemma ldiff_pow2_bit g p i : 0 <= p -> 0 <= i ->
  Z.testbit (g & ~~ 2 ^ p) i = if decide (i = p) then false else Z.testbit g i.
Proof.
  intros. rewrite Z.land_spec, Z.lnot_spec, Z.pow2_bits_eqb by done. case_decide as E.
  - subst. by rewrite Z.eqb_refl, andb_false_r.
  - rewrite (proj2 (Z.eqb_neq p i)) by done. by rewrite andb_true_r.
Qed.

Lemma bits_range n x : 0 <= n -> (forall i, n <= i -> Z.testbit x i = false) -> 0 <= x < 2 ^ n.
Proof.
  intros Hn Hb. assert (x = x mod 2 ^ n) as ->; [|by apply Z.mod_pos_bound; lia].
  apply Z.bits_inj'. intros i Hi. destruct (decide (i < n)).
  - by rewrite Z.mod_pow2_bits_low by lia.
  - rewrite Z.mod_pow2_bits_high by lia. apply Hb. lia.
Qed.

Lemma range_bits n x i : 0 <= n -> 0 <= x < 2 ^ n -> n <= i -> Z.testbit x i = false.
Proof. intros ? ? ?. rewrite <- (Z.mod_small x (2 ^ n)) by done. apply Z.mod_pow2_bits_high. lia. Qed.

Lemma lor_pow2_range g p : 0 <= g < 2 ^ 32 -> 0 <= p < 32 -> 0 <= g ||| 2 ^ p < 2 ^ 32.
Proof.
  intros Hg Hp. apply bits_range; [lia|]. intros i Hi. rewrite lor_pow2_bit by lia.
  case_decide; [lia|]. by apply (range_bits 32).
Qed.

Lemma ldiff_pow2_range g p : 0 <= g < 2 ^ 32 -> 0 <= p < 32 -> 0 <= g & ~~ 2 ^ p < 2 ^ 32.
Proof.
  intros Hg Hp. apply bits_range; [lia|]. intros i Hi. rewrite ldiff_pow2_bit by lia.
  case_decide; [lia|]. by apply (range_bits 32).
Qed.

(** *** Insertion *)

Definition enqueue L (t p : Z) (ts : list Z) : lists :=
  <[NPrio p := NTlist <$> (ts ++ [t])]> (delete (NTlist t) L).

Lemma queue_insert_other L i j ts n xs :
  i <> j -> queue (<[NPrio j := xs]> (delete (NTlist n) L)) i ts <-> queue L i ts.
Proof. intros ?. unfold queue. rewrite lookup_insert_ne, lookup_delete_ne by congruence. done. Qed.

(** Changing the state of a thread keeps the invariant. *)
Lemma sched_inv_stat L s t th st :
  sched_inv L s -> ks_threads s !! t = Some th ->
  sched_inv L (upd_threads (<[t := set_stat st th]>) s).
Proof.
  intros HI Ht. split; try apply HI; simpl.
  - intros i Hi. destruct (si_queue _ _ HI i Hi) as (ts & Hq & Hts). exists ts. split; [done|].
    intros u Hu. destruct (Hts u Hu) as (uh & Hu1 & Hu2). destruct (decide (u = t)) as [->|].
    + rewrite lookup_insert_eq. eexists. split; [done|]. simpl. congruence.
    + rewrite lookup_insert_ne by done. eauto.
  - intros u uh [[<- <-]|[? Hu]]%lookup_insert_Some; [|by eapply si_thread].
    by apply (si_thread _ _ HI) in Ht.
Qed.

Lemma enqueue_inv L s t th ts h :
  sched_inv L s -> ks_threads s !! t = Some th -> queue L (current_pri th) ts ->
  Rep h (enqueue L t (current_pri th) ts) ->
  sched_inv (enqueue L t (current_pri th) ts) (inserted t th h s).
Proof.
  intros HI Ht Hq HR. destruct (si_thread _ _ HI t th Ht) as [Hp Hm].
  pose proof (sched_inv_stat L s t th SK_THREAD_READY HI Ht) as HI'.
  split; simpl; [done|apply HI| |apply HI'| |].
  - intros i Hi. destruct (decide (i = current_pri th)) as [->|Hne].
    + exists (ts ++ [t]). split; [by unfold queue, enqueue; rewrite lookup_insert_eq|].
      intros u [Hu| ->%list_elem_of_singleton]%elem_of_app.
      * destruct (si_queue _ _ HI' _ Hi) as (ts' & Hq' & Hts). simpl in Hts. apply Hts.
        by rewrite <- (queue_inj _ _ _ _ Hq Hq').
      * rewrite lookup_insert_eq. eexists. split; [done|]. done.
    + destruct (si_queue _ _ HI' _ Hi) as (us & Hu & Hus). exists us. split; [|done].
      by apply queue_insert_other.
  - rewrite Hm. apply lor_pow2_range; [apply HI|done].
  - intros i us Hi Hu. rewrite Hm, lor_pow2_bit by lia. case_decide as E.
    + subst i. unfold queue, enqueue in Hu. rewrite lookup_insert_eq in Hu. injection Hu as Hu.
      symmetry. apply bool_decide_eq_true. intros ->. by destruct ts.
    + apply queue_insert_other in Hu; [|done]. by apply (si_group _ _ HI).
Qed.

(** The run of [sk_schedule_insert_thread], by the effect of [sk_list_add_tail]. *)
Lemma insert_thread_run s t th h :
  irq_wf s -> ks_threads s !! t = Some th -> t <> ks_current s ->
  sk_list_add_tail (NPrio (current_pri th)) (NTlist t) (ks_nodes s) = Some h ->
  sk_schedule_insert_thread t s = Done (inserted t th h s) tt.
Proof.
  intros Hirq Ht Hc Hadd. unfold sk_schedule_insert_thread. kstep (disable_ok s Hirq).
  unfold mbind, M_bind. simpl. destruct (Z.eqb_spec t (ks_current s)); [done|].
  unfold upd_thread, update_at. simpl. rewrite Ht. simpl.
  unfold get_thread, read_at. simpl. rewrite lookup_insert_eq. simpl.
  unfold list_add_tail, on_nodes. simpl in Hadd |- *. rewrite Hadd. simpl.
  rewrite enable_ok by done. f_equal.
Qed.

Lemma insert_link_spec L s t th ts :
  sched_inv L s -> ks_threads s !! t = Some th -> detached L t -> queue L (current_pri th) ts ->
  exists h, sk_list_add_tail (NPrio (current_pri th)) (NTlist t) (ks_nodes s) = Some h /\
    sched_inv (enqueue L t (current_pri th) ts) (inserted t th h s).
Proof.
  intros HI Ht Hd Hq. pose proof (si_rep _ _ HI) as HR.
  destruct (rep_add_before (ks_nodes s) (delete (NTlist t) L) (NPrio (current_pri th))
    (NTlist <$> ts) [] (NTlist t)) as (h & Hadd & HR' & _).
  { by apply rep_delete. }
  { rewrite lookup_delete_ne by done. by rewrite app_nil_r. }
  { by eapply fresh_delete. }
  { by eapply rep_dom. }
  exists h. split; [done|]. apply enqueue_inv; [done..|]. unfold enqueue. by rewrite fmap_app.
Qed.

Lemma insert_thread_spec L s t th ts :
  sched_inv L s -> ks_threads s !! t = Some th -> t <> ks_current s -> detached L t ->
  queue L (current_pri th) ts ->
  exists h, sk_schedule_insert_thread t s = Done (inserted t th h s) tt /\
    sched_inv (enqueue L t (current_pri th) ts) (inserted t th h s).
Proof.
  intros HI Ht Hc Hd Hq. destruct (insert_link_spec L s t th ts HI Ht Hd Hq) as (h & Hadd & HI').
  exists h. split; [|done]. apply insert_thread_run; [apply HI|done..].
Qed.

(** *** Removal *)

Definition dequeue L (t p : Z) (ts : list Z) : lists :=
  <[NTlist t := []]> (<[NPrio p := NTlist <$> ts]> L).

Lemma queue_dequeue_other L i j ts n xs :
  i <> j -> queue (<[NTlist n := []]> (<[NPrio j := xs]> L)) i ts <-> queue L i ts.
Proof. intros ?. unfold queue. rewrite !lookup_insert_ne by congruence. done. Qed.

Lemma removed_range th b h s :
  0 <= ks_group s < 2 ^ 32 -> 0 <= current_pri th < 32 -> number_mask th = 2 ^ current_pri th ->
  0 <= ks_group (removed th b h s) < 2 ^ 32.
Proof.
  intros Hg Hp Hm. simpl. rewrite Hm. destruct b; [|done].
  rewrite uint_small; by apply ldiff_pow2_range.
Qed.

Lemma removed_bit th b h s i :
  0 <= ks_group s < 2 ^ 32 -> 0 <= current_pri th < 32 -> number_mask th = 2 ^ current_pri th ->
  0 <= i ->
  Z.testbit (ks_group (removed th b h s)) i =
    if decide (i = current_pri th /\ b = true) then false else Z.testbit (ks_group s) i.
Proof.
  intros Hg Hp Hm Hi. simpl. rewrite Hm. destruct b.
  - rewrite uint_small by (by apply ldiff_pow2_range). rewrite ldiff_pow2_bit by lia.
    repeat case_decide; naive_solver.
  - case_decide; naive_solver.
Qed.

Lemma dequeue_inv L s t th us vs h :
  sched_inv L s -> ks_threads s !! t = Some th -> queue L (current_pri th) (us ++ t :: vs) ->
  Rep h (dequeue L t (current_pri th) (us ++ vs)) ->
  sched_inv (dequeue L t (current_pri th) (us ++ vs))
    (removed th (bool_decide (us ++ vs = [])) h s).
Proof.
  intros HI Ht Hq HR. destruct (si_thread _ _ HI t th Ht) as [Hp Hm].
  split; [done|apply HI| |apply HI|apply removed_range; [apply HI|done..]|].
  - intros i Hi. destruct (si_queue _ _ HI _ Hi) as (ts & Hts & Hin).
    destruct (decide (i = current_pri th)) as [->|Hne].
    + exists (us ++ vs). split.
      { unfold queue, dequeue. by rewrite lookup_insert_ne, lookup_insert_eq. }
      intros u Hu. apply Hin. rewrite (queue_inj _ _ _ _ Hts Hq). set_solver.
    + exists ts. split; [by apply queue_dequeue_other|done].
  - intros i ts Hi Hts. rewrite removed_bit by (apply HI || done || lia).
    destruct (decide (i = current_pri th)) as [->|Hne].
    + unfold queue, dequeue in Hts. rewrite lookup_insert_ne, lookup_insert_eq in Hts by done.
      injection Hts as Hts. apply list_fmap_eq_inj in Hts as <-; [|apply _].
      rewrite (si_group _ _ HI _ _ Hi Hq).
      rewrite (bool_decide_eq_true_2 (us ++ t :: vs <> [])) by (by destruct us).
      repeat case_bool_decide; case_decide; naive_solver.
    + rewrite decide_False by naive_solver.
      apply queue_dequeue_other in Hts; [|done]. by apply (si_group _ _ HI).
Qed.

(** The run of [sk_schedule_remove_thread], by the effect of [sk_list_del]. *)
Lemma remove_thread_run L' s t th h ts :
  irq_wf s -> ks_threads s !! t = Some th ->
  sk_list_del (NTlist t) (ks_nodes s) = Some h ->
  Rep h L' -> queue L' (current_pri th) ts ->
  sk_schedule_remove_thread t s = Done (removed th (bool_decide (ts = [])) h s) tt.
Proof.
  intros Hirq Ht Hdel HR Hq. unfold sk_schedule_remove_thread.
  kstep (disable_ok s Hirq). unfold mbind, M_bind, list_del, on_nodes. simpl. rewrite Hdel.
  simpl. unfold get_thread, read_at. simpl. rewrite Ht. simpl.
  unfold list_empty. simpl. rewrite (rep_empty _ _ _ _ HR Hq). simpl.
  assert (bool_decide (NTlist <$> ts = []) = bool_decide (ts = [])) as -> by (by destruct ts).
  destruct (bool_decide (ts = [])); simpl; rewrite enable_ok by done; done.
Qed.

Lemma remove_thread_spec L s t th us vs :
  sched_inv L s -> ks_threads s !! t = Some th -> queue L (current_pri th) (us ++ t :: vs) ->
  exists h, sk_schedule_remove_thread t s = Done (removed th (bool_decide (us ++ vs = [])) h s) tt /\
    sched_inv (dequeue L t (current_pri th) (us ++ vs))
      (removed th (bool_decide (us ++ vs = [])) h s).
Proof.
  intros HI Ht Hq. unfold queue in Hq. rewrite fmap_app, fmap_cons in Hq.
  destruct (rep_del _ _ _ _ _ _ (si_rep _ _ HI) Hq) as (h & Hdel & HR & _).
  rewrite <- fmap_app in HR. rewrite <- fmap_cons, <- fmap_app in Hq.
  exists h. split; [|by apply dequeue_inv].
  eapply remove_thread_run; [apply HI|done..|].
  unfold queue. by rewrite lookup_insert_ne, lookup_insert_eq.
Qed.

(** Removing a thread that is on no list changes nothing. *)
Lemma remove_detached_spec L s t th :
  sched_inv L s -> ks_threads s !! t = Some th -> detached L t ->
  sk_schedule_remove_thread t s = Done s tt.
Proof.
  intros HI Ht Hd. pose proof (rep_del_self _ _ _ (si_rep _ _ HI) Hd) as Hdel.
  destruct (si_thread _ _ HI t th Ht) as [Hp Hm].
  destruct (si_queue _ _ HI _ Hp) as (ts & Hq & _).
  rewrite (remove_thread_run L s t th (ks_nodes s) ts) by (apply HI || done). f_equal.
  assert (ks_group (removed th (bool_decide (ts = [])) (ks_nodes s) s) = ks_group s) as E.
  { apply Z.bits_inj'. intros i Hi. rewrite removed_bit by (apply HI || done).
    case_decide as Hc; [|done]. destruct Hc as [-> Hb%bool_decide_eq_true].
    rewrite (si_group _ _ HI _ ts) by (lia || done). symmetry. apply bool_decide_eq_false. by intros []. }
  unfold removed in *. simpl in E. destruct s; simpl in *. unfold upd_group, upd_nodes; simpl. by rewrite E.
Qed.


(** The invariant only depends on the threads, the group and the queues. *)
Lemma sched_inv_ext L L' s s' :
  sched_inv L s -> Rep (ks_nodes s') L' -> irq_wf s' -> ks_threads s' = ks_threads s ->
  ks_group s' = ks_group s -> (forall i, 0 <= i < 32 -> L' !! NPrio i = L !! NPrio i) ->
  sched_inv L' s'.
Proof.
  intros HI HR Hirq Et Eg Eq. split; try done; rewrite ?Et, ?Eg; try apply HI.
  - intros i Hi. unfold queue. rewrite Eq by done. by apply (si_queue _ _ HI).
  - intros i ts Hi. unfold queue. rewrite Eq by done. by apply (si_group _ _ HI).
Qed.

(** *** Switching *)

(** The thread losing the processor goes back to its queue unless it is
    suspended or closed. *)
Definition requeues (th : sk_thread) : bool :=
  negb (stat th =? SK_THREAD_SUSPEND) && negb (stat th =? SK_THREAD_CLOSE).

(** The state in which [t] has taken the processor from [cur]. *)
Definition dispatched s (cur : Z) (cth : sk_thread) (t : Z) (th : sk_thread) h (g : Z) : kstate :=
  upd_group (fun _ => g) (upd_nodes (fun _ => h)
    (upd_threads (fun m => <[t := set_stat SK_THREAD_RUNNING th]>
      (if requeues cth then <[cur := set_stat SK_THREAD_READY cth]> m else m))
    (upd_current (fun _ => t) s))).

(** The lists after [t], the first thread of priority [p], has taken the
    processor from [cur]: the queues, and the lists that are as before. *)
Record queues_after L L' (p t cur : Z) (cth : sk_thread) : Prop := {
  qa_queue : forall i us, 0 <= i < 32 -> queue L i us ->
    queue L' i ((if i =? p then drop 1 us else us) ++
                (if requeues cth && (i =? current_pri cth) then [cur] else []));
  qa_frame : forall n, (forall i, n <> NPrio i) -> (requeues cth = true -> n <> NTlist cur) ->
    n <> NTlist t ->
    L' !! n = L !! n
}.

Lemma sched_inv_current L s c : sched_inv L s -> sched_inv L (upd_current (fun _ => c) s).
Proof. intros HI. split; apply HI. Qed.

Lemma sched_inv_masked L s : sched_inv L s -> sched_inv L (masked s).
Proof. intros HI. split; try apply HI. by right. Qed.

(** A detached thread is in no queue. *)
Lemma detached_not_ready L s t i ts : sched_inv L s -> detached L t -> queue L i ts -> t ∉ ts.
Proof.
  intros HI Hd Hq Hin. unfold detached in Hd.
  rewrite (rep_head_alone _ _ _ _ (NTlist t) (si_rep _ _ HI) Hq) in Hd; [done|].
  by apply list_elem_of_fmap_2.
Qed.

(** The tail of [schedule_switch]: the chosen thread leaves the head of its
    queue and runs. *)
Lemma take_thread_spec L s t th p vs :
  sched_inv L s -> ks_threads s !! t = Some th -> 0 <= p < 32 -> queue L p (t :: vs) ->
  exists h g,
    (forall k : M unit,
     (upd_thread t (fun t => set_stat (u8 (stat t & ~~ SK_THREAD_YIELD)) t);;
      sk_schedule_remove_thread t;;
      upd_thread t (set_stat SK_THREAD_RUNNING);; k) s =
      k (upd_group (fun _ => g) (upd_nodes (fun _ => h)
        (upd_threads (<[t := set_stat SK_THREAD_RUNNING th]>) s)))) /\
    sched_inv (dequeue L t p vs) (upd_group (fun _ => g) (upd_nodes (fun _ => h)
        (upd_threads (<[t := set_stat SK_THREAD_RUNNING th]>) s))).
Proof.
  intros HI Ht Hp Hq.
  assert (current_pri th = p) as Hth.
  { destruct (si_queue _ _ HI p Hp) as (ts & Hq' & Hin).
    destruct (Hin t) as (th' & Ht' & <-); [|congruence].
    rewrite <- (queue_inj _ _ _ _ Hq Hq'). by left. }
  set (s1 := upd_threads (<[t := set_stat (u8 (stat th & ~~ SK_THREAD_YIELD)) th]>) s).
  pose proof (sched_inv_stat L s t th (u8 (stat th & ~~ SK_THREAD_YIELD)) HI Ht) as HI1. fold s1 in HI1.
  assert (ks_threads s1 !! t = Some (set_stat (u8 (stat th & ~~ SK_THREAD_YIELD)) th)) as Ht1
    by (unfold s1; simpl; by rewrite lookup_insert_eq).
  destruct (remove_thread_spec L s1 t _ [] vs HI1 Ht1) as (h & Hrun & HI2); [by simpl; rewrite Hth|].
  simpl in HI2. rewrite Hth in HI2.
  pose proof (sched_inv_stat _ _ t _ SK_THREAD_RUNNING HI2 Ht1) as HI3.
  assert (forall g, upd_threads (<[t := set_stat SK_THREAD_RUNNING
      (set_stat (u8 (stat th & ~~ SK_THREAD_YIELD)) th)]>) (upd_group g (upd_nodes (fun _ => h) s1)) =
    upd_group (fun _ => g (ks_group s)) (upd_nodes (fun _ => h)
      (upd_threads (<[t := set_stat SK_THREAD_RUNNING th]>) s))) as E.
  { intros g. unfold s1. destruct s. unfold upd_threads, upd_group, upd_nodes. simpl.
    by rewrite insert_insert_eq. }
  unfold removed in HI3, Hrun. rewrite E in HI3. eexists h, _. split; [intros k|exact HI3].
  unfold upd_thread at 1. kstep (update_at_ok ks_threads upd_threads t
    (fun t => set_stat (u8 (stat t & ~~ SK_THREAD_YIELD)) t) s th Ht). fold s1. kstep Hrun.
  unfold upd_thread. erewrite bind_done by (apply update_at_ok; exact Ht1). by rewrite E.
Qed.


Lemma queues_dequeue L p t cur cth :
  requeues cth = false -> 0 <= p < 32 -> forall vs, queue L p (t :: vs) ->
  queues_after L (dequeue L t p vs) p t cur cth.
Proof.
  intros Hr Hp vs Hq. split; [|intros n H1 H2 H3; unfold dequeue; by rewrite !lookup_insert_ne].
  intros i us Hi Hu. rewrite Hr. simpl. rewrite app_nil_r.
  destruct (Z.eqb_spec i p) as [->|].
  - rewrite (queue_inj _ _ _ _ Hu Hq). simpl. unfold queue, dequeue.
    by rewrite lookup_insert_ne, lookup_insert_eq.
  - by apply queue_dequeue_other.
Qed.

Lemma queues_enqueue_dequeue L p t cur cth us vs :
  requeues cth = true -> 0 <= p < 32 -> queue L p (t :: vs) -> queue L (current_pri cth) us ->
  queue (enqueue L cur (current_pri cth) us) p
    (t :: vs ++ (if p =? current_pri cth then [cur] else [])) /\
  queues_after L (dequeue (enqueue L cur (current_pri cth) us) t p
    (vs ++ (if p =? current_pri cth then [cur] else []))) p t cur cth.
Proof.
  intros Hr Hp Hq Hu.
  assert (forall i ws, queue L i ws -> queue (enqueue L cur (current_pri cth) us) i
    (ws ++ if i =? current_pri cth then [cur] else [])) as Hen.
  { intros i ws Hw. destruct (Z.eqb_spec i (current_pri cth)) as [->|].
    - rewrite (queue_inj _ _ _ _ Hw Hu). unfold queue, enqueue. by rewrite lookup_insert_eq.
    - rewrite app_nil_r. by apply queue_insert_other. }
  split; [by apply (Hen p (t :: vs))|]. split; cycle 1.
  { intros n H1 H2 H3. unfold dequeue, enqueue.
    rewrite !lookup_insert_ne by congruence. rewrite lookup_delete_ne; [done|]. intros <-. by apply H2. }
  intros i ws Hi Hw. rewrite Hr. simpl. destruct (Z.eqb_spec i p) as [->|].
  - rewrite (queue_inj _ _ _ _ Hw Hq). simpl. unfold queue, dequeue.
    by rewrite lookup_insert_ne, lookup_insert_eq.
  - apply queue_dequeue_other; [done|]. by apply Hen.
Qed.

Lemma schedule_switch_spec L s p t ts th cth :
  sched_inv L s -> highest L p t ts -> ks_threads s !! t = Some th ->
  ks_threads s !! ks_current s = Some cth -> ks_current s <> t ->
  (requeues cth = true -> detached L (ks_current s)) ->
  exists h g L', let s' := dispatched s (ks_current s) cth t th h g in
    schedule_switch t s =
      (if ks_nest s =? 0 then hw_context_switch (thread_sp (ks_current s)) (thread_sp t)
       else hw_context_switch_interrupt (thread_sp (ks_current s)) (thread_sp t)) s' /\
    sched_inv L' s' /\ detached L' t /\ queues_after L L' p t (ks_current s) cth.
Proof.
  intros HI (Hp & Hq & Hmin) Ht Hc Hne Hdet. set (cur := ks_current s) in *.
  pose proof (sched_inv_current L s t HI) as HI1.
  unfold schedule_switch, dispatched. do 2 erewrite bind_done by reflexivity. fold cur.
  unfold get_thread. erewrite bind_done by (by apply read_at_ok).
  fold (requeues cth). destruct (requeues cth) eqn:Hr; simpl when_.
  - destruct (si_thread _ _ HI _ _ Hc) as [Hcp _].
    destruct (si_queue _ _ HI _ Hcp) as (us & Hu & _).
    destruct (insert_thread_spec L _ cur cth us HI1 Hc Hne (Hdet eq_refl) Hu) as (h1 & Hins & HI2).
    erewrite bind_done by exact Hins.
    destruct (queues_enqueue_dequeue L p t cur cth us ts Hr Hp Hq Hu) as [Hq2 Haft].
    assert (ks_threads (inserted cur cth h1 (upd_current (fun _ => t) s)) !! t = Some th) as Ht2
      by (simpl; by rewrite lookup_insert_ne).
    destruct (take_thread_spec _ _ t th p _ HI2 Ht2 Hp Hq2) as (h & g & Htake & HI3).
    exists h, g. eexists. split; [|split; [exact HI3|split; [|exact Haft]]].
    + erewrite bind_done by reflexivity.
      change (ks_current (inserted cur cth h1 (upd_current (fun _ => t) s))) with t.
      rewrite Htake. unfold sk_is_in_interrupt, mbind, M_bind, gets. simpl. by destruct (ks_nest s =? 0).
    + unfold detached, dequeue. by rewrite lookup_insert_eq.
  - erewrite bind_done by reflexivity.
    destruct (take_thread_spec _ _ t th p _ HI1 Ht Hp Hq) as (h & g & Htake & HI3).
    exists h, g. eexists. split; [|split; [exact HI3|split; [|by apply queues_dequeue]]].
    + erewrite bind_done by reflexivity.
      change (ks_current (upd_current (fun _ => t) s)) with t.
      rewrite Htake. unfold sk_is_in_interrupt, mbind, M_bind, gets. simpl. by destruct (ks_nest s =? 0).
    + unfold detached, dequeue. by rewrite lookup_insert_eq.
Qed.


(** A ready thread stays ready or is the one that takes the processor. *)
Lemma queues_after_keep L L' p t ts cur cth :
  highest L p t ts -> queues_after L L' p t cur cth ->
  forall i us u, 0 <= i < 32 -> queue L i us -> u ∈ us ->
    t = u \/ exists us', queue L' i us' /\ u ∈ us'.
Proof.
  intros (_ & Hq & _) HQ i us u Hi Hu Hin. destruct (decide (t = u)); [by left|right].
  eexists. split; [by apply (qa_queue _ _ _ _ _ _ HQ)|]. apply elem_of_app. left.
  destruct (Z.eqb_spec i p) as [->|]; [|done]. rewrite (queue_inj _ _ _ _ Hu Hq) in *. set_solver.
Qed.

(** *** [sk_schedule] *)

(** What [sk_schedule] relies on for the current thread: it is in no ready
    queue, and on no list at all if it would go back to its queue. *)
Record cur_ok L s (cth : sk_thread) : Prop := {
  co_thread : ks_threads s !! ks_current s = Some cth;
  co_detached : requeues cth = true -> detached L (ks_current s);
  co_not_ready : forall i us, queue L i us -> ks_current s ∉ us
}.

(** The current thread keeps the processor: nothing is ready, or it is running
    and nothing ready has a higher priority. *)
Definition keeps L (cth : sk_thread) : Prop :=
  forall i us, 0 <= i < 32 -> queue L i us ->
    us = [] \/ (stat cth = SK_THREAD_RUNNING /\ current_pri cth <= i).

Lemma group_zero_empty L s i us :
  sched_inv L s -> ks_group s = 0 -> 0 <= i < 32 -> queue L i us -> us = [].
Proof.
  intros HI Hg Hi Hu. pose proof (si_group _ _ HI i us Hi Hu) as Hb.
  rewrite Hg, Z.bits_0 in Hb. symmetry in Hb. apply bool_decide_eq_false in Hb. by apply dec_stable in Hb.
Qed.

Lemma highest_min L s p t ts i us :
  sched_inv L s -> highest L p t ts -> 0 <= i < 32 -> queue L i us -> us = [] \/ p <= i.
Proof.
  intros HI (Hp & Hq & Hmin) Hi Hu. destruct (decide (p <= i)); [by right|left].
  eapply queue_inj; [exact Hu|]. apply Hmin. lia.
Qed.

(** The two ways through [sk_schedule]. *)
Lemma schedule_idle s : irq_wf s -> ks_group s = 0 -> sk_schedule s = Done s tt.
Proof.
  intros Hirq Hg. unfold sk_schedule. kstep (disable_ok s Hirq). erewrite bind_done by reflexivity.
  change (ks_group (masked s)) with (ks_group s). rewrite Hg. simpl negb.
  erewrite bind_done by reflexivity. rewrite enable_ok by done. by destruct s.
Qed.

Lemma schedule_choice s cth t p :
  irq_wf s -> ks_group s <> 0 -> __schedule_get_hp_thread (masked s) = Done (masked s) (t, p) ->
  ks_threads s !! ks_current s = Some cth -> ks_current s <> t ->
  sk_schedule s =
    if bool_decide (stat cth = SK_THREAD_RUNNING /\ current_pri cth <= p) then Done s tt
    else bind_res (schedule_switch t (masked s)) (fun _ => hw_interrupt_enable (ks_daif s)).
Proof.
  intros Hirq Hg Hget Hc Hne. unfold sk_schedule. kstep (disable_ok s Hirq).
  erewrite bind_done by reflexivity. change (ks_group (masked s)) with (ks_group s).
  rewrite (proj2 (Z.eqb_neq _ _) Hg). simpl negb. unfold when_ at 1.
  unfold mbind at 1 2, M_bind at 1 2. rewrite Hget. unfold bind_res at 2.
  erewrite bind_done by reflexivity. change (ks_current (masked s)) with (ks_current s).
  unfold get_thread. erewrite bind_done by (by apply read_at_ok).
  destruct (Z.eqb_spec (stat cth) SK_THREAD_RUNNING) as [Hrun|Hrun];
    [destruct (Z.leb_spec (current_pri cth) p) as [Hle|Hle]|]; simpl andb; cbv zeta iota.
  - rewrite Z.eqb_refl, bool_decide_eq_true_2 by done.
    change (hw_interrupt_enable (ks_daif s) (masked s) = Done s tt). rewrite enable_ok by done. by destruct s.
  - rewrite (proj2 (Z.eqb_neq _ _) Hne), bool_decide_eq_false_2 by lia. done.
  - rewrite (proj2 (Z.eqb_neq _ _) Hne), bool_decide_eq_false_2 by tauto. done.
Qed.

Lemma schedule_spec L s cth :
  sched_inv L s -> cur_ok L s cth ->
  (sk_schedule s = Done s tt /\ keeps L cth) \/
  exists p t ts th h g L', let s' := dispatched (masked s) (ks_current s) cth t th h g in
    highest L p t ts /\ ks_threads s !! t = Some th /\ t <> ks_current s /\
    ~ (stat cth = SK_THREAD_RUNNING /\ current_pri cth <= p) /\
    sched_inv L' s' /\ detached L' t /\ queues_after L L' p t (ks_current s) cth /\
    if ks_nest s =? 0
    then exists k, sk_schedule s = Switch s' k /\
           forall s2, k s2 = hw_interrupt_enable (ks_daif s) s2
    else sk_schedule s = Done (upd_daif (fun _ => ks_daif s) (upd_switch (fun w =>
           if sw_flag w =? 1 then mk_switch (sw_flag w) (sw_from w) (thread_sp t)
           else mk_switch 1 (thread_sp (ks_current s)) (thread_sp t)) s')) tt.
Proof.
  intros HI HC. destruct (Z.eq_dec (ks_group s) 0) as [Hg|Hg].
  { left. rewrite schedule_idle by (done || apply HI). split; [done|].
    intros i us Hi Hu. left. by eapply group_zero_empty. }
  pose proof (sched_inv_masked _ _ HI) as HIm. pose proof (co_thread _ _ _ HC) as Hc.
  destruct (get_hp_thread_spec L (masked s) HIm Hg) as (p & t & ts & Hh & Hget).
  destruct (si_queue _ _ HI p) as (us & Hu & Hus); [apply Hh|].
  assert (us = t :: ts) as -> by (eapply queue_inj; [done|apply Hh]).
  destruct (Hus t) as (th & Ht & Hthp); [by left|].
  assert (ks_current s <> t) as Hne by (pose proof (co_not_ready _ _ _ HC _ _ Hu); set_solver).
  rewrite (schedule_choice s cth t p) by (done || apply HI).
  destruct (bool_decide_reflect (stat cth = SK_THREAD_RUNNING /\ current_pri cth <= p)) as [Hk|Hk].
  { left. split; [done|]. intros i us Hi Hu'.
    destruct (highest_min L s p t ts i us HI Hh Hi Hu'); [by left|]. right. naive_solver lia. }
  right. destruct (schedule_switch_spec L (masked s) p t ts th cth HIm Hh Ht Hc Hne
    (co_detached _ _ _ HC)) as (h & g & L' & Hsw & HI' & Hd & Haft).
  exists p, t, ts, th, h, g, L'. cbv zeta. rewrite Hsw.
  repeat match goal with |- _ /\ _ => split; [by auto|] end.
  change (ks_nest (masked s)) with (ks_nest s). destruct (ks_nest s =? 0).
  - simpl. by eexists.
  - simpl. by rewrite enable_ok by (done || apply HI).
Qed.

End queues.

(** ** Checking the invariant on a concrete state *)

Definition thread_of (n : node) : option Z := match n with NTlist t => Some t | _ => None end.

Definition queue_check (L : lists) (s : kstate) (i : Z) : bool :=
  match L !! NPrio i with
  | Some xs =>
      match mapM thread_of xs with
      | Some ts =>
          forallb (fun t => match ks_threads s !! t with
                            | Some th => current_pri th =? i
                            | None => false
                            end) ts &&
          Bool.eqb (Z.testbit (ks_group s) i) (negb (bool_decide (ts = [])))
      | None => false
      end
  | None => false
  end.

Definition thread_check (th : sk_thread) : bool :=
  (0 <=? current_pri th) && (current_pri th <? 32) && (number_mask th =? 2 ^ current_pri th).

Definition sched_check (L : lists) (s : kstate) : bool :=
  rep_check (ks_nodes s) L && ((ks_daif s =? 0) || (ks_daif s =? 0xC0)) &&
  forallb (queue_check L s) (seqZ 0 32) &&
  forallb (fun p => thread_check p.2) (map_to_list (ks_threads s)) &&
  (0 <=? ks_group s) && (ks_group s <? 2 ^ 32).

Lemma mapM_thread_of xs ts : mapM thread_of xs = Some ts -> xs = NTlist <$> ts.
Proof.
  revert ts; induction xs as [|x xs IH]; intros ts; simpl; [by intros [= <-]|].
  destruct x; simpl; try done. destruct (mapM thread_of xs) as [us|]; simpl; [|done].
  intros [= <-]. simpl. f_equal. by apply IH.
Qed.

Lemma queue_check_sound L s i :
  queue_check L s i = true ->
  exists ts, queue L i ts /\
    (forall t, t ∈ ts -> exists th, ks_threads s !! t = Some th /\ current_pri th = i) /\
    Z.testbit (ks_group s) i = bool_decide (ts <> []).
Proof.
  unfold queue_check. destruct (L !! NPrio i) as [xs|] eqn:Ex; [|done].
  destruct (mapM thread_of xs) as [ts|] eqn:Et; [|done].
  intros [Hall Hbit]%andb_true_iff. exists ts. split_and!.
  - unfold queue. by rewrite Ex, (mapM_thread_of _ _ Et).
  - intros t Hin. rewrite forallb_forall in Hall. specialize (Hall t (proj1 (list_elem_of_In _ _) Hin)).
    simpl in Hall. destruct (ks_threads s !! t) as [th|]; [|done]. exists th. split; [done|]. lia.
  - apply eqb_prop in Hbit. rewrite Hbit. by destruct ts.
Qed.

Lemma sched_check_sound L s : sched_check L s = true -> sched_inv L s.
Proof.
  unfold sched_check. rewrite !andb_true_iff, orb_true_iff, !Z.eqb_eq, Z.leb_le, Z.ltb_lt.
  intros [[[[[HR Hirq] Hq] Ht] Hlo] Hhi]. rewrite forallb_forall in Hq. rewrite forallb_forall in Ht.
  assert (forall i, 0 <= i < 32 -> queue_check L s i = true) as Hq'.
  { intros i Hi. apply Hq, list_elem_of_In, elem_of_seqZ. lia. }
  split; try done.
  - by apply rep_check_sound.
  - intros i Hi. destruct (queue_check_sound _ _ _ (Hq' i Hi)) as (ts & ? & ? & _). eauto.
  - intros t th Hth. apply elem_of_map_to_list in Hth. specialize (Ht (t, th) (proj1 (list_elem_of_In _ _) Hth)).
    unfold thread_check in Ht. simpl in Ht. lia.
  - intros i ts Hi Hts. destruct (queue_check_sound _ _ _ (Hq' i Hi)) as (us & Hus & _ & Hb).
    by rewrite (queue_inj _ _ _ _ Hts Hus).
Qed.

(** ** A concrete system *)

Definition kstate_zero : kstate :=
  mk_kstate ∅ ∅ ∅ ∅ 0 0 0 0 0 false (mk_switch 0 0 0) ∅ ∅ ∅ ∅ ∅ ∅ ∅ slab_zero io_zero.

Definition thread_zero : sk_thread := mk_thread 0 0 0 0 0 0 0 0 0 0 0 0 0 0 0.

Definition a_thread (st pri tick : Z) : sk_thread :=
  mk_thread st pri pri (2 ^ pri) 0 0 0 0 0 tick tick 0 0 0 0.

(** Nodes linked as the lists [l]. *)
Fixpoint link_all (l : list node) (first cur prev_ : node) (h : gmap node (sk_list_node node))
  : gmap node (sk_list_node node) :=
  match l with
  | [] => <[cur := mk_node first prev_]> h
  | n :: l => link_all l first n cur (<[cur := mk_node n prev_]> h)
  end.

Definition heap_of (L : lists) : gmap node (sk_list_node node) :=
  map_fold (fun hd xs h => link_all xs hd hd (default hd (last xs)) h) ∅ L.

Definition prio_lists : lists := list_to_map ((fun i => (NPrio i, [])) <$> seqZ 0 32).

(** Thread 100 (priority 10) runs; 200 and 300 (priority 5) and 400 (priority
    20) are ready; 500 (priority 7) is on no list. *)
Definition demo_lists : lists :=
  <[NPrio 5 := [NTlist 200; NTlist 300]]> (<[NPrio 20 := [NTlist 400]]>
    (<[NTlist 100 := []]> (<[NTlist 500 := []]> prio_lists))).

Definition demo_threads (st : Z) : gmap Z sk_thread :=
  list_to_map [(100, a_thread st 10 1); (200, a_thread SK_THREAD_READY 5 1);
    (300, a_thread SK_THREAD_READY 5 1); (400, a_thread SK_THREAD_READY 20 1);
    (500, a_thread SK_THREAD_SUSPEND 7 1)].

Definition demo (L : lists) (ths : gmap Z sk_thread) (group : Z) : kstate :=
  upd_nodes (fun _ => heap_of L) (upd_threads (fun _ => ths)
    (upd_current (fun _ => 100) (upd_group (fun _ => group) kstate_zero))).

Definition demo_state : kstate := demo demo_lists (demo_threads SK_THREAD_RUNNING) (2 ^ 5 + 2 ^ 20).

Lemma demo_inv : sched_inv demo_lists demo_state.
Proof. apply sched_check_sound. by vm_compute. Qed.

Lemma demo_cur : cur_ok demo_lists demo_state (a_thread SK_THREAD_RUNNING 10 1).
Proof.
  split; [done|intros _; by vm_compute|].
  intros i us Hq. by apply (detached_not_ready _ _ 100 i us demo_inv).
Qed.

(** ** Properties *)

(** [sk_schedule_insert_thread] on a thread other than the current one
    that is on no list makes it READY and appends it to the queue of its
    priority; every other queue is unchanged, the bitmap stays the set of
    nonempty queues, and interrupts are as before. *)
Theorem insert_thread_correct L s t th ts :
  sched_inv L s -> ks_threads s !! t = Some th -> t <> ks_current s -> detached L t ->
  queue L (current_pri th) ts ->
  exists s' L', sk_schedule_insert_thread t s = Done s' tt /\ sched_inv L' s' /\
    ks_threads s' = <[t := set_stat SK_THREAD_READY th]> (ks_threads s) /\
    ks_daif s' = ks_daif s /\
    queue L' (current_pri th) (ts ++ [t]) /\
    forall i us, i <> current_pri th -> queue L i us -> queue L' i us.
Proof.
  intros HI Ht Hc Hd Hq. destruct (insert_thread_spec L s t th ts HI Ht Hc Hd Hq) as (h & Hrun & HI').
  do 2 eexists. split; [exact Hrun|split; [exact HI'|]]. split_and!; [done|done| |].
  - unfold queue, enqueue. by rewrite lookup_insert_eq.
  - intros i us Hi Hu. by apply queue_insert_other.
Qed.

Lemma insert_thread_correct_witness :
  exists s' L', sk_schedule_insert_thread 500 demo_state = Done s' tt /\ sched_inv L' s' /\
    ks_threads s' = <[500 := set_stat SK_THREAD_READY (a_thread SK_THREAD_SUSPEND 7 1)]>
      (ks_threads demo_state) /\
    ks_daif s' = ks_daif demo_state /\
    queue L' 7 ([] ++ [500]) /\
    forall i us, i <> 7 -> queue demo_lists i us -> queue L' i us.
Proof.
  apply (insert_thread_correct demo_lists demo_state 500 (a_thread SK_THREAD_SUSPEND 7 1) []);
    [apply demo_inv|done|done|by vm_compute|by vm_compute].
Defined.

(** [sk_schedule_remove_thread] on a ready thread takes it out of its
    queue, wherever it stands, leaves it on no list, keeps the order of the
    others and clears the priority's bit exactly when the queue becomes empty. *)
Theorem remove_thread_correct L s t th us vs :
  sched_inv L s -> ks_threads s !! t = Some th -> queue L (current_pri th) (us ++ t :: vs) ->
  exists s' L', sk_schedule_remove_thread t s = Done s' tt /\ sched_inv L' s' /\
    ks_threads s' = ks_threads s /\ ks_daif s' = ks_daif s /\
    detached L' t /\ queue L' (current_pri th) (us ++ vs) /\
    Z.testbit (ks_group s') (current_pri th) = bool_decide (us ++ vs <> []) /\
    forall i ws, i <> current_pri th -> queue L i ws -> queue L' i ws.
Proof.
  intros HI Ht Hq. destruct (remove_thread_spec L s t th us vs HI Ht Hq) as (h & Hrun & HI').
  assert (queue (dequeue L t (current_pri th) (us ++ vs)) (current_pri th) (us ++ vs)) as Hq'.
  { unfold queue, dequeue. by rewrite lookup_insert_ne, lookup_insert_eq. }
  do 2 eexists. split; [exact Hrun|split; [exact HI'|]]. split_and!; [done|done| |done| |].
  - unfold detached, dequeue. by rewrite lookup_insert_eq.
  - apply (si_group _ _ HI'); [|done]. by apply (si_thread _ _ HI t).
  - intros i ws Hi Hw. by apply queue_dequeue_other.
Qed.

Lemma remove_thread_correct_witness :
  exists s' L', sk_schedule_remove_thread 300 demo_state = Done s' tt /\ sched_inv L' s' /\
    ks_threads s' = ks_threads demo_state /\ ks_daif s' = ks_daif demo_state /\
    detached L' 300 /\ queue L' 5 ([200] ++ []) /\
    Z.testbit (ks_group s') 5 = bool_decide ([200] ++ [] <> []) /\
    forall i ws, i <> 5 -> queue demo_lists i ws -> queue L' i ws.
Proof.
  apply (remove_thread_correct demo_lists demo_state 300 (a_thread SK_THREAD_READY 5 1) [200] []);
    [apply demo_inv|done|by vm_compute].
Defined.

(** C4: [sk_schedule] in thread context.  Either the current thread keeps the
    processor and nothing changes, because nothing is ready or because it is
    running and no ready thread has a higher priority; or the first thread [t]
    of the highest ready priority takes the processor: it becomes the current
    thread, RUNNING, and leaves its queue, the old current thread goes to the
    tail of its own queue unless it is suspended or closed, no other queue
    changes, and what is left to run when the old thread gets the processor
    back is the restoration of its interrupt state. *)
Theorem schedule_correct L s cth :
  sched_inv L s -> cur_ok L s cth -> ks_nest s = 0 ->
  (sk_schedule s = Done s tt /\ keeps L cth) \/
  exists p t ts th L' s' k,
    highest L p t ts /\ ks_threads s !! t = Some th /\
    ~ (stat cth = SK_THREAD_RUNNING /\ current_pri cth <= p) /\
    sk_schedule s = Switch s' k /\
    (forall s2, k s2 = hw_interrupt_enable (ks_daif s) s2) /\
    ks_current s' = t /\ ks_threads s' !! t = Some (set_stat SK_THREAD_RUNNING th) /\
    sched_inv L' s' /\ detached L' t /\ queues_after L L' p t (ks_current s) cth.
Proof.
  intros HI HC Hn. destruct (schedule_spec L s cth HI HC) as [?|(p & t & ts & th & h & g & L' & H)]; [by left|].
  right. destruct H as (Hh & Ht & Hne & Hk & HI' & Hd & Haft & Hrun). rewrite Hn in Hrun. simpl in Hrun.
  destruct Hrun as (k & Hrun & Hk'). eexists p, t, ts, th, L', _, k.
  split; [done|]. split; [done|]. split; [done|]. split; [exact Hrun|]. split_and!; try done.
  simpl. by rewrite lookup_insert_eq.
Qed.

Lemma schedule_correct_witness :
  ks_nest demo_state = 0 /\
  ((sk_schedule demo_state = Done demo_state tt /\ keeps demo_lists (a_thread SK_THREAD_RUNNING 10 1)) \/
  exists p t ts th L' s' k,
    highest demo_lists p t ts /\ ks_threads demo_state !! t = Some th /\
    ~ (stat (a_thread SK_THREAD_RUNNING 10 1) = SK_THREAD_RUNNING /\
       current_pri (a_thread SK_THREAD_RUNNING 10 1) <= p) /\
    sk_schedule demo_state = Switch s' k /\
    (forall s2, k s2 = hw_interrupt_enable (ks_daif demo_state) s2) /\
    ks_current s' = t /\ ks_threads s' !! t = Some (set_stat SK_THREAD_RUNNING th) /\
    sched_inv L' s' /\ detached L' t /\
    queues_after demo_lists L' p t 100 (a_thread SK_THREAD_RUNNING 10 1)).
Proof.
  split; [done|]. apply (schedule_correct demo_lists demo_state); [apply demo_inv|apply demo_cur|done].
Defined.

(** The state in which a run next leaves the function: its return, or the
    first time the processor goes to another thread. *)
Definition after {A} (r : res A) : option kstate :=
  match r with Done s _ => Some s | Switch s _ => Some s | NoReturn s => Some s | _ => None end.

Lemma schedule_after L s cth :
  sched_inv L s -> cur_ok L s cth ->
  (sk_schedule s = Done s tt /\ keeps L cth) \/
  exists p t ts th L' s',
    highest L p t ts /\ ks_threads s !! t = Some th /\ current_pri th = p /\
    ~ (stat cth = SK_THREAD_RUNNING /\ current_pri cth <= p) /\
    after (sk_schedule s) = Some s' /\ ks_current s' = t /\
    ks_threads s' !! t = Some (set_stat SK_THREAD_RUNNING th) /\
    sched_inv L' s' /\ queues_after L L' p t (ks_current s) cth.
Proof.
  intros HI HC. destruct (schedule_spec L s cth HI HC) as [?|(p & t & ts & th & h & g & L' & H)]; [by left|].
  right. destruct H as (Hh & Ht & Hne & Hk & HI' & Hd & Haft & Hrun).
  assert (current_pri th = p) as Hp.
  { destruct Hh as (Hp & Hq & _). destruct (si_queue _ _ HI p Hp) as (us & Hu & Hus).
    destruct (Hus t) as (th' & ? & ?); [|congruence]. rewrite (queue_inj _ _ _ _ Hu Hq). by left. }
  exists p, t, ts, th, L'. destruct (ks_nest s =? 0).
  - destruct Hrun as (k & -> & _). eexists.
    do 4 (split; [done|]). split; [reflexivity|]. split; [done|]. split; [|done].
    simpl. by rewrite lookup_insert_eq.
  - rewrite Hrun. eexists. do 4 (split; [done|]). split; [reflexivity|]. split; [done|].
    split; [simpl; by rewrite lookup_insert_eq|].
    split; [|done]. split; try apply HI'. apply HI.
Qed.

(** C5: after [sk_schedule], in thread or in interrupt context, the thread that
    has (or, at interrupt return, gets) the processor has the highest priority:
    no ready thread precedes it.  This needs the caller to be RUNNING without
    the yield mark, suspended or closed. *)
Theorem schedule_runs_highest L s cth :
  sched_inv L s -> cur_ok L s cth ->
  stat cth = SK_THREAD_RUNNING \/ stat cth = SK_THREAD_SUSPEND \/ stat cth = SK_THREAD_CLOSE ->
  exists s' L' th', after (sk_schedule s) = Some s' /\ sched_inv L' s' /\
    ks_threads s' !! ks_current s' = Some th' /\
    forall i us, 0 <= i < 32 -> queue L' i us -> us = [] \/ current_pri th' <= i.
Proof.
  intros HI HC Hst.
  destruct (schedule_after L s cth HI HC) as [[-> Hk]|(p & t & ts & th & L' & s' & H)].
  - exists s, L, cth. split_and!; [done|done|apply HC|].
    intros i us Hi Hu. destruct (Hk i us Hi Hu) as [?|[? ?]]; auto.
  - destruct H as (Hh & Ht & Hp & Hk & Hrun & Hc & Ht' & HI' & Haft).
    exists s', L', (set_stat SK_THREAD_RUNNING th). rewrite Hc. split_and!; try done.
    intros i us Hi Hu. simpl. rewrite Hp. destruct (si_queue _ _ HI i Hi) as (ws & Hw & _).
    rewrite (queue_inj _ _ _ _ Hu (qa_queue _ _ _ _ _ _ Haft i ws Hi Hw)).
    destruct (highest_min L s p t ts i ws HI Hh Hi Hw) as [->|?]; [|by right].
    replace (if i =? p then drop 1 [] else []) with (@nil Z) by (by destruct (i =? p)). simpl.
    destruct (Z.eqb_spec i (current_pri cth)) as [->|]; [|rewrite andb_false_r; by left].
    rewrite andb_true_r. destruct (requeues cth) eqn:Hr; [|by left]. right.
    destruct Hst as [Hst|Hst]; [lia|]. unfold requeues in Hr. exfalso.
    destruct Hst as [E|E]; rewrite E in Hr; done.
Qed.

Lemma schedule_runs_highest_witness :
  exists s' L' th', after (sk_schedule demo_state) = Some s' /\ sched_inv L' s' /\
    ks_threads s' !! ks_current s' = Some th' /\
    forall i us, 0 <= i < 32 -> queue L' i us -> us = [] \/ current_pri th' <= i.
Proof.
  apply (schedule_runs_highest demo_lists demo_state (a_thread SK_THREAD_RUNNING 10 1));
    [apply demo_inv|apply demo_cur|by left].
Defined.

(** A current thread that carries the yield mark loses the processor to
    whatever is ready, also to threads of lower priority: the comparison of the
    priorities is only made when its state is exactly RUNNING. *)
Theorem yield_ignores_priority L s cth i t us :
  sched_inv L s -> cur_ok L s cth ->
  stat cth = Z.lor SK_THREAD_RUNNING SK_THREAD_YIELD -> 0 <= i < 32 -> queue L i (t :: us) ->
  exists p u us' s', highest L p u us' /\ after (sk_schedule s) = Some s' /\ ks_current s' = u.
Proof.
  intros HI HC Hst Hi Hu.
  destruct (schedule_after L s cth HI HC) as [[_ Hk]|(p & u & ts & th & L' & s' & H)].
  - destruct (Hk i _ Hi Hu) as [?|[E _]]; [done|]. by rewrite Hst in E.
  - destruct H as (Hh & _ & _ & _ & Hrun & Hc & _). exists p, u, ts, s'. done.
Qed.

(** Thread 100 (priority 10) at the end of its time slice, 400 (priority 20)
    ready. *)
Definition yield_lists : lists :=
  <[NPrio 20 := [NTlist 400]]> (<[NTlist 100 := []]> prio_lists).
Definition yield_state : kstate :=
  demo yield_lists (list_to_map [(100, a_thread 0x14 10 1); (400, a_thread SK_THREAD_READY 20 1)])
    (2 ^ 20).

Lemma yield_ignores_priority_witness :
  (exists p u us' s', highest yield_lists p u us' /\ after (sk_schedule yield_state) = Some s' /\
    ks_current s' = u) /\ (ks_current <$> after (sk_schedule yield_state)) = Some 400.
Proof.
  split; [|by vm_compute].
  assert (sched_inv yield_lists yield_state) as HI by (apply sched_check_sound; by vm_compute).
  apply (yield_ignores_priority yield_lists yield_state (a_thread 0x14 10 1) 20 400 []);
    [exact HI| |done|lia|by vm_compute].
  split; [done|intros _; by vm_compute|].
  intros i us Hq. by apply (detached_not_ready _ _ 100 i us HI).
Defined.

(** Inserting the current thread returns without restoring the interrupt
    state: the thread is RUNNING and interrupts stay off, whatever they were. *)
Theorem insert_current_leaves_interrupts_off s th :
  irq_wf s -> ks_threads s !! ks_current s = Some th ->
  exists s', sk_schedule_insert_thread (ks_current s) s = Done s' tt /\ ks_daif s' = 0xC0 /\
    ks_threads s' !! ks_current s = Some (set_stat SK_THREAD_RUNNING th).
Proof.
  intros Hirq Ht. unfold sk_schedule_insert_thread. kstep (disable_ok s Hirq).
  erewrite bind_done by reflexivity. change (ks_current (masked s)) with (ks_current s).
  rewrite Z.eqb_refl. unfold upd_thread. erewrite update_at_ok by exact Ht.
  eexists. split; [reflexivity|]. simpl. by rewrite lookup_insert_eq.
Qed.

Lemma insert_current_leaves_interrupts_off_witness :
  ks_daif demo_state = 0 /\
  exists s', sk_schedule_insert_thread 100 demo_state = Done s' tt /\ ks_daif s' = 0xC0 /\
    ks_threads s' !! 100 = Some (set_stat SK_THREAD_RUNNING (a_thread SK_THREAD_RUNNING 10 1)).
Proof.
  split; [done|]. apply (insert_current_leaves_interrupts_off demo_state); [by left|by vm_compute].
Defined.

(** ** Start-up *)

Lemma prio_table_init_spec n k L s :
  0 <= k -> Rep (ks_nodes s) L -> (forall i, k <= i < k + Z.of_nat n -> fresh L (NPrio i)) ->
  (forall i, k <= i < k + Z.of_nat n -> is_Some (ks_nodes s !! NPrio i)) ->
  exists h L', prio_table_init n k s = Done (upd_nodes (fun _ => h) s) tt /\ Rep h L' /\
    (forall i, k <= i < k + Z.of_nat n -> queue L' i []) /\
    (forall m, (forall i, k <= i < k + Z.of_nat n -> m <> NPrio i) -> L' !! m = L !! m).
Proof.
  revert k L s. induction n as [|n IH]; intros k L s Hk HR Hfr Hdom.
  - exists (ks_nodes s), L. split_and!; [by destruct s|done|lia|done].
  - destruct (rep_init _ _ (NPrio k) HR) as (h1 & Hinit & HR1 & Hd1); [apply Hfr; lia|apply Hdom; lia|].
    destruct (IH (k + 1) (<[NPrio k := []]> L) (upd_nodes (fun _ => h1) s)) as (h & L' & Hrun & HR' & Hq & Hoth);
      [lia|done| | |].
    + intros i Hi hd xs [[<- <-]|[Hne Hl]]%lookup_insert_Some.
      * intros [=]%list_elem_of_singleton. lia.
      * by apply (Hfr i ltac:(lia) hd xs).
    + intros i Hi. simpl. apply elem_of_dom. rewrite Hd1. apply elem_of_dom, Hdom. lia.
    + exists h, L'. split_and!; [|done| |].
      * simpl. unfold list_init. erewrite bind_done by (by apply on_nodes_ok). rewrite Hrun. by destruct s.
      * intros i Hi. destruct (decide (i = k)) as [->|]; [|apply Hq; lia].
        unfold queue. rewrite Hoth; [by rewrite lookup_insert_eq|]. intros j Hj [=]. lia.
      * intros m Hm. rewrite Hoth by (intros j Hj; apply Hm; lia).
        rewrite lookup_insert_ne; [done|]. intros <-. apply (Hm k); [lia|done].
Qed.

(** [sk_system_scheduler_init] establishes the invariant of the ready
    table: all 32 queues empty, no bit set. *)
Theorem scheduler_init_establishes L s :
  Rep (ks_nodes s) L -> irq_wf s ->
  (forall i, 0 <= i < 32 -> fresh L (NPrio i) /\ is_Some (ks_nodes s !! NPrio i)) ->
  (forall t th, ks_threads s !! t = Some th ->
    0 <= current_pri th < 32 /\ number_mask th = 2 ^ current_pri th) ->
  exists s' L', sk_system_scheduler_init s = Done s' tt /\ sched_inv L' s' /\
    ks_daif s' = ks_daif s /\ forall i, 0 <= i < 32 -> queue L' i [].
Proof.
  intros HR Hirq Hn Hth. unfold sk_system_scheduler_init. kstep (disable_ok s Hirq).
  destruct (prio_table_init_spec (Z.to_nat SK_THREAD_PRIORITY_MAX) 0 L (masked s))
    as (h & L' & Hrun & HR' & Hq & _); [lia|done|intros i Hi; by apply Hn..|].
  kstep Hrun. erewrite bind_done by reflexivity. rewrite enable_ok by done.
  do 2 eexists. split; [reflexivity|]. split; [|split; [done|exact Hq]].
  split; simpl; try done.
  - intros i Hi. exists []. split; [by apply Hq|]. by intros t ?%elem_of_nil.
  - intros i ts Hi Hts. rewrite (queue_inj _ _ _ _ Hts (Hq i Hi)). apply Z.bits_0.
Qed.

(** A node heap with the 32 heads uninitialised. *)
Definition raw_state : kstate :=
  upd_nodes (fun _ => list_to_map ((fun i => (NPrio i, mk_node NNull NNull)) <$> seqZ 0 32)) kstate_zero.

Lemma scheduler_init_establishes_witness :
  exists s' L', sk_system_scheduler_init raw_state = Done s' tt /\ sched_inv L' s' /\
    ks_daif s' = ks_daif raw_state /\ forall i, 0 <= i < 32 -> queue L' i [].
Proof.
  apply (scheduler_init_establishes ∅); [by apply rep_check_sound; vm_compute|by left| |done].
  intros i Hi. split; [intros hd xs Hl; done|].
  apply (elem_of_dom (D := gset node)).
  change (ks_nodes raw_state) with (list_to_map (M := gmap node (sk_list_node node))
    ((fun i => (NPrio i, mk_node NNull NNull)) <$> seqZ 0 32)). rewrite dom_list_to_map. apply elem_of_list_to_set.
  rewrite <- list_fmap_compose. apply list_elem_of_fmap. exists i. split; [done|]. apply elem_of_seqZ. lia.
Defined.

(** [sk_system_scheduler_start] gives the processor to the first thread of
    the highest ready priority and takes it off its queue. *)
Theorem scheduler_start_correct L s :
  sched_inv L s -> ks_group s <> 0 ->
  exists p t ts th s' L', highest L p t ts /\ ks_threads s !! t = Some th /\
    sk_system_scheduler_start s = NoReturn s' /\ ks_current s' = t /\
    ks_threads s' = <[t := set_stat SK_THREAD_RUNNING th]> (ks_threads s) /\
    sched_inv L' s' /\ detached L' t /\ queue L' p ts.
Proof.
  intros HI Hg. destruct (get_hp_thread_spec L s HI Hg) as (p & t & ts & Hh & Hget).
  destruct Hh as (Hp & Hq & Hmin). destruct (si_queue _ _ HI p Hp) as (us & Hu & Hus).
  destruct (Hus t) as (th & Ht & Hth); [rewrite (queue_inj _ _ _ _ Hu Hq); by left|].
  destruct (remove_thread_spec L (upd_current (fun _ => t) s) t th [] ts) as (h & Hrem & HI');
    [by apply sched_inv_current|done|by rewrite Hth|].
  assert (ks_threads (removed th (bool_decide ([] ++ ts = [])) h (upd_current (fun _ => t) s)) !! t = Some th)
    as Ht' by done.
  pose proof (sched_inv_stat _ _ t th SK_THREAD_RUNNING HI' Ht') as HI2.
  exists p, t, ts, th. do 2 eexists. split; [done|]. split; [done|].
  split; [|split; [|split; [|split; [exact HI2|]]]].
  - unfold sk_system_scheduler_start. unfold mbind at 1, M_bind at 1. rewrite Hget. unfold bind_res at 1.
    erewrite bind_done by reflexivity. kstep Hrem. unfold upd_thread.
    erewrite bind_done by (by apply update_at_ok). reflexivity.
  - done.
  - done.
  - rewrite <- Hth. unfold detached, queue, dequeue. split; [by rewrite lookup_insert_eq|].
    by rewrite lookup_insert_ne, lookup_insert_eq.
Qed.

Lemma scheduler_start_correct_witness :
  exists p t ts th s' L', highest demo_lists p t ts /\ ks_threads demo_state !! t = Some th /\
    sk_system_scheduler_start demo_state = NoReturn s' /\ ks_current s' = t /\
    ks_threads s' = <[t := set_stat SK_THREAD_RUNNING th]> (ks_threads demo_state) /\
    sched_inv L' s' /\ detached L' t /\ queue L' p ts.
Proof. apply (scheduler_start_correct demo_lists demo_state); [apply demo_inv|done]. Defined.
