(* ===== verification/KObj.v ===== *)
(** * Kernel objects: [src/init/kobj.c]

    Every kernel object is registered in the list of its type.  The names are
    16 bytes of the byte memory at the object's address, so that the copies and
    comparisons of names are [sk_memcpy] and [sk_strcmp] of [BaseDef]. *)

From S2P Require Import Prelude BaseDef KList Slab IoDef Kernel Sched.

Local Open Scope c_scope.

(** [sizeof(struct sk_thread)], [sizeof(struct sk_device)] and
    [sizeof(struct sk_sys_timer)] on aarch64. *)
Definition sizeof_sk_thread : Z := 224.
Definition sizeof_sk_device : Z := 80.
Definition sizeof_sk_sys_timer : Z := 80.

Record sk_object_info := mk_info { info_type : Z; obj_size : Z }.

Definition _object_container : list sk_object_info :=
  [ mk_info SK_OBJECT_THREAD sizeof_sk_thread;
    mk_info SK_OBJECT_SEMAPHORE 0;
    mk_info SK_OBJECT_MUTEX 0;
    mk_info SK_OBJECT_EVENT 0;
    mk_info SK_OBJECT_MAILBOX 0;
    mk_info SK_OBJECT_MSQUE 0;
    mk_info SK_OBJECT_DEVICE sizeof_sk_device;
    mk_info SK_OBJECT_TIMER sizeof_sk_sys_timer ].

(** [&_object_container[i]] of the first entry of the type, NULL is [None]; the
    list of the entry is [NObjList] of its type. *)
Definition sk_object_get_info (type : Z) : option sk_object_info :=
  snd <$> list_find (fun i => info_type i = type) _object_container.

(** A walk over the objects of a list that stops at the first object [f]
    accepts; the fuel bounds the number of nodes. *)
Fixpoint object_walk (fuel : nat) (head pos : node) (f : Z -> kstate -> bool) : M (option Z) :=
  match fuel with
  | O => spin
  | S fuel =>
      if bool_decide (pos = head) then mret None
      else
        obj ← entry_object pos;
        b ← gets (f obj);
        if (b : bool) then mret (Some obj)
        else n ← node_next pos; object_walk fuel head n f
  end.

(** No list has more nodes than there are nodes. *)
Definition node_fuel (s : kstate) : nat := S (size (ks_nodes s)).

Definition sk_object_find (name type : Z) : M Z :=
  match sk_object_get_info type with
  | None => mret SK_NULL
  | Some info =>
      if name =? SK_NULL then mret SK_NULL
      else
        fuel ← gets node_fuel;
        pos ← node_next (NObjList (info_type info));
        r ← object_walk fuel (NObjList (info_type info)) pos
              (fun obj s => sk_strcmp obj name SK_NAME_MAX (ks_mem s) =? 0);
        mret (default SK_NULL r)
  end.

(** The structures that stand in a zeroed block of the type's size. *)
Definition zero_obj (p : Z) (s : kstate) : kstate :=
  upd_objs (<[p := mk_object 0 0]>) (upd_nodes (<[NObj p := mk_node NNull NNull]>) s).
Definition zero_timer (p : Z) (s : kstate) : kstate :=
  upd_timers (<[p := mk_timer 0 0 0 0]>) (upd_nodes (<[NTimer p := mk_node NNull NNull]>) (zero_obj p s)).
Definition zero_thread (p : Z) (s : kstate) : kstate :=
  zero_timer (thread_timer p) (upd_threads (<[p := thread_zero]>)
    (upd_nodes (<[NTlist p := mk_node NNull NNull]>) (zero_obj p s))).

Definition device_zero : sk_device := mk_device 0 0 0 0 0 0 0 0.
Definition zero_device (p : Z) (s : kstate) : kstate :=
  upd_io (set_io_devices (<[p := device_zero]>)) (zero_obj p s).

(** [sk_memset(obj, 0, info->obj_size)] *)
Definition clear_object (type p size : Z) : M unit :=
  kmemset p 0 size;;
  modify (if type =? SK_OBJECT_THREAD then zero_thread p
          else if type =? SK_OBJECT_TIMER then zero_timer p
          else if type =? SK_OBJECT_DEVICE then zero_device p
          else zero_obj p).

Definition set_obj_type (ty : Z) (o : sk_object) : sk_object := mk_object ty (obj_flag o).
Definition set_obj_flag (fl : Z) (o : sk_object) : sk_object := mk_object (obj_type o) fl.

Definition sk_object_alloc (type name : Z) : M Z :=
  info ← lift_option (sk_object_get_info type);
  obj ← kmalloc (obj_size info);
  if obj =? SK_NULL then mret SK_NULL
  else
    clear_object type obj (obj_size info);;
    upd_obj obj (set_obj_type type);;
    upd_obj obj (set_obj_flag 0);;
    kmemcpy obj name SK_NAME_MAX;;
    level ← hw_interrupt_disable;
    list_add (NObjList (info_type info)) (NObj obj);;
    hw_interrupt_enable level;;
    mret obj.

Definition sk_object_delete (obj : Z) : M unit :=
  upd_obj obj (set_obj_type (u8 (-1)));;
  level ← hw_interrupt_disable;
  list_del (NObj obj);;
  hw_interrupt_enable level;;
  kfree obj.

Definition sk_object_init (obj type name : Z) : M unit :=
  info ← lift_option (sk_object_get_info type);
  fuel ← gets node_fuel;
  pos ← node_next (NObjList (info_type info));
  r ← object_walk fuel (NObjList (info_type info)) pos (fun obj_tmp _ => obj_tmp =? obj);
  match r with
  | Some _ => mret tt
  | None =>
      upd_obj obj (set_obj_type type);;
      kmemcpy obj name SK_NAME_MAX;;
      list_add (NObjList (info_type info)) (NObj obj)
  end.

(** ** The object lists *)

(** The objects [os] are registered under the type. *)
Definition registered (L : lists) (type : Z) (os : list Z) : Prop :=
  L !! NObjList type = Some (NObj <$> os).

#[global] Instance NObj_inj : Inj (=) (=) NObj.
Proof. by intros ? ? [=]. Qed.

Lemma get_info_known type :
  0 <= type < SK_OBJECT_UNKNOWN ->
  exists sz, sk_object_get_info type = Some (mk_info type sz).
Proof.
  intros Ht.
  assert (Forall (fun ty => exists sz, sk_object_get_info ty = Some (mk_info ty sz)) (seqZ 0 8)) as Hall.
  { repeat (constructor; [eexists; reflexivity|]). constructor. }
  rewrite Forall_forall in Hall. apply Hall, elem_of_seqZ. unfold SK_OBJECT_UNKNOWN in *; lia.
Qed.

(** The walk over [os] from any point of the list. *)
Lemma object_walk_spec h hd f s done_ os fuel :
  ks_nodes s = h -> is_list h hd ((NObj <$> done_) ++ (NObj <$> os)) -> (length os < fuel)%nat ->
  object_walk fuel hd (default hd (head (NObj <$> os))) f s =
    Done s (snd <$> list_find (fun o => f o s = true) os).
Proof.
  intros Hh Hl. revert done_ Hl fuel. induction os as [|o os IH]; intros done_ Hl [|fuel] Hf;
    simpl in Hf; try lia.
  - simpl. by rewrite bool_decide_eq_true_2.
  - destruct Hl as [Hnd Hlk]. assert (NObj o <> hd) as Hne.
    { intros <-. apply NoDup_cons in Hnd as [Hn _]. apply Hn. set_solver. }
    simpl. rewrite bool_decide_eq_false_2 by done. unfold mbind, M_bind. simpl.
    case_decide as Hfo; [by rewrite Hfo|]. destruct (f o s) eqn:E; [done|].
    assert (load_next (NObj o) (ks_nodes s) = Some (default hd (head (NObj <$> os)))) as Hnx.
    { rewrite Hh. rewrite <- app_assoc in Hlk. simpl in Hlk.
      rewrite links_app in Hlk. destruct Hlk as [_ Hlk]. by destruct os; destruct Hlk as [[? _] _]. }
    unfold node_next. rewrite Hnx. simpl. rewrite (IH (done_ ++ [o])); [| |lia].
    + by destruct (list_find _ os) as [[]|].
    + rewrite fmap_app, <- app_assoc. done.
Qed.

Lemma is_list_fuel (h : gmap node (sk_list_node node)) hd xs : is_list h hd xs -> (length xs < S (size h))%nat.
Proof.
  intros Hl. pose proof (proj1 Hl) as Hnd. apply NoDup_cons in Hnd as [_ Hnd].
  rewrite <- (size_list_to_set (C := gset node) xs), <- size_dom by done.
  apply le_n_S, subseteq_size. intros x Hx%elem_of_list_to_set. apply elem_of_dom.
  eapply is_list_dom; [exact Hl|]. by right.
Qed.

(** The walk of [sk_object_find] and of [sk_object_init] over a whole list. *)
Lemma object_scan L s ty os f :
  Rep (ks_nodes s) L -> registered L ty os ->
  node_next (NObjList ty) s = Done s (default (NObjList ty) (head (NObj <$> os))) /\
  object_walk (node_fuel s) (NObjList ty) (default (NObjList ty) (head (NObj <$> os))) f s =
    Done s (snd <$> list_find (fun o => f o s = true) os).
Proof.
  intros HR Hr. pose proof (rep_is_list _ _ HR _ _ Hr) as Hl. split.
  - unfold node_next. by rewrite (rep_next _ _ _ _ HR Hr).
  - apply (object_walk_spec (ks_nodes s) _ f s []); [done|done|].
    unfold node_fuel. apply is_list_fuel in Hl. by rewrite length_fmap in Hl.
Qed.

(** What the search returns: the first object whose name compares equal. *)
Lemma object_find_eq L s ty os name :
  Rep (ks_nodes s) L -> 0 <= ty < SK_OBJECT_UNKNOWN -> registered L ty os -> name <> SK_NULL ->
  sk_object_find name ty s = Done s (default SK_NULL
    (snd <$> list_find (fun o => (sk_strcmp o name SK_NAME_MAX (ks_mem s) =? 0) = true) os)).
Proof.
  intros HR Hty Hr Hn. destruct (get_info_known ty Hty) as [sz Hinfo].
  unfold sk_object_find. rewrite Hinfo. rewrite (proj2 (Z.eqb_neq _ _) Hn). simpl info_type.
  destruct (object_scan L s ty os (fun obj s => sk_strcmp obj name SK_NAME_MAX (ks_mem s) =? 0) HR Hr)
    as [Hnx Hwalk].
  erewrite bind_done by reflexivity. kstep Hnx. kstep Hwalk. done.
Qed.

(** The state after [sk_object_init] of an object that is not registered. *)
Definition init_object (h : gmap node (sk_list_node node)) (obj ty name : Z) (o : sk_object) (s : kstate)
  : kstate :=
  upd_nodes (fun _ => h) (upd_mem (sk_memcpy obj name SK_NAME_MAX)
    (upd_objs (<[obj := set_obj_type ty o]>) s)).

Lemma object_init_fresh L s ty os obj o name :
  Rep (ks_nodes s) L -> 0 <= ty < SK_OBJECT_UNKNOWN -> registered L ty os ->
  ks_objs s !! obj = Some o -> fresh L (NObj obj) -> is_Some (ks_nodes s !! NObj obj) ->
  let L' := <[NObjList ty := NObj obj :: (NObj <$> os)]> L in
  exists h, sk_object_init obj ty name s = Done (init_object h obj ty name o s) tt /\
    Rep h L' /\ registered L' ty (obj :: os).
Proof.
  intros HR Hty Hr Ho Hfr Hdom L'. destruct (get_info_known ty Hty) as [sz Hinfo].
  assert (obj ∉ os) as Hnin.
  { intros Hin. apply (Hfr _ _ Hr). right. by apply list_elem_of_fmap_2. }
  destruct (rep_add _ _ _ _ _ HR Hr Hfr Hdom) as (h & Hadd & HR' & _).
  exists h. split; [|split; [exact HR'|exact (lookup_insert_eq _ _ _)]].
  unfold sk_object_init. rewrite Hinfo. erewrite bind_done by reflexivity. simpl info_type.
  destruct (object_scan L s ty os (fun t _ => t =? obj) HR Hr) as [Hnx Hwalk].
  erewrite bind_done by reflexivity. kstep Hnx. kstep Hwalk.
  destruct (list_find _ os) as [[i r]|] eqn:E; simpl.
  { apply list_find_Some in E as (Hi & Hrr & _). apply Z.eqb_eq in Hrr as ->.
    exfalso. by apply Hnin, (list_elem_of_lookup_2 _ i). }
  unfold upd_obj. erewrite bind_done by (by apply update_at_ok). erewrite bind_done by reflexivity.
  unfold list_add. by erewrite on_nodes_ok by exact Hadd.
Qed.

(** ** Properties *)

(** [sk_object_find] returns the first registered object of the type whose
    name agrees with the given one on its first 16 characters, and NULL only
    if there is none; it changes nothing. *)
Theorem object_find_correct L s ty os (nm : Z -> list Z) name n :
  Rep (ks_nodes s) L -> 0 <= ty < SK_OBJECT_UNKNOWN -> registered L ty os ->
  name <> SK_NULL -> cstr (ks_mem s) name n -> (forall o, o ∈ os -> cstr (ks_mem s) o (nm o)) ->
  exists r, sk_object_find name ty s = Done s r /\
    ((r = SK_NULL /\ forall o, o ∈ os -> take 16 (nm o) <> take 16 n) \/
     exists os1 os2, os = os1 ++ r :: os2 /\ take 16 (nm r) = take 16 n /\
       forall o, o ∈ os1 -> take 16 (nm o) <> take 16 n).
Proof.
  intros HR Hty Hr Hn Hcn Hco. rewrite (object_find_eq L s ty os name) by done.
  assert (forall o, o ∈ os -> (sk_strcmp o name SK_NAME_MAX (ks_mem s) =? 0) = true <->
    take 16 (nm o) = take 16 n) as Hcmp.
  { intros o Ho. rewrite Z.eqb_eq. apply (strcmp_loop_zero _ _ _ _ _ _ (Hco o Ho) Hcn). }
  eexists. split; [reflexivity|].
  destruct (list_find _ os) as [[i r]|] eqn:E; simpl.
  - right. apply list_find_Some in E as (Hi & Hfr & Hbefore).
    exists (take i os), (drop (S i) os). rewrite take_drop_middle by done. split_and!; [done| |].
    + apply Hcmp; [by eapply list_elem_of_lookup_2|done].
    + intros o (j & Hj)%list_elem_of_lookup_1. apply lookup_take_Some in Hj as [Hj Hlt].
      intros Heq. apply (Hbefore j o Hj Hlt). apply Hcmp; [by eapply list_elem_of_lookup_2|done].
  - left. split; [done|]. apply list_find_None in E. rewrite Forall_forall in E.
    intros o Ho Heq. apply (E o Ho), Hcmp; done.
Qed.

(** [sk_object_init] registers a new object at the front of the list of its
    type, with its type and the 16 bytes of its name, leaves the other lists
    alone, and does nothing when called on an object that is registered. *)
Theorem object_init_registers_once L s ty os obj o name name' :
  Rep (ks_nodes s) L -> 0 <= ty < SK_OBJECT_UNKNOWN -> registered L ty os ->
  ks_objs s !! obj = Some o -> fresh L (NObj obj) -> is_Some (ks_nodes s !! NObj obj) ->
  exists s' L', sk_object_init obj ty name s = Done s' tt /\ Rep (ks_nodes s') L' /\
    registered L' ty (obj :: os) /\ (forall n, n <> NObjList ty -> L' !! n = L !! n) /\
    ks_objs s' = <[obj := mk_object ty (obj_flag o)]> (ks_objs s) /\
    (forall i, 0 <= i < SK_NAME_MAX -> mget (ks_mem s') (obj + i) = mget (ks_mem s) (name + i)) /\
    sk_object_init obj ty name' s' = Done s' tt.
Proof.
  intros HR Hty Hr Ho Hfr Hdom. destruct (get_info_known ty Hty) as [sz Hinfo].
  destruct (object_init_fresh L s ty os obj o name HR Hty Hr Ho Hfr Hdom) as (h & E & HR' & Hr').
  set (s' := init_object h obj ty name o s) in *.
  exists s', (<[NObjList ty := NObj obj :: (NObj <$> os)]> L). split_and!.
  - done.
  - done.
  - done.
  - intros n Hn. by rewrite lookup_insert_ne.
  - done.
  - intros i Hi. unfold s', init_object. simpl. rewrite memcpy_spec by (unfold SK_NAME_MAX in *; lia).
    rewrite decide_True by (unfold SK_NAME_MAX in *; lia). f_equal. lia.
  - unfold sk_object_init. rewrite Hinfo. erewrite bind_done by reflexivity. simpl info_type.
    destruct (object_scan _ s' ty (obj :: os) (fun t _ => t =? obj) HR' Hr') as [Hnx Hwalk].
    erewrite bind_done by reflexivity. kstep Hnx. kstep Hwalk.
    simpl. rewrite decide_True by lia. done.
Qed.

(** The container gives semaphores, mutexes, events, mailboxes and message
    queues the object size 0, so allocating one always returns NULL: none of
    the create functions of these types can succeed. *)
Theorem ipc_objects_never_allocated ty name s :
  SK_OBJECT_SEMAPHORE <= ty <= SK_OBJECT_MSQUE -> sk_object_alloc ty name s = Done s SK_NULL.
Proof.
  unfold SK_OBJECT_SEMAPHORE, SK_OBJECT_MSQUE. intros Hty.
  assert (sk_object_get_info ty = Some (mk_info ty 0)) as Hinfo.
  { assert (ty ∈ seqZ 1 5) as Hin by (apply elem_of_seqZ; lia). revert ty Hin Hty.
    intros ty Hin _. repeat (apply elem_of_cons in Hin as [->|Hin]; [reflexivity|]). set_solver. }
  unfold sk_object_alloc. rewrite Hinfo. by destruct s.
Qed.

(** ** A concrete object list *)

Definition obj_lists : lists := <[NObjList 7 := [NObj 1000; NObj 2000]]> prio_lists.

Definition obj_state : kstate :=
  upd_mem (fun _ => list_to_map [(1000, 97); (1001, 0); (2000, 98); (2001, 0); (3000, 98); (3001, 0)])
   (upd_objs (fun _ => list_to_map [(1000, mk_object 7 0); (2000, mk_object 7 0); (4000, mk_object 0 2)])
    (upd_nodes (fun _ => <[NObj 4000 := mk_node NNull NNull]> (heap_of obj_lists)) kstate_zero)).

Lemma obj_state_rep : Rep (ks_nodes obj_state) obj_lists.
Proof. apply rep_check_sound. by vm_compute. Qed.

Lemma object_find_correct_witness :
  exists r, sk_object_find 3000 7 obj_state = Done obj_state r /\
    ((r = SK_NULL /\ forall o, o ∈ [1000; 2000] -> take 16 [97 + (o - 1000) / 1000] <> take 16 [98]) \/
     exists os1 os2, [1000; 2000] = os1 ++ r :: os2 /\ take 16 [97 + (r - 1000) / 1000] = take 16 [98] /\
       forall o, o ∈ os1 -> take 16 [97 + (o - 1000) / 1000] <> take 16 [98]).
Proof.
  apply (object_find_correct obj_lists obj_state 7 [1000; 2000] (fun o => [97 + (o - 1000) / 1000]) 3000 [98]).
  - apply obj_state_rep.
  - unfold SK_OBJECT_UNKNOWN. lia.
  - by vm_compute.
  - done.
  - rewrite cstr_cons, cstr_nil. vm_compute. intuition congruence.
  - intros o Ho. apply elem_of_cons in Ho as [->|Ho]; [|apply list_elem_of_singleton in Ho as ->];
      rewrite cstr_cons, cstr_nil; vm_compute; intuition congruence.
Defined.

Lemma object_init_registers_once_witness :
  exists s' L', sk_object_init 4000 7 3000 obj_state = Done s' tt /\ Rep (ks_nodes s') L' /\
    registered L' 7 [4000; 1000; 2000] /\ (forall n, n <> NObjList 7 -> L' !! n = obj_lists !! n) /\
    ks_objs s' = <[4000 := mk_object 7 2]> (ks_objs obj_state) /\
    (forall i, 0 <= i < SK_NAME_MAX -> mget (ks_mem s') (4000 + i) = mget (ks_mem obj_state) (3000 + i)) /\
    sk_object_init 4000 7 1000 s' = Done s' tt.
Proof.
  apply (object_init_registers_once obj_lists obj_state 7 [1000; 2000] 4000 (mk_object 0 2)).
  - apply obj_state_rep.
  - unfold SK_OBJECT_UNKNOWN. lia.
  - by vm_compute.
  - by vm_compute.
  - apply (bool_decide_unpack _). by vm_compute.
  - eexists. by vm_compute.
Defined.

Lemma ipc_objects_never_allocated_witness :
  sk_object_alloc SK_OBJECT_MUTEX 3000 obj_state = Done obj_state SK_NULL.
Proof.
  apply ipc_objects_never_allocated. unfold SK_OBJECT_SEMAPHORE, SK_OBJECT_MUTEX, SK_OBJECT_MSQUE. lia.
Defined.
