(* ===== verification/Timer.v ===== *)
(** * System tick and timers: [src/init/sys_tick.c]

    The timers, the timer list and its check on every tick, and the time slices
    of the running thread.  The timeout functions of timers are called through
    [call], a parameter here that the thread component instantiates. *)

From S2P Require Import Prelude BaseDef KList Slab Kernel Sched KObj.

Local Open Scope c_scope.

Definition SK_TIMER_FLAG_DEACTIVE : Z := 0x0.
Definition SK_TIMER_FLAG_ACTIVE : Z := 0x1.
Definition SK_TIMER_FLAG_ONE_SHOT : Z := 0x0.
Definition SK_TIMER_FLAG_PERIODIC : Z := 0x2.

Definition SK_TIMER_CTRL_GET_TIME : Z := 0x00.
Definition SK_TIMER_CTRL_SET_TIME : Z := 0x01.
Definition SK_TIMER_CTRL_SET_ONSHOT : Z := 0x02.
Definition SK_TIMER_CTRL_SET_PERIODIC : Z := 0x04.
Definition SK_TIMER_CTRL_GET_STATE : Z := 0x08.

Definition TICK_PER_SECOND : Z := 1000.

(** ** Operations *)

Definition sk_tick_get : M Z := gets ks_tick.

Definition set_init_tick (v : Z) (t : sk_sys_timer) : sk_sys_timer :=
  mk_timer (timeout_func t) (tparam t) v (timeout_tick t).
Definition set_timeout_tick (v : Z) (t : sk_sys_timer) : sk_sys_timer :=
  mk_timer (timeout_func t) (tparam t) (tinit_tick t) v.
Definition set_remain_tick (v : Z) (t : sk_thread) : sk_thread :=
  mk_thread (stat t) (current_pri t) (init_pri t) (number_mask t) (sp t) (entry t) (param t)
    (stack_addr t) (stack_size t) (init_tick t) v (event_set t) (event_info t)
    (cleanup t) (user_data t).

Definition __timer_init (timer timeout param tick flag : Z) : M unit :=
  upd_obj timer (set_obj_flag flag);;
  upd_timer timer (fun _ => mk_timer timeout param tick 0);;
  list_init (NTimer timer).

Definition __timer_remove (timer : Z) : M unit := list_del (NTimer timer).

Definition sk_timer_create (name timeout param tick flag : Z) : M Z :=
  timer ← sk_object_alloc SK_OBJECT_TIMER name;
  if timer =? SK_NULL then mret SK_NULL
  else __timer_init timer timeout param tick flag;; mret timer.

Definition sk_timer_init (timer name timeout param tick flag : Z) : M unit :=
  sk_object_init timer SK_OBJECT_TIMER name;;
  __timer_init timer timeout param tick flag.

(** [timer->parent.flag &= ~f] and [timer->parent.flag |= f] *)
Definition clear_flag (f : Z) (o : sk_object) : sk_object := set_obj_flag (u8 (obj_flag o & ~~ f)) o.
Definition raise_flag (f : Z) (o : sk_object) : sk_object := set_obj_flag (obj_flag o ||| f) o.

Definition sk_timer_delete (timer : Z) : M Z :=
  level ← hw_interrupt_disable;
  __timer_remove timer;;
  upd_obj timer (clear_flag SK_TIMER_FLAG_ACTIVE);;
  hw_interrupt_enable level;;
  sk_object_delete timer;;
  mret SK_EOK.

Definition sk_system_timer_init : M unit := list_init NTimerList.

Definition sk_timer_start (timer : Z) : M Z :=
  level ← hw_interrupt_disable;
  __timer_remove timer;;
  tick ← sk_tick_get;
  upd_timer timer (fun t => set_timeout_tick (u32 (tick + tinit_tick t)) t);;
  upd_obj timer (raise_flag SK_TIMER_FLAG_ACTIVE);;
  list_add NTimerList (NTimer timer);;
  hw_interrupt_enable level;;
  mret SK_EOK.

Definition sk_timer_stop (timer : Z) : M Z :=
  o ← get_obj timer;
  if obj_flag o & SK_TIMER_FLAG_ACTIVE =? 0 then mret SK_ERROR
  else
    level ← hw_interrupt_disable;
    upd_obj timer (clear_flag SK_TIMER_FLAG_ACTIVE);;
    __timer_remove timer;;
    hw_interrupt_enable level;;
    mret SK_EOK.

(** The argument is read and written through a pointer: its value before and,
    in the result, after the call. *)
Definition sk_timer_control (timer cmd arg : Z) : M (Z * Z) :=
  level ← hw_interrupt_disable;
  arg ← (if cmd =? SK_TIMER_CTRL_GET_TIME then t ← get_timer timer; mret (tinit_tick t)
         else if cmd =? SK_TIMER_CTRL_SET_TIME then
           upd_timer timer (set_init_tick (u32 arg));; mret arg
         else if cmd =? SK_TIMER_CTRL_SET_ONSHOT then
           upd_obj timer (clear_flag SK_TIMER_FLAG_PERIODIC);; mret arg
         else if cmd =? SK_TIMER_CTRL_SET_PERIODIC then
           upd_obj timer (raise_flag SK_TIMER_FLAG_PERIODIC);; mret arg
         else if cmd =? SK_TIMER_CTRL_GET_STATE then
           o ← get_obj timer;
           mret (if negb (obj_flag o & SK_TIMER_FLAG_ACTIVE =? 0) then SK_TIMER_FLAG_ACTIVE
                 else SK_TIMER_FLAG_DEACTIVE)
         else mret arg);
  hw_interrupt_enable level;;
  mret (SK_EOK, arg).

Definition sk_tick_from_ms (ms : Z) : Z :=
  let tick := u32 (TICK_PER_SECOND * (ms / 1000)) in
  u32 (tick + u32 (TICK_PER_SECOND * (ms mod 1000) + 999) / 1000).

Section tick.
(** [timer->timeout_func(timer->param)] *)
Variable call : Z -> Z -> M unit.

Fixpoint timer_check_loop (fuel : nat) (level : Z) (list_1 : node) : M unit :=
  match fuel with
  | O => spin
  | S fuel =>
      if bool_decide (list_1 = NTimerList) then hw_interrupt_enable level
      else
        timer ← entry_timer list_1;
        current_tick ← sk_tick_get;
        t ← get_timer timer;
        if timeout_tick t <=? current_tick then
          o ← get_obj timer;
          when_ (negb (obj_flag o & SK_TIMER_FLAG_ACTIVE =? 0)) (call (timeout_func t) (tparam t));;
          n ← node_next list_1;
          p ← node_prev list_1;
          if bool_decide (n = p) then hw_interrupt_enable level
          else
            o ← get_obj timer;
            (if negb (obj_flag o & SK_TIMER_FLAG_PERIODIC =? 0)
             then sk_timer_start timer;; mret tt
             else upd_obj timer (clear_flag SK_TIMER_FLAG_ACTIVE));;
            n ← node_next list_1;
            timer_check_loop fuel level n
        else
          n ← node_next list_1;
          timer_check_loop fuel level n
  end.

Definition sk_timer_check (fuel : nat) : M unit :=
  level ← hw_interrupt_disable;
  list_1 ← node_next NTimerList;
  timer_check_loop fuel level list_1.

Definition sk_tick_increase (fuel : nat) : M unit :=
  level ← hw_interrupt_disable;
  modify (upd_tick (fun t => u32 (t + 1)));;
  thread ← sk_current_thread;
  upd_thread thread (fun t => set_remain_tick (u64 (remain_tick t - 1)) t);;
  t ← get_thread thread;
  (if remain_tick t =? 0 then
     upd_thread thread (fun t => set_remain_tick (init_tick t) t);;
     upd_thread thread (fun t => set_stat (stat t ||| SK_THREAD_YIELD) t);;
     hw_interrupt_enable level;;
     modify (upd_need_schedule (fun _ => true));;
     sk_schedule
   else hw_interrupt_enable level);;
  sk_timer_check fuel.

End tick.

(** [sk_tick_from_ms] is exact at 1000 ticks per second, for every 32-bit
    argument: no step overflows and no millisecond is lost to rounding. *)
Theorem tick_from_ms_exact ms : 0 <= ms < 2 ^ 32 -> sk_tick_from_ms ms = ms.
Proof.
  intros Hms. unfold sk_tick_from_ms, TICK_PER_SECOND.
  pose proof (Z.div_mod ms 1000). pose proof (Z.mod_pos_bound ms 1000).
  rewrite (uint_small 32 (1000 * (ms / 1000))), (uint_small 32 (1000 * (ms mod 1000) + 999)) by lia.
  replace (1000 * (ms mod 1000) + 999) with (999 + (ms mod 1000) * 1000) by lia.
  rewrite Z.div_add by lia. change (999 / 1000) with 0. rewrite uint_small by lia. lia.
Qed.

Lemma tick_from_ms_exact_witness : sk_tick_from_ms 4294967295 = 4294967295.
Proof. apply tick_from_ms_exact. lia. Defined.

(** ** The timer list *)

Definition timers_on (L : lists) (tms : list Z) : Prop := L !! NTimerList = Some (NTimer <$> tms).

(** The list without a timer. *)
Definition others (tm : Z) (tms : list Z) : list Z := filter (fun x => x <> tm) tms.

(** The timer is on the timer list or on no list. *)
Definition timer_placed (L : lists) (tms : list Z) (tm : Z) : Prop :=
  tm ∈ tms \/ L !! NTimer tm = Some [].

(** The other lists are the same. *)
Definition timer_frame (tm : Z) (L L' : lists) : Prop :=
  forall n, n <> NTimerList -> n <> NTimer tm -> L' !! n = L !! n.

#[global] Instance NTimer_inj : Inj (=) (=) NTimer.
Proof. by intros ? ? [=]. Qed.

Lemma others_notin tm tms : tm ∉ tms -> others tm tms = tms.
Proof.
  induction tms as [|x l IH]; unfold others; [done|]. intros Hn. rewrite filter_cons_True by set_solver.
  f_equal. apply IH. set_solver.
Qed.

Lemma others_middle tm us vs : NoDup (us ++ tm :: vs) -> others tm (us ++ tm :: vs) = us ++ vs.
Proof.
  intros (Hu & Hd & [Hv _]%NoDup_cons)%NoDup_app. unfold others. rewrite filter_app, filter_cons_False by tauto.
  fold (others tm us) (others tm vs). rewrite !others_notin; [done|done|]. intros Hin.
  apply (Hd tm Hin). by left.
Qed.

Lemma timers_NoDup h L tms : Rep h L -> timers_on L tms -> NoDup tms.
Proof.
  intros HR Ht. destruct (rep_is_list _ _ HR _ _ Ht) as [[_ Hnd]%NoDup_cons _].
  by apply NoDup_fmap_1 in Hnd.
Qed.

Lemma timer_remove_spec h L tms tm :
  Rep h L -> timers_on L tms -> timer_placed L tms tm ->
  exists h' L', sk_list_del (NTimer tm) h = Some h' /\ Rep h' L' /\
    timers_on L' (others tm tms) /\ L' !! NTimer tm = Some [] /\ timer_frame tm L L'.
Proof.
  intros HR Hon Hpl. destruct (decide (tm ∈ tms)) as [Hin|Hnin].
  - apply list_elem_of_split in Hin as (us & vs & ->).
    pose proof (timers_NoDup _ _ _ HR Hon) as Hnd. unfold timers_on in Hon.
    rewrite fmap_app, fmap_cons in Hon. destruct (rep_del _ _ _ _ _ _ HR Hon) as (h' & Hdel & HR' & _).
    eexists h', _. split; [done|]. split; [exact HR'|]. split_and!.
    + unfold timers_on. by rewrite lookup_insert_ne, lookup_insert_eq, others_middle, fmap_app.
    + by rewrite lookup_insert_eq.
    + intros n H1 H2. by rewrite !lookup_insert_ne.
  - destruct Hpl as [?|Hd]; [done|]. exists h, L. rewrite (rep_del_self _ _ _ HR Hd), others_notin by done.
    done.
Qed.

Definition started (tm : Z) (t : sk_sys_timer) (o : sk_object) h (s : kstate) : kstate :=
  upd_nodes (fun _ => h) (upd_objs (<[tm := raise_flag SK_TIMER_FLAG_ACTIVE o]>)
    (upd_timers (<[tm := set_timeout_tick (u32 (ks_tick s + tinit_tick t)) t]>) s)).

Lemma timer_start_spec L s tms tm t o :
  Rep (ks_nodes s) L -> irq_wf s -> timers_on L tms -> timer_placed L tms tm ->
  ks_timers s !! tm = Some t -> ks_objs s !! tm = Some o ->
  exists h L', sk_timer_start tm s = Done (started tm t o h s) SK_EOK /\ Rep h L' /\
    timers_on L' (tm :: others tm tms) /\ timer_frame tm L L'.
Proof.
  intros HR Hirq Hon Hpl Ht Ho.
  destruct (timer_remove_spec _ _ _ _ HR Hon Hpl) as (h1 & L1 & Hdel & HR1 & Hon1 & Hd1 & Hfr).
  destruct (rep_add h1 (delete (NTimer tm) L1) NTimerList (NTimer <$> others tm tms) (NTimer tm))
    as (h & Hadd & HR2 & _).
  { by apply rep_delete. }
  { by rewrite lookup_delete_ne. }
  { by eapply fresh_delete. }
  { by eapply rep_dom. }
  eexists h, _. split; [|split; [exact HR2|split]].
  - unfold sk_timer_start. kstep (disable_ok s Hirq). unfold __timer_remove, list_del.
    erewrite bind_done by (apply on_nodes_ok; exact Hdel). erewrite bind_done by reflexivity.
    unfold upd_timer. erewrite bind_done by (apply update_at_ok; exact Ht).
    unfold upd_obj. erewrite bind_done by (apply update_at_ok; exact Ho).
    unfold list_add. erewrite bind_done by (apply on_nodes_ok; exact Hadd).
    erewrite bind_done by (apply enable_ok; done). done.
  - unfold timers_on. by rewrite lookup_insert_eq.
  - intros n H1 H2. rewrite lookup_insert_ne, lookup_delete_ne by congruence. by apply Hfr.
Qed.

Definition stopped (tm : Z) (o : sk_object) h (s : kstate) : kstate :=
  upd_nodes (fun _ => h) (upd_objs (<[tm := clear_flag SK_TIMER_FLAG_ACTIVE o]>) s).

Definition active (o : sk_object) : bool := negb (obj_flag o & SK_TIMER_FLAG_ACTIVE =? 0).

Lemma timer_stop_spec L s tms tm o :
  Rep (ks_nodes s) L -> irq_wf s -> timers_on L tms -> timer_placed L tms tm ->
  ks_objs s !! tm = Some o ->
  if active o then
    exists h L', sk_timer_stop tm s = Done (stopped tm o h s) SK_EOK /\ Rep h L' /\
      timers_on L' (others tm tms) /\ L' !! NTimer tm = Some [] /\ timer_frame tm L L'
  else sk_timer_stop tm s = Done s SK_ERROR.
Proof.
  intros HR Hirq Hon Hpl Ho. unfold active, sk_timer_stop, get_obj.
  erewrite bind_done by (apply read_at_ok; exact Ho).
  destruct (obj_flag o & SK_TIMER_FLAG_ACTIVE =? 0); simpl negb; cbv iota; [done|].
  destruct (timer_remove_spec _ _ _ _ HR Hon Hpl) as (h & L' & Hdel & HR' & Hon' & Hd & Hfr).
  exists h, L'. split; [|done]. kstep (disable_ok s Hirq).
  unfold upd_obj. erewrite bind_done by (apply update_at_ok; exact Ho).
  unfold __timer_remove, list_del. erewrite bind_done by (apply on_nodes_ok; exact Hdel).
  erewrite bind_done by (apply enable_ok; done). unfold stopped. by destruct s.
Qed.

Lemma timer_set_time_spec s tm t v :
  irq_wf s -> ks_timers s !! tm = Some t ->
  sk_timer_control tm SK_TIMER_CTRL_SET_TIME v s =
    Done (upd_timers (<[tm := set_init_tick (u32 v) t]>) s) (SK_EOK, v).
Proof.
  intros Hirq Ht. unfold sk_timer_control. kstep (disable_ok s Hirq).
  erewrite bind_done
    by (simpl; unfold upd_timer; erewrite bind_done by (apply update_at_ok; exact Ht); reflexivity).
  erewrite bind_done by (apply enable_ok; done). unfold mret, M_ret. by destruct s.
Qed.

(** ** The check of the timer list *)

Definition periodic (o : sk_object) : bool := negb (obj_flag o & SK_TIMER_FLAG_PERIODIC =? 0).

(** What the check itself changes: the ticks, flags and order of timers that have
    expired. *)
Definition timer_only (L L' : lists) (s s' : kstate) : Prop :=
  s' = upd_nodes (fun _ => ks_nodes s') (upd_objs (fun _ => ks_objs s')
         (upd_timers (fun _ => ks_timers s') s)) /\
  (forall n, n <> NTimerList -> (forall tm, n <> NTimer tm) -> L' !! n = L !! n) /\
  (forall tm, (fun t => (timeout_func t, tparam t)) <$> ks_timers s' !! tm =
              (fun t => (timeout_func t, tparam t)) <$> ks_timers s !! tm) /\
  (forall tm, (fun o => (obj_type o, periodic o)) <$> ks_objs s' !! tm =
              (fun o => (obj_type o, periodic o)) <$> ks_objs s !! tm) /\
  (forall tm t, ks_timers s !! tm = Some t -> ks_tick s < timeout_tick t ->
     ks_timers s' !! tm = Some t /\ ks_objs s' !! tm = ks_objs s !! tm) /\
  exists tms tms', timers_on L tms /\ timers_on L' tms' /\ tms' ≡ₚ tms /\
    (forall tm, timer_placed L tms tm -> timer_placed L' tms' tm) /\
    (forall o, o ∉ tms -> ks_objs s' !! o = ks_objs s !! o).

(** What the owner of the timeout functions promises: the call of an active and
    expired timer of the list returns with interrupts off and touches neither the
    timers nor the timer list, keeps the owner's invariant [I] and brings about the
    effect [Eff] of the timer; invariant and effects survive the calls of other timers
    and what the check itself changes. *)
Class TimerClient (call : Z -> Z -> M unit) (I : lists -> kstate -> Prop)
    (Eff : Z -> lists -> kstate -> Prop) : Prop := {
  tc_call L s tms tm t o : I L s -> Rep (ks_nodes s) L -> ks_daif s = 0xC0 ->
    timers_on L tms -> tm ∈ tms -> ks_timers s !! tm = Some t -> ks_objs s !! tm = Some o ->
    active o = true -> timeout_tick t <= ks_tick s ->
    exists s' L', call (timeout_func t) (tparam t) s = Done s' tt /\ I L' s' /\
      Rep (ks_nodes s') L' /\ timers_on L' tms /\ ks_timers s' = ks_timers s /\
      ks_objs s' = ks_objs s /\ ks_tick s' = ks_tick s /\ ks_daif s' = 0xC0 /\
      Eff tm L' s' /\ forall x, Eff x L s -> Eff x L' s';
  tc_frame L L' s s' : I L s -> Rep (ks_nodes s') L' -> timer_only L L' s s' ->
    I L' s' /\ forall x, Eff x L s -> Eff x L' s'
}.

(** A timer of the list as the check expects it: a periodic one has a positive
    period and its next expiry does not overflow the tick counter. *)
Definition timer_ok (s : kstate) (tm : Z) : Prop :=
  exists t o, ks_timers s !! tm = Some t /\ ks_objs s !! tm = Some o /\
    (periodic o = true -> 0 < tinit_tick t /\ ks_tick s + tinit_tick t < 2 ^ 32).

(** A timer the check has dealt with: inactive or not expired. *)
Definition settled (s : kstate) (tm : Z) : Prop :=
  exists t o, ks_timers s !! tm = Some t /\ ks_objs s !! tm = Some o /\
    (active o = false \/ ks_tick s < timeout_tick t).

(** A timer whose function the check has to call. *)
Definition fires (s : kstate) (tm : Z) : bool :=
  match ks_timers s !! tm, ks_objs s !! tm with
  | Some t, Some o => active o && (timeout_tick t <=? ks_tick s)
  | _, _ => false
  end.

Lemma fires_ext s s' tm :
  ks_timers s' = ks_timers s -> ks_objs s' = ks_objs s -> ks_tick s' = ks_tick s -> fires s' tm = fires s tm.
Proof. intros E1 E2 E3. unfold fires. by rewrite E1, E2, E3. Qed.

(** A timer the check will restart. *)
Definition due (s : kstate) (tm : Z) : bool :=
  match ks_timers s !! tm, ks_objs s !! tm with
  | Some t, Some o => (timeout_tick t <=? ks_tick s) && periodic o
  | _, _ => false
  end.

Definition n_due (s : kstate) (l : list Z) : nat := length (filter (fun tm => due s tm = true) l).

Lemma flag_bit f k : 0 <= k -> negb (f & 2 ^ k =? 0) = Z.testbit f k.
Proof. intros. rewrite testbit_land_pow2 by done. apply negb_involutive. Qed.

Lemma active_bit o : active o = Z.testbit (obj_flag o) 0.
Proof. by apply (flag_bit _ 0). Qed.

Lemma periodic_bit o : periodic o = Z.testbit (obj_flag o) 1.
Proof. by apply (flag_bit _ 1). Qed.

Lemma clear_bit f k j : 0 <= k -> 0 <= j < 8 ->
  Z.testbit (u8 (f & ~~ 2 ^ k)) j = if decide (j = k) then false else Z.testbit f j.
Proof. intros. unfold sk_uint. rewrite Z.mod_pow2_bits_low by lia. apply ldiff_pow2_bit; lia. Qed.

Lemma active_clear o : active (clear_flag SK_TIMER_FLAG_ACTIVE o) = false.
Proof. rewrite active_bit. simpl obj_flag. by rewrite (clear_bit _ 0). Qed.

Lemma periodic_clear o : periodic (clear_flag SK_TIMER_FLAG_ACTIVE o) = periodic o.
Proof. rewrite !periodic_bit. simpl obj_flag. by rewrite (clear_bit _ 0). Qed.

Lemma periodic_raise o : periodic (raise_flag SK_TIMER_FLAG_ACTIVE o) = periodic o.
Proof. rewrite !periodic_bit. simpl obj_flag. by rewrite (lor_pow2_bit _ 0). Qed.

(** The neighbours of a node of a list of two or more. *)
Lemma neighbours h hd (a b : list node) x :
  is_list h hd (a ++ x :: b) ->
  load_next x h = Some (default hd (head b)) /\
  exists p, load_prev x h = Some p /\ (p = default hd (head b) -> a = [] /\ b = []).
Proof.
  intros Hl. pose proof (proj1 Hl) as Hnd. apply is_list_rotate_app in Hl.
  rewrite (is_list_next _ _ _ Hl), (is_list_prev _ _ _ Hl). split; [by destruct b|].
  eexists. split; [reflexivity|].
  assert (tail_of x (b ++ hd :: a) = tail_of hd a) as ->.
  { clear. revert x. induction b as [|y b IH]; intros x; simpl; rewrite tail_of_cons; [done|]. apply IH. }
  rewrite app_comm_cons in Hnd. apply NoDup_app in Hnd as (_ & Hd & [_ _]%NoDup_cons).
  pose proof (tail_of_in hd a) as Hin. intros E. rewrite E in Hin.
  destruct b as [|y b]; simpl in *.
  - destruct (list_snoc_cases a) as [->|(a' & z & ->)]; [done|]. rewrite tail_of_snoc in E.
    exfalso. subst z. clear Hin Hd.
    destruct Hl as [Hnd _]. apply NoDup_cons in Hnd as [_ Hnd]. apply NoDup_cons in Hnd as [Hn _]. set_solver.
  - exfalso. apply (Hd y Hin). set_solver.
Qed.

Section check.
Context (call : Z -> Z -> M unit) (I : lists -> kstate -> Prop) (Eff : Z -> lists -> kstate -> Prop).
Context `{!TimerClient call I Eff}.

(** The check that began in [r] stands at [rest], the timers [front] before it being
    settled; of the timers that had to fire, those whose function has not been called
    are still to come. *)
Record check_inv (r : kstate) (L : lists) (s : kstate) (front rest : list Z) : Prop := {
  ci_client : I L s;
  ci_rep : Rep (ks_nodes s) L;
  ci_irq : ks_daif s = 0xC0;
  ci_list : timers_on L (front ++ rest);
  ci_two : (2 <= length (front ++ rest))%nat;
  ci_ok : forall tm, tm ∈ front ++ rest -> timer_ok s tm;
  ci_settled : forall tm, tm ∈ front -> settled s tm;
  ci_tick : ks_tick s = ks_tick r;
  ci_fired : forall tm, tm ∈ front ++ rest -> fires r tm = true ->
    Eff tm L s \/ (tm ∈ rest /\ fires s tm = true)
}.

Lemma n_due_step s s' tm l :
  (forall x, x ∈ l -> x <> tm -> due s' x = due s x) -> (due s' tm = true -> due s tm = true) ->
  (n_due s' l <= n_due s l)%nat.
Proof.
  intros Hx Htm. unfold n_due. induction l as [|y l IH]; [done|]. rewrite !filter_cons.
  assert (due s' y = true -> due s y = true) as Hy.
  { destruct (decide (y = tm)) as [->|]; [done|]. rewrite Hx; [done|by left|done]. }
  specialize (IH ltac:(intros; apply Hx; [by right|done])).
  repeat case_decide; simpl; naive_solver lia.
Qed.

Lemma n_due_restart s s' tm l :
  NoDup l -> tm ∈ l -> due s tm = true -> due s' tm = false ->
  (forall x, x ∈ l -> x <> tm -> due s' x = due s x) -> S (n_due s' l) = n_due s l.
Proof.
  intros Hnd Hin H1 H2 Hx. apply list_elem_of_split in Hin as (a & b & ->). unfold n_due.
  rewrite !filter_app, !filter_cons, H1, H2. rewrite decide_False, decide_True by done.
  apply NoDup_app in Hnd as (_ & Hd & [Hb _]%NoDup_cons).
  assert (forall l : list Z, (forall x, x ∈ l -> due s' x = due s x) ->
    filter (fun x => due s' x = true) l = filter (fun x => due s x = true) l) as Hf.
  { clear. intros l. induction l as [|y l IH]; intros Hl; [done|]. rewrite !filter_cons.
    rewrite (Hl y) by (by left). rewrite IH by (intros; apply Hl; by right). done. }
  rewrite (Hf a), (Hf b).
  - rewrite !length_app. simpl. lia.
  - intros x Hxb. apply Hx; [set_solver|]. by intros ->.
  - intros x Hxa. apply Hx; [set_solver|]. intros ->. apply (Hd tm Hxa). by left.
Qed.

(** Changing one timer and its object keeps what is known of the others. *)
Lemma ok_other s s' tm x :
  ks_tick s' = ks_tick s -> x <> tm ->
  (forall y, y <> tm -> ks_timers s' !! y = ks_timers s !! y) ->
  (forall y, y <> tm -> ks_objs s' !! y = ks_objs s !! y) ->
  (timer_ok s x -> timer_ok s' x) /\ (settled s x -> settled s' x) /\ due s' x = due s x /\
  fires s' x = fires s x.
Proof.
  intros Ht Hx Htm Hob. unfold timer_ok, settled, due, fires. rewrite Ht, (Htm x Hx), (Hob x Hx). done.
Qed.

(** The timer under the cursor has fired if it had to. *)
Definition called (r : kstate) (tm : Z) (L : lists) (s : kstate) : Prop := fires r tm = true -> Eff tm L s.

Lemma called_idle r L s front tm rest :
  check_inv r L s front (tm :: rest) -> fires s tm = false -> called r tm L s.
Proof.
  intros HC Hf Hr. destruct (ci_fired _ _ _ _ _ HC tm) as [|[_ H]]; [set_solver|done|done|congruence].
Qed.

(** A change of the timer under the cursor after its function was called. *)
Lemma fired_change r L s L' s' front tm rest front' rest' :
  check_inv r L s front (tm :: rest) -> called r tm L s -> (forall x, Eff x L s -> Eff x L' s') ->
  ks_tick s' = ks_tick s ->
  (forall y, y <> tm -> ks_timers s' !! y = ks_timers s !! y) ->
  (forall y, y <> tm -> ks_objs s' !! y = ks_objs s !! y) ->
  (forall x, x ∈ front' ++ rest' -> x ∈ front ++ tm :: rest) -> (forall x, x ∈ rest -> x ∈ rest') ->
  forall x, x ∈ front' ++ rest' -> fires r x = true -> Eff x L' s' \/ (x ∈ rest' /\ fires s' x = true).
Proof.
  intros HC HE Hk Htk Htm Hob Hin Hrest x Hx Hr. destruct (decide (x = tm)) as [->|Hne]; [left; auto|].
  destruct (ok_other s s' tm x Htk Hne Htm Hob) as (_ & _ & _ & Hf).
  destruct (ci_fired _ _ _ _ _ HC x (Hin x Hx) Hr) as [|[H1 H2]]; [left; auto|right].
  rewrite Hf. split; [|done]. apply Hrest. set_solver.
Qed.

(** Clearing the active flag of the timer under the cursor moves it to the
    front. *)
Lemma check_clear r L s front tm rest t o :
  check_inv r L s front (tm :: rest) -> ks_timers s !! tm = Some t -> ks_objs s !! tm = Some o ->
  timeout_tick t <= ks_tick s -> called r tm L s ->
  let s' := upd_objs (<[tm := clear_flag SK_TIMER_FLAG_ACTIVE o]>) s in
  check_inv r L s' (front ++ [tm]) rest /\ (n_due s' (front ++ tm :: rest) <= n_due s (front ++ tm :: rest))%nat.
Proof.
  intros HC Ht Ho Hexp HE s'.
  pose proof (timers_NoDup _ _ _ (ci_rep _ _ _ _ _ HC) (ci_list _ _ _ _ _ HC)) as Hnd.
  assert (forall y, y <> tm -> ks_objs s' !! y = ks_objs s !! y) as Hob
    by (intros; unfold s'; simpl; by rewrite lookup_insert_ne).
  assert (ks_objs s' !! tm = Some (clear_flag SK_TIMER_FLAG_ACTIVE o)) as Htm
    by (unfold s'; simpl; by rewrite lookup_insert_eq).
  destruct (ci_ok _ _ _ _ _ HC tm) as (t' & o' & Ht' & Ho' & Hper); [set_solver|]. simplify_eq.
  destruct (tc_frame L L s s') as [HI Hk]; [apply HC|apply HC| |].
  { split_and!; [by destruct s|done|done| | |].
    - intros x. destruct (decide (x = tm)) as [->|Hne]; [|by rewrite Hob].
      rewrite Htm, Ho. simpl. by rewrite periodic_clear.
    - intros x u Hu Hlt. split; [done|]. apply Hob. intros ->. simplify_eq. lia.
    - exists (front ++ tm :: rest), (front ++ tm :: rest). split_and!; try done; try apply HC.
      intros x Hx. apply Hob. set_solver. }
  split; [split; rewrite <- ?app_assoc; try apply HC; try done|].
  - intros x Hx. destruct (decide (x = tm)) as [->|Hne].
    + exists t, (clear_flag SK_TIMER_FLAG_ACTIVE o). rewrite periodic_clear. done.
    + apply (ok_other s s' tm x); [done..|]. by apply (ci_ok _ _ _ _ _ HC).
  - intros x [Hx|Hx%list_elem_of_singleton]%elem_of_app.
    + destruct (decide (x = tm)) as [->|Hne].
      { exists t, (clear_flag SK_TIMER_FLAG_ACTIVE o). rewrite active_clear. auto. }
      apply (ok_other s s' tm x); [done..|]. by apply (ci_settled _ _ _ _ _ HC).
    + subst x. exists t, (clear_flag SK_TIMER_FLAG_ACTIVE o). rewrite active_clear. auto.
  - rewrite app_assoc. by apply (fired_change r L s L s' front tm rest (front ++ [tm]) rest HC HE Hk);
      [..|intros x; rewrite <- app_assoc|].
  - apply (n_due_step s s' tm).
    + intros x _ Hx. by apply (ok_other s s' tm x).
    + unfold due. rewrite Ho, Htm. change (ks_timers s' !! tm) with (ks_timers s !! tm).
      rewrite Ht, periodic_clear. done.
Qed.

Lemma n_due_perm s l l' : l ≡ₚ l' -> n_due s l = n_due s l'.
Proof. intros Hp. unfold n_due. by rewrite Hp. Qed.

(** A timeout function keeps the check's invariant. *)
Lemma check_call r L s front tm rest t o :
  check_inv r L s front (tm :: rest) -> ks_timers s !! tm = Some t -> ks_objs s !! tm = Some o ->
  active o = true -> timeout_tick t <= ks_tick s ->
  exists s' L', call (timeout_func t) (tparam t) s = Done s' tt /\
    check_inv r L' s' front (tm :: rest) /\ ks_timers s' = ks_timers s /\ ks_objs s' = ks_objs s /\
    ks_tick s' = ks_tick s /\ Eff tm L' s'.
Proof.
  intros HC Ht Ho Ha Hexp. destruct (tc_call L s (front ++ tm :: rest) tm t o) as
    (s' & L' & Hrun & HI & HR & Hon & Etm & Eob & Etk & Eirq & HE & Hk); try apply HC; try done; [set_solver|].
  exists s', L'. split; [done|]. split; [|done].
  assert (forall x, (timer_ok s x -> timer_ok s' x) /\ (settled s x -> settled s' x)) as Hx.
  { intros x. unfold timer_ok, settled. by rewrite Etm, Eob, Etk. }
  split; try done; try (by rewrite Etk; apply HC); [apply HC|intros; by apply Hx, HC..|].
  intros x Hin Hr. rewrite (fires_ext s s') by done.
  destruct (ci_fired _ _ _ _ _ HC x Hin Hr); [left; auto|by right].
Qed.

(** Restarting the timer under the cursor moves it to the front of the list
    and the cursor back to what followed the front. *)
Lemma check_restart r L s front tm rest t o :
  check_inv r L s front (tm :: rest) -> ks_timers s !! tm = Some t -> ks_objs s !! tm = Some o ->
  timeout_tick t <= ks_tick s -> called r tm L s -> periodic o = true -> 0 <= ks_tick s ->
  exists h L', sk_timer_start tm s = Done (started tm t o h s) SK_EOK /\
    let s' := started tm t o h s in
    check_inv r L' s' [tm] (front ++ rest) /\
    S (n_due s' (tm :: front ++ rest)) = n_due s (front ++ tm :: rest).
Proof.
  intros HC Ht Ho Hexp HE Hper Htick.
  pose proof (timers_NoDup _ _ _ (ci_rep _ _ _ _ _ HC) (ci_list _ _ _ _ _ HC)) as Hnd.
  destruct (timer_start_spec L s (front ++ tm :: rest) tm t o) as (h & L' & Hrun & HR & Hon & Hfr);
    try apply HC; try done; [by right; apply HC|left; set_solver|].
  rewrite others_middle in Hon by done. exists h, L'. split; [done|]. set (s' := started tm t o h s).
  destruct (ci_ok _ _ _ _ _ HC tm) as (t' & o' & Ht' & Ho' & Hok); [set_solver|]. simplify_eq.
  destruct (Hok Hper) as [Hpos Hov].
  assert (forall y, y <> tm -> ks_objs s' !! y = ks_objs s !! y) as Hob
    by (intros; simpl; by rewrite lookup_insert_ne).
  assert (forall y, y <> tm -> ks_timers s' !! y = ks_timers s !! y) as Htb
    by (intros; simpl; by rewrite lookup_insert_ne).
  assert (ks_timers s' !! tm = Some (set_timeout_tick (ks_tick s + tinit_tick t) t)) as Ht1.
  { simpl. rewrite lookup_insert_eq. by rewrite uint_small by lia. }
  assert (ks_objs s' !! tm = Some (raise_flag SK_TIMER_FLAG_ACTIVE o)) as Ho1
    by (simpl; by rewrite lookup_insert_eq).
  destruct (tc_frame L L' s s') as [HI Hk]; [apply HC|exact HR| |].
  { split_and!.
    - done.
    - intros n Hn1 Hn2. by apply Hfr.
    - intros x. destruct (decide (x = tm)) as [->|Hne]; [by rewrite Ht1, Ht|by rewrite Htb].
    - intros x. destruct (decide (x = tm)) as [->|Hne]; [|by rewrite Hob].
      rewrite Ho1, Ho. simpl. by rewrite periodic_raise.
    - intros x u Hu Hlt. assert (x <> tm) by (intros ->; simplify_eq; lia).
      by rewrite Htb, Hob.
    - exists (front ++ tm :: rest), (tm :: front ++ rest).
      split_and!; [apply HC|done|apply Permutation_middle| |intros x Hx; apply Hob; set_solver].
      intros x [Hx|Hx]; [left; set_solver|]. destruct (decide (x = tm)) as [->|Hne]; [left; by left|].
      right. rewrite Hfr; [done|done|congruence]. }
  split; [split; try done|].
  - apply HC.
  - pose proof (ci_two _ _ _ _ _ HC) as H2. revert H2. simpl. rewrite !length_app. simpl. lia.
  - intros x Hx. destruct (decide (x = tm)) as [->|Hne].
    + do 2 eexists. split; [exact Ht1|]. split; [exact Ho1|]. done.
    + apply (ok_other s s' tm x); [done..|]. apply (ci_ok _ _ _ _ _ HC). set_solver.
  - intros x ->%list_elem_of_singleton. do 2 eexists. split; [exact Ht1|]. split; [exact Ho1|].
    right. simpl. lia.
  - apply HC.
  - apply (fired_change r L s L' s' front tm rest [tm] (front ++ rest) HC HE Hk); try done; set_solver.
  - rewrite (n_due_perm s' (tm :: front ++ rest) (front ++ tm :: rest)) by apply Permutation_middle.
    apply (n_due_restart s s' tm); [done|set_solver| | |].
    + unfold due. rewrite Ht, Ho, Hper. rewrite andb_true_r. lia.
    + unfold due. rewrite Ht1, Ho1. simpl. rewrite (proj2 (Z.leb_gt _ _)) by lia. done.
    + intros x _ Hx. by apply (ok_other s s' tm x).
Qed.

Lemma check_skip r L s front tm rest t :
  check_inv r L s front (tm :: rest) -> ks_timers s !! tm = Some t -> ks_tick s < timeout_tick t ->
  check_inv r L s (front ++ [tm]) rest.
Proof.
  intros HC Ht Hlt. destruct (ci_ok _ _ _ _ _ HC tm) as (t' & o & Ht' & Ho & _); [set_solver|]. simplify_eq.
  assert (fires s tm = false) as Hf.
  { unfold fires. rewrite Ht, Ho, (proj2 (Z.leb_gt _ _) Hlt). apply andb_false_r. }
  split; rewrite <- ?app_assoc; try apply HC.
  - intros x [Hx| ->%list_elem_of_singleton]%elem_of_app; [by apply HC|]. exists t, o. auto.
  - intros x Hx Hr. destruct (ci_fired _ _ _ _ _ HC x Hx Hr) as [|[[->|Hin]%elem_of_cons Hfx]]; [by left|congruence|by right].
Qed.

(** The neighbours of the timer under the cursor. *)
Lemma check_next r L s front tm rest :
  check_inv r L s front (tm :: rest) ->
  node_next (NTimer tm) s = Done s (default NTimerList (head (NTimer <$> rest))) /\
  exists p, node_prev (NTimer tm) s = Done s p /\ p <> default NTimerList (head (NTimer <$> rest)).
Proof.
  intros HC. pose proof (rep_is_list _ _ (ci_rep _ _ _ _ _ HC) _ _ (ci_list _ _ _ _ _ HC)) as Hl.
  rewrite fmap_app, fmap_cons in Hl. destruct (neighbours _ _ _ _ _ Hl) as (Hn & p & Hp & Hne).
  unfold node_next, node_prev. rewrite Hn, Hp. split; [done|]. exists p. split; [done|].
  intros E. destruct (Hne E) as [E1 E2]. apply fmap_nil_inv in E1, E2. subst.
  pose proof (ci_two _ _ _ _ _ HC) as H2. simpl in H2. lia.
Qed.

Lemma check_loop_spec r fuel : forall L s front rest level,
  check_inv r L s front rest -> level = 0 \/ level = 0xC0 -> 0 <= ks_tick s ->
  (n_due s (front ++ rest) * S (length (front ++ rest)) + length rest < fuel)%nat ->
  exists s' L' tms', timer_check_loop call fuel level (default NTimerList (head (NTimer <$> rest))) s =
      Done (upd_daif (fun _ => level) s') tt /\
    check_inv r L' s' tms' [] /\ tms' ≡ₚ front ++ rest /\ ks_tick s' = ks_tick s.
Proof.
  induction fuel as [|fuel IH]; intros L s front rest level HC Hlv Htick Hfuel; [lia|].
  destruct rest as [|tm rest].
  { exists s, L, front. rewrite app_nil_r. split_and!; [|done..]. cbn [timer_check_loop].
    rewrite bool_decide_eq_true_2 by done. apply enable_ok; [done|apply HC]. }
  simpl default. cbn [timer_check_loop]. rewrite bool_decide_eq_false_2 by done.
  do 2 erewrite bind_done by reflexivity.
  destruct (ci_ok _ _ _ _ _ HC tm) as (t & o & Ht & Ho & Hok); [set_solver|].
  unfold get_timer. erewrite bind_done by (apply read_at_ok; exact Ht).
  rewrite length_app in Hfuel. simpl length in Hfuel.
  destruct (Z.leb_spec (timeout_tick t) (ks_tick s)) as [Hexp|Hexp].
  - unfold get_obj. erewrite bind_done by (apply read_at_ok; exact Ho).
    assert (exists s1 L1, when_ (negb (obj_flag o & SK_TIMER_FLAG_ACTIVE =? 0))
        (call (timeout_func t) (tparam t)) s = Done s1 tt /\
      check_inv r L1 s1 front (tm :: rest) /\ ks_timers s1 = ks_timers s /\ ks_objs s1 = ks_objs s /\
      ks_tick s1 = ks_tick s /\ called r tm L1 s1) as (s1 & L1 & Hcall & HC1 & Etm & Eob & Etk & HE).
    { fold (active o). destruct (active o) eqn:Ha; simpl.
      - destruct (check_call r L s front tm rest t o HC Ht Ho Ha Hexp) as (s1 & L1 & ? & ? & ? & ? & ? & ?).
        exists s1, L1. do 5 (split; [done|]). by intros _.
      - exists s, L. split_and!; try done. eapply called_idle; [exact HC|]. unfold fires. by rewrite Ht, Ho, Ha. }
    kstep Hcall. destruct (check_next _ _ _ _ _ _ HC1) as (Hnx & p & Hpv & Hne).
    kstep Hnx. kstep Hpv. rewrite bool_decide_eq_false_2 by congruence.
    assert (n_due s1 (front ++ tm :: rest) = n_due s (front ++ tm :: rest)) as Edue
      by (unfold n_due, due; by rewrite Etm, Eob, Etk).
    rewrite <- Etm in Ht. rewrite <- Eob in Ho. rewrite <- Etk in Hexp, Htick |- *.
    erewrite bind_done by (apply read_at_ok; exact Ho).
    fold (periodic o). destruct (periodic o) eqn:Hper.
    + destruct (check_restart _ _ _ _ _ _ t o HC1 Ht Ho Hexp HE) as (h & L2 & Hrun & HC2 & Hdue); try done.
      erewrite bind_done by (erewrite bind_done by exact Hrun; reflexivity).
      pose proof (rep_is_list _ _ (ci_rep _ _ _ _ _ HC2) _ _ (ci_list _ _ _ _ _ HC2)) as Hl.
      simpl in Hl. destruct (neighbours _ _ [] _ _ Hl) as [Hn _].
      unfold node_next. erewrite bind_done by (simpl; rewrite Hn; reflexivity).
      rewrite <- Edue, <- Hdue in Hfuel.
      destruct (IH L2 _ [tm] (front ++ rest) level HC2 Hlv Htick) as (s' & L' & tms' & ? & ? & Hp & ?).
      { simpl in Hfuel |- *. rewrite length_app in *. nia. }
      exists s', L', tms'. split_and!; try done. rewrite Hp. simpl. apply Permutation_middle.
    + unfold upd_obj. erewrite bind_done by (apply update_at_ok; exact Ho).
      destruct (check_clear _ _ _ _ _ _ t o HC1 Ht Ho Hexp HE) as [HC2 Hdue].
      erewrite bind_done by (revert Hnx; unfold node_next; simpl;
        destruct (load_next (NTimer tm) (ks_nodes s1)); simpl; [intros [= ->]; reflexivity|done]).
      destruct (IH L1 _ (front ++ [tm]) rest level HC2 Hlv Htick) as (s' & L' & tms' & ? & ? & Hp & ?).
      { rewrite <- app_assoc. simpl. rewrite length_app. simpl. rewrite <- Edue in Hfuel. nia. }
      exists s', L', tms'. split_and!; try done. by rewrite Hp, <- app_assoc.
  - destruct (check_next _ _ _ _ _ _ HC) as [Hnx _]. kstep Hnx.
    destruct (IH L s (front ++ [tm]) rest level) as (s' & L' & tms' & ? & ? & Hp & ?); try done.
    { by eapply check_skip. }
    { rewrite <- app_assoc. simpl. rewrite length_app. simpl. lia. }
    exists s', L', tms'. split_and!; try done. by rewrite Hp, <- app_assoc.
Qed.

(** With at least two timers on the list the check returns, the same timers are
    on the list, and none of them is both active and expired. *)
Lemma timer_check_spec L s tms fuel :
  I L (masked s) -> Rep (ks_nodes s) L -> irq_wf s -> timers_on L tms -> (2 <= length tms)%nat ->
  (forall tm, tm ∈ tms -> timer_ok s tm) -> 0 <= ks_tick s ->
  ((length tms + 1) * (length tms + 1) <= fuel)%nat ->
  exists s' L' tms', sk_timer_check call fuel s = Done s' tt /\ ks_daif s' = ks_daif s /\
    I L' (masked s') /\ Rep (ks_nodes s') L' /\ timers_on L' tms' /\ tms' ≡ₚ tms /\
    (forall tm, tm ∈ tms -> settled s' tm) /\
    forall tm, tm ∈ tms -> fires s tm = true -> Eff tm L' (masked s').
Proof.
  intros HI HR Hirq Hon H2 Hok Htick Hfuel. unfold sk_timer_check. kstep (disable_ok s Hirq).
  unfold node_next. erewrite bind_done by (simpl; rewrite (rep_next _ _ _ _ HR Hon); reflexivity).
  assert (check_inv s L (masked s) [] tms) as HC.
  { split; simpl; try done; [by intros ? ?%elem_of_nil|]. intros tm Htm Hf. by right. }
  assert (n_due (masked s) tms <= length tms)%nat as Hdue by apply length_filter.
  destruct (check_loop_spec s fuel L _ [] tms (ks_daif s) HC) as (s' & L' & tms' & Hrun & HC' & Hp & Etk);
    try done; [simpl; nia|]. simpl in Hp.
  rewrite Hrun. exists (upd_daif (fun _ => ks_daif s) s'), L', tms'.
  assert (masked (upd_daif (fun _ => ks_daif s) s') = s') as Em.
  { pose proof (ci_irq _ _ _ _ _ HC') as Hd. destruct s'; simpl in *; by subst. }
  rewrite Em. split_and!; try done; try apply HC'.
  - pose proof (ci_list _ _ _ _ _ HC') as Hl. by rewrite app_nil_r in Hl.
  - intros tm Htm. apply (ci_settled _ _ _ _ _ HC'). by rewrite Hp.
  - intros tm Htm Hf. destruct (ci_fired _ _ _ _ _ HC' tm) as [|[H _]]; [by rewrite app_nil_r, Hp|done|done|].
    by apply elem_of_nil in H.
Qed.

(** A list with no more than one timer: the check calls the timeout function if
    the timer is active and expired, and changes nothing itself. *)
Lemma timer_check_short L s tms fuel :
  I L (masked s) -> Rep (ks_nodes s) L -> irq_wf s -> timers_on L tms -> (length tms <= 1)%nat ->
  (forall tm, tm ∈ tms -> timer_ok s tm) -> (2 <= fuel)%nat ->
  exists s' L', sk_timer_check call fuel s = Done s' tt /\ ks_daif s' = ks_daif s /\
    I L' (masked s') /\ Rep (ks_nodes s') L' /\ timers_on L' tms /\
    forall tm, tm ∈ tms -> fires s tm = true -> Eff tm L' (masked s').
Proof.
  intros HI HR Hirq Hon Hlen Hok Hf. destruct fuel as [|[|fuel]]; [lia..|].
  assert (upd_daif (fun _ => ks_daif s) (masked s) = s) as Es by (by destruct s).
  unfold sk_timer_check. kstep (disable_ok s Hirq). unfold node_next.
  erewrite bind_done by (simpl; rewrite (rep_next _ _ _ _ HR Hon); reflexivity).
  destruct tms as [|tm [|? ?]]; [| |simpl in Hlen; lia].
  { exists s, L. cbn [fmap list_fmap head default timer_check_loop]. rewrite bool_decide_eq_true_2 by done.
    rewrite enable_ok, Es by done. split_and!; try done. by intros ? ?%elem_of_nil. }
  destruct (Hok tm) as (t & o & Ht & Ho & _); [by left|].
  simpl default. remember (S fuel) as f eqn:Ef. cbn [timer_check_loop]. rewrite bool_decide_eq_false_2 by done.
  do 2 erewrite bind_done by reflexivity. unfold get_timer. erewrite bind_done by (apply read_at_ok; exact Ht).
  destruct (Z.leb_spec (timeout_tick t) (ks_tick (masked s))) as [Hexp|Hexp].
  - unfold get_obj. erewrite bind_done by (apply read_at_ok; exact Ho).
    assert (exists s1 L1, when_ (negb (obj_flag o & SK_TIMER_FLAG_ACTIVE =? 0))
        (call (timeout_func t) (tparam t)) (masked s) = Done s1 tt /\
      I L1 s1 /\ Rep (ks_nodes s1) L1 /\ timers_on L1 [tm] /\ ks_daif s1 = 0xC0 /\
      (fires s tm = true -> Eff tm L1 s1))
      as (s1 & L1 & Hcall & HI1 & HR1 & Hon1 & Hd1 & HE1).
    { fold (active o). destruct (active o) eqn:Ha; simpl.
      - destruct (tc_call L (masked s) [tm] tm t o) as (s1 & L1 & ? & ? & ? & ? & _ & _ & _ & ? & ? & _);
          try done; [by left|]. exists s1, L1. by split_and!.
      - exists (masked s), L. split_and!; try done. unfold fires. by rewrite Ht, Ho, Ha. }
    kstep Hcall. pose proof (rep_is_list _ _ HR1 _ _ Hon1) as Hl. apply is_list_rotate in Hl. simpl in Hl.
    erewrite bind_done by (unfold node_next; rewrite (is_list_next _ _ _ Hl); reflexivity).
    erewrite bind_done by (unfold node_prev; rewrite (is_list_prev _ _ _ Hl); reflexivity).
    rewrite bool_decide_eq_true_2 by done.
    exists (upd_daif (fun _ => ks_daif s) s1), L1. rewrite enable_ok by done. split_and!; try done.
    all: assert (masked (upd_daif (fun _ => ks_daif s) s1) = s1) as -> by (destruct s1; simpl in *; by subst).
    all: try done. by intros ? ->%list_elem_of_singleton.
  - pose proof (rep_is_list _ _ HR _ _ Hon) as Hl. apply is_list_rotate in Hl. simpl in Hl.
    erewrite bind_done by (unfold node_next; simpl ks_nodes; rewrite (is_list_next _ _ _ Hl); reflexivity).
    subst f. cbn [timer_check_loop]. rewrite bool_decide_eq_true_2 by done.
    exists s, L. rewrite enable_ok, Es by done. split_and!; try done. intros ? ->%list_elem_of_singleton.
    change (ks_tick s < timeout_tick t) in Hexp. change (ks_timers s !! tm = Some t) in Ht. change (ks_objs s !! tm = Some o) in Ho.
    unfold fires. rewrite Ht, Ho, (proj2 (Z.leb_gt _ _) Hexp), andb_false_r. done.
Qed.

(** Whatever the number of timers, the check returns, keeps the invariant of
    the owner of the timeout functions and the list up to its order, and brings about
    the effect of every timer that was active and expired. *)
Lemma timer_check_total L s tms fuel :
  I L (masked s) -> Rep (ks_nodes s) L -> irq_wf s -> timers_on L tms ->
  (forall tm, tm ∈ tms -> timer_ok s tm) -> 0 <= ks_tick s ->
  ((length tms + 1) * (length tms + 1) < fuel)%nat ->
  exists s' L', sk_timer_check call fuel s = Done s' tt /\ ks_daif s' = ks_daif s /\
    I L' (masked s') /\ Rep (ks_nodes s') L' /\ (exists tms', timers_on L' tms' /\ tms' ≡ₚ tms) /\
    forall tm, tm ∈ tms -> fires s tm = true -> Eff tm L' (masked s').
Proof.
  intros HI HR Hirq Hon Hok Htick Hf. destruct (decide (2 <= length tms)%nat) as [H2|H2].
  - destruct (timer_check_spec L s tms fuel) as (s' & L' & tms' & H); try done; [lia|].
    exists s', L'. destruct H as (? & ? & ? & ? & ? & ? & _ & ?). split_and!; try done. by exists tms'.
  - destruct (timer_check_short L s tms fuel) as (s' & L' & H); try done; [lia|lia|].
    exists s', L'. destruct H as (? & ? & ? & ? & ? & ?). split_and!; try done. by exists tms.
Qed.

End check.

(** A list of a single timer.  Once it has expired and is active, its
    timeout function is called and the check then returns before it restarts
    the timer or clears its active flag: timer and flag are as before, so the
    timeout function runs again on every following tick, for a one-shot timer
    too. *)
Theorem sole_timer_fires_forever call I Eff `{!TimerClient call I Eff} L s tm t o fuel :
  I L (masked s) -> Rep (ks_nodes s) L -> irq_wf s -> timers_on L [tm] ->
  ks_timers s !! tm = Some t -> ks_objs s !! tm = Some o -> active o = true ->
  timeout_tick t <= ks_tick s -> (1 <= fuel)%nat ->
  exists s' L' s1, sk_timer_check call fuel s = Done s' tt /\
    call (timeout_func t) (tparam t) (masked s) = Done s1 tt /\
    s' = upd_daif (fun _ => ks_daif s) s1 /\
    ks_timers s' = ks_timers s /\ ks_objs s' = ks_objs s /\ ks_tick s' = ks_tick s /\
    Rep (ks_nodes s') L' /\ timers_on L' [tm].
Proof.
  intros HI HR Hirq Hon Ht Ho Ha Hexp Hfuel. destruct fuel as [|fuel]; [lia|].
  destruct (tc_call L (masked s) [tm] tm t o) as (s1 & L1 & Hcall & HI1 & HR1 & Hon1 & Etm & Eob & Etk & Eirq & _);
    try done; [by left|].
  exists (upd_daif (fun _ => ks_daif s) s1), L1, s1. split; [|done].
  unfold sk_timer_check. kstep (disable_ok s Hirq).
  unfold node_next at 1. erewrite bind_done by (simpl; rewrite (rep_next _ _ _ _ HR Hon); reflexivity).
  simpl default. cbn [timer_check_loop]. rewrite bool_decide_eq_false_2 by done.
  do 2 erewrite bind_done by reflexivity.
  unfold get_timer. erewrite bind_done by (apply read_at_ok; exact Ht).
  change (ks_tick (masked s)) with (ks_tick s). rewrite (proj2 (Z.leb_le _ _) Hexp).
  unfold get_obj. erewrite bind_done by (apply read_at_ok; exact Ho).
  fold (active o). rewrite Ha. simpl when_. kstep Hcall.
  pose proof (rep_is_list _ _ HR1 _ _ Hon1) as Hl. apply is_list_rotate in Hl. simpl in Hl.
  erewrite bind_done by (unfold node_next; rewrite (is_list_next _ _ _ Hl); reflexivity).
  erewrite bind_done by (unfold node_prev; rewrite (is_list_prev _ _ _ Hl); reflexivity).
  rewrite bool_decide_eq_true_2 by done. by apply enable_ok.
Qed.

(** [sk_timer_start] puts the timer at the front of the timer list, once,
    whether or not it was on it, with its expiry one period from now and its
    active flag set; the other timers keep their order. *)
Theorem timer_start_correct L s tms tm t o :
  Rep (ks_nodes s) L -> irq_wf s -> timers_on L tms -> timer_placed L tms tm ->
  ks_timers s !! tm = Some t -> ks_objs s !! tm = Some o ->
  exists s' L', sk_timer_start tm s = Done s' SK_EOK /\ Rep (ks_nodes s') L' /\
    timers_on L' (tm :: others tm tms) /\
    (timeout_tick <$> ks_timers s' !! tm) = Some (u32 (ks_tick s + tinit_tick t)) /\
    (active <$> ks_objs s' !! tm) = Some true /\ (periodic <$> ks_objs s' !! tm) = Some (periodic o) /\
    ks_daif s' = ks_daif s.
Proof.
  intros HR Hirq Hon Hpl Ht Ho.
  destruct (timer_start_spec L s tms tm t o) as (h & L' & Hrun & HR' & Hon' & _); try done.
  exists (started tm t o h s), L'. split_and!; try done; simpl; rewrite lookup_insert_eq; simpl.
  - done.
  - f_equal. rewrite active_bit. simpl obj_flag. by rewrite (lor_pow2_bit _ 0).
  - by rewrite periodic_raise.
Qed.

(** [sk_timer_stop] on an inactive timer returns [SK_ERROR] and changes
    nothing; on an active one it takes the timer off the list and clears the
    active flag, and the other timers keep their order. *)
Theorem timer_stop_correct L s tms tm o :
  Rep (ks_nodes s) L -> irq_wf s -> timers_on L tms -> timer_placed L tms tm ->
  ks_objs s !! tm = Some o ->
  (active o = false /\ sk_timer_stop tm s = Done s SK_ERROR) \/
  (active o = true /\ exists s' L', sk_timer_stop tm s = Done s' SK_EOK /\ Rep (ks_nodes s') L' /\
    timers_on L' (others tm tms) /\ L' !! NTimer tm = Some [] /\
    (active <$> ks_objs s' !! tm) = Some false /\ ks_timers s' = ks_timers s /\ ks_daif s' = ks_daif s).
Proof.
  intros HR Hirq Hon Hpl Ho. pose proof (timer_stop_spec L s tms tm o HR Hirq Hon Hpl Ho) as Hs.
  destruct (active o); [right|by left]. split; [done|].
  destruct Hs as (h & L' & Hrun & HR' & Hon' & Hd & _). exists (stopped tm o h s), L'.
  split_and!; try done. simpl. rewrite lookup_insert_eq. simpl. by rewrite active_clear.
Qed.

(** ** A concrete timer list *)

(** A timeout function that does nothing. *)
Definition nop_call (f p : Z) : M unit := mret tt.

#[global] Instance nop_client : TimerClient nop_call (fun _ _ => True) (fun _ _ _ => True).
Proof. split; [|done]. intros L s tms tm t o _ HR Hirq Hon _ _ _ _ _. by exists s, L. Qed.

Definition timer_lists : lists := <[NTimerList := [NTimer 1000; NTimer 2000]]> prio_lists.
Definition sole_lists : lists := <[NTimerList := [NTimer 1000]]> prio_lists.

(** Tick 50; timer 1000 is an active one-shot timer that expired at 40, timer
    2000 a periodic one that expires at 50. *)
Definition timer_state (L : lists) : kstate :=
  upd_tick (fun _ => 50)
   (upd_objs (fun _ => list_to_map [(1000, mk_object 7 1); (2000, mk_object 7 3)])
    (upd_timers (fun _ => list_to_map [(1000, mk_timer 0 0 10 40); (2000, mk_timer 0 0 10 50)])
     (upd_nodes (fun _ => heap_of L) kstate_zero))).

(** Five ticks before the tick wraps: the next expiries of two periodic timers of
    10 ticks are the small numbers 5, which count as expired at once.  The check
    restarts the two in turn and has not ended after 500 rounds. *)
Example wrapped_timers_spin :
  sk_timer_check nop_call 500
    (upd_tick (fun _ => 2 ^ 32 - 5)
     (upd_objs (fun _ => list_to_map [(1000, mk_object 7 3); (2000, mk_object 7 3)])
      (upd_timers (fun _ => list_to_map [(1000, mk_timer 0 0 10 (2 ^ 32 - 5)); (2000, mk_timer 0 0 10 (2 ^ 32 - 5))])
       (timer_state timer_lists)))) = Spin.
Proof. by vm_compute. Qed.

Lemma timer_state_rep : Rep (ks_nodes (timer_state timer_lists)) timer_lists.
Proof. apply rep_check_sound. by vm_compute. Qed.

Lemma sole_timer_fires_forever_witness :
  exists s' L' s1, sk_timer_check nop_call 3 (timer_state sole_lists) = Done s' tt /\
    nop_call 0 0 (masked (timer_state sole_lists)) = Done s1 tt /\
    s' = upd_daif (fun _ => 0) s1 /\
    ks_timers s' = ks_timers (timer_state sole_lists) /\
    ks_objs s' = ks_objs (timer_state sole_lists) /\ ks_tick s' = 50 /\
    Rep (ks_nodes s') L' /\ timers_on L' [1000].
Proof.
  apply (sole_timer_fires_forever nop_call (fun _ _ => True) (fun _ _ _ => True) sole_lists (timer_state sole_lists) 1000
    (mk_timer 0 0 10 40) (mk_object 7 1) 3); try done; [|by left|lia].
  apply rep_check_sound. by vm_compute.
Defined.

Lemma timer_start_correct_witness :
  exists s' L', sk_timer_start 2000 (timer_state timer_lists) = Done s' SK_EOK /\ Rep (ks_nodes s') L' /\
    timers_on L' [2000; 1000] /\
    (timeout_tick <$> ks_timers s' !! 2000) = Some (u32 (50 + 10)) /\
    (active <$> ks_objs s' !! 2000) = Some true /\ (periodic <$> ks_objs s' !! 2000) = Some true /\
    ks_daif s' = 0.
Proof.
  apply (timer_start_correct timer_lists (timer_state timer_lists) [1000; 2000] 2000
    (mk_timer 0 0 10 50) (mk_object 7 3));
    [apply timer_state_rep|by left|by vm_compute|left; set_solver|by vm_compute|by vm_compute].
Defined.

Lemma timer_stop_correct_witness :
  (active (mk_object 7 3) = false /\
    sk_timer_stop 2000 (timer_state timer_lists) = Done (timer_state timer_lists) SK_ERROR) \/
  (active (mk_object 7 3) = true /\ exists s' L',
    sk_timer_stop 2000 (timer_state timer_lists) = Done s' SK_EOK /\ Rep (ks_nodes s') L' /\
    timers_on L' [1000] /\ L' !! NTimer 2000 = Some [] /\
    (active <$> ks_objs s' !! 2000) = Some false /\
    ks_timers s' = ks_timers (timer_state timer_lists) /\ ks_daif s' = 0).
Proof.
  apply (timer_stop_correct timer_lists (timer_state timer_lists) [1000; 2000] 2000 (mk_object 7 3));
    [apply timer_state_rep|by left|by vm_compute|left; set_solver|by vm_compute].
Defined.
