(* ===== verification/Thread.v ===== *)
(** * Threads: [src/thread/thread.c]

    Creation, start, suspension, resumption, sleeping and exit of threads.
    Functions whose addresses the kernel stores ([sk_thread_timeout],
    [__thread_exit], [sk_idle_entry]) are represented by tokens; the timeout
    functions and clean-up functions of applications are the parameters [user]
    and [user_cleanup]. *)

From S2P Require Import Prelude BaseDef KList Slab Kernel Sched KObj Timer.

Local Open Scope c_scope.

(** Tokens for code addresses: only their inequality matters. *)
Definition FN_sk_thread_timeout : Z := 1.
Definition FN_thread_exit : Z := 2.
Definition FN_sk_idle_entry : Z := 3.

Definition INITIAL_SPSR_EL1 : Z := 0x04.
Definition SK_IDLE_THREAD_STACK_SIZE : Z := 128.
Definition SK_IDLE_THREAD_TICK : Z := 32.

(** ** The initial stack *)

(** A sequence of pushes of 64-bit words, each [( *--stk) = v]. *)
Fixpoint push_words (vs : list Z) (stk : Z) : M Z :=
  match vs with
  | [] => mret stk
  | v :: vs => write_word (stk - 8) v;; push_words vs (stk - 8)
  end.

(** The register frame in the order of the pushes: X1, X0, X3, X2, ..., X29,
    X28, XZR, the return address, SPSR and the exception return address. *)
Definition stack_frame (entry param exit : Z) : list Z :=
  [11; param; 33; 22; 55; 44; 77; 66; 99; 88; 11; 10; 13; 12; 15; 14; 17; 16; 19; 18;
   21; 20; 23; 22; 25; 24; 27; 26; 29; 28; 0; exit; INITIAL_SPSR_EL1; entry].

Definition __thread_stack_init (entry param stack_addr exit : Z) : M Z :=
  push_words (stack_frame entry param exit) stack_addr.

(** ** Operations *)

Definition sk_thread_timeout (param : Z) : M unit :=
  level ← hw_interrupt_disable;
  list_del (NTlist param);;
  sk_schedule_insert_thread param;;
  hw_interrupt_enable level;;
  sk_schedule.

(** The calls of [sk_timer_check]: [user] stands for the timeout functions of
    applications. *)
Definition timer_call (user : Z -> Z -> M unit) (f p : Z) : M unit :=
  if f =? FN_sk_thread_timeout then sk_thread_timeout p else user f p.

Definition __thread_exit (user_cleanup : Z -> Z -> M unit) : M unit :=
  thread ← sk_current_thread;
  level ← hw_interrupt_disable;
  t ← get_thread thread;
  when_ (negb (cleanup t =? SK_NULL)) (user_cleanup (cleanup t) thread);;
  sk_schedule_remove_thread thread;;
  upd_thread thread (set_stat SK_THREAD_CLOSE);;
  sk_timer_delete (thread_timer thread);;
  sk_schedule;;
  hw_interrupt_enable level.

(** The fields of the thread are assigned in the order of the source; the list
    node, the name, the stack and the timer are initialised in between. *)
Definition __thread_init (thread name entry_ param_ stack_start stack_size_ priority tick : Z)
  : M Z :=
  list_init (NTlist thread);;
  kmemcpy thread name SK_NAME_MAX;;
  sp_ ← __thread_stack_init entry_ param_ (stack_start + stack_size_ - 8) FN_thread_exit;
  upd_thread thread (fun t =>
    mk_thread (stat t) priority priority (u32 (Z.shiftl 1 priority)) sp_ entry_ param_
      stack_start stack_size_ tick tick (event_set t) (event_info t) (cleanup t) (user_data t));;
  sk_timer_init (thread_timer thread) thread FN_sk_thread_timeout thread 0 SK_TIMER_FLAG_ONE_SHOT;;
  upd_thread thread (fun t =>
    mk_thread SK_THREAD_INIT (current_pri t) (init_pri t) (number_mask t) (sp t) (entry t) (param t)
      (stack_addr t) (stack_size t) (init_tick t) (remain_tick t) (event_set t) (event_info t)
      SK_NULL 0);;
  sk_schedule_insert_thread thread;;
  mret SK_EOK.

Definition sk_thread_create (name entry_ param_ stack_size_ priority tick : Z) : M Z :=
  thread ← sk_object_alloc SK_OBJECT_THREAD name;
  if thread =? SK_NULL then mret SK_NULL
  else
    stack_start ← kmalloc stack_size_;
    if stack_start =? SK_NULL then
      sk_object_delete thread;;
      mret SK_NULL
    else
      __thread_init thread name entry_ param_ stack_start stack_size_ priority tick;;
      mret thread.

Definition sk_thead_suspend (thread : Z) : M Z :=
  t ← get_thread thread;
  if negb (stat t =? SK_THREAD_READY) && negb (stat t =? SK_THREAD_RUNNING) then mret SK_ERROR
  else
    level ← hw_interrupt_disable;
    t ← get_thread thread;
    cur ← sk_current_thread;
    if (stat t =? SK_THREAD_RUNNING) && (thread =? cur) then mret SK_ERROR
    else
      sk_schedule_remove_thread thread;;
      upd_thread thread (set_stat SK_THREAD_SUSPEND);;
      hw_interrupt_enable level;;
      mret SK_EOK.

Definition sk_thread_resume (thread : Z) : M Z :=
  t ← get_thread thread;
  if negb (stat t =? SK_THREAD_SUSPEND) then mret SK_ERROR
  else
    level ← hw_interrupt_disable;
    list_del (NTlist thread);;
    sk_schedule_insert_thread thread;;
    hw_interrupt_enable level;;
    mret SK_EOK.

Definition sk_thread_startup (thread : Z) : M Z :=
  upd_thread thread (set_stat SK_THREAD_SUSPEND);;
  cur ← sk_current_thread;
  when_ (negb (cur =? SK_NULL)) sk_schedule;;
  mret SK_EOK.

Definition sk_thread_suspend (thread : Z) : M Z :=
  t ← get_thread thread;
  let st := stat t & SK_THREAD_MASK in
  if negb (st =? SK_THREAD_READY) && negb (st =? SK_THREAD_RUNNING) then mret SK_ERROR
  else
    level ← hw_interrupt_disable;
    sk_schedule_remove_thread thread;;
    upd_thread thread (set_stat SK_THREAD_SUSPEND);;
    sk_timer_stop (thread_timer thread);;
    hw_interrupt_enable level;;
    mret SK_EOK.

Definition sk_thread_sleep (tick : Z) : M Z :=
  thread ← sk_current_thread;
  level ← hw_interrupt_disable;
  sk_thread_suspend thread;;
  sk_timer_control (thread_timer thread) SK_TIMER_CTRL_SET_TIME tick;;
  sk_timer_start (thread_timer thread);;
  hw_interrupt_enable level;;
  sk_schedule;;
  mret SK_EOK.

Definition sk_thread_delay (ms : Z) : M Z := sk_thread_sleep (sk_tick_from_ms ms).

(** [idle_thread_name] is the address of the name on the caller's stack. *)
Definition sk_thread_idle_init (idle_thread_name : Z) : M unit :=
  thread ← sk_thread_create idle_thread_name FN_sk_idle_entry SK_NULL SK_IDLE_THREAD_STACK_SIZE
    (SK_THREAD_PRIORITY_MAX - 1) SK_IDLE_THREAD_TICK;
  sk_thread_startup thread;;
  mret tt.

(** ** Suspension and resumption *)

Section threads.
Implicit Types (L : lists) (s : kstate).

(** Node lists other than the timer list and the node of the timer. *)
Lemma timer_frame_queue tm L L' i : timer_frame tm L L' -> L' !! NPrio i = L !! NPrio i.
Proof. intros Hf. by apply Hf. Qed.

(** A thread taken off a list that is no ready queue, or off none. *)
Definition unlinked (hd : node) (us vs : list node) (t : Z) L : lists :=
  <[NTlist t := []]> (<[hd := us ++ vs]> L).

Lemma resume_run L L1 s t th h1 ts :
  sched_inv L s -> sk_list_del (NTlist t) (ks_nodes s) = Some h1 -> Rep h1 L1 ->
  detached L1 t -> (forall i, L1 !! NPrio i = L !! NPrio i) ->
  ks_threads s !! t = Some th -> stat th = SK_THREAD_SUSPEND -> t <> ks_current s ->
  queue L (current_pri th) ts ->
  exists h, sk_thread_resume t s = Done (inserted t th h s) SK_EOK /\
    sched_inv (enqueue L1 t (current_pri th) ts) (inserted t th h s).
Proof.
  intros HI Hdel HR1 Hd Hq1 Ht Hst Hc Hq.
  assert (sched_inv L1 (upd_nodes (fun _ => h1) (masked s))) as HI1.
  { eapply sched_inv_ext; [exact HI|done|by right|done|done|]. intros; apply Hq1. }
  destruct (insert_thread_spec L1 _ t th ts HI1 Ht Hc Hd) as (h & Hins & HI2).
  { unfold queue. by rewrite Hq1. }
  exists h. split.
  - unfold sk_thread_resume, get_thread. erewrite bind_done by (apply read_at_ok; exact Ht).
    rewrite Hst, Z.eqb_refl. kif. kstep (disable_ok s (si_irq _ _ HI)).
    unfold list_del. erewrite bind_done by (apply on_nodes_ok; exact Hdel). kstep Hins.
    erewrite bind_done by (apply enable_ok; [apply HI|done]). unfold mret, M_ret. by destruct s.
  - eapply sched_inv_ext; [exact HI2|apply HI2|apply HI|done..].
Qed.

(** A suspended thread at any place of a waiting list. *)
Lemma resume_waiting_spec L s hd us vs t th ts :
  sched_inv L s -> L !! hd = Some (us ++ NTlist t :: vs) -> (forall i, hd <> NPrio i) ->
  ks_threads s !! t = Some th -> stat th = SK_THREAD_SUSPEND -> t <> ks_current s ->
  queue L (current_pri th) ts ->
  exists h, sk_thread_resume t s = Done (inserted t th h s) SK_EOK /\
    sched_inv (enqueue (unlinked hd us vs t L) t (current_pri th) ts) (inserted t th h s).
Proof.
  intros HI Hw Hhd Ht Hst Hc Hq.
  destruct (rep_del _ _ _ _ _ _ (si_rep _ _ HI) Hw) as (h1 & Hdel & HR1 & _).
  apply (resume_run L _ s t th h1 ts); try done.
  - unfold detached, unlinked. by rewrite lookup_insert_eq.
  - intros i. unfold unlinked. by rewrite !lookup_insert_ne.
Qed.

(** A suspended thread that is on no list (a sleeping one). *)
Lemma resume_detached_spec L s t th ts :
  sched_inv L s -> detached L t -> ks_threads s !! t = Some th -> stat th = SK_THREAD_SUSPEND ->
  t <> ks_current s -> queue L (current_pri th) ts ->
  exists h, sk_thread_resume t s = Done (inserted t th h s) SK_EOK /\
    sched_inv (enqueue L t (current_pri th) ts) (inserted t th h s).
Proof.
  intros HI Hd Ht Hst Hc Hq. apply (resume_run L L s t th (ks_nodes s) ts); try done; [|apply HI].
  eapply rep_del_self; [apply HI|done].
Qed.

(** What suspending the thread [t] and stopping its timer does to the state. *)
Definition suspended (t : Z) (th : sk_thread) h ob s : kstate :=
  upd_nodes (fun _ => h) (upd_objs (fun _ => ob)
    (upd_threads (<[t := set_stat SK_THREAD_SUSPEND th]>) s)).

(** The timer of the thread and its object header. *)
Record timer_of L s (tms : list Z) (t : Z) (tmr : sk_sys_timer) (o : sk_object) : Prop := {
  to_timer : ks_timers s !! thread_timer t = Some tmr;
  to_obj : ks_objs s !! thread_timer t = Some o;
  to_list : timers_on L tms;
  to_placed : timer_placed L tms (thread_timer t)
}.

(** The timer after [sk_timer_stop]: off the list if it was active. *)
Definition stopped_obj (o : sk_object) : sk_object :=
  if active o then clear_flag SK_TIMER_FLAG_ACTIVE o else o.
Definition stopped_list (o : sk_object) (tm : Z) (tms : list Z) : list Z :=
  if active o then others tm tms else tms.

Lemma timer_of_placed_stopped L s tms t tmr o :
  timer_of L s tms t tmr o -> active o = true ->
  forall L', L' !! NTimer (thread_timer t) = Some [] ->
  timer_placed L' (stopped_list o (thread_timer t) tms) (thread_timer t).
Proof. intros _ Ha L' HL. by right. Qed.

(** Suspending a running thread that is on no list. *)
Lemma suspend_current_spec L s t th tms tmr o :
  sched_inv L s -> ks_threads s !! t = Some th -> stat th & SK_THREAD_MASK = SK_THREAD_RUNNING ->
  detached L t -> timer_of L s tms t tmr o ->
  exists h L', let s' := suspended t th h (<[thread_timer t := stopped_obj o]> (ks_objs s)) s in
    sk_thread_suspend t s = Done s' SK_EOK /\ sched_inv L' s' /\ detached L' t /\
    timer_of L' s' (stopped_list o (thread_timer t) tms) t tmr (stopped_obj o) /\
    timer_frame (thread_timer t) L L'.
Proof.
  intros HI Ht Hst Hd HT. pose proof (si_irq _ _ HI) as Hirq.
  pose proof (sched_inv_masked _ _ HI) as HIm.
  set (s1 := upd_threads (<[t := set_stat SK_THREAD_SUSPEND th]>) (masked s)).
  assert (sched_inv L s1) as HI1 by (by apply sched_inv_stat).
  assert (exists h L' r, sk_timer_stop (thread_timer t) s1 =
      Done (upd_nodes (fun _ => h) (upd_objs (<[thread_timer t := stopped_obj o]>) s1)) r /\ Rep h L' /\
      timers_on L' (stopped_list o (thread_timer t) tms) /\
      timer_placed L' (stopped_list o (thread_timer t) tms) (thread_timer t) /\
      timer_frame (thread_timer t) L L') as (h & L' & r & Hstop & HR & Hon & Hpl & Hfr).
  { pose proof (timer_stop_spec L s1 tms (thread_timer t) o (si_rep _ _ HI1) (si_irq _ _ HI1)
      (to_list _ _ _ _ _ _ HT) (to_placed _ _ _ _ _ _ HT) (to_obj _ _ _ _ _ _ HT)) as Hs.
    unfold stopped_obj, stopped_list. destruct (active o).
    - destruct Hs as (h & L' & Hrun & HR & Hon & Hnd & Hfr). exists h, L', SK_EOK.
      split_and!; try done. by right.
    - exists (ks_nodes s1), L, SK_ERROR. rewrite Hs. split_and!; try apply HT; [|apply HI1|done].
      f_equal. unfold s1. destruct s as [ns ob]. unfold upd_nodes, upd_objs; simpl in *.
      pose proof (to_obj _ _ _ _ _ _ HT) as Ho. simpl in Ho. by rewrite insert_id. }
  exists h, L'. cbv zeta. split; [|split; [|split; [|split; [split|done]]]].
  - unfold sk_thread_suspend, get_thread. erewrite bind_done by (apply read_at_ok; exact Ht).
    cbv zeta. rewrite Hst, Z.eqb_refl, andb_false_r.
    kstep (disable_ok s Hirq). kstep (remove_detached_spec L (masked s) t th HIm Ht Hd).
    unfold upd_thread. erewrite bind_done by (apply update_at_ok; exact Ht). fold s1. kstep Hstop.
    erewrite bind_done by (apply enable_ok; [apply HI|done]). done.
  - eapply sched_inv_ext; [exact HI1|exact HR|apply HI|done|done|].
    intros i _. by eapply timer_frame_queue.
  - unfold detached. rewrite Hfr; done.
  - apply HT.
  - simpl. by rewrite lookup_insert_eq.
  - done.
  - done.
Qed.


(** *** Arming the timer of a thread *)

Definition armed (tm : Z) (tmr : sk_sys_timer) (o : sk_object) (v : Z) h s : kstate :=
  started tm (set_init_tick (u32 v) tmr) o h (upd_timers (<[tm := set_init_tick (u32 v) tmr]>) s).

Lemma arm_timer_spec L s t tms tmr o v :
  sched_inv L s -> timer_of L s tms t tmr o ->
  exists h L' s1, sk_timer_control (thread_timer t) SK_TIMER_CTRL_SET_TIME v s = Done s1 (SK_EOK, v) /\
    sk_timer_start (thread_timer t) s1 = Done (armed (thread_timer t) tmr o v h s) SK_EOK /\
    sched_inv L' (armed (thread_timer t) tmr o v h s) /\
    timers_on L' (thread_timer t :: others (thread_timer t) tms) /\
    timer_frame (thread_timer t) L L'.
Proof.
  intros HI HT. pose proof (si_irq _ _ HI) as Hirq.
  pose proof (timer_set_time_spec s _ _ v Hirq (to_timer _ _ _ _ _ _ HT)) as Hset.
  set (s1 := upd_timers (<[thread_timer t := set_init_tick (u32 v) tmr]>) s) in *.
  assert (ks_timers s1 !! thread_timer t = Some (set_init_tick (u32 v) tmr)) as Ht1
    by (simpl; by rewrite lookup_insert_eq).
  destruct (timer_start_spec L s1 tms (thread_timer t) _ o (si_rep _ _ HI) Hirq (to_list _ _ _ _ _ _ HT)
    (to_placed _ _ _ _ _ _ HT) Ht1 (to_obj _ _ _ _ _ _ HT)) as (h & L' & Hst & HR & Hon & Hfr).
  exists h, L', s1. split_and!; try done.
  eapply sched_inv_ext; [exact HI|exact HR|apply HI|done|done|].
  intros i _. by eapply timer_frame_queue.
Qed.

End threads.

(** ** The thread timer *)

Section timeout.
Implicit Types (L : lists) (s : kstate).

(** Where the list node of a thread can be: nowhere, in the ready queue of its
    priority, or on a list that is no ready queue. *)
Definition thread_placed L (t : Z) (th : sk_thread) : Prop :=
  detached L t \/
  (exists us, queue L (current_pri th) us /\ t ∈ us) \/
  (exists hd xs, L !! hd = Some xs /\ NTlist t ∈ xs /\
     (forall i, hd <> NPrio i) /\ hd <> NTimerList /\ forall tm, hd <> NTimer tm).

Lemma detached_list L hd xs u :
  detached L u -> L !! hd = Some xs -> xs <> [] -> hd <> NTlist u.
Proof. intros Hd Hl Hx ->. unfold detached in Hd. congruence. Qed.

(** What [sk_list_del] on the node of a thread leaves: the node [h] of the heap
    and the group [g], which is right but for the bit of the thread's priority,
    and which the insertion completes. *)
Record unlinks L s (t : Z) (th : sk_thread) h L' (g : Z) : Prop := {
  ul_del : sk_list_del (NTlist t) (ks_nodes s) = Some h;
  ul_detached : detached L' t;
  ul_inv : sched_inv L' (upd_group (fun _ => g) (upd_nodes (fun _ => h) s));
  ul_group : Z.lor g (number_mask th) = Z.lor (ks_group s) (number_mask th);
  ul_same : (forall us, queue L (current_pri th) us -> t ∉ us) -> g = ks_group s;
  ul_timers : L' !! NTimerList = L !! NTimerList;
  ul_others : forall x, x <> t -> detached L x -> detached L' x;
  ul_placed : forall u uh, u <> t -> thread_placed L u uh -> thread_placed L' u uh;
  ul_queues : forall i us x, queue L' i us -> x ∈ us -> exists us', queue L i us' /\ x ∈ us';
  ul_lists : forall hd, (forall i, hd <> NPrio i) -> hd <> NTlist t ->
    L' !! hd = filter (fun n => n <> NTlist t) <$> L !! hd;
  ul_stays : forall i us x, queue L i us -> x ∈ us -> x <> t -> exists us', queue L' i us' /\ x ∈ us'
}.

Lemma filter_absent (n : node) (xs : list node) : n ∉ xs -> filter (fun m => m <> n) xs = xs.
Proof.
  induction xs as [|x xs IH]; [done|]. intros Hn. rewrite filter_cons_True by set_solver.
  f_equal. apply IH. set_solver.
Qed.

(** A ready thread. *)
Lemma unlink_ready L s t th us' :
  sched_inv L s -> ks_threads s !! t = Some th -> queue L (current_pri th) us' -> t ∈ us' ->
  exists h L' g, unlinks L s t th h L' g.
Proof.
  intros HI Ht Hq Hin. destruct (si_thread _ _ HI t th Ht) as [Hp Hm].
  apply list_elem_of_split in Hin as (us & vs & ->).
  pose proof Hq as Hq'. unfold queue in Hq'. rewrite fmap_app, fmap_cons in Hq'.
  destruct (rep_del _ _ _ _ _ _ (si_rep _ _ HI) Hq') as (h & Hdel & HR & _). rewrite <- fmap_app in HR.
  pose proof (dequeue_inv L s t th us vs h HI Ht Hq HR) as HI'.
  assert (queue (dequeue L t (current_pri th) (us ++ vs)) (current_pri th) (us ++ vs)) as Hq2
    by (unfold queue, dequeue; by rewrite lookup_insert_ne, lookup_insert_eq).
  exists h, (dequeue L t (current_pri th) (us ++ vs)),
    (ks_group (removed th (bool_decide (us ++ vs = [])) h s)).
  split; try done.
  + unfold detached, dequeue. by rewrite lookup_insert_eq.
  + apply Z.bits_inj'. intros i Hi. rewrite !Z.lor_spec. rewrite removed_bit by (done || apply HI).
    case_decide as E; [|done]. destruct E as [-> _]. rewrite Hm, Z.pow2_bits_true by lia.
    by rewrite !orb_true_r.
  + intros Hn. exfalso. apply (Hn _ Hq). set_solver.
  + unfold dequeue. by rewrite !lookup_insert_ne.
  + intros x Hx Hdx. unfold detached, dequeue. by rewrite !lookup_insert_ne by congruence.
  + intros u uh Hu [Hdu|[(ws & Hws & Huin)|(hd & zs & Hl & Huin & Hne & Hnt)]].
    * left. unfold detached, dequeue. by rewrite !lookup_insert_ne by congruence.
    * right; left. destruct (decide (current_pri uh = current_pri th)) as [E|E].
      -- exists (us ++ vs). rewrite E in *. split; [done|]. rewrite (queue_inj _ _ _ _ Hws Hq) in Huin. set_solver.
      -- exists ws. split; [by apply queue_dequeue_other|done].
    * right; right. exists hd, zs. unfold dequeue. split; [|done].
      rewrite !lookup_insert_ne; [done|congruence|]. intros <-.
      by rewrite (rep_head_alone _ _ _ _ (NTlist t) (si_rep _ _ HI) Hq) in Hl
        by (apply list_elem_of_fmap_2; set_solver).
  + intros i ws x Hws Hx. destruct (decide (i = current_pri th)) as [->|Hi].
    * exists (us ++ t :: vs). split; [done|]. rewrite (queue_inj _ _ _ _ Hws Hq2) in Hx. set_solver.
    * apply queue_dequeue_other in Hws; [|done]. eauto.
  + intros hd Hhd Hn. unfold dequeue. rewrite lookup_insert_ne, lookup_insert_ne by congruence.
    destruct (L !! hd) as [xs|] eqn:Hl; [|done]. simpl. rewrite filter_absent; [done|]. intros Hin. apply (Hhd (current_pri th)).
    eapply (rep_disjoint _ _ (si_rep _ _ HI) hd _ (NPrio (current_pri th)) _ (NTlist t)); [exact Hl|exact Hq|..];
      right; [done|apply list_elem_of_fmap_2; set_solver].
  + intros i ws x Hws Hx Hxt. destruct (decide (i = current_pri th)) as [->|Hi].
    * exists (us ++ vs). split; [done|]. rewrite (queue_inj _ _ _ _ Hws Hq) in Hx. set_solver.
    * exists ws. split; [by apply queue_dequeue_other|done].
Qed.

(** A thread on a list that is no ready queue. *)
Lemma unlink_waiting L s t th hd zs :
  sched_inv L s -> ks_threads s !! t = Some th -> L !! hd = Some zs -> NTlist t ∈ zs ->
  (forall i, hd <> NPrio i) -> hd <> NTimerList -> (forall tm, hd <> NTimer tm) ->
  exists h L' g, unlinks L s t th h L' g.
Proof.
  intros HI Ht Hl Hin Hne Hnt Hntm. destruct (si_thread _ _ HI t th Ht) as [Hp Hm].
  apply list_elem_of_split in Hin as (xs & ys & ->).
  destruct (rep_del _ _ _ _ _ _ (si_rep _ _ HI) Hl) as (h & Hdel & HR & _).
  assert (forall i, (<[NTlist t := []]> (<[hd := xs ++ ys]> L)) !! NPrio i = L !! NPrio i) as Hi
    by (intros i; by rewrite !lookup_insert_ne).
  exists h, (<[NTlist t := []]> (<[hd := xs ++ ys]> L)), (ks_group s). split; try done.
  + unfold detached. by rewrite lookup_insert_eq.
  + eapply sched_inv_ext; [exact HI|done|apply HI|done|done|]. intros i _. apply Hi.
  + by rewrite !lookup_insert_ne.
  + intros x Hx Hdx. unfold detached. rewrite !lookup_insert_ne; [done| |congruence].
    eapply detached_list; [done..|by destruct xs].
  + intros u uh Hu [Hdu|[(ws & Hws & Huin)|(hd' & zs & Hl' & Huin & Hne' & Hnt')]].
    * left. unfold detached. rewrite !lookup_insert_ne; [done| |congruence].
      eapply detached_list; [done..|by destruct xs].
    * right; left. exists ws. unfold queue. by rewrite Hi.
    * right; right. destruct (decide (hd' = hd)) as [->|Hhd].
      -- exists hd, (xs ++ ys). rewrite Hl in Hl'. simplify_eq. split_and!; try done.
         ++ rewrite lookup_insert_ne, lookup_insert_eq; [done|]. intros <-.
            by rewrite (rep_head_alone _ _ _ _ (NTlist t) (si_rep _ _ HI) Hl) in Hl by set_solver.
         ++ assert (NTlist u <> NTlist t) by congruence. set_solver.
      -- exists hd', zs. split; [|done]. rewrite !lookup_insert_ne; [done|congruence|]. intros <-.
         by rewrite (rep_head_alone _ _ _ _ (NTlist t) (si_rep _ _ HI) Hl) in Hl' by set_solver.
  + intros i ws x Hws Hx. exists ws. unfold queue in *. by rewrite Hi in Hws.
  + intros hd' Hhd' Hn. rewrite lookup_insert_ne by congruence. destruct (decide (hd' = hd)) as [->|Hne'].
    * rewrite lookup_insert_eq, Hl. simpl.
      pose proof (proj1 (rep_is_list _ _ (si_rep _ _ HI) _ _ Hl)) as [_ Hnd]%NoDup_cons.
      apply NoDup_app in Hnd as (_ & Hd & [Hy _]%NoDup_cons).
      rewrite filter_app, filter_cons_False by tauto. rewrite !filter_absent; [done|done|].
      intros Hx. apply (Hd _ Hx). by left.
    * rewrite lookup_insert_ne by congruence. destruct (L !! hd') as [zs|] eqn:Hl'; [|done]. simpl.
      rewrite filter_absent; [done|]. intros Hin. apply Hne'.
      eapply (rep_disjoint _ _ (si_rep _ _ HI) hd' _ hd _ (NTlist t)); [exact Hl'|exact Hl|..];
        right; [done|set_solver].
  + intros i ws x Hws Hx _. exists ws. unfold queue. by rewrite Hi.
Qed.

Lemma unlink_spec L s t th :
  sched_inv L s -> ks_threads s !! t = Some th -> thread_placed L t th ->
  exists h L' g, unlinks L s t th h L' g.
Proof.
  intros HI Ht [Hd|[(us' & Hq & Hin)|(hd & zs & Hl & Hin & Hne & Hnt & Hntm)]].
  - exists (ks_nodes s), L, (ks_group s).
    split; try done; [by apply (rep_del_self _ L); [apply HI|]|by destruct s|by eauto| |by eauto].
    intros hd _ _. destruct (L !! hd) as [xs|] eqn:Hl; [|done]. simpl. rewrite filter_absent; [done|]. intros Hin. unfold detached in Hd.
    by rewrite (rep_head_alone _ _ _ _ (NTlist t) (si_rep _ _ HI) Hl) in Hd.
  - by eapply unlink_ready.
  - by eapply unlink_waiting.
Qed.

Lemma enqueue_placed L t p ts u uh :
  queue L p ts -> detached L t -> u <> t -> thread_placed L u uh -> thread_placed (enqueue L t p ts) u uh.
Proof.
  intros Hq Hd Hu [Hdu|[(ws & Hws & Huin)|(hd & zs & Hl & Huin & Hne & Hnt)]].
  - left. unfold detached, enqueue. by rewrite lookup_insert_ne, lookup_delete_ne by congruence.
  - right; left. destruct (decide (current_pri uh = p)) as [E|E].
    + exists (ts ++ [t]). rewrite E in *. unfold queue, enqueue. rewrite lookup_insert_eq. split; [done|].
      rewrite (queue_inj _ _ _ _ Hws Hq) in Huin. set_solver.
    + exists ws. split; [by apply queue_insert_other|done].
  - right; right. exists hd, zs. unfold enqueue. split; [|done].
    rewrite lookup_insert_ne, lookup_delete_ne; [done| |congruence].
    intros <-. unfold detached in Hd. rewrite Hd in Hl. set_solver.
Qed.

Lemma dispatch_placed L L' s p t ts cur cth u uh :
  sched_inv L s -> highest L p t ts -> queues_after L L' p t cur cth -> detached L' t ->
  ks_threads s !! cur = Some cth -> (requeues cth = true -> detached L cur) ->
  (u = cur -> current_pri uh = current_pri cth) -> 0 <= current_pri uh < 32 ->
  thread_placed L u uh -> thread_placed L' u uh.
Proof.
  intros HI (Hp & Hq & _) HQ Hd Hc Hdc Hcu Hup Hpl.
  destruct (decide (u = t)) as [->|Hut]; [by left|].
  destruct (decide (u = cur /\ requeues cth = true)) as [[-> Hr]|Hnc].
  { right; left. destruct (si_queue _ _ HI _ Hup) as (us & Hus & _).
    eexists. split; [by apply (qa_queue _ _ _ _ _ _ HQ)|]. rewrite Hr, Hcu, Z.eqb_refl by done. simpl. set_solver. }
  destruct Hpl as [Hdu|[(ws & Hws & Huin)|(hd & zs & Hl & Huin & Hne & Hnt)]].
  - left. unfold detached. rewrite (qa_frame _ _ _ _ _ _ HQ); [done|done| |congruence].
    intros Hr [= <-]. by apply Hnc.
  - right; left. eexists. split; [by apply (qa_queue _ _ _ _ _ _ HQ)|].
    apply elem_of_app. left. destruct (Z.eqb_spec (current_pri uh) p) as [E|]; [|done].
    rewrite E in Hws. rewrite (queue_inj _ _ _ _ Hws Hq) in *. set_solver.
  - right; right. exists hd, zs. split; [|done]. rewrite (qa_frame _ _ _ _ _ _ HQ); [done|done| |].
    + intros Hr ->. specialize (Hdc Hr). unfold detached in Hdc. rewrite Hdc in Hl. set_solver.
    + intros ->. by rewrite (rep_head_alone _ _ _ _ (NTlist t) (si_rep _ _ HI) Hq) in Hl
        by (apply list_elem_of_fmap_2; by left).
Qed.

(** The invariant of the kernel while an interrupt is served. *)
Record irq_inv L s : Prop := {
  ii_sched : sched_inv L s;
  ii_cur : exists cth, cur_ok L s cth;
  ii_nest : ks_nest s <> 0;
  ii_placed : forall t th, ks_threads s !! t = Some th -> thread_placed L t th
}.

(** What a step in interrupt context leaves alone. *)
Record irq_step L L' s s' : Prop := {
  is_timers : ks_timers s' = ks_timers s;
  is_objs : ks_objs s' = ks_objs s;
  is_tick : ks_tick s' = ks_tick s;
  is_daif : ks_daif s' = ks_daif s;
  is_list : L' !! NTimerList = L !! NTimerList;
  is_threads : forall t, is_Some (ks_threads s !! t) -> is_Some (ks_threads s' !! t)
}.

Lemma irq_step_trans L1 L2 L3 s1 s2 s3 :
  irq_step L1 L2 s1 s2 -> irq_step L2 L3 s2 s3 -> irq_step L1 L3 s1 s3.
Proof. intros [] []. split; try congruence. auto. Qed.

Lemma is_Some_insert (t u : Z) (a : sk_thread) (m : gmap Z sk_thread) :
  is_Some (m !! u) -> is_Some (<[t := a]> m !! u).
Proof. intros Hu. rewrite lookup_insert. case_decide; eauto. Qed.

(** The scheduler in interrupt context returns and keeps the invariant. *)
Lemma schedule_in_interrupt L s :
  irq_inv L s -> exists s' L', sk_schedule s = Done s' tt /\ irq_inv L' s' /\ irq_step L L' s s' /\
    (forall i us u, 0 <= i < 32 -> queue L i us -> u ∈ us ->
       ks_current s' = u \/ exists us', queue L' i us' /\ u ∈ us').
Proof.
  intros HI. destruct (ii_cur _ _ HI) as [cth HC]. pose proof (ii_sched _ _ HI) as HS.
  destruct (schedule_spec L s cth HS HC) as [[Hrun _]|(p & t & ts & th & h & g & L' & H)].
  { exists s, L. split_and!; try done. eauto. }
  destruct H as (Hh & Ht & Hne & _ & HI' & Hd & Haft & Hrun).
  rewrite (proj2 (Z.eqb_neq _ _) (ii_nest _ _ HI)) in Hrun.
  eexists _, L'. split; [exact Hrun|].
  assert (sched_inv L' (upd_daif (fun _ => ks_daif s) (upd_switch (fun w =>
           if sw_flag w =? 1 then mk_switch (sw_flag w) (sw_from w) (thread_sp t)
           else mk_switch 1 (thread_sp (ks_current s)) (thread_sp t))
           (dispatched (masked s) (ks_current s) cth t th h g)))) as HI2.
  { eapply sched_inv_ext; [exact HI'|apply HI'|apply HS|done..]. }
  split; [|split].
  - split; [exact HI2| |apply HI|].
    + exists (set_stat SK_THREAD_RUNNING th). split; [simpl; by rewrite lookup_insert_eq|done|].
      intros i us Hq. by eapply (detached_not_ready L' _ t i us HI2).
    + intros u uh Hu. pose proof (co_thread _ _ _ HC) as Hc.
      assert (exists uh', ks_threads s !! u = Some uh' /\ current_pri uh = current_pri uh') as (uh' & Hu' & Hpri).
      { revert Hu. simpl. destruct (requeues cth); simpl; rewrite ?lookup_insert_Some; naive_solver. }
      assert (thread_placed L u uh) as Hpl.
      { pose proof (ii_placed _ _ HI u uh' Hu') as Hpl. unfold thread_placed in *. by rewrite Hpri. }
      eapply (dispatch_placed L L' s p t ts (ks_current s) cth); try done; [apply HC| |].
      * intros ->. congruence.
      * rewrite Hpri. by apply (si_thread _ _ HS u).
  - split; try done; [by apply Haft|]. intros u Hu. simpl.
    apply is_Some_insert. destruct (requeues cth); [by apply is_Some_insert|done].
  - exact (queues_after_keep L L' p t ts (ks_current s) cth Hh Haft).
Qed.

(** The part of [sk_thread_timeout] before the scheduler: the thread is ready,
    or, if it is the current one, running. *)
Definition timeout_woken L s (t : Z) (th : sk_thread) : Prop :=
  exists s' L', (forall k : M unit, (level ← hw_interrupt_disable; list_del (NTlist t);;
      sk_schedule_insert_thread t;; hw_interrupt_enable level;; k) s = k s') /\
    irq_inv L' s' /\ irq_step L L' s s' /\
    (t <> ks_current s -> ks_threads s' !! t = Some (set_stat SK_THREAD_READY th) /\
       exists us, queue L' (current_pri th) (us ++ [t])).

Lemma timeout_wake_current L s t th :
  irq_inv L s -> ks_daif s = 0xC0 -> ks_threads s !! t = Some th -> t = ks_current s ->
  timeout_woken L s t th.
Proof.
  intros HI Hirq Ht Ec. unfold timeout_woken. pose proof (ii_sched _ _ HI) as HS.
  assert (masked s = s) as Hm by (destruct s; simpl in *; by subst).
  destruct (unlink_spec L s t th HS Ht (ii_placed _ _ HI t th Ht))
    as (h1 & L1 & g & [Hdel Hd1 HS1 Hg Hgs Hl1 Hdet1 Hpl1 Hq1 _ _]).
  assert (irq_wf s) as Hwf by (by right). destruct (ii_cur _ _ HI) as [cth HC].
  rewrite Hgs in HS1 by (subst t; apply HC). clear Hg Hgs.
  set (s1 := upd_nodes (fun _ => h1) s).
  assert (upd_group (fun _ => ks_group s) s1 = s1) as Es by (by destruct s). fold s1 in HS1. rewrite Es in HS1.
  exists (upd_threads (<[t := set_stat SK_THREAD_RUNNING th]>) s1), L1.
  assert (sched_inv L1 (upd_threads (<[t := set_stat SK_THREAD_RUNNING th]>) s1)) as HS2
    by (by apply sched_inv_stat).
  split; [|split; [split|split]]; try done.
  + intros k. kstep (disable_ok s Hwf). rewrite Hm. unfold list_del.
    erewrite bind_done by (apply on_nodes_ok; exact Hdel). fold s1.
    assert (sk_schedule_insert_thread t s1 = Done (upd_threads (<[t := set_stat SK_THREAD_RUNNING th]>) s1) tt) as Hi.
    { unfold sk_schedule_insert_thread. erewrite bind_done by (apply disable_ok; by right).
      erewrite bind_done by reflexivity. change (ks_current (masked s1)) with (ks_current s).
      rewrite <- Ec, Z.eqb_refl. unfold upd_thread. erewrite update_at_ok by exact Ht.
      unfold s1. destruct s; simpl in *; by subst. }
    kstep Hi. rewrite Hirq. erewrite bind_done by (apply enable_ok; [by right|done]).
    unfold s1. destruct s; simpl in *; by subst.
  + exists (set_stat SK_THREAD_RUNNING th). split; [simpl; by rewrite <- Ec, lookup_insert_eq|by simpl; rewrite <- Ec|].
    intros i us Hq. simpl. rewrite <- Ec. by eapply (detached_not_ready L1 _ t i us HS2).
  + apply HI.
  + intros u uh Hu. simpl in Hu. apply lookup_insert_Some in Hu as [[<- <-]|[Hne Hu]]; [by left|]. apply Hpl1; [done|]. by apply HI.
  + split; try done. intros u Hu. by apply is_Some_insert.
Qed.

Lemma timeout_wake_other L s t th :
  irq_inv L s -> ks_daif s = 0xC0 -> ks_threads s !! t = Some th -> t <> ks_current s ->
  timeout_woken L s t th.
Proof.
  intros HI Hirq Ht Ec. unfold timeout_woken. pose proof (ii_sched _ _ HI) as HS.
  assert (masked s = s) as Hm by (destruct s; simpl in *; by subst).
  destruct (unlink_spec L s t th HS Ht (ii_placed _ _ HI t th Ht))
    as (h1 & L1 & g & [Hdel Hd1 HS1 Hg Hgs Hl1 Hdet1 Hpl1 Hq1 _ _]).
  assert (irq_wf s) as Hwf by (by right). destruct (ii_cur _ _ HI) as [cth HC].
  destruct (si_thread _ _ HS t th Ht) as [Hp _]. destruct (si_queue _ _ HS1 _ Hp) as (ts & Hts & _).
  destruct (insert_link_spec L1 _ t th ts HS1 Ht Hd1 Hts) as (h & Hadd & HS2).
  set (s1 := upd_nodes (fun _ => h1) s) in *.
  assert (inserted t th h (upd_group (fun _ => g) s1) = inserted t th h s1) as Es.
  { clear -Hg. unfold inserted, upd_group. cbn [ks_group upd_nodes upd_threads s1]. by rewrite Hg. }
  rewrite Es in HS2. exists (inserted t th h s1), (enqueue L1 t (current_pri th) ts).
  split; [|split; [split|split]]; try done.
  + intros k. kstep (disable_ok s Hwf). rewrite Hm. unfold list_del.
    erewrite bind_done by (apply on_nodes_ok; exact Hdel). fold s1.
    erewrite bind_done by (apply insert_thread_run; [by right|exact Ht|exact Ec|exact Hadd]).
    rewrite Hirq. erewrite bind_done by (apply enable_ok; [by right|done]).
    unfold s1. destruct s; simpl in *; by subst.
  + exists cth. split.
    * simpl. rewrite lookup_insert_ne by done. apply HC.
    * intros Hr. unfold detached, enqueue. rewrite lookup_insert_ne, lookup_delete_ne by (simpl; congruence).
      apply Hdet1; [done|]. by apply HC.
    * intros i us Hq Hin. simpl in Hin. destruct (decide (i = current_pri th)) as [->|Hi].
      -- unfold queue, enqueue in Hq. rewrite lookup_insert_eq in Hq. injection Hq as Hq.
         apply list_fmap_eq_inj in Hq as <-; [|apply _].
         apply elem_of_app in Hin as [Hin|Hin%list_elem_of_singleton]; [|done].
         destruct (Hq1 _ _ _ Hts Hin) as (us' & Hu' & Hin'). by apply (co_not_ready _ _ _ HC _ _ Hu').
      -- apply queue_insert_other in Hq; [|done].
         destruct (Hq1 _ _ _ Hq Hin) as (us' & Hu' & Hin'). by apply (co_not_ready _ _ _ HC _ _ Hu').
  + apply HI.
  + intros u uh Hu. simpl in Hu. apply lookup_insert_Some in Hu as [[<- <-]|[Hne Hu]].
    * right; left. exists (ts ++ [t]). unfold queue, enqueue. simpl. rewrite lookup_insert_eq.
      split; [done|set_solver].
    * apply enqueue_placed; try done. apply Hpl1; [done|]. by apply HI.
  + split; try done.
    * unfold enqueue. by rewrite lookup_insert_ne, lookup_delete_ne.
    * intros u Hu. by apply is_Some_insert.
  + intros _. split; [simpl; by rewrite lookup_insert_eq|]. exists ts.
    unfold queue, enqueue. by rewrite lookup_insert_eq.
Qed.

Lemma thread_timeout_spec L s t th :
  irq_inv L s -> ks_daif s = 0xC0 -> ks_threads s !! t = Some th ->
  exists s' L', sk_thread_timeout t s = Done s' tt /\ irq_inv L' s' /\ irq_step L L' s s' /\
    (t <> ks_current s -> ks_current s' = t \/ exists us, queue L' (current_pri th) us /\ t ∈ us).
Proof.
  intros HI Hirq Ht.
  assert (timeout_woken L s t th) as (s1 & L1 & Hrun & HI1 & Hst1 & Hw).
  { destruct (decide (t = ks_current s)); [by apply timeout_wake_current|by apply timeout_wake_other]. }
  destruct (schedule_in_interrupt L1 s1 HI1) as (s2 & L2 & Hsch & HI2 & Hst2 & Hkeep).
  exists s2, L2. split; [|split; [done|split; [by eapply irq_step_trans|]]].
  - unfold sk_thread_timeout. by rewrite Hrun.
  - intros Hne. destruct (Hw Hne) as (_ & us & Hus). eapply Hkeep; [|exact Hus|set_solver].
    by apply (si_thread _ _ (ii_sched _ _ HI) t).
Qed.

End timeout.

(** The timeout functions of the kernel meet the contract of the timer check:
    a thread timer carries [sk_thread_timeout] and its thread, and the timeout
    functions of applications are assumed to meet the contract themselves. *)
Section client.
Context (user : Z -> Z -> M unit).

Definition timers_inv (s : kstate) : Prop :=
  forall tm t, ks_timers s !! tm = Some t -> timeout_func t = FN_sk_thread_timeout ->
    is_Some (ks_threads s !! tparam t).

Definition kernel_inv (L : lists) (s : kstate) : Prop := irq_inv L s /\ timers_inv s.

Definition user_contract : Prop :=
  forall f p L s, kernel_inv L s -> ks_daif s = 0xC0 ->
    exists s' L', user f p s = Done s' tt /\ kernel_inv L' s' /\ irq_step L L' s s'.

Lemma timer_only_inv L L' s s' :
  kernel_inv L s -> Rep (ks_nodes s') L' -> timer_only L L' s s' -> kernel_inv L' s'.
Proof.
  intros [HI HT] HR (Es & Hn & Htm & _).
  assert (ks_threads s' = ks_threads s /\ ks_group s' = ks_group s /\ ks_daif s' = ks_daif s /\
    ks_current s' = ks_current s /\ ks_nest s' = ks_nest s) as (E1 & E2 & E3 & E4 & E5)
    by (rewrite Es; done).
  split; [split|].
  - eapply sched_inv_ext; [apply HI|done| |done|done|].
    + unfold irq_wf. rewrite E3. apply HI.
    + intros i _. by apply Hn.
  - destruct (ii_cur _ _ HI) as [cth HC]. exists cth. split; rewrite ?E1, ?E4; [apply HC| |].
    + intros Hr. unfold detached. rewrite Hn by done. by apply HC.
    + intros i us. unfold queue. rewrite Hn by done. apply HC.
  - rewrite E5. apply HI.
  - intros t th. rewrite E1. intros Ht. pose proof (ii_placed _ _ HI t th Ht) as Hpl.
    destruct Hpl as [Hd|[(us & Hq & Hin)|(hd & xs & Hl & Hin & H1 & H2 & H3)]].
    + left. unfold detached. by rewrite Hn.
    + right; left. exists us. unfold queue. by rewrite Hn.
    + right; right. exists hd, xs. by rewrite Hn.
  - intros tm t Ht Hf. specialize (Htm tm). rewrite Ht in Htm. simpl in Htm. rewrite E1.
    destruct (ks_timers s !! tm) as [t'|] eqn:Et; [|done]. injection Htm as E6 E7.
    rewrite E7. apply (HT tm t'); congruence.
Qed.

Lemma timers_inv_step L L' s s' : timers_inv s -> irq_step L L' s s' -> timers_inv s'.
Proof. intros HT [] tm t. rewrite is_timers0. intros Ht Hf. eauto. Qed.

Lemma irq_step_timers L L' s s' tms : irq_step L L' s s' -> timers_on L tms -> timers_on L' tms.
Proof. intros [] Ht. unfold timers_on. congruence. Qed.

#[export] Instance kernel_client : user_contract -> TimerClient (timer_call user) kernel_inv (fun _ _ _ => True).
Proof.
  intros HU. split; [|intros; split; [by eapply timer_only_inv|done]].
  intros L s tms tm t o [HI HT] HR Hirq Hon Hin Ht _ _ _. unfold timer_call.
  assert (exists s' L', (if timeout_func t =? FN_sk_thread_timeout then sk_thread_timeout (tparam t)
      else user (timeout_func t) (tparam t)) s = Done s' tt /\ kernel_inv L' s' /\ irq_step L L' s s')
    as (s' & L' & Hrun & HI' & Hst).
  { destruct (Z.eqb_spec (timeout_func t) FN_sk_thread_timeout) as [Hf|_]; [|by apply HU].
    destruct (HT tm t Ht Hf) as [th Hth].
    destruct (thread_timeout_spec L s (tparam t) th HI Hirq Hth) as (s' & L' & Hrun & HI' & Hst & _).
    exists s', L'. split_and!; try done. split; [done|by eapply timers_inv_step]. }
  exists s', L'. split_and!; try done; try apply HI'; try apply Hst.
  - by eapply irq_step_timers.
  - rewrite (is_daif _ _ _ _ Hst). done.
Qed.

End client.

(** A running thread that sleeps while another thread is ready. *)
Lemma thread_sleep_spec L s th tms tmr o tick :
  sched_inv L s -> ks_nest s = 0 -> ks_group s <> 0 ->
  ks_threads s !! ks_current s = Some th -> stat th & SK_THREAD_MASK = SK_THREAD_RUNNING -> detached L (ks_current s) ->
  timer_of L s tms (ks_current s) tmr o ->
  exists s' k L' p t ts, sk_thread_sleep tick s = Switch s' k /\
    (forall s2, irq_wf s2 -> exists s3, k s2 = Done s3 SK_EOK) /\
    highest L p t ts /\ ks_current s' = t /\ sched_inv L' s' /\
    ks_threads s' !! ks_current s = Some (set_stat SK_THREAD_SUSPEND th) /\
    detached L' (ks_current s) /\ t <> ks_current s /\
    (exists us, timers_on L' us /\ thread_timer (ks_current s) ∈ us) /\
    (timeout_tick <$> ks_timers s' !! thread_timer (ks_current s)) = Some (u32 (ks_tick s + u32 tick)) /\
    (active <$> ks_objs s' !! thread_timer (ks_current s)) = Some true.
Proof.
  intros HI Hn Hg Ht Hst Hd HT. set (c := ks_current s) in *. pose proof (sched_inv_masked _ _ HI) as HIm.
  destruct (suspend_current_spec L (masked s) c th tms tmr o HIm Ht) as (h1 & L1 & Hsus & HI1 & Hd1 & HT1 & Hfr1);
    [by rewrite Hst|done|by destruct HT|].
  destruct (arm_timer_spec _ _ _ _ _ _ tick HI1 HT1) as (h2 & L2 & s2 & Hset & Hstart & HI2 & Hon2 & Hfr2).
  set (s3 := armed _ _ _ _ _ _) in *. set (s4 := upd_daif (fun _ => ks_daif s) s3).
  assert (sched_inv L2 s4) as HI4 by (eapply sched_inv_ext; [exact HI2|apply HI2|apply HI|done..]).
  assert (detached L2 c) as Hd2 by (unfold detached; rewrite Hfr2; done).
  assert (cur_ok L2 s4 (set_stat SK_THREAD_SUSPEND th)) as HC.
  { split; [simpl; by rewrite lookup_insert_eq|done|]. intros i us Hq. by eapply detached_not_ready. }
  assert (forall i, L2 !! NPrio i = L !! NPrio i) as HQ.
  { intros i. rewrite (timer_frame_queue _ _ _ i Hfr2). by rewrite (timer_frame_queue _ _ _ i Hfr1). }
  assert (sk_thread_sleep tick s = bind_res (sk_schedule s4) (fun _ => mret SK_EOK)) as Hrun.
  { unfold sk_thread_sleep. erewrite bind_done by reflexivity. fold c. kstep (disable_ok s (si_irq _ _ HI)).
    kstep Hsus. kstep Hset. kstep Hstart.
    by erewrite bind_done by (apply enable_ok; [apply HI|done]). }
  destruct (schedule_spec L2 s4 _ HI4 HC) as [[_ Hk]|(p & t & ts & th' & h & g & L' & H)].
  { exfalso. destruct (get_hp_thread_spec L s HI Hg) as (p & t & ts & (Hp & Hq & _) & _).
    destruct (Hk p (t :: ts) Hp) as [?|[? _]]; [by unfold queue; rewrite HQ|done|done]. }
  destruct H as (Hh & Ht' & Hne & _ & HI5 & Hd5 & Haft & Hsch). change (ks_nest s4) with (ks_nest s) in Hsch.
  rewrite Hn in Hsch. simpl in Hsch. destruct Hsch as (k & Hsch & Hk). rewrite Hrun, Hsch. simpl.
  eexists _, _, L', p, t, ts. split; [reflexivity|]. 
  split; [intros s5 Hs5; rewrite Hk; by eexists|].
  split.
  { destruct Hh as (Hp & Hq & Hm). unfold queue in *. split; [done|]. split; [unfold queue; by rewrite <- HQ|].
    intros i Hi. unfold queue. rewrite <- HQ. by apply Hm. }
  split_and!.
  - done.
  - exact HI5.
  - simpl. rewrite lookup_insert_ne by done. by rewrite lookup_insert_eq.
  - unfold detached. rewrite (qa_frame _ _ _ _ _ _ Haft); [done|done|done|].
    intros [= E]. by apply Hne.
  - done.
  - eexists. unfold timers_on. rewrite (qa_frame _ _ _ _ _ _ Haft) by done. split; [exact Hon2|by left].
  - simpl. by rewrite lookup_insert_eq.
  - simpl. rewrite lookup_insert_eq. simpl. f_equal. rewrite active_bit. simpl obj_flag. by rewrite (lor_pow2_bit _ 0).
Qed.

(** *** The end of a thread *)

Lemma daif_same d s : ks_daif s = d -> upd_daif (fun _ => d) s = s.
Proof. intros <-. by destruct s. Qed.

Lemma bind_fault {A B} (m : M A) (f : A -> M B) s : m s = Fault -> (m ≫= f) s = Fault.
Proof. unfold mbind, M_bind. by intros ->. Qed.

(** [sk_timer_delete] gives the address of the timer to [sk_free]. *)
Definition deleted (tm : Z) (o : sk_object) h hp s : kstate :=
  upd_heap (fun _ => hp) (upd_nodes (fun _ => h)
    (upd_objs (<[tm := set_obj_type (u8 (-1)) (clear_flag SK_TIMER_FLAG_ACTIVE o)]>) s)).

Lemma timer_delete_spec L s tms tm o ty us vs :
  Rep (ks_nodes s) L -> ks_daif s = 0xC0 -> timers_on L tms -> timer_placed L tms tm ->
  ks_objs s !! tm = Some o -> L !! NObjList ty = Some (us ++ NObj tm :: vs) ->
  exists h L', Rep h L' /\ timers_on L' (others tm tms) /\
    (forall n, n <> NTimerList -> n <> NTimer tm -> n <> NObjList ty -> n <> NObj tm -> L' !! n = L !! n) /\
    sk_timer_delete tm s =
      match sk_free tm (ks_heap s) with
      | Some hp => Done (deleted tm o h hp s) SK_EOK
      | None => Fault
      end.
Proof.
  intros HR Hd Hon Hpl Ho Hob. assert (irq_wf s) as Hw by (by right).
  destruct (timer_remove_spec _ L tms tm HR Hon Hpl) as (h1 & L1 & Hdel1 & HR1 & Hon1 & _ & Hfr1).
  assert (L1 !! NObjList ty = Some (us ++ NObj tm :: vs)) as Hob1 by (by rewrite Hfr1).
  destruct (rep_del h1 L1 _ us _ vs HR1 Hob1) as (h2 & Hdel2 & HR2 & _). exists h2. eexists.
  split; [exact HR2|]. split; [unfold timers_on; by rewrite !lookup_insert_ne|]. split.
  { intros n H1 H2 H3 H4. rewrite !lookup_insert_ne by done. by apply Hfr1. }
  unfold sk_timer_delete, __timer_remove, list_del, sk_object_delete, upd_obj. kstep (disable_ok s Hw).
  rewrite Hd. change (masked s) with (upd_daif (fun _ => 0xC0) s). rewrite (daif_same _ s Hd).
  erewrite bind_done by (apply on_nodes_ok; exact Hdel1).
  erewrite bind_done by (apply update_at_ok; exact Ho). cbv beta.
  set (s1 := upd_objs _ _). assert (ks_daif s1 = 0xC0) as Hd1 by done.
  erewrite bind_done by (apply enable_ok; [by right|done]). rewrite (daif_same _ s1 Hd1).
  set (s2 := upd_objs (<[tm := set_obj_type (u8 (-1)) (clear_flag SK_TIMER_FLAG_ACTIVE o)]>) s1).
  set (s3 := upd_nodes (fun _ => h2) s2). assert (ks_daif s2 = 0xC0) as Hd2 by done.
  assert (ks_daif s3 = 0xC0) as Hd3 by done.
  assert ((update_at ks_objs upd_objs tm (set_obj_type (u8 (-1)));; level ← hw_interrupt_disable;
    on_nodes (sk_list_del (NObj tm));; hw_interrupt_enable level;; kfree tm) s1 = kfree tm s3) as Ek.
  { erewrite bind_done by (apply update_at_ok; exact (lookup_insert_eq _ _ _)). fold s2.
    erewrite bind_done by (apply disable_ok; by right). change (masked s2) with (upd_daif (fun _ => 0xC0) s2).
    rewrite Hd2, (daif_same _ s2 Hd2). erewrite bind_done by (apply on_nodes_ok; exact Hdel2). fold s3.
    erewrite bind_done by (apply enable_ok; [by right|done]). by rewrite (daif_same _ s3 Hd3). }
  unfold kfree in Ek at 2. change (ks_heap s3) with (ks_heap s) in Ek.
  destruct (sk_free tm (ks_heap s)) as [hp|]; [|by apply bind_fault]. kstep Ek.
  assert (s3 = upd_nodes (fun _ => h2) (upd_objs (fun m => <[tm := set_obj_type (u8 (-1))
    (clear_flag SK_TIMER_FLAG_ACTIVE o)]> (<[tm := clear_flag SK_TIMER_FLAG_ACTIVE o]> m)) s)) as -> by done.
  assert (forall u v, upd_objs (fun m => <[tm := u]> (<[tm := v]> m)) s = upd_objs (<[tm := u]>) s) as Eo
    by (intros u v; destruct s; unfold upd_objs; simpl; by rewrite insert_insert_eq).
  by rewrite Eo.
Qed.

(** The state in which the scheduler is called at the end of the current thread. *)
Definition closed (c : Z) (th : sk_thread) (o : sk_object) h hp s : kstate :=
  deleted (thread_timer c) o h hp (upd_threads (<[c := set_stat SK_THREAD_CLOSE th]>) (masked s)).


(** ** Properties *)

(** When the timer of a thread other than the current one expires in an
    interrupt, [sk_thread_timeout] returns, with the invariants kept and
    interrupts still off: the thread has left the list it was on (if any), and
    either it is in the ready queue of its priority or the scheduler has already
    chosen it as the next current thread. *)
Theorem thread_timeout_wakes L s t th :
  irq_inv L s -> ks_daif s = 0xC0 -> ks_threads s !! t = Some th -> t <> ks_current s ->
  exists s' L', sk_thread_timeout t s = Done s' tt /\ irq_inv L' s' /\ ks_daif s' = 0xC0 /\
    (ks_current s' = t \/ exists us, queue L' (current_pri th) us /\ t ∈ us).
Proof.
  intros HI Hirq Ht Hne.
  destruct (thread_timeout_spec L s t th HI Hirq Ht) as (s' & L' & Hrun & HI' & Hst & Hw).
  exists s', L'. split_and!; auto. by rewrite (is_daif _ _ _ _ Hst).
Qed.

(** C16: on every tick with at least two timers on the list, whose periods are
    positive and whose expiries do not overflow, [sk_timer_check] with the
    kernel's own timeout functions returns within [(n + 1)^2] rounds, keeps the
    invariants of scheduler and thread timers, and leaves no timer on the list
    both active and expired. *)
Theorem timer_check_settles user L s tms fuel :
  user_contract user -> kernel_inv L (masked s) -> Rep (ks_nodes s) L -> irq_wf s ->
  timers_on L tms -> (2 <= length tms)%nat -> (forall tm, tm ∈ tms -> timer_ok s tm) ->
  0 <= ks_tick s -> ((length tms + 1) * (length tms + 1) <= fuel)%nat ->
  exists s' L' tms', sk_timer_check (timer_call user) fuel s = Done s' tt /\ ks_daif s' = ks_daif s /\
    kernel_inv L' (masked s') /\ timers_on L' tms' /\ tms' ≡ₚ tms /\
    forall tm, tm ∈ tms -> settled s' tm.
Proof.
  intros HU HI HR Hirq Hon H2 Hok Htick Hf. pose proof (kernel_client user HU).
  destruct (timer_check_spec (timer_call user) kernel_inv (fun _ _ _ => True) L s tms fuel)
    as (s' & L' & tms' & Hrun & Hd & HI' & HR' & Hon' & Hp & Hs & _); try done.
  exists s', L', tms'. done.
Qed.

(** C39: [sk_thread_resume] on a thread that is not suspended returns
    [SK_ERROR] and changes nothing; on a suspended one it takes the thread off
    the waiting list it is on, keeping the order of the others, and appends it,
    READY, to the ready queue of its priority. *)
Theorem thread_resume_correct L s t th :
  sched_inv L s -> ks_threads s !! t = Some th -> t <> ks_current s ->
  (stat th <> SK_THREAD_SUSPEND -> sk_thread_resume t s = Done s SK_ERROR) /\
  (stat th = SK_THREAD_SUSPEND -> forall hd us vs ts,
     L !! hd = Some (us ++ NTlist t :: vs) -> (forall i, hd <> NPrio i) -> queue L (current_pri th) ts ->
     exists s' L', sk_thread_resume t s = Done s' SK_EOK /\ sched_inv L' s' /\
       L' !! hd = Some (us ++ vs) /\ queue L' (current_pri th) (ts ++ [t]) /\
       ks_threads s' = <[t := set_stat SK_THREAD_READY th]> (ks_threads s) /\ ks_daif s' = ks_daif s).
Proof.
  intros HI Ht Hc. split.
  - intros Hst. unfold sk_thread_resume, get_thread. erewrite bind_done by (apply read_at_ok; exact Ht).
    by rewrite (proj2 (Z.eqb_neq _ _) Hst).
  - intros Hst hd us vs ts Hl Hhd Hq.
    destruct (resume_waiting_spec L s hd us vs t th ts) as (h & Hrun & HI'); try done.
    eexists _, _. split; [exact Hrun|]. split; [exact HI'|]. unfold enqueue, unlinked. split_and!; try done.
    + assert (hd <> NTlist t) as Hne.
      { intros ->. pose proof (proj1 (rep_is_list _ _ (si_rep _ _ HI) _ _ Hl)) as Hnd.
        apply NoDup_cons in Hnd as [Hn _]. apply Hn. set_solver. }
      rewrite lookup_insert_ne by done. rewrite lookup_delete_ne, lookup_insert_ne by congruence.
      by rewrite lookup_insert_eq.
    + unfold queue. by rewrite lookup_insert_eq.
Qed.

(** C17: a running thread that sleeps while another thread is ready: it is
    SUSPENDed, off every ready queue, its timer is active and due the given
    number of ticks from now, the processor goes to the first thread of the
    highest ready priority, and when the sleeper gets the processor back the
    call returns [SK_EOK]. *)
Theorem thread_sleep_correct L s th tms tmr o tick :
  sched_inv L s -> ks_nest s = 0 -> ks_group s <> 0 ->
  ks_threads s !! ks_current s = Some th -> stat th = SK_THREAD_RUNNING -> detached L (ks_current s) ->
  timer_of L s tms (ks_current s) tmr o ->
  exists s' k L' p t ts, sk_thread_sleep tick s = Switch s' k /\
    (forall s2, irq_wf s2 -> exists s3, k s2 = Done s3 SK_EOK) /\
    highest L p t ts /\ ks_current s' = t /\ sched_inv L' s' /\
    ks_threads s' !! ks_current s = Some (set_stat SK_THREAD_SUSPEND th) /\
    detached L' (ks_current s) /\
    (timeout_tick <$> ks_timers s' !! thread_timer (ks_current s)) = Some (u32 (ks_tick s + u32 tick)) /\
    (active <$> ks_objs s' !! thread_timer (ks_current s)) = Some true.
Proof.
  intros HI Hn Hg Ht Hst Hd HT.
  destruct (thread_sleep_spec L s th tms tmr o tick) as (s' & k & L' & p & t & ts & H); try done; [by rewrite Hst|].
  exists s', k, L', p, t, ts. tauto.
Qed.

(** C38: the end of a thread frees a part of it.  When a running thread without a
    cleanup function ends, its timer's object being on the list of its type and
    another thread ready, [__thread_exit] gives the address of the timer inside the
    structure of the thread to [sk_free], and nothing else: neither the structure nor
    the stack.  If that faults so does the end of the thread; otherwise the heap is
    what [sk_free] made of it, the thread is closed, off every queue and its timer
    off the timer list, and the first thread of the highest ready priority has the
    processor. *)
Theorem thread_exit_frees_timer user L s th tms tmr o ty us vs :
  sched_inv L s -> ks_nest s = 0 -> ks_group s <> 0 -> ks_threads s !! ks_current s = Some th ->
  cleanup th = SK_NULL -> detached L (ks_current s) -> timer_of L s tms (ks_current s) tmr o ->
  L !! NObjList ty = Some (us ++ NObj (thread_timer (ks_current s)) :: vs) ->
  match sk_free (thread_timer (ks_current s)) (ks_heap s) with
  | None => __thread_exit user s = Fault
  | Some hp => exists s' k L' p t ts, __thread_exit user s = Switch s' k /\ highest L p t ts /\
      ks_current s' = t /\ t <> ks_current s /\ sched_inv L' s' /\ ks_heap s' = hp /\
      ks_threads s' !! ks_current s = Some (set_stat SK_THREAD_CLOSE th) /\ detached L' (ks_current s) /\
      timers_on L' (others (thread_timer (ks_current s)) tms)
  end.
Proof.
  intros HI Hn Hg Ht Hcl Hd HT Hob. set (c := ks_current s) in *. pose proof (sched_inv_masked _ _ HI) as HIm.
  set (s1 := upd_threads (<[c := set_stat SK_THREAD_CLOSE th]>) (masked s)).
  assert (sched_inv L s1) as HI1 by (by apply sched_inv_stat).
  destruct (timer_delete_spec L s1 tms (thread_timer c) o ty us vs (si_rep _ _ HI1) eq_refl (to_list _ _ _ _ _ _ HT)
    (to_placed _ _ _ _ _ _ HT) (to_obj _ _ _ _ _ _ HT) Hob) as (h & L2 & HR2 & Hon2 & Hfr2 & Hdel).
  assert (__thread_exit user s =
    (sk_timer_delete (thread_timer c);; sk_schedule;; hw_interrupt_enable (ks_daif s)) s1) as ->.
  { unfold __thread_exit. erewrite bind_done by reflexivity. fold c. kstep (disable_ok s (si_irq _ _ HI)).
    unfold get_thread. erewrite bind_done by (apply read_at_ok; exact Ht). rewrite Hcl. simpl when_.
    erewrite bind_done by reflexivity. kstep (remove_detached_spec L (masked s) c th HIm Ht Hd).
    unfold upd_thread. by erewrite bind_done by (apply update_at_ok; exact Ht). }
  change (ks_heap s1) with (ks_heap s) in Hdel.
  destruct (sk_free (thread_timer c) (ks_heap s)) as [hp|]; [|by apply bind_fault]. kstep Hdel.
  set (s2 := deleted _ _ _ _ _).
  assert (forall i, L2 !! NPrio i = L !! NPrio i) as HQ by (intros i; by apply Hfr2).
  assert (sched_inv L2 s2) as HI2 by (eapply sched_inv_ext; [exact HI1|exact HR2|by right|done..|auto]).
  assert (detached L2 c) as Hd2 by (unfold detached; by rewrite Hfr2).
  assert (cur_ok L2 s2 (set_stat SK_THREAD_CLOSE th)) as HC.
  { split; [simpl; by rewrite lookup_insert_eq|done|]. intros i zs Hq. by eapply detached_not_ready. }
  destruct (schedule_spec L2 s2 _ HI2 HC) as [[_ Hk]|(p & t & ts & th' & h' & g & L' & H)].
  { exfalso. destruct (get_hp_thread_spec L s HI Hg) as (p & t & ts & (Hp & Hq & _) & _).
    destruct (Hk p (t :: ts) Hp) as [?|[? _]]; [by unfold queue; rewrite HQ|done|done]. }
  destruct H as (Hh & Ht' & Hne & _ & HI5 & Hd5 & Haft & Hsch). change (ks_nest s2) with (ks_nest s) in Hsch.
  rewrite Hn in Hsch. simpl in Hsch. destruct Hsch as (k & Hsch & Hk).
  assert ((sk_schedule;; hw_interrupt_enable (ks_daif s)) s2 =
    bind_res (sk_schedule s2) (fun _ => hw_interrupt_enable (ks_daif s))) as -> by done.
  rewrite Hsch. simpl. eexists _, _, L', p, t, ts. split; [reflexivity|]. split.
  { destruct Hh as (Hp & Hq & Hm). unfold queue in *. split; [done|]. split; [unfold queue; by rewrite <- HQ|].
    intros i Hi. unfold queue. rewrite <- HQ. by apply Hm. }
  split_and!; try done.
  - simpl. rewrite lookup_insert_ne by done. by rewrite lookup_insert_eq.
  - unfold detached. rewrite (qa_frame _ _ _ _ _ _ Haft); [done|done|done|]. intros [= E]. by apply Hne.
  - unfold timers_on. by rewrite (qa_frame _ _ _ _ _ _ Haft).
Qed.

(** ** The initial stack frame *)

Fixpoint pushed (vs : list Z) (stk : Z) (w : gmap Z Z) : gmap Z Z :=
  match vs with
  | [] => w
  | v :: vs => pushed vs (stk - 8) (<[stk - 8 := u64 v]> w)
  end.

Lemma push_words_run vs : forall stk s,
  push_words vs stk s = Done (upd_words (pushed vs stk) s) (stk - 8 * Z.of_nat (length vs)).
Proof.
  induction vs as [|v vs IH]; intros stk s; cbn [push_words].
  - unfold mret, M_ret. simpl. f_equal; [by destruct s|lia].
  - erewrite bind_done by reflexivity. rewrite IH. f_equal. simpl length. lia.
Qed.

Lemma pushed_lookup vs : forall stk w,
  (forall i v, vs !! i = Some v -> pushed vs stk w !! (stk - 8 * (Z.of_nat i + 1)) = Some (u64 v)) /\
  (forall a, a < stk - 8 * Z.of_nat (length vs) \/ stk <= a -> pushed vs stk w !! a = w !! a).
Proof.
  induction vs as [|v vs IH]; intros stk w; simpl; [done|].
  destruct (IH (stk - 8) (<[stk - 8 := u64 v]> w)) as [IH1 IH2]. split.
  - intros [|i] u; simpl.
    + intros [= ->]. rewrite IH2 by lia. by rewrite lookup_insert_eq.
    + intros Hu. rewrite <- (IH1 i u Hu). f_equal. lia.
  - intros a Ha. rewrite IH2 by lia. rewrite lookup_insert_ne by lia. done.
Qed.

(** [__thread_stack_init] writes the 34 words of the register frame below
    the given address, in the order of the pushes, and nothing else, and
    returns the address of the last one, the entry point: it needs 272 bytes. *)
Theorem stack_init_correct entry_ param_ stack exit s :
  exists s', __thread_stack_init entry_ param_ stack exit s = Done s' (stack - 272) /\
    (forall i v, stack_frame entry_ param_ exit !! i = Some v ->
       ks_words s' !! (stack - 8 * (Z.of_nat i + 1)) = Some (u64 v)) /\
    (forall a, a < stack - 272 \/ stack <= a -> ks_words s' !! a = ks_words s !! a) /\
    ks_words s' !! (stack - 272) = Some (u64 entry_).
Proof.
  unfold __thread_stack_init. rewrite push_words_run. eexists. split; [reflexivity|].
  destruct (pushed_lookup (stack_frame entry_ param_ exit) stack (ks_words s)) as [H1 H2].
  split_and!; [exact H1|intros a Ha; apply H2; done|].
  by rewrite <- (H1 33%nat entry_) by reflexivity.
Qed.

(** The idle thread is created with a stack of 128 bytes, less than the
    initial frame: its initialisation writes 152 bytes below the block it was
    given, the lowest being the entry point. *)
Theorem idle_stack_underflows stack_start s :
  exists s' sp_, __thread_stack_init FN_sk_idle_entry SK_NULL
      (stack_start + SK_IDLE_THREAD_STACK_SIZE - 8) FN_thread_exit s = Done s' sp_ /\
    sp_ = stack_start - 152 /\ ks_words s' !! sp_ = Some FN_sk_idle_entry.
Proof.
  unfold __thread_stack_init. rewrite push_words_run. eexists _, _. split; [reflexivity|].
  unfold SK_IDLE_THREAD_STACK_SIZE. split; [simpl length; lia|].
  destruct (pushed_lookup (stack_frame FN_sk_idle_entry SK_NULL FN_thread_exit)
    (stack_start + 128 - 8) (ks_words s)) as [H1 _].
  exact (H1 33%nat FN_sk_idle_entry eq_refl).
Qed.

(** [sk_thread_startup] marks the thread SUSPENDed and does not resume it:
    started before the scheduler runs, a thread stays in its ready queue with
    the state of a suspended one. *)
Theorem startup_leaves_suspended L s t th us :
  sched_inv L s -> ks_current s = SK_NULL -> ks_threads s !! t = Some th ->
  queue L (current_pri th) us -> t ∈ us ->
  exists s', sk_thread_startup t s = Done s' SK_EOK /\ sched_inv L s' /\
    ks_threads s' !! t = Some (set_stat SK_THREAD_SUSPEND th).
Proof.
  intros HI Hc Ht Hq Hin. exists (upd_threads (<[t := set_stat SK_THREAD_SUSPEND th]>) s). split_and!.
  - unfold sk_thread_startup, upd_thread. erewrite bind_done by (apply update_at_ok; exact Ht).
    erewrite bind_done by reflexivity. simpl. rewrite Hc. done.
  - by apply sched_inv_stat.
  - simpl. by rewrite lookup_insert_eq.
Qed.

(** ** A concrete system with sleeping threads *)

(** Thread 100 (priority 10) runs, 200 (priority 5) is ready, 1300 (priority 8)
    sleeps on its timer 1420; the timers 1420 and 5000, both active, are on the
    list, and 220 is the idle timer of thread 100. *)
Definition sleep_lists : lists :=
  <[NTlist 1300 := []]> (<[NPrio 5 := [NTlist 200]]> (<[NTlist 100 := []]>
    (<[NTimerList := [NTimer 1420; NTimer 5000]]> (<[NTimer 220 := []]> prio_lists)))).

Definition sleep_state (nest : Z) : kstate :=
  upd_nest (fun _ => nest) (upd_tick (fun _ => 50)
    (upd_objs (fun _ => list_to_map [(220, mk_object 7 0); (1420, mk_object 7 1); (5000, mk_object 7 3)])
      (upd_timers (fun _ => list_to_map [(220, mk_timer FN_sk_thread_timeout 100 0 0);
          (1420, mk_timer FN_sk_thread_timeout 1300 10 50); (5000, mk_timer 77 0 20 45)])
        (demo sleep_lists (list_to_map [(100, a_thread SK_THREAD_RUNNING 10 5);
            (200, a_thread SK_THREAD_READY 5 5); (1300, a_thread SK_THREAD_SUSPEND 8 5)]) (2 ^ 5))))).

Lemma sleep_state_inv nest : sched_inv sleep_lists (sleep_state nest).
Proof. apply sched_check_sound. by vm_compute. Qed.

Lemma sleep_state_cur nest : cur_ok sleep_lists (sleep_state nest) (a_thread SK_THREAD_RUNNING 10 5).
Proof.
  split; [done|intros _; by vm_compute|].
  intros i us Hq. by apply (detached_not_ready _ _ 100 i us (sleep_state_inv nest)).
Qed.

Lemma sleep_state_placed t th :
  ks_threads (sleep_state 1) !! t = Some th -> thread_placed sleep_lists t th.
Proof.
  change (ks_threads (sleep_state 1)) with
    (list_to_map (M := gmap Z sk_thread) [(100, a_thread SK_THREAD_RUNNING 10 5);
            (200, a_thread SK_THREAD_READY 5 5); (1300, a_thread SK_THREAD_SUSPEND 8 5)]).
  simpl. rewrite !lookup_insert_Some, lookup_empty.
  intros [[<- <-]|[_ [[<- <-]|[_ [[<- <-]|[_ H]]]]]]; [left; by vm_compute| |left; by vm_compute|done].
  right; left. exists [200]. split; [by vm_compute|by left].
Qed.

Lemma sleep_state_irq : irq_inv sleep_lists (masked (sleep_state 1)).
Proof.
  split; [apply sched_inv_masked, sleep_state_inv| |done|apply sleep_state_placed].
  exists (a_thread SK_THREAD_RUNNING 10 5). destruct (sleep_state_cur 1). by split.
Qed.

Lemma thread_timeout_wakes_witness :
  exists s' L', sk_thread_timeout 1300 (masked (sleep_state 1)) = Done s' tt /\ irq_inv L' s' /\
    ks_daif s' = 0xC0 /\ (ks_current s' = 1300 \/ exists us, queue L' 8 us /\ 1300 ∈ us).
Proof.
  apply (thread_timeout_wakes sleep_lists (masked (sleep_state 1)) 1300 (a_thread SK_THREAD_SUSPEND 8 5));
    [apply sleep_state_irq|done|by vm_compute|done].
Defined.

Lemma nop_contract : user_contract nop_call.
Proof. intros f p L s HI _. by exists s, L. Qed.

Lemma sleep_timers_inv : timers_inv (masked (sleep_state 1)).
Proof.
  intros tm t.
  assert (ks_timers (masked (sleep_state 1)) =
    (<[220 := mk_timer FN_sk_thread_timeout 100 0 0]> (<[1420 := mk_timer FN_sk_thread_timeout 1300 10 50]>
      (<[5000 := mk_timer 77 0 20 45]> ∅)) : gmap Z sk_sys_timer)) as -> by (vm_compute; reflexivity).
  rewrite !lookup_insert_Some, lookup_empty.
  intros [[<- <-]|[_ [[<- <-]|[_ [[<- <-]|[_ H]]]]]] Hf; done.
Qed.

Lemma sleep_timers_ok tm : tm ∈ [1420; 5000] -> timer_ok (sleep_state 1) tm.
Proof.
  intros Htm. apply elem_of_cons in Htm as [->|Htm]; [|apply list_elem_of_singleton in Htm as ->];
    (do 2 eexists; split; [by vm_compute|split; [by vm_compute|]]; by vm_compute).
Qed.

Lemma sleep_timers_on : timers_on sleep_lists [1420; 5000].
Proof. by vm_compute. Qed.

Lemma timer_check_settles_witness :
  exists s' L' tms', sk_timer_check (timer_call nop_call) 9 (sleep_state 1) = Done s' tt /\
    ks_daif s' = ks_daif (sleep_state 1) /\ kernel_inv L' (masked s') /\ timers_on L' tms' /\ tms' ≡ₚ [1420; 5000] /\
    forall tm, tm ∈ [1420; 5000] -> settled s' tm.
Proof.
  apply (timer_check_settles nop_call sleep_lists (sleep_state 1) [1420; 5000] 9).
  - exact nop_contract.
  - exact (conj sleep_state_irq sleep_timers_inv).
  - exact (si_rep _ _ (sleep_state_inv 1)).
  - exact (si_irq _ _ (sleep_state_inv 1)).
  - exact sleep_timers_on.
  - simpl. lia.
  - exact sleep_timers_ok.
  - simpl. lia.
  - simpl. lia.
Defined.

(** Thread 300 (priority 8) waits on the object 900. *)
Definition resume_lists : lists := <[NSuspend 900 := [NTlist 300]]> (<[NTlist 100 := []]> prio_lists).
Definition resume_state : kstate :=
  demo resume_lists (list_to_map [(100, a_thread SK_THREAD_RUNNING 10 5);
    (300, a_thread SK_THREAD_SUSPEND 8 5)]) 0.

Lemma thread_resume_correct_witness :
  exists s' L', sk_thread_resume 300 resume_state = Done s' SK_EOK /\ sched_inv L' s' /\
       L' !! NSuspend 900 = Some ([] ++ []) /\ queue L' 8 ([] ++ [300]) /\
       ks_threads s' = <[300 := set_stat SK_THREAD_READY (a_thread SK_THREAD_SUSPEND 8 5)]>
         (ks_threads resume_state) /\ ks_daif s' = ks_daif resume_state.
Proof.
  apply (thread_resume_correct resume_lists resume_state 300 (a_thread SK_THREAD_SUSPEND 8 5));
    [apply sched_check_sound; by vm_compute|by vm_compute|done|done|done|done|by vm_compute].
Defined.

Lemma thread_sleep_correct_witness :
  exists s' k L' p t ts, sk_thread_sleep 30 (sleep_state 0) = Switch s' k /\
    (forall s2, irq_wf s2 -> exists s3, k s2 = Done s3 SK_EOK) /\
    highest sleep_lists p t ts /\ ks_current s' = t /\ sched_inv L' s' /\
    ks_threads s' !! 100 = Some (set_stat SK_THREAD_SUSPEND (a_thread SK_THREAD_RUNNING 10 5)) /\
    detached L' 100 /\
    (timeout_tick <$> ks_timers s' !! 220) = Some (u32 (50 + u32 30)) /\
    (active <$> ks_objs s' !! 220) = Some true.
Proof.
  apply (thread_sleep_correct sleep_lists (sleep_state 0) (a_thread SK_THREAD_RUNNING 10 5) [1420; 5000]
    (mk_timer FN_sk_thread_timeout 100 0 0) (mk_object 7 0) 30);
    [apply sleep_state_inv|done|done|by vm_compute|done|by vm_compute|].
  split; [by vm_compute..|right; by vm_compute].
Defined.

Lemma startup_leaves_suspended_witness :
  exists s', sk_thread_startup 200 (upd_current (fun _ => 0) (sleep_state 0)) = Done s' SK_EOK /\
    sched_inv sleep_lists s' /\
    ks_threads s' !! 200 = Some (set_stat SK_THREAD_SUSPEND (a_thread SK_THREAD_READY 5 5)).
Proof.
  apply (startup_leaves_suspended sleep_lists _ 200 (a_thread SK_THREAD_READY 5 5) [200]);
    [apply sched_inv_current, sleep_state_inv|done|by vm_compute|by vm_compute|by left].
Defined.

(** A thread in a block of the heap ends; 200 (priority 5) is ready. *)
Definition exit_block : Z * slab_state := default (0, heap16) (sk_malloc sizeof_sk_thread heap16).
Definition exit_thread : Z := 1073758264.

Definition exit_lists : lists :=
  <[NPrio 5 := [NTlist 200]]> (<[NTlist exit_thread := []]> (<[NTimerList := []]>
    (<[NTimer 1073758384 := []]> (<[NObjList 7 := [NObj 1073758384]]> prio_lists)))).

Definition exit_state : kstate :=
  upd_current (fun _ => exit_thread) (upd_heap (fun _ => exit_block.2)
    (upd_objs (fun _ => {[1073758384 := mk_object 7 0]})
      (upd_timers (fun _ => {[1073758384 := mk_timer FN_sk_thread_timeout exit_thread 0 0]})
        (demo exit_lists (list_to_map [(exit_thread, a_thread SK_THREAD_RUNNING 10 5);
            (200, a_thread SK_THREAD_READY 5 5)]) (2 ^ 5))))).

(** Blocks of the size of a thread, one after the other. *)
Fixpoint thread_blocks (n : nat) (h : slab_state) : list Z :=
  match n with
  | O => []
  | S n => match sk_malloc sizeof_sk_thread h with Some (p, h) => p :: thread_blocks n h | None => [] end
  end.

(** One of the next blocks the heap hands out begins inside the structure of the
    thread, which nobody has freed. *)
Example exit_reuses_timer :
  exit_block.1 = exit_thread /\
  match __thread_exit nop_call exit_state with
  | Switch s _ => existsb (Z.eqb (exit_thread + 120)) (thread_blocks 300 (ks_heap s)) = true
  | _ => False
  end.
Proof. split; vm_compute; reflexivity. Qed.

Lemma thread_exit_frees_timer_witness :
  exists s' k, __thread_exit nop_call exit_state = Switch s' k /\ ks_current s' <> exit_thread /\
    sk_free (thread_timer (ks_current exit_state)) (ks_heap exit_state) = Some (ks_heap s').
Proof.
  pose proof (thread_exit_frees_timer nop_call exit_lists exit_state (a_thread SK_THREAD_RUNNING 10 5) []
    (mk_timer FN_sk_thread_timeout exit_thread 0 0) (mk_object 7 0) 7 [] []
    ltac:(apply sched_check_sound; by vm_compute) eq_refl ltac:(by vm_compute) ltac:(by vm_compute) eq_refl ltac:(by vm_compute)
    ltac:(split; [by vm_compute..|right; by vm_compute]) ltac:(by vm_compute)) as H.
  assert (bool_decide (is_Some (sk_free (thread_timer (ks_current exit_state)) (ks_heap exit_state))) = true) as HS
    by (vm_compute; reflexivity).
  destruct (sk_free (thread_timer (ks_current exit_state)) (ks_heap exit_state)) as [hp|]; [|discriminate HS].
  destruct H as (s' & k & L' & p & t & ts & Hrun & _ & Hc & Hne & _ & Hh & _).
  exists s', k. split; [exact Hrun|]. split; [by rewrite Hc|by rewrite Hh].
Defined.
