(* ===== verification/IpcBase.v ===== *)
(** * Common IPC functions: [src/ipc/ipc_base.c]

    Suspending a thread on the waiting list of an IPC object, in the order of
    arrival or by priority, and waking all waiters.  The section [blocking]
    gives the effect of the sequence all blocking IPC calls share: suspend the
    current thread on the list, arm its timer when a timeout is given, enable
    interrupts and schedule. *)

From S2P Require Import Prelude BaseDef KList Slab Kernel Sched KObj Timer Thread.

Local Open Scope c_scope.

Definition SK_IPC_FLAG_FIFO : Z := 0x00.
Definition SK_IPC_FLAG_PRIO : Z := 0x01.

(** ** Operations *)

Definition __ipc_object_init (ipc : Z) : M Z := list_init (NSuspend ipc);; mret SK_EOK.

Fixpoint __ipc_list_resume_all (fuel : nat) (list : node) : M Z :=
  match fuel with
  | O => spin
  | S fuel =>
      e ← list_empty list;
      if (e : bool) then mret SK_EOK
      else
        temp ← hw_interrupt_disable;
        n ← node_next list;
        thread ← entry_thread n;
        sk_thread_resume thread;;
        hw_interrupt_enable temp;;
        __ipc_list_resume_all fuel list
  end.

(** [for(n = list->next; n != list; n = n->next)]: inserts before the first
    waiter of lower priority and returns the cursor. *)
Fixpoint prio_suspend_loop (fuel : nat) (list n : node) (thread : Z) : M node :=
  match fuel with
  | O => spin
  | S fuel =>
      if bool_decide (n = list) then mret n
      else
        t ← entry_thread n;
        th ← get_thread thread;
        tt_ ← get_thread t;
        if current_pri th <? current_pri tt_ then
          list_add_tail (NTlist t) (NTlist thread);;
          mret n
        else
          n ← node_next n;
          prio_suspend_loop fuel list n thread
  end.

Definition __ipc_list_suspend (list : node) (thread flag : Z) : M Z :=
  sk_thread_suspend thread;;
  (if flag =? SK_IPC_FLAG_FIFO then list_add_tail list (NTlist thread)
   else if flag =? SK_IPC_FLAG_PRIO then
     fuel ← gets node_fuel;
     n ← node_next list;
     n ← prio_suspend_loop fuel list n thread;
     when_ (bool_decide (n = list)) (list_add_tail list (NTlist thread))
   else mret tt);;
  mret SK_EOK.

(** [if(time > 0) { sk_timer_control(...); sk_timer_start(...); }]: the part of
    the blocking calls that sets the timeout of the waiting thread. *)
Definition arm_timeout (thread time : Z) : M unit :=
  when_ (0 <? time) (
    sk_timer_control (thread_timer thread) SK_TIMER_CTRL_SET_TIME time;;
    sk_timer_start (thread_timer thread);;
    mret tt).

(** The end of the calls on mailboxes and message queues, to send and to
    receive alike: the first thread on [suspend_thread] is resumed. *)
Definition resume_first (ipc temp : Z) : M Z :=
  e ← list_empty (NSuspend ipc);
  if negb e then
    n ← node_next (NSuspend ipc);
    thread ← entry_thread n;
    sk_thread_resume thread;;
    hw_interrupt_enable temp;;
    sk_schedule;;
    mret SK_EOK
  else
    hw_interrupt_enable temp;;
    mret SK_EOK.

(** ** Waiting lists *)

(** The threads [ws] wait on the list at [hd]. *)
Definition waiting (L : lists) (hd : node) (ws : list Z) : Prop := L !! hd = Some (NTlist <$> ws).

(** [t] of priority [p] goes before the first waiter of a greater number. *)
Fixpoint prio_place (ths : gmap Z sk_thread) (p t : Z) (ws : list Z) : list Z :=
  match ws with
  | [] => [t]
  | w :: ws =>
      match ths !! w with
      | Some wh => if p <? current_pri wh then t :: w :: ws else w :: prio_place ths p t ws
      | None => w :: prio_place ths p t ws
      end
  end.

(** Where a thread goes on a waiting list. *)
Definition wait_place (flag : Z) (ths : gmap Z sk_thread) (p t : Z) (ws : list Z) : list Z :=
  if flag =? SK_IPC_FLAG_FIFO then ws ++ [t] else prio_place ths p t ws.

(** The waiters are in the order of their priorities. *)
Fixpoint prio_sorted (ths : gmap Z sk_thread) (lo : Z) (ws : list Z) : Prop :=
  match ws with
  | [] => True
  | w :: ws => exists wh, ths !! w = Some wh /\ lo <= current_pri wh /\
                 prio_sorted ths (current_pri wh) ws
  end.

Lemma prio_place_sorted ths lo t th ws :
  ths !! t = Some th -> lo <= current_pri th -> prio_sorted ths lo ws ->
  prio_sorted ths lo (prio_place ths (current_pri th) t ws).
Proof.
  intros Ht. revert lo. induction ws as [|w ws IH]; intros lo Hlo; simpl.
  - intros _. exists th. auto.
  - intros (wh & Hw & Hle & Hws). rewrite Hw. destruct (Z.ltb_spec (current_pri th) (current_pri wh)).
    + simpl. exists th. split_and!; [done..|]. exists wh. split_and!; [done|lia|done].
    + simpl. exists wh. split_and!; [done..|]. apply IH; [lia|done].
Qed.

Lemma prio_place_perm ths p t ws : prio_place ths p t ws ≡ₚ t :: ws.
Proof.
  induction ws as [|w ws IH]; simpl; [done|]. destruct (ths !! w) as [wh|].
  - destruct (p <? current_pri wh); [done|]. rewrite IH. apply Permutation_swap.
  - rewrite IH. apply Permutation_swap.
Qed.

(** The insertion by priority, from any point of the list. *)
Lemma prio_place_split ths p t ws :
  exists us vs, ws = us ++ vs /\ prio_place ths p t ws = us ++ t :: vs.
Proof.
  induction ws as [|w ws (us & vs & E1 & E2)]; simpl; [by exists [], []|].
  assert (exists us vs, w :: ws = us ++ vs /\ w :: prio_place ths p t ws = us ++ t :: vs) as Hr.
  { exists (w :: us), vs. simpl. by rewrite E1 at 1; rewrite E2. }
  destruct (ths !! w) as [wh|]; [|done]. destruct (p <? current_pri wh); [|done].
  by exists [], (w :: ws).
Qed.

(** The running thread, as the blocking calls find it. *)
Record runner (L : lists) (s : kstate) (th : sk_thread) : Prop := {
  rn_thread : ks_threads s !! ks_current s = Some th;
  rn_stat : stat th & SK_THREAD_MASK = SK_THREAD_RUNNING;
  rn_detached : detached L (ks_current s);
  rn_timer : exists tms tmr o, timer_of L s tms (ks_current s) tmr o
}.

Section blocking.
Implicit Types (L : lists) (s : kstate).

Lemma prio_suspend_spec L s hd t th : forall ws front fuel,
  Rep (ks_nodes s) L -> waiting L hd (front ++ ws) -> (forall u, hd <> NTlist u) ->
  fresh L (NTlist t) -> is_Some (ks_nodes s !! NTlist t) -> ks_threads s !! t = Some th ->
  (forall w, w ∈ ws -> is_Some (ks_threads s !! w)) -> (length ws < fuel)%nat ->
  exists h, (n ← prio_suspend_loop fuel hd (default hd (head (NTlist <$> ws))) t;
     when_ (bool_decide (n = hd)) (list_add_tail hd (NTlist t))) s = Done (upd_nodes (fun _ => h) s) tt /\
    Rep h (<[hd := NTlist <$> (front ++ prio_place (ks_threads s) (current_pri th) t ws)]> L).
Proof.
  induction ws as [|w ws IH]; intros front [|fuel] HR Hw Hhd Hfr Hdom Ht Hws Hfuel; simpl in Hfuel; try lia.
  - unfold waiting in Hw. rewrite fmap_app in Hw.
    destruct (rep_add_before _ _ _ _ _ _ HR Hw Hfr Hdom) as (h & Hadd & HR' & _). simpl in Hadd.
    exists h. split; [|by rewrite fmap_app].
    erewrite bind_done by (simpl; by rewrite bool_decide_eq_true_2 by done). 
    rewrite bool_decide_eq_true_2 by done. simpl. unfold list_add_tail. by apply on_nodes_ok.
  - destruct (Hws w) as [wh Hwh]; [by left|].
    pose proof Hw as Hw'. unfold waiting in Hw'. rewrite fmap_app in Hw'.
    simpl prio_place. rewrite Hwh. destruct (Z.ltb_spec (current_pri th) (current_pri wh)) as [Hlt|Hge].
    + destruct (rep_add_before _ _ _ _ _ _ HR Hw' Hfr Hdom) as (h & Hadd & HR' & _). simpl in Hadd.
      exists h. split; [|by rewrite fmap_app]. simpl default.
      assert (prio_suspend_loop (S fuel) hd (NTlist w) t s = Done (upd_nodes (fun _ => h) s) (NTlist w)) as Hl.
      { cbn [prio_suspend_loop]. rewrite bool_decide_eq_false_2 by (intros E; by apply (Hhd w)).
        erewrite bind_done by reflexivity. unfold get_thread.
        erewrite bind_done by (apply read_at_ok; exact Ht).
        erewrite bind_done by (apply read_at_ok; exact Hwh).
        rewrite (proj2 (Z.ltb_lt _ _) Hlt). unfold list_add_tail.
        by erewrite bind_done by (apply on_nodes_ok; exact Hadd). }
      kstep Hl. rewrite bool_decide_eq_false_2 by (intros E; by apply (Hhd w)). done.
    + destruct (IH (front ++ [w]) fuel) as (h & Hr & HR'); try done; [by rewrite <- app_assoc|set_solver|lia|].
      exists h. rewrite <- app_assoc in HR'. split; [|done]. rewrite <- Hr. simpl default.
      unfold mbind at 1 2, M_bind at 1 2. f_equal. cbn [prio_suspend_loop].
      rewrite bool_decide_eq_false_2 by (intros E; by apply (Hhd w)).
      erewrite bind_done by reflexivity. unfold get_thread.
      erewrite bind_done by (apply read_at_ok; exact Ht).
      erewrite bind_done by (apply read_at_ok; exact Hwh).
      rewrite (proj2 (Z.ltb_ge _ _) Hge).
      pose proof (rep_is_list _ _ HR _ _ Hw') as Hl. rewrite fmap_cons in Hl.
      destruct (neighbours _ _ _ _ _ Hl) as [Hn _]. unfold node_next.
      by erewrite bind_done by (rewrite Hn; reflexivity).
Qed.

(** The list operation of [__ipc_list_suspend], by the flag of the object. *)
Lemma wait_insert_spec L s hd ws t th flag :
  Rep (ks_nodes s) L -> waiting L hd ws -> (forall u, hd <> NTlist u) ->
  detached L t -> ks_threads s !! t = Some th ->
  (forall w, w ∈ ws -> is_Some (ks_threads s !! w)) ->
  flag = SK_IPC_FLAG_FIFO \/ flag = SK_IPC_FLAG_PRIO ->
  exists h, (if flag =? SK_IPC_FLAG_FIFO then list_add_tail hd (NTlist t)
     else if flag =? SK_IPC_FLAG_PRIO then
       fuel ← gets node_fuel;
       n ← node_next hd;
       n ← prio_suspend_loop fuel hd n t;
       when_ (bool_decide (n = hd)) (list_add_tail hd (NTlist t))
     else mret tt) s = Done (upd_nodes (fun _ => h) s) tt /\
    Rep h (<[hd := NTlist <$> wait_place flag (ks_threads s) (current_pri th) t ws]> (delete (NTlist t) L)).
Proof.
  intros HR Hw Hhd Hd Ht Hws Hflag.
  assert (waiting (delete (NTlist t) L) hd ws) as Hw'
    by (unfold waiting; by rewrite lookup_delete_ne by (intros E; by apply (Hhd t))).
  pose proof (rep_delete _ _ (NTlist t) HR) as HR'. pose proof (fresh_delete _ _ _ _ HR Hd) as Hfr.
  pose proof (rep_dom _ _ _ _ HR Hd) as Hdom.
  unfold wait_place. destruct Hflag as [-> | ->].
  - rewrite Z.eqb_refl. unfold waiting in Hw'. destruct (rep_add_before _ _ hd (NTlist <$> ws) [] (NTlist t) HR')
      as (h & Hadd & HR2 & _); [by rewrite app_nil_r|done|done|].
    exists h. split; [unfold list_add_tail; by apply on_nodes_ok|]. by rewrite fmap_app.
  - change (SK_IPC_FLAG_PRIO =? SK_IPC_FLAG_FIFO) with false. rewrite Z.eqb_refl. kif.
    destruct (prio_suspend_spec (delete (NTlist t) L) s hd t th ws [] (node_fuel s)) as (h & Hrun & HR2);
      try done.
    { pose proof (is_list_fuel _ _ _ (rep_is_list _ _ HR' _ _ Hw')) as Hf. by rewrite length_fmap in Hf. }
    exists h. split; [|done]. erewrite bind_done by reflexivity. unfold node_next.
    by erewrite bind_done by (rewrite (rep_next _ _ _ _ HR' Hw'); reflexivity).
Qed.


Lemma prio_place_ext ths ths' p t ws :
  (forall w, w ∈ ws -> current_pri <$> ths' !! w = current_pri <$> ths !! w) ->
  prio_place ths' p t ws = prio_place ths p t ws.
Proof.
  induction ws as [|w ws IH]; intros Hw; simpl; [done|]. rewrite IH by (intros; apply Hw; by right).
  specialize (Hw w ltac:(by left)). destruct (ths' !! w), (ths !! w); simpl in Hw; try done.
  by injection Hw as ->.
Qed.

(** The heads of waiting lists. *)
Definition wait_head (hd : node) : Prop :=
  match hd with NSuspend _ | NSender _ => True | _ => False end.

(** A thread on a waiting list is in no ready queue. *)
Lemma waiting_not_ready L s hd ws t i us :
  sched_inv L s -> wait_head hd -> waiting L hd ws -> t ∈ ws -> queue L i us -> t ∉ us.
Proof.
  intros HI Hh Hw Ht Hq Hu. assert (hd = NPrio i) as ->; [|done].
  eapply (rep_disjoint _ _ (si_rep _ _ HI) hd _ (NPrio i) _ (NTlist t)); [exact Hw|exact Hq|..];
    right; by apply list_elem_of_fmap_2.
Qed.

Lemma wait_place_in flag ths p t ws : t ∈ wait_place flag ths p t ws.
Proof.
  unfold wait_place. destruct (flag =? _); [set_solver|]. rewrite prio_place_perm. by left.
Qed.

(** [__ipc_list_suspend] on the running thread. *)
Lemma ipc_list_suspend_spec L s hd ws t th flag tms tmr o :
  sched_inv L s -> wait_head hd -> waiting L hd ws -> t = ks_current s ->
  ks_threads s !! t = Some th -> stat th & SK_THREAD_MASK = SK_THREAD_RUNNING -> detached L t ->
  timer_of L s tms t tmr o -> (forall w, w ∈ ws -> is_Some (ks_threads s !! w)) ->
  flag = SK_IPC_FLAG_FIFO \/ flag = SK_IPC_FLAG_PRIO ->
  exists h L', let s' := suspended t th h (<[thread_timer t := stopped_obj o]> (ks_objs s)) s in
    __ipc_list_suspend hd t flag s = Done s' SK_EOK /\ sched_inv L' s' /\
    waiting L' hd (wait_place flag (ks_threads s) (current_pri th) t ws) /\
    timer_of L' s' (stopped_list o (thread_timer t) tms) t tmr (stopped_obj o) /\
    cur_ok L' s' (set_stat SK_THREAD_SUSPEND th) /\
    (forall n, n <> hd -> n <> NTlist t -> n <> NTimerList -> n <> NTimer (thread_timer t) ->
       L' !! n = L !! n).
Proof.
  intros HI Hh Hw Hc Ht Hst Hd HT Hws Hflag.
  destruct (suspend_current_spec L s t th tms tmr o HI Ht Hst Hd HT) as (h1 & L1 & Hsus & HI1 & Hd1 & HT1 & Hfr).
  set (s1 := suspended t th h1 (<[thread_timer t := stopped_obj o]> (ks_objs s)) s) in *.
  assert (waiting L1 hd ws) as Hw1 by (unfold waiting; rewrite Hfr; [done|by destruct hd..]).
  assert (ks_threads s1 !! t = Some (set_stat SK_THREAD_SUSPEND th)) as Ht1
    by (simpl; by rewrite lookup_insert_eq).
  assert (t ∉ ws) as Hnw.
  { intros Hin. unfold detached in Hd.
    rewrite (rep_head_alone _ _ _ _ (NTlist t) (si_rep _ _ HI) Hw) in Hd; [done|by apply list_elem_of_fmap_2]. }
  destruct (wait_insert_spec L1 s1 hd ws t (set_stat SK_THREAD_SUSPEND th) flag (si_rep _ _ HI1) Hw1) as (h & Hins & HR); try done.
  { by destruct hd. }
  { intros w Hin. simpl. rewrite lookup_insert_ne by (by intros ->). by apply Hws. }
  assert (wait_place flag (ks_threads s1) (current_pri th) t ws =
          wait_place flag (ks_threads s) (current_pri th) t ws) as Epl.
  { unfold wait_place. destruct (flag =? _); [done|]. apply prio_place_ext. intros w Hin.
    simpl. rewrite lookup_insert_ne; [done|]. by intros ->. }
  simpl current_pri in HR. rewrite Epl in HR. eexists h, _. cbv zeta.
  assert (sched_inv (<[hd := NTlist <$> wait_place flag (ks_threads s) (current_pri th) t ws]>
      (delete (NTlist t) L1)) (suspended t th h (<[thread_timer t := stopped_obj o]> (ks_objs s)) s)) as HI2.
  { eapply sched_inv_ext; [exact HI1|exact HR|apply HI|done|done|].
    intros i _. rewrite lookup_insert_ne, lookup_delete_ne; [done|done|by destruct hd]. }
  assert (waiting (<[hd := NTlist <$> wait_place flag (ks_threads s) (current_pri th) t ws]>
      (delete (NTlist t) L1)) hd (wait_place flag (ks_threads s) (current_pri th) t ws)) as Hw2
    by (unfold waiting; by rewrite lookup_insert_eq).
  split; [|split; [exact HI2|split; [exact Hw2|split; [|split]]]].
  - unfold __ipc_list_suspend. kstep Hsus. kstep Hins. done.
  - assert (forall n, n = NTimerList \/ n = NTimer (thread_timer t) ->
      (<[hd := NTlist <$> wait_place flag (ks_threads s) (current_pri th) t ws]> (delete (NTlist t) L1)) !! n
      = L1 !! n) as Hn.
    { intros n [-> | ->]; rewrite lookup_insert_ne, lookup_delete_ne; try done; by destruct hd. }
    split; [apply HT1|apply HT1| |].
    + unfold timers_on. rewrite Hn by auto. apply HT1.
    + unfold timer_placed. rewrite Hn by auto. apply HT1.
  - split; [by simpl; rewrite <- Hc, lookup_insert_eq|done|].
    intros i us Hq. simpl. rewrite <- Hc. eapply waiting_not_ready; [exact HI2|exact Hh|exact Hw2| |exact Hq].
    apply wait_place_in.
  - intros n H1 H2 H3 H4. rewrite lookup_insert_ne, lookup_delete_ne by congruence. by apply Hfr.
Qed.


(** The timeout of a thread that waits for at most [time] ticks. *)
Definition timeout_armed L s (t time : Z) : Prop :=
  exists tms tmr o, ks_timers s !! thread_timer t = Some tmr /\ ks_objs s !! thread_timer t = Some o /\
    timers_on L (thread_timer t :: tms) /\ active o = true /\
    timeout_tick tmr = u32 (ks_tick s + u32 time).

(** How long a thread waits that gave [time] ticks from [now] on: a positive number
    is armed, with any other the timer of the thread is off and the wait is
    without end. *)
Definition wait_timeout L s (t now time : Z) : Prop :=
  ks_tick s = now /\
  if 0 <? time then timeout_armed L s t time else (active <$> ks_objs s !! thread_timer t) = Some false.

Lemma stopped_inactive o : active (stopped_obj o) = false.
Proof. unfold stopped_obj. destruct (active o) eqn:E; [apply active_clear|done]. Qed.

Lemma arm_timeout_spec L s t tms tmr o time :
  sched_inv L s -> timer_of L s tms t tmr o -> active o = false ->
  exists h ob tm L', let s' := upd_nodes (fun _ => h) (upd_objs (fun _ => ob) (upd_timers (fun _ => tm) s)) in
    arm_timeout t time s = Done s' tt /\ sched_inv L' s' /\ wait_timeout L' s' t (ks_tick s) time /\
    (forall n, n <> NTimerList -> n <> NTimer (thread_timer t) -> L' !! n = L !! n) /\
    (forall a, a <> thread_timer t -> ob !! a = ks_objs s !! a).
Proof.
  intros HI HT Hina. unfold arm_timeout, wait_timeout. destruct (Z.ltb_spec 0 time) as [Hp|Hp]; simpl when_; cycle 1.
  { exists (ks_nodes s), (ks_objs s), (ks_timers s), L. cbv zeta. split_and!; [by destruct s|by destruct s|done| |done|done].
    simpl. rewrite (to_obj _ _ _ _ _ _ HT). simpl. by rewrite Hina. }
  destruct (arm_timer_spec L s t tms tmr o time HI HT) as (h & L' & s1 & Hset & Hst & HI' & Hon & Hfr).
  eexists h, _, _, L'. cbv zeta. split; [kstep Hset; kstep Hst; reflexivity|].
  split; [exact HI'|]. split; [|split; [exact Hfr|]].
  - split; [done|]. exists (others (thread_timer t) tms). do 2 eexists.
    split; [simpl; by rewrite lookup_insert_eq|]. split; [simpl; by rewrite lookup_insert_eq|].
    split; [done|]. split; [|done]. rewrite active_bit. simpl obj_flag. by rewrite (lor_pow2_bit _ 0).
  - intros a Ha. by rewrite lookup_insert_ne.
Qed.

Lemma cur_ok_frame L L' s s' cth tm :
  cur_ok L s cth -> ks_threads s' = ks_threads s -> ks_current s' = ks_current s ->
  (forall n, n <> NTimerList -> n <> NTimer tm -> L' !! n = L !! n) -> cur_ok L' s' cth.
Proof.
  intros HC Et Ec Hn. split; rewrite ?Et, ?Ec; [apply HC| |].
  - intros Hr. unfold detached. rewrite Hn by done. by apply HC.
  - intros i us. unfold queue. rewrite Hn by done. apply HC.
Qed.

(** The common part of the blocking calls: the current thread waits on [hd],
    with a timeout when [time] is positive, and interrupts are as the caller
    had them.  What remains is [k], which starts with [sk_schedule]. *)
Lemma block_spec L s hd ws t th flag time level tms tmr o :
  sched_inv L s -> ks_daif s = 0xC0 -> wait_head hd -> waiting L hd ws -> t = ks_current s ->
  ks_threads s !! t = Some th -> stat th & SK_THREAD_MASK = SK_THREAD_RUNNING -> detached L t ->
  timer_of L s tms t tmr o -> (forall w, w ∈ ws -> is_Some (ks_threads s !! w)) ->
  flag = SK_IPC_FLAG_FIFO \/ flag = SK_IPC_FLAG_PRIO -> level = 0 \/ level = 0xC0 ->
  exists h ob tm L', let s' := upd_daif (fun _ => level) (upd_timers (fun _ => tm) (suspended t th h ob s)) in
    (forall k : M Z, (__ipc_list_suspend hd t flag;; arm_timeout t time;; hw_interrupt_enable level;; k) s = k s') /\
    sched_inv L' s' /\ cur_ok L' s' (set_stat SK_THREAD_SUSPEND th) /\
    waiting L' hd (wait_place flag (ks_threads s) (current_pri th) t ws) /\
    wait_timeout L' s' t (ks_tick s) time /\
    (forall n, n <> hd -> n <> NTlist t -> n <> NTimerList -> n <> NTimer (thread_timer t) ->
       L' !! n = L !! n) /\
    (forall a, a <> thread_timer t -> ob !! a = ks_objs s !! a).
Proof.
  intros HI Hirq Hh Hw Hc Ht Hst Hd HT Hws Hflag Hlv.
  destruct (ipc_list_suspend_spec L s hd ws t th flag tms tmr o) as (h1 & L1 & Hrun & HI1 & Hw1 & HT1 & HC1 & Hfr1);
    try done.
  destruct (arm_timeout_spec _ _ _ _ _ _ time HI1 HT1 (stopped_inactive o)) as (h & ob & tm & L2 & Harm & HI2 & Hto & Hfr2 & Hob).
  exists h, ob, tm, L2. cbv zeta. split_and!.
  - intros k. kstep Hrun. kstep Harm. by erewrite bind_done by (apply enable_ok; done).
  - eapply sched_inv_ext; [exact HI2|apply HI2|done..].
  - by eapply cur_ok_frame.
  - unfold waiting. by rewrite Hfr2; [|destruct hd..].
  - exact Hto.
  - intros n H1 H2 H3 H4. rewrite Hfr2 by done. by apply Hfr1.
  - intros a Ha. rewrite Hob by done. simpl. by rewrite lookup_insert_ne.
Qed.

(** Waking the first waiter. *)
Lemma wake_first_spec L s hd t ws th ts :
  sched_inv L s -> wait_head hd -> waiting L hd (t :: ws) -> ks_threads s !! t = Some th ->
  stat th = SK_THREAD_SUSPEND -> t <> ks_current s -> queue L (current_pri th) ts ->
  exists h L', sk_thread_resume t s = Done (inserted t th h s) SK_EOK /\
    sched_inv L' (inserted t th h s) /\ waiting L' hd ws /\ queue L' (current_pri th) (ts ++ [t]) /\
    (forall n, n <> hd -> n <> NTlist t -> n <> NPrio (current_pri th) -> L' !! n = L !! n).
Proof.
  intros HI Hh Hw Ht Hst Hc Hq.
  destruct (resume_waiting_spec L s hd [] (NTlist <$> ws) t th ts) as (h & Hrun & HI'); try done.
  { by destruct hd. }
  exists h. eexists. split; [exact Hrun|]. split; [exact HI'|]. unfold enqueue, unlinked. split_and!.
  - unfold waiting. rewrite lookup_insert_ne, lookup_delete_ne, lookup_insert_ne, lookup_insert_eq; by destruct hd.
  - unfold queue. by rewrite lookup_insert_eq.
  - intros n H1 H2 H3. by rewrite lookup_insert_ne, lookup_delete_ne, !lookup_insert_ne.
Qed.


(** The running thread may call the scheduler. *)
Lemma runner_cur_ok L s th : sched_inv L s -> runner L s th -> cur_ok L s th.
Proof.
  intros HI HR. split; [apply HR|intros _; apply HR|].
  intros i us Hq. eapply detached_not_ready; [done|apply HR|done].
Qed.

(** Every completion of a run returns [a]. *)
Fixpoint returns {A} (a : A) (r : res A) : Prop :=
  match r with
  | Done _ b => b = a
  | Switch _ k => forall s, returns a (k s)
  | _ => False
  end.

(** The threads [ws] are suspended, and none of them is the current one. *)
Definition waiters (s : kstate) (ws : list Z) : Prop :=
  forall w, w ∈ ws -> w <> ks_current s /\
    exists wh, ks_threads s !! w = Some wh /\ stat wh = SK_THREAD_SUSPEND.

(** What [sk_schedule] leaves alone, besides the waiting lists. *)
Definition same_ipc s s' : Prop :=
  ks_sems s' = ks_sems s /\ ks_mutexes s' = ks_mutexes s /\ ks_events s' = ks_events s /\
  ks_mailboxes s' = ks_mailboxes s /\ ks_mqs s' = ks_mqs s /\ ks_words s' = ks_words s /\
  ks_mem s' = ks_mem s /\ ks_heap s' = ks_heap s /\ ks_objs s' = ks_objs s.

(** A call that ends with [sk_schedule(); return a;]. *)
Lemma schedule_return L s cth (a : Z) :
  sched_inv L s -> cur_ok L s cth ->
  exists s' L', after ((sk_schedule;; mret a) s) = Some s' /\ returns a ((sk_schedule;; mret a) s) /\
    sched_inv L' s' /\ (forall hd, wait_head hd -> L' !! hd = L !! hd) /\ same_ipc s s' /\
    (forall t th, ks_threads s !! t = Some th -> exists st, ks_threads s' !! t = Some (set_stat st th)) /\
    (forall t th, t <> ks_current s -> stat th = SK_THREAD_SUSPEND ->
       ks_threads s !! t = Some th -> (forall i us, queue L i us -> t ∉ us) -> ks_threads s' !! t = Some th) /\
    (ks_threads s !! ks_current s = Some cth -> stat cth = SK_THREAD_SUSPEND ->
       ks_threads s' !! ks_current s = Some cth) /\
    (ks_group s <> 0 -> stat cth <> SK_THREAD_RUNNING ->
       ks_current s' <> ks_current s /\ exists i us, queue L i us /\ ks_current s' ∈ us) /\
    (ks_current s' = ks_current s \/ exists i us, queue L i us /\ ks_current s' ∈ us) /\
    (forall i us u, 0 <= i < 32 -> queue L i us -> u ∈ us ->
       ks_current s' = u \/ exists us', queue L' i us' /\ u ∈ us').
Proof.
  intros HI HC. unfold mbind, M_bind.
  destruct (schedule_spec L s cth HI HC) as [[-> Hk]|(p & t & ts & th & h & g & L' & H)].
  { exists s, L. split_and!; try done; [|intros Hg Hst; exfalso|by auto|by eauto].
    { intros t th Ht. exists (stat th). by destruct th. }
    destruct (get_hp_thread_spec L s HI Hg) as (p & t & ts & (Hp & Hq & _) & _).
    by destruct (Hk p _ Hp Hq) as [?|[? _]]. }
  destruct H as (Hh & Ht & Hne & _ & HI' & Hd & Haft & Hrun).
  pose proof (co_thread _ _ _ HC) as Hc.
  assert (forall u uh, ks_threads s !! u = Some uh -> exists st,
    ks_threads (dispatched (masked s) (ks_current s) cth t th h g) !! u = Some (set_stat st uh)) as Hpri.
  { intros u uh Hu. simpl. rewrite lookup_insert. case_decide as Et; [subst; eexists; do 2 f_equal; congruence|].
    assert (exists st, ks_threads s !! u = Some (set_stat st uh)) by (exists (stat uh); by destruct uh).
    destruct (requeues cth); [|done]. rewrite lookup_insert. case_decide as Ec; [|done].
    subst. eexists. do 2 f_equal. congruence. }
  assert (forall u uh, u <> ks_current s -> stat uh = SK_THREAD_SUSPEND ->
    ks_threads s !! u = Some uh -> (forall i us, queue L i us -> u ∉ us) ->
    ks_threads (dispatched (masked s) (ks_current s) cth t th h g) !! u = Some uh) as Hsus.
  { intros u uh Hu _ Hth Hnr. simpl. rewrite lookup_insert_ne.
    - destruct (requeues cth); [by rewrite lookup_insert_ne|done].
    - intros ->. destruct Hh as (_ & Hq & _). apply (Hnr _ _ Hq). by left. }
  assert (ks_threads s !! ks_current s = Some cth -> stat cth = SK_THREAD_SUSPEND ->
    ks_threads (dispatched (masked s) (ks_current s) cth t th h g) !! ks_current s = Some cth) as Hcs.
  { intros _ Hst. simpl. rewrite lookup_insert_ne by done.
    assert (requeues cth = false) as -> by (unfold requeues; by rewrite Hst). done. }
  assert (exists i us, queue L i us /\ t ∈ us) as Hin.
  { destruct Hh as (_ & Hq & _). exists p, (t :: ts). split; [done|by left]. }
  pose proof (queues_after_keep L L' p t ts (ks_current s) cth Hh Haft) as Hkeep.
  assert (forall hd, wait_head hd -> L' !! hd = L !! hd) as Hw.
  { intros hd Hhd. apply (qa_frame _ _ _ _ _ _ Haft); by destruct hd. }
  destruct (ks_nest s =? 0).
  - destruct Hrun as (k & -> & Hk). eexists _, L'. split; [reflexivity|].
    split; [simpl; intros s2; by rewrite Hk|]. split; [exact HI'|]. split_and!; auto; done.
  - rewrite Hrun. eexists _, L'. split; [reflexivity|]. split; [done|].
    split; [eapply sched_inv_ext; [exact HI'|apply HI'|apply HI|done..]|]. split_and!; auto; done.
Qed.


(** The state of the IPC objects but for the thread's own timer. *)
Definition same_ipc_but s s' (tm : Z) : Prop :=
  ks_sems s' = ks_sems s /\ ks_mutexes s' = ks_mutexes s /\ ks_events s' = ks_events s /\
  ks_mailboxes s' = ks_mailboxes s /\ ks_mqs s' = ks_mqs s /\ ks_words s' = ks_words s /\
  ks_mem s' = ks_mem s /\ (forall a, a <> tm -> ks_objs s' !! a = ks_objs s !! a).

(** Blocking in thread context while some thread is ready: the current thread
    waits on [hd], another one has the processor, and [k] runs when the waiting
    thread gets it back. *)
Lemma block_switch L s hd ws th flag time :
  sched_inv L s -> runner L s th -> ks_nest s = 0 -> ks_group s <> 0 ->
  wait_head hd -> waiting L hd ws -> waiters s ws ->
  flag = SK_IPC_FLAG_FIFO \/ flag = SK_IPC_FLAG_PRIO ->
  exists s' L', let c := ks_current s in let ws' := wait_place flag (ks_threads s) (current_pri th) c ws in
    (forall k : M Z, exists kk,
       (__ipc_list_suspend hd c flag;; arm_timeout c time;; hw_interrupt_enable (ks_daif s);; sk_schedule;; k)
         (masked s) = Switch s' kk /\
       forall s2, kk s2 = bind_res (hw_interrupt_enable (ks_daif s) s2) (fun _ => k)) /\
    sched_inv L' s' /\ ks_current s' <> c /\ waiting L' hd ws' /\ waiters s' ws' /\
    ks_threads s' !! c = Some (set_stat SK_THREAD_SUSPEND th) /\
    same_ipc_but s s' (thread_timer c) /\
    (forall hd' us, wait_head hd' -> hd' <> hd -> waiting L hd' us -> waiters s us ->
       waiting L' hd' us /\ waiters s' us) /\
    wait_timeout L' s' c (ks_tick s) time.
Proof.
  intros HI HR Hn Hg Hh Hw Hws Hflag. cbv zeta. destruct (rn_timer _ _ _ HR) as (tms & tmr & ob & HT).
  destruct (block_spec L (masked s) hd ws (ks_current s) th flag time (ks_daif s) tms tmr ob)
    as (h & obm & tm & L1 & Hrun & HI1 & HC1 & Hw1 & Hto & Hfr & Hob);
    try done; try apply HR; [by apply sched_inv_masked|by destruct HT| |apply HI|].
  { intros w Hin. destruct (Hws w Hin) as (_ & wh & Hwh & _). by exists wh. }
  set (s1 := upd_daif _ _) in *. pose proof (schedule_spec L1 s1 _ HI1 HC1) as Hsch.
  destruct Hsch as [[_ Hk]|(p & t & ts & th' & h' & g & L' & H)].
  { exfalso. destruct (get_hp_thread_spec L1 s1 HI1 Hg) as (p & t & ts & (Hp & Hq & _) & _).
    by destruct (Hk p _ Hp Hq) as [?|[? _]]. }
  destruct H as (Hhi & Ht & Hne & _ & HI' & Hd & Haft & Hsch).
  change (ks_nest s1) with (ks_nest s) in Hsch. rewrite Hn in Hsch. destruct Hsch as (k0 & Hsch & Hk0).
  change (ks_current s1) with (ks_current s) in *. change (ks_daif s1) with (ks_daif s) in *.
  eexists _, L'. split; [|split; [exact HI'|]].
  { intros k. eexists. rewrite Hrun. unfold mbind, M_bind. rewrite Hsch. split; [reflexivity|].
    intros s2. cbv beta. by rewrite Hk0. }
  assert (t ∉ wait_place flag (ks_threads s) (current_pri th) (ks_current s) ws) as Htn.
  { intros Hin. destruct Hhi as (_ & Hq & _).
    eapply (waiting_not_ready L1 s1 hd _ t p (t :: ts)); try done. by left. }
  assert (forall hd', wait_head hd' -> L' !! hd' = L1 !! hd') as HL.
  { intros hd' Hh'. apply (qa_frame _ _ _ _ _ _ Haft); by destruct hd'. }
  simpl. split_and!; try done.
  - unfold waiting. by rewrite HL.
  - intros w Hin. simpl. split; [by intros ->|]. rewrite lookup_insert_ne by (by intros ->).
    destruct (decide (w = ks_current s)) as [->|Hwc].
    + rewrite lookup_insert_eq. by eexists.
    + rewrite lookup_insert_ne by done. apply Hws. revert Hin.
      unfold wait_place. destruct (flag =? _); [set_solver|]. rewrite prio_place_perm. set_solver.
  - rewrite lookup_insert_ne by done. by rewrite lookup_insert_eq.
  - intros hd' us Hh' Hd' Hu Hus.
    assert (waiting L1 hd' us) as Hu1 by (unfold waiting; rewrite Hfr; [done|done|by destruct hd'..]).
    split; [unfold waiting; by rewrite HL|]. intros u Hin. destruct (Hus u Hin) as (Huc & uh & Huh & Hst).
    assert (u <> t) as Hut.
    { intros ->. destruct Hhi as (_ & Hq & _).
      eapply (waiting_not_ready L1 s1 hd' us t p (t :: ts)); try done. by left. }
    split; [done|]. exists uh. simpl. by rewrite !lookup_insert_ne.
  - destruct Hto as [Htk Hto]. split; [done|]. destruct (0 <? time); [|exact Hto].
    destruct Hto as (tms' & tmr' & o' & H1 & H2 & H3 & H4 & H5). exists tms', tmr', o'. split_and!; try done.
    unfold timers_on. rewrite (qa_frame _ _ _ _ _ _ Haft); done.
Qed.

(** Scheduling by the running thread leaves the waiting threads where they are. *)
Lemma schedule_waiters L s th (a : Z) :
  sched_inv L s -> runner L s th ->
  exists s' L', after ((sk_schedule;; mret a) s) = Some s' /\ returns a ((sk_schedule;; mret a) s) /\
    sched_inv L' s' /\ same_ipc s s' /\
    (forall t th, ks_threads s !! t = Some th -> exists st, ks_threads s' !! t = Some (set_stat st th)) /\
    (forall i us u, 0 <= i < 32 -> queue L i us -> u ∈ us ->
       ks_current s' = u \/ exists us', queue L' i us' /\ u ∈ us') /\
    (forall hd ws, wait_head hd -> waiting L hd ws -> waiters s ws -> waiting L' hd ws /\ waiters s' ws).
Proof.
  intros HI HR. destruct (schedule_return L s th a HI (runner_cur_ok _ _ _ HI HR))
    as (s' & L' & Haft & Hret & HI' & HL' & Hsame & Hths & Hsus & _ & _ & Hcur & Hkeep).
  exists s', L'. split_and!; try done. intros hd ws Hh Hw Hws. split; [unfold waiting; by rewrite HL'|].
  intros u Hu. destruct (Hws u Hu) as (Huc & uh & Huh & Hust). split.
  - intros ->. destruct Hcur as [E|(i & us & Hq & Hin)]; [done|]. by eapply (waiting_not_ready L s hd).
  - exists uh. split; [|done]. apply Hsus; try done.
    intros i us Hq. by eapply (waiting_not_ready L s hd).
Qed.

(** [hw_interrupt_enable] in any interrupt state. *)
Lemma enable_any d s :
  d = 0 \/ d = 0xC0 -> irq_wf s ->
  exists d', (d' = 0 \/ d' = 0xC0) /\ hw_interrupt_enable d s = Done (upd_daif (fun _ => d') s) tt.
Proof.
  intros [-> | ->] [E|E]; [exists 0|exists 0|exists 0|exists 0xC0]; (split; [by auto|]);
    destruct s; simpl in *; by subst.
Qed.

(** Waking the first waiter of [hd] and scheduling. *)
Lemma wake_schedule_any L s hd w ws th d (a : Z) :
  sched_inv L s -> runner L s th -> wait_head hd -> waiting L hd (w :: ws) -> waiters s (w :: ws) ->
  d = 0 \/ d = 0xC0 ->
  exists s' L' r,
    (sk_thread_resume w;; hw_interrupt_enable d;; sk_schedule;; mret a) s = r /\
    after r = Some s' /\ returns a r /\ sched_inv L' s' /\ waiting L' hd ws /\ waiters s' ws /\
    same_ipc s s' /\ (ks_current s' = w \/ exists i us, queue L' i us /\ w ∈ us) /\
    (forall t th, ks_threads s !! t = Some th -> exists st, ks_threads s' !! t = Some (set_stat st th)) /\
    (forall hd' us, wait_head hd' -> hd' <> hd -> waiting L hd' us -> waiters s us ->
       waiting L' hd' us /\ waiters s' us).
Proof.
  intros HI HR Hh Hw Hws Hd. destruct (Hws w) as (Hwc & wh & Hwh & Hwst); [by left|].
  destruct (si_thread _ _ HI w wh Hwh) as [Hp _]. destruct (si_queue _ _ HI _ Hp) as (ts & Hts & _).
  destruct (wake_first_spec L s hd w ws wh ts) as (h & L1 & Hrun & HI1 & Hw1 & Hq1 & Hfr); try done.
  destruct (enable_any d (inserted w wh h s) Hd (si_irq _ _ HI1)) as (d' & Hdd & Hen).
  set (s1 := upd_daif (fun _ => d') (inserted w wh h s)) in *.
  assert (sched_inv L1 s1) as HI1' by (eapply sched_inv_ext; [exact HI1|apply HI1|exact Hdd|done..]).
  assert (runner L1 s1 th) as HR1.
  { destruct (rn_timer _ _ _ HR) as (tms & tmr & o & HT).
    assert (forall n, n = NTimerList \/ n = NTimer (thread_timer (ks_current s)) -> L1 !! n = L !! n) as Hn
      by (intros n [-> | ->]; apply Hfr; by destruct hd).
    split; simpl; [rewrite lookup_insert_ne by done; apply HR|apply HR| |].
    - unfold detached. rewrite Hfr; [apply HR|by destruct hd|congruence|done].
    - exists tms, tmr, o. split; try apply HT; unfold timers_on, timer_placed; rewrite Hn by auto; apply HT. }
  assert ((sk_thread_resume w;; hw_interrupt_enable d;; sk_schedule;; mret a) s =
    (sk_schedule;; mret a) s1) as Hall by (by kstep Hrun; kstep Hen).
  destruct (schedule_waiters L1 s1 th a HI1' HR1)
    as (s' & L' & Haft & Hret & HI' & Hsame & Hths & Hkeep & Hwait).
  eexists s', L', _. split; [exact Hall|].
  pose proof (rep_is_list _ _ (si_rep _ _ HI) _ _ Hw) as [[_ Hnd]%NoDup_cons _].
  apply NoDup_fmap_1 in Hnd. apply NoDup_cons in Hnd as [Hwn _].
  assert (forall us, waiters s us -> w ∉ us -> waiters s1 us) as Hs1.
  { intros us Hus Hn u Hu. destruct (Hus u Hu) as (Huc & uh & Huh & Hust). split; [done|].
    exists uh. simpl. rewrite lookup_insert_ne by (by intros ->). done. }
  assert (waiters s1 ws) as Hws1 by (apply Hs1; [intros u Hu; apply Hws; by right|done]).
  destruct (Hwait hd ws Hh Hw1 Hws1) as [Hw' Hws']. split_and!; try done.
  - destruct (Hkeep _ _ w Hp Hq1) as [?|(us & ? & ?)]; [set_solver|by left|right; eauto].
  - intros t th0 Ht. destruct (decide (t = w)) as [->|Htw].
    + destruct (Hths w (set_stat SK_THREAD_READY wh)) as [st Hst]; [simpl; by rewrite lookup_insert_eq|].
      exists st. rewrite Hst. assert (th0 = wh) as -> by congruence. done.
    + apply Hths. simpl. by rewrite lookup_insert_ne.
  - intros hd' us Hh' Hd' Hu Hus. apply Hwait; [done| |].
    + unfold waiting. rewrite Hfr; [done|done|by destruct hd'..].
    + apply Hs1; [done|]. intros Hin. apply Hd'.
      eapply (rep_disjoint _ _ (si_rep _ _ HI) hd' _ hd _ (NTlist w)); [exact Hu|exact Hw|..];
        right; apply list_elem_of_fmap_2; [done|by left].
Qed.

(** The same from a state with interrupts off, which the caller had as in [s]. *)
Lemma wake_schedule L s hd w ws th (a : Z) :
  sched_inv L s -> runner L s th -> wait_head hd -> waiting L hd (w :: ws) -> waiters s (w :: ws) ->
  exists s' L' r,
    (sk_thread_resume w;; hw_interrupt_enable (ks_daif s);; sk_schedule;; mret a) (masked s) = r /\
    after r = Some s' /\ returns a r /\ sched_inv L' s' /\ waiting L' hd ws /\ waiters s' ws /\
    same_ipc s s' /\ (ks_current s' = w \/ exists i us, queue L' i us /\ w ∈ us) /\
    (forall t th, ks_threads s !! t = Some th -> exists st, ks_threads s' !! t = Some (set_stat st th)) /\
    (forall hd' us, wait_head hd' -> hd' <> hd -> waiting L hd' us -> waiters s us ->
       waiting L' hd' us /\ waiters s' us).
Proof.
  intros HI HR Hh Hw Hws. apply (wake_schedule_any L (masked s) hd w ws th); try done.
  - by apply sched_inv_masked.
  - by destruct HR as [? ? ? (tms & tmr & o & [])]; split; try done; exists tms, tmr, o.
  - apply HI.
Qed.

(** What the running thread and the waiters depend on. *)
Lemma runner_ext L s s' th :
  runner L s th -> ks_threads s' = ks_threads s -> ks_current s' = ks_current s ->
  ks_timers s' = ks_timers s -> ks_objs s' = ks_objs s -> runner L s' th.
Proof.
  intros [? ? ? (tms & tmr & o & [])] Et Ec Em Eo. split; rewrite ?Et, ?Ec; try done.
  exists tms, tmr, o. split; by rewrite ?Em, ?Eo.
Qed.

Lemma waiters_ext s s' ws :
  waiters s ws -> ks_threads s' = ks_threads s -> ks_current s' = ks_current s -> waiters s' ws.
Proof. intros H Et Ec. unfold waiters. by rewrite Et, Ec. Qed.

(** [if(!sk_list_empty(hd)) { thread = sk_list_entry(hd->next, ...); ... }] *)
Lemma first_waiter {A} L s hd ws (k : Z -> M A) (k0 : M A) :
  Rep (ks_nodes s) L -> waiting L hd ws ->
  (e ← list_empty hd;
   if negb e then n ← node_next hd; thread ← entry_thread n; k thread else k0) s =
  match ws with [] => k0 s | w :: _ => k w s end.
Proof.
  intros HR Hw. unfold list_empty.
  erewrite bind_done by (rewrite (rep_empty _ _ _ _ HR Hw); reflexivity). destruct ws as [|w ws].
  - by rewrite bool_decide_eq_true_2.
  - rewrite bool_decide_eq_false_2 by done. kif. unfold node_next.
    erewrite bind_done by (rewrite (rep_next _ _ _ _ HR Hw); reflexivity). done.
Qed.

(** The first of the waiting threads is ready or has the processor. *)
Definition first_runs L s (ws : list Z) : Prop :=
  forall w, head ws = Some w -> ks_current s = w \/ exists i us, queue L i us /\ w ∈ us.

Lemma resume_first_spec L s ipc ws th d :
  sched_inv L s -> runner L s th -> waiting L (NSuspend ipc) ws -> waiters s ws -> d = 0 \/ d = 0xC0 ->
  exists s' L', let r := resume_first ipc d s in
    after r = Some s' /\ sched_inv L' s' /\ returns SK_EOK r /\
    waiting L' (NSuspend ipc) (tail ws) /\ waiters s' (tail ws) /\ same_ipc s s' /\ first_runs L' s' ws /\
    (forall hd us, wait_head hd -> hd <> NSuspend ipc -> waiting L hd us -> waiters s us ->
       waiting L' hd us /\ waiters s' us).
Proof.
  intros HI HR Hw Hws Hd. unfold resume_first. cbv zeta.
  erewrite (first_waiter L _ _ ws) by (apply HI || exact Hw). destruct ws as [|w ws].
  - destruct (enable_any d s Hd (si_irq _ _ HI)) as (d' & Hdd & Hen). kstep Hen. eexists _, L.
    split; [reflexivity|]. split; [eapply sched_inv_ext; [exact HI|apply HI|exact Hdd|done..]|]. done.
  - destruct (wake_schedule_any L s (NSuspend ipc) w ws th d SK_EOK)
      as (s' & L' & r & Hrun & Haft & Hret & HI' & Hw' & Hws' & Hsame & Hrdy & _ & Hoth); try done.
    rewrite Hrun. exists s', L'. do 6 (split; [done|]). split; [|done]. by intros ? [= <-].
Qed.

End blocking.

(** ** Properties *)

Lemma prio_sorted_ext ths ths' lo ws :
  (forall w, current_pri <$> ths' !! w = current_pri <$> ths !! w) ->
  prio_sorted ths lo ws -> prio_sorted ths' lo ws.
Proof.
  intros He. revert lo. induction ws as [|w ws IH]; intros lo; simpl; [done|].
  intros (wh & Hw & Hlo & Hs). specialize (He w). rewrite Hw in He. simpl in He.
  destruct (ths' !! w) as [wh'|]; [|done]. injection He as He. exists wh'. rewrite He. auto.
Qed.

(** C28: [__ipc_list_suspend] with the priority flag on the running thread: the
    thread is SUSPENDed and joins the waiting list, which, if it was sorted by
    priority, still is, with exactly this thread added; nothing else waits
    elsewhere than before, and the current thread is in no ready queue. *)
Theorem ipc_suspend_by_priority L s hd ws t th tms tmr o :
  sched_inv L s -> wait_head hd -> waiting L hd ws -> t = ks_current s ->
  ks_threads s !! t = Some th -> stat th = SK_THREAD_RUNNING -> detached L t ->
  timer_of L s tms t tmr o -> prio_sorted (ks_threads s) 0 ws ->
  exists s' L' ws', __ipc_list_suspend hd t SK_IPC_FLAG_PRIO s = Done s' SK_EOK /\
    sched_inv L' s' /\ ks_threads s' !! t = Some (set_stat SK_THREAD_SUSPEND th) /\
    waiting L' hd ws' /\ ws' ≡ₚ t :: ws /\ prio_sorted (ks_threads s') 0 ws' /\
    cur_ok L' s' (set_stat SK_THREAD_SUSPEND th) /\
    (forall hd' us, wait_head hd' -> hd' <> hd -> waiting L hd' us -> waiting L' hd' us).
Proof.
  intros HI Hh Hw Hc Ht Hst Hd HT Hs.
  assert (forall w, w ∈ ws -> is_Some (ks_threads s !! w)) as Hws.
  { intros w Hin. clear -Hs Hin. revert Hs. generalize 0. induction ws as [|x ws IH]; [set_solver|].
    intros lo (wh & Hwh & _ & Hs). apply elem_of_cons in Hin as [->|Hin]; [eauto|]. by eapply IH. }
  destruct (ipc_list_suspend_spec L s hd ws t th SK_IPC_FLAG_PRIO tms tmr o)
    as (h & L' & Hrun & HI' & Hw' & _ & HC & Hfr); try done; [by rewrite Hst|by right|].
  eexists _, L', _. split; [exact Hrun|]. split; [exact HI'|].
  split; [simpl; by rewrite lookup_insert_eq|]. split; [exact Hw'|]. split_and!.
  - apply prio_place_perm.
  - eapply prio_sorted_ext; [|apply prio_place_sorted; [done| |done]].
    + intros w. simpl. destruct (decide (w = t)) as [->|]; [by rewrite lookup_insert_eq, Ht|by rewrite lookup_insert_ne].
    + by apply (si_thread _ _ HI t).
  - done.
  - intros hd' us Hh' Hne Hu. unfold waiting. rewrite Hfr; [done|done|by destruct hd'..].
Qed.

(** A thread that is ready at priority [i]. *)
Definition ready_at (L : lists) (s : kstate) (i t : Z) : Prop :=
  exists th us, ks_threads s !! t = Some th /\ stat th = SK_THREAD_READY /\ queue L i us /\ t ∈ us.

Lemma ready_at_wake L L' s h i u w wh ts :
  ready_at L s i u -> u <> w -> queue L (current_pri wh) ts -> queue L' (current_pri wh) (ts ++ [w]) ->
  (forall n, (forall x, n <> NSuspend x) -> (forall x, n <> NSender x) -> n <> NTlist w ->
     n <> NPrio (current_pri wh) -> L' !! n = L !! n) ->
  ready_at L' (inserted w wh h s) i u.
Proof.
  intros (uh & us & Hu & Hst & Hq & Hin) Hne Hts Hts' Hfr. exists uh.
  simpl. rewrite lookup_insert_ne by done. destruct (decide (i = current_pri wh)) as [->|Hi].
  - exists (ts ++ [w]). rewrite (queue_inj _ _ _ _ Hq Hts) in Hin. split_and!; try done. set_solver.
  - exists us. split_and!; try done. unfold queue. rewrite Hfr; try done. congruence.
Qed.

Lemma resume_all_spec hd ws : forall L s fuel,
  sched_inv L s -> wait_head hd -> waiting L hd ws ->
  (forall w, w ∈ ws -> w <> ks_current s /\ exists wh, ks_threads s !! w = Some wh /\
     stat wh = SK_THREAD_SUSPEND) ->
  (length ws < fuel)%nat ->
  exists s' L', __ipc_list_resume_all fuel hd s = Done s' SK_EOK /\ sched_inv L' s' /\
    waiting L' hd [] /\ ks_current s' = ks_current s /\ ks_daif s' = ks_daif s /\
    (forall w, w ∈ ws -> exists i, ready_at L' s' i w) /\
    (forall u i, u ∉ ws -> ready_at L s i u -> ready_at L' s' i u).
Proof.
  induction ws as [|w ws IH]; intros L s [|fuel] HI Hh Hw Hall Hfuel; simpl in Hfuel; try lia.
  - exists s, L. split; [|split_and!; try done; set_solver].
    cbn [__ipc_list_resume_all]. unfold list_empty.
    by erewrite bind_done by (rewrite (rep_empty _ _ _ _ (si_rep _ _ HI) Hw); reflexivity).
  - destruct (Hall w) as (Hwc & wh & Hwh & Hst); [by left|].
    destruct (si_thread _ _ HI w wh Hwh) as [Hp _]. destruct (si_queue _ _ HI _ Hp) as (ts & Hts & _).
    destruct (wake_first_spec L (masked s) hd w ws wh ts) as (h & L1 & Hrun & HI1 & Hw1 & Hq1 & Hfr1);
      try done; [by apply sched_inv_masked|].
    set (s1 := upd_daif (fun _ => ks_daif s) (inserted w wh h (masked s))).
    assert (sched_inv L1 s1) as HI1' by (eapply sched_inv_ext; [exact HI1|apply HI1|apply HI|done..]).
    pose proof (rep_is_list _ _ (si_rep _ _ HI) _ _ Hw) as [[_ Hnd]%NoDup_cons _].
    apply NoDup_fmap_1 in Hnd. apply NoDup_cons in Hnd as [Hwn _].
    destruct (IH L1 s1 fuel HI1' Hh Hw1) as (s' & L' & Hr & HI' & Hw' & Hc' & Hd' & Hall' & Hkeep); [|lia|].
    { intros u Hu. destruct (Hall u) as (Huc & uh & Huh & Hust); [by right|]. split; [done|].
      exists uh. simpl. rewrite lookup_insert_ne by (by intros ->). done. }
    exists s', L'. split; [|split_and!; try done].
    + cbn [__ipc_list_resume_all]. unfold list_empty.
      erewrite bind_done by (rewrite (rep_empty _ _ _ _ (si_rep _ _ HI) Hw); reflexivity).
      rewrite bool_decide_eq_false_2 by done. kstep (disable_ok s (si_irq _ _ HI)). unfold node_next.
      erewrite bind_done by (simpl; rewrite (rep_next _ _ _ _ (si_rep _ _ HI) Hw); reflexivity).
      erewrite bind_done by reflexivity. kstep Hrun.
      erewrite bind_done by (apply enable_ok; [apply HI|done]). exact Hr.
    + intros u [->|Hu]%elem_of_cons; [|by apply Hall'].
      exists (current_pri wh). apply Hkeep; [done|]. eexists _, (ts ++ [w]).
      split; [simpl; by rewrite lookup_insert_eq|]. split_and!; [done|done|set_solver].
    + intros u i [Hu1 Hu2]%not_elem_of_cons Hrd. apply Hkeep; [done|].
      apply (ready_at_wake L L1 s h i u w wh ts); try done.
      intros n H1 H2 H3 H4. apply Hfr1; try done. by destruct hd.
Qed.

(** C29: [__ipc_list_resume_all] on a list of suspended threads terminates, with
    one round per waiter; it empties the list, makes every waiter READY in a
    ready queue and leaves the threads that were ready there. *)
Theorem resume_all_wakes_everyone L s hd ws fuel :
  sched_inv L s -> wait_head hd -> waiting L hd ws ->
  (forall w, w ∈ ws -> w <> ks_current s /\ exists wh, ks_threads s !! w = Some wh /\
     stat wh = SK_THREAD_SUSPEND) ->
  (length ws < fuel)%nat ->
  exists s' L', __ipc_list_resume_all fuel hd s = Done s' SK_EOK /\ sched_inv L' s' /\
    waiting L' hd [] /\ ks_current s' = ks_current s /\
    (forall w, w ∈ ws -> exists i, ready_at L' s' i w) /\
    (forall u i, u ∉ ws -> ready_at L s i u -> ready_at L' s' i u).
Proof.
  intros HI Hh Hw Hall Hf.
  destruct (resume_all_spec hd ws L s fuel HI Hh Hw Hall Hf) as (s' & L' & ? & ? & ? & ? & _ & ? & ?).
  exists s', L'. done.
Qed.

(** ** A concrete waiting list *)

(** Thread 100 (priority 10) runs, 200 (priority 5) is ready, 300 (priority 8)
    and 400 (priority 12) wait, in this order, on the object 900. *)
Definition wait_lists : lists :=
  <[NSuspend 900 := [NTlist 300; NTlist 400]]> (<[NPrio 5 := [NTlist 200]]>
    (<[NTlist 100 := []]> (<[NTimerList := []]> (<[NTimer 220 := []]> prio_lists)))).

Definition wait_threads : gmap Z sk_thread :=
  list_to_map [(100, a_thread SK_THREAD_RUNNING 10 5); (200, a_thread SK_THREAD_READY 5 5);
    (300, a_thread SK_THREAD_SUSPEND 8 5); (400, a_thread SK_THREAD_SUSPEND 12 5)].

Definition wait_state : kstate :=
  upd_objs (fun _ => list_to_map [(220, mk_object 7 0); (900, mk_object 1 1)])
    (upd_timers (fun _ => list_to_map [(220, mk_timer FN_sk_thread_timeout 100 0 0)])
      (demo wait_lists wait_threads (2 ^ 5))).

Lemma wait_state_inv : sched_inv wait_lists wait_state.
Proof. apply sched_check_sound. by vm_compute. Qed.

Lemma wait_state_timer :
  timer_of wait_lists wait_state [] 100 (mk_timer FN_sk_thread_timeout 100 0 0) (mk_object 7 0).
Proof. split; [by vm_compute..|right; by vm_compute]. Qed.

Lemma wait_state_runner : runner wait_lists wait_state (a_thread SK_THREAD_RUNNING 10 5).
Proof.
  split; [by vm_compute|done|by vm_compute|].
  exists [], (mk_timer FN_sk_thread_timeout 100 0 0), (mk_object 7 0). apply wait_state_timer.
Qed.

Lemma wait_state_waiters : waiters wait_state [300; 400].
Proof.
  intros w Hw. apply elem_of_cons in Hw as [->|Hw]; [|apply list_elem_of_singleton in Hw as ->];
    (split; [done|eexists; by vm_compute]).
Qed.

Lemma ipc_suspend_by_priority_witness :
  exists s' L' ws', __ipc_list_suspend (NSuspend 900) 100 SK_IPC_FLAG_PRIO wait_state = Done s' SK_EOK /\
    sched_inv L' s' /\
    ks_threads s' !! 100 = Some (set_stat SK_THREAD_SUSPEND (a_thread SK_THREAD_RUNNING 10 5)) /\
    waiting L' (NSuspend 900) ws' /\ ws' ≡ₚ [100; 300; 400] /\ prio_sorted (ks_threads s') 0 ws' /\
    cur_ok L' s' (set_stat SK_THREAD_SUSPEND (a_thread SK_THREAD_RUNNING 10 5)) /\
    (forall hd' us, wait_head hd' -> hd' <> NSuspend 900 -> waiting wait_lists hd' us -> waiting L' hd' us).
Proof.
  apply (ipc_suspend_by_priority wait_lists wait_state (NSuspend 900) [300; 400] 100
    (a_thread SK_THREAD_RUNNING 10 5) [] (mk_timer FN_sk_thread_timeout 100 0 0) (mk_object 7 0));
    [apply wait_state_inv|done|by vm_compute|done|by vm_compute|done|by vm_compute|apply wait_state_timer|].
  exists (a_thread SK_THREAD_SUSPEND 8 5). split_and!; [by vm_compute|done|].
  exists (a_thread SK_THREAD_SUSPEND 12 5). by vm_compute.
Defined.

Lemma resume_all_wakes_everyone_witness :
  exists s' L', __ipc_list_resume_all 3 (NSuspend 900) wait_state = Done s' SK_EOK /\ sched_inv L' s' /\
    waiting L' (NSuspend 900) [] /\ ks_current s' = ks_current wait_state /\
    (forall w, w ∈ [300; 400] -> exists i, ready_at L' s' i w) /\
    (forall u i, u ∉ [300; 400] -> ready_at wait_lists wait_state i u -> ready_at L' s' i u).
Proof.
  apply (resume_all_wakes_everyone wait_lists wait_state (NSuspend 900) [300; 400]);
    [apply wait_state_inv|done|by vm_compute|exact wait_state_waiters|simpl; lia].
Defined.
