(* ===== verification/Semaphore.v ===== *)
(** * Semaphores: [src/ipc/semaphore.c]

    The operations and their correctness against the abstract counting
    semaphore: a value and a queue of waiters, of which one is zero or empty. *)

From S2P Require Import Prelude BaseDef KList Slab Kernel Sched KObj Timer Thread IpcBase.

Local Open Scope c_scope.

Definition SK_SEM_VALUE_MAX : Z := 0xFFFF.

Definition get_sem (sem : Z) : M Z := read_at ks_sems sem.
Definition upd_sem (sem : Z) (g : Z -> Z) : M unit := update_at ks_sems upd_sems sem g.

(** ** Operations *)

Definition sk_sem_init (sem name value flag : Z) : M Z :=
  sk_object_init sem SK_OBJECT_SEMAPHORE name;;
  __ipc_object_init sem;;
  upd_sem sem (fun _ => value);;
  upd_obj sem (set_obj_flag flag);;
  mret SK_EOK.

Definition sk_sem_create (name value flag : Z) : M Z :=
  sem ← sk_object_alloc SK_OBJECT_SEMAPHORE name;
  if sem =? SK_NULL then mret sem
  else
    __ipc_object_init sem;;
    upd_sem sem (fun _ => value);;
    upd_obj sem (set_obj_flag flag);;
    mret sem.

Definition sk_sem_destroy (sem : Z) : M Z :=
  if sem =? SK_NULL then mret SK_EOK
  else
    fuel ← gets node_fuel;
    __ipc_list_resume_all fuel (NSuspend sem);;
    sk_object_delete sem;;
    mret SK_EOK.

Definition sk_sem_wait (sem time : Z) : M Z :=
  thread ← sk_current_thread;
  temp ← hw_interrupt_disable;
  value ← get_sem sem;
  if 0 <? value then
    upd_sem sem (fun v => u16 (v - 1));;
    hw_interrupt_enable temp;;
    mret SK_EOK
  else if time =? 0 then
    hw_interrupt_enable temp;;
    mret SK_ETIMEOUT
  else
    o ← get_obj sem;
    __ipc_list_suspend (NSuspend sem) thread (obj_flag o);;
    arm_timeout thread time;;
    hw_interrupt_enable temp;;
    sk_schedule;;
    mret SK_EOK.

Definition sk_sem_trywait (sem : Z) : M Z := sk_sem_wait sem 0.

Definition sk_sem_post (sem : Z) : M Z :=
  thread ← sk_current_thread;
  temp ← hw_interrupt_disable;
  e ← list_empty (NSuspend sem);
  if negb e then
    n ← node_next (NSuspend sem);
    thread ← entry_thread n;
    sk_thread_resume thread;;
    hw_interrupt_enable temp;;
    sk_schedule;;
    mret SK_EOK
  else
    value ← get_sem sem;
    if value <? SK_SEM_VALUE_MAX then
      upd_sem sem (fun v => u16 (v + 1));;
      hw_interrupt_enable temp;;
      mret SK_EOK
    else
      hw_interrupt_enable temp;;
      mret SK_EFULL.

(** ** The abstract semaphore *)

(** The value and the waiters of a semaphore; no thread waits while the value is
    positive, and the waiters are suspended threads. *)
Record sem_rep (L : lists) (s : kstate) (sem flag v : Z) (ws : list Z) : Prop := {
  sr_value : ks_sems s !! sem = Some v;
  sr_obj : exists o, ks_objs s !! sem = Some o /\ obj_flag o = flag;
  sr_wait : waiting L (NSuspend sem) ws;
  sr_range : 0 <= v <= SK_SEM_VALUE_MAX;
  sr_excl : ws <> [] -> v = 0;
  sr_threads : waiters s ws
}.

Section semaphore.
Implicit Types (L : lists) (s : kstate).

Lemma sem_wait_run s sem v time :
  irq_wf s -> ks_sems s !! sem = Some v ->
  sk_sem_wait sem time s =
    if 0 <? v then Done (upd_sems (<[sem := u16 (v - 1)]>) s) SK_EOK
    else if time =? 0 then Done s SK_ETIMEOUT
    else (o ← get_obj sem;
          __ipc_list_suspend (NSuspend sem) (ks_current s) (obj_flag o);;
          arm_timeout (ks_current s) time;;
          hw_interrupt_enable (ks_daif s);;
          sk_schedule;; mret SK_EOK) (masked s).
Proof.
  intros Hirq Hv. unfold sk_sem_wait. erewrite bind_done by reflexivity. kstep (disable_ok s Hirq).
  unfold get_sem. erewrite bind_done by (apply read_at_ok; exact Hv).
  destruct (0 <? v).
  - unfold upd_sem. erewrite bind_done by (apply update_at_ok; exact Hv).
    erewrite bind_done by (by apply enable_ok). unfold mret, M_ret. by destruct s.
  - destruct (time =? 0); [|done]. erewrite bind_done by (by apply enable_ok).
    unfold mret, M_ret. by destruct s.
Qed.

(** C18: [sk_sem_wait] refines the abstract semaphore.  A positive value is
    decremented and the call returns [SK_EOK]; with the value 0 and no waiting
    time the call returns [SK_ETIMEOUT] and changes nothing; otherwise the
    running thread is suspended and joins the waiters, in the place the semaphore's
    flag gives it, its timer is armed for the ticks given (and off when they are
    negative), and it loses the processor to a ready thread.  Whenever, and for
    whatever reason, it gets the processor back, the call returns [SK_EOK] and
    does not look at the semaphore again: a wait whose time is over is reported
    like one that got the token of a post. *)
Theorem sem_wait_refines L s sem flag v ws th time :
  sched_inv L s -> sem_rep L s sem flag v ws -> runner L s th -> ks_nest s = 0 -> ks_group s <> 0 ->
  flag = SK_IPC_FLAG_FIFO \/ flag = SK_IPC_FLAG_PRIO -> sem <> thread_timer (ks_current s) ->
  exists s' L', after (sk_sem_wait sem time s) = Some s' /\ sched_inv L' s' /\
    if 0 <? v then returns SK_EOK (sk_sem_wait sem time s) /\ sem_rep L' s' sem flag (v - 1) ws /\
      ks_current s' = ks_current s
    else if time =? 0 then returns SK_ETIMEOUT (sk_sem_wait sem time s) /\ s' = s
    else returns SK_EOK (sk_sem_wait sem time s) /\ ks_current s' <> ks_current s /\
      sem_rep L' s' sem flag 0 (wait_place flag (ks_threads s) (current_pri th) (ks_current s) ws) /\
      ks_threads s' !! ks_current s = Some (set_stat SK_THREAD_SUSPEND th) /\
      wait_timeout L' s' (ks_current s) (ks_tick s) time /\
      exists k, sk_sem_wait sem time s = Switch s' k /\
        forall s2, exists s3, k s2 = Done s3 SK_EOK /\ ks_sems s3 = ks_sems s2.
Proof.
  intros HI HS HR Hn Hg Hflag Hneq. pose proof (si_irq _ _ HI) as Hirq.
  rewrite (sem_wait_run s sem v time Hirq (sr_value _ _ _ _ _ _ HS)).
  destruct (Z.ltb_spec 0 v) as [Hv|Hv]; [|destruct (Z.eqb_spec time 0) as [Ht0|Ht0]].
  - exists (upd_sems (<[sem := u16 (v - 1)]>) s), L. split; [done|]. split; [by eapply sched_inv_ext; try apply HI|].
    split; [done|]. split; [|done]. pose proof (sr_range _ _ _ _ _ _ HS) as Hrg. unfold SK_SEM_VALUE_MAX in *.
    split; try apply HS; unfold SK_SEM_VALUE_MAX.
    + simpl. rewrite lookup_insert_eq. rewrite uint_small by lia. done.
    + lia.
    + intros Hws. pose proof (sr_excl _ _ _ _ _ _ HS Hws). lia.
  - exists s, L. done.
  - destruct (sr_obj _ _ _ _ _ _ HS) as (o & Ho & Hfl).
    assert (v = 0) as -> by (pose proof (sr_range _ _ _ _ _ _ HS); lia).
    unfold get_obj. erewrite bind_done by (apply read_at_ok; exact Ho). rewrite Hfl.
    destruct (block_switch L s (NSuspend sem) ws th flag time)
      as (s' & L' & Hrun & HI' & Hc & Hw & Hws & Hth' & Hsame & _ & Hto); try done; try apply HS.
    destruct (Hrun (mret SK_EOK)) as (kk & -> & Hkk). exists s', L'. split; [done|]. split; [done|].
    split; [simpl; intros s2; by rewrite Hkk|]. split; [done|]. split; [|split; [done|split; [done|]]].
    + destruct Hsame as (Esem & _ & _ & _ & _ & _ & _ & Eobj).
      split; [rewrite Esem; apply HS| |done|unfold SK_SEM_VALUE_MAX; lia|done|done].
      exists o. by rewrite Eobj.
    + exists kk. split; [done|]. intros s2. rewrite Hkk. eexists. split; [reflexivity|]. simpl. by destruct (_ =? 0).
Qed.


Lemma sem_post_run_empty L s sem v :
  sched_inv L s -> ks_sems s !! sem = Some v -> waiting L (NSuspend sem) [] ->
  sk_sem_post sem s =
    if v <? SK_SEM_VALUE_MAX then Done (upd_sems (<[sem := u16 (v + 1)]>) s) SK_EOK
    else Done s SK_EFULL.
Proof.
  intros HI Hv Hw. pose proof (si_irq _ _ HI) as Hirq. unfold sk_sem_post.
  erewrite bind_done by reflexivity. kstep (disable_ok s Hirq).
  erewrite (first_waiter L _ _ []) by (apply HI || exact Hw).
  unfold get_sem. erewrite bind_done by (apply read_at_ok; exact Hv).
  destruct (v <? SK_SEM_VALUE_MAX).
  - unfold upd_sem. erewrite bind_done by (apply update_at_ok; exact Hv).
    erewrite bind_done by (by apply enable_ok). unfold mret, M_ret. by destruct s.
  - erewrite bind_done by (by apply enable_ok). unfold mret, M_ret. by destruct s.
Qed.

(** C19: [sk_sem_post] refines the abstract semaphore.  Without waiters the value
    is incremented, or, at its maximum of 65535, left alone with the error
    [SK_EFULL]; with waiters the first one leaves the list, the value stays 0,
    and the woken thread is ready or already has the processor. *)
Theorem sem_post_refines L s sem flag v ws th :
  sched_inv L s -> sem_rep L s sem flag v ws -> runner L s th ->
  exists s' L', after (sk_sem_post sem s) = Some s' /\ sched_inv L' s' /\
    match ws with
    | [] => if v <? SK_SEM_VALUE_MAX
            then returns SK_EOK (sk_sem_post sem s) /\ sem_rep L' s' sem flag (v + 1) []
            else returns SK_EFULL (sk_sem_post sem s) /\ s' = s
    | w :: ws => returns SK_EOK (sk_sem_post sem s) /\ sem_rep L' s' sem flag v ws /\
            (ks_current s' = w \/ exists i us, queue L' i us /\ w ∈ us)
    end.
Proof.
  intros HI HS HR. pose proof (si_irq _ _ HI) as Hirq. pose proof (sr_range _ _ _ _ _ _ HS) as Hrg.
  destruct ws as [|w ws].
  - rewrite (sem_post_run_empty L s sem v) by (done || apply HS).
    destruct (Z.ltb_spec v SK_SEM_VALUE_MAX); [|by exists s, L].
    exists (upd_sems (<[sem := u16 (v + 1)]>) s), L. split; [done|].
    split; [by eapply sched_inv_ext; try apply HI|]. split; [done|]. unfold SK_SEM_VALUE_MAX in *.
    split; try apply HS; unfold SK_SEM_VALUE_MAX; [|lia|done].
    simpl. rewrite lookup_insert_eq. by rewrite uint_small by lia.
  - pose proof (sr_wait _ _ _ _ _ _ HS) as Hw.
    destruct (wake_schedule L s (NSuspend sem) w ws th SK_EOK HI HR I Hw (sr_threads _ _ _ _ _ _ HS))
      as (s' & L' & r & Hrun & Haft & Hret & HI' & Hw' & Hws' & Hsame & Hrdy & _).
    assert (sk_sem_post sem s = r) as ->.
    { rewrite <- Hrun. unfold sk_sem_post. erewrite bind_done by reflexivity. kstep (disable_ok s Hirq).
      by erewrite (first_waiter L _ _ (w :: ws)) by (apply HI || exact Hw). }
    exists s', L'. split; [done|]. split; [done|]. split; [done|]. split; [|done].
    destruct Hsame as (Esem & _ & _ & _ & _ & _ & _ & _ & Eobj).
    split; [rewrite Esem; apply HS|rewrite Eobj; apply HS|done|done| |done].
    intros _. by apply (sr_excl _ _ _ _ _ _ HS).
Qed.

End semaphore.

(** ** A concrete semaphore *)

(** The semaphore 900 of [wait_state], with the given value and the waiters
    300 and 400. *)
Definition sem_state (L : lists) (v : Z) : kstate :=
  upd_nodes (fun _ => heap_of L) (upd_sems (fun _ => {[900 := v]}) wait_state).

Lemma sem_state_inv v : sched_inv wait_lists (sem_state wait_lists v).
Proof. apply sched_check_sound. by vm_compute. Qed.

Lemma sem_state_rep : sem_rep wait_lists (sem_state wait_lists 0) 900 SK_IPC_FLAG_PRIO 0 [300; 400].
Proof.
  split; [done|eexists; by vm_compute|by vm_compute|unfold SK_SEM_VALUE_MAX; lia|done|].
  by eapply waiters_ext; [apply wait_state_waiters|..].
Qed.

Lemma sem_state_runner v : runner wait_lists (sem_state wait_lists v) (a_thread SK_THREAD_RUNNING 10 5).
Proof. by eapply runner_ext; [apply wait_state_runner|..]. Qed.

Lemma sem_wait_refines_witness :
  exists s' L', after (sk_sem_wait 900 7 (sem_state wait_lists 0)) = Some s' /\ sched_inv L' s' /\
    returns SK_EOK (sk_sem_wait 900 7 (sem_state wait_lists 0)) /\ ks_current s' <> 100 /\
    sem_rep L' s' 900 SK_IPC_FLAG_PRIO 0 [300; 100; 400] /\
    ks_threads s' !! 100 = Some (set_stat SK_THREAD_SUSPEND (a_thread SK_THREAD_RUNNING 10 5)) /\
    wait_timeout L' s' 100 (ks_tick wait_state) 7 /\
    exists k, sk_sem_wait 900 7 (sem_state wait_lists 0) = Switch s' k /\
      forall s2, exists s3, k s2 = Done s3 SK_EOK /\ ks_sems s3 = ks_sems s2.
Proof.
  exact (sem_wait_refines wait_lists (sem_state wait_lists 0) 900 SK_IPC_FLAG_PRIO 0 [300; 400]
    (a_thread SK_THREAD_RUNNING 10 5) 7 (sem_state_inv 0) sem_state_rep (sem_state_runner 0)
    ltac:(done) ltac:(done) ltac:(by right) ltac:(done)).
Defined.

Lemma sem_post_refines_witness :
  exists s' L', after (sk_sem_post 900 (sem_state wait_lists 0)) = Some s' /\ sched_inv L' s' /\
    returns SK_EOK (sk_sem_post 900 (sem_state wait_lists 0)) /\
    sem_rep L' s' 900 SK_IPC_FLAG_PRIO 0 [400] /\
    (ks_current s' = 300 \/ exists i us, queue L' i us /\ 300 ∈ us).
Proof.
  exact (sem_post_refines wait_lists (sem_state wait_lists 0) 900 SK_IPC_FLAG_PRIO 0 [300; 400]
    (a_thread SK_THREAD_RUNNING 10 5) (sem_state_inv 0) sem_state_rep (sem_state_runner 0)).
Defined.
