(* ===== verification/Mutex.v ===== *)
(** * Mutexes: [src/ipc/mutex.c]

    Recursive mutexes with ownership, and their correctness against the
    abstract mutex: free, or held by a thread a number of times with others
    waiting. *)

From S2P Require Import Prelude BaseDef KList Slab Kernel Sched KObj Timer Thread IpcBase.

Local Open Scope c_scope.

Definition SK_MUTEX_HOLD_MAX : Z := 0xFF.

Definition get_mutex (m : Z) : M sk_mutex := read_at ks_mutexes m.
Definition upd_mutex (m : Z) (g : sk_mutex -> sk_mutex) : M unit :=
  update_at ks_mutexes upd_mutexes m g.

(** ** Operations *)

Definition set_mvalue (v : Z) (m : sk_mutex) := mk_mutex (u16 v) (original_pri m) (hold m) (owner m).
Definition set_owner (t p : Z) (m : sk_mutex) := mk_mutex (mvalue m) p (hold m) t.
Definition set_hold (n : Z) (m : sk_mutex) := mk_mutex (mvalue m) (original_pri m) (u8 n) (owner m).

(** [value = 1; owner = SK_NULL; original_pri = 0xFF; hold = 0;] *)
Definition mutex_reset (m : sk_mutex) : sk_mutex := mk_mutex 1 0xFF 0 SK_NULL.

Definition sk_mutex_init (mutex name flag : Z) : M Z :=
  sk_object_init mutex SK_OBJECT_MUTEX name;;
  __ipc_object_init mutex;;
  upd_mutex mutex mutex_reset;;
  upd_obj mutex (set_obj_flag SK_IPC_FLAG_PRIO);;
  mret SK_EOK.

Definition sk_mutex_create (name flag : Z) : M Z :=
  mutex ← sk_object_alloc SK_OBJECT_MUTEX name;
  if mutex =? SK_NULL then mret mutex
  else
    __ipc_object_init mutex;;
    upd_mutex mutex mutex_reset;;
    upd_obj mutex (set_obj_flag SK_IPC_FLAG_PRIO);;
    mret mutex.

Definition sk_mutex_delete (mutex : Z) : M Z :=
  if mutex =? SK_NULL then mret SK_EOK
  else
    fuel ← gets node_fuel;
    __ipc_list_resume_all fuel (NSuspend mutex);;
    sk_object_delete mutex;;
    mret SK_EOK.

Definition sk_mutex_lock (mutex time : Z) : M Z :=
  thread ← sk_current_thread;
  temp ← hw_interrupt_disable;
  m ← get_mutex mutex;
  if owner m =? thread then
    if hold m <? SK_MUTEX_HOLD_MAX then
      upd_mutex mutex (fun m => set_hold (hold m + 1) m);;
      hw_interrupt_enable temp;;
      mret SK_EOK
    else
      hw_interrupt_enable temp;;
      mret SK_EFULL
  else if 0 <? mvalue m then
    upd_mutex mutex (fun m => set_mvalue (mvalue m - 1) m);;
    t ← get_thread thread;
    upd_mutex mutex (set_owner thread (current_pri t));;
    m ← get_mutex mutex;
    if hold m <? SK_MUTEX_HOLD_MAX then
      upd_mutex mutex (fun m => set_hold (hold m + 1) m);;
      hw_interrupt_enable temp;;
      mret SK_EOK
    else
      hw_interrupt_enable temp;;
      mret SK_EFULL
  else if time =? 0 then
    hw_interrupt_enable temp;;
    mret SK_ETIMEOUT
  else
    __ipc_list_suspend (NSuspend mutex) thread SK_IPC_FLAG_PRIO;;
    arm_timeout thread time;;
    hw_interrupt_enable temp;;
    sk_schedule;;
    mret SK_EOK.

Definition sk_mutex_trylock (mutex : Z) : M Z := sk_mutex_lock mutex 0.

Definition sk_mutex_unlock (mutex : Z) : M Z :=
  thread ← sk_current_thread;
  temp ← hw_interrupt_disable;
  m ← get_mutex mutex;
  if negb (thread =? owner m) then
    hw_interrupt_enable temp;;
    mret SK_ERROR
  else
    upd_mutex mutex (fun m => set_hold (hold m - 1) m);;
    m ← get_mutex mutex;
    if hold m =? 0 then
      e ← list_empty (NSuspend mutex);
      if negb e then
        n ← node_next (NSuspend mutex);
        thread ← entry_thread n;
        t ← get_thread thread;
        upd_mutex mutex (set_owner thread (current_pri t));;
        upd_mutex mutex (fun m => set_hold (hold m + 1) m);;
        sk_thread_resume thread;;
        hw_interrupt_enable temp;;
        sk_schedule;;
        mret SK_EOK
      else
        upd_mutex mutex (fun m => set_mvalue (mvalue m + 1) m);;
        upd_mutex mutex (set_owner SK_NULL 0xFF);;
        hw_interrupt_enable temp;;
        mret SK_EOK
    else
      hw_interrupt_enable temp;;
      mret SK_EOK.

(** ** The abstract mutex *)

(** Free, or held [n] times by a thread; only then can threads wait. *)
Inductive mutex_abs := MFree | MHeld (t n : Z) (ws : list Z).

Definition abs_waiters (a : mutex_abs) : list Z :=
  match a with MFree => [] | MHeld _ _ ws => ws end.

Definition abs_fields (a : mutex_abs) (m : sk_mutex) : Prop :=
  match a with
  | MFree => mvalue m = 1 /\ owner m = SK_NULL /\ hold m = 0
  | MHeld t n _ => mvalue m = 0 /\ owner m = t /\ hold m = n /\ t <> SK_NULL /\ 1 <= n <= SK_MUTEX_HOLD_MAX
  end.

Record mutex_rep (L : lists) (s : kstate) (mx : Z) (a : mutex_abs) : Prop := {
  mr_fields : exists m, ks_mutexes s !! mx = Some m /\ abs_fields a m;
  mr_wait : waiting L (NSuspend mx) (abs_waiters a);
  mr_threads : waiters s (abs_waiters a)
}.

(** The abstract effect of a lock and of an unlock by the thread [c]; [place]
    puts it among the waiters. *)
Definition abs_lock (c : Z) (wait : bool) (place : list Z -> list Z) (a : mutex_abs) : Z * mutex_abs :=
  match a with
  | MFree => (SK_EOK, MHeld c 1 [])
  | MHeld t n ws =>
      if t =? c then (if n <? SK_MUTEX_HOLD_MAX then (SK_EOK, MHeld t (n + 1) ws) else (SK_EFULL, a))
      else if wait then (SK_EOK, MHeld t n (place ws)) else (SK_ETIMEOUT, a)
  end.

Definition abs_unlock (c : Z) (a : mutex_abs) : Z * mutex_abs :=
  match a with
  | MFree => (SK_ERROR, a)
  | MHeld t n ws =>
      if t =? c then
        if n =? 1 then (SK_EOK, match ws with [] => MFree | w :: ws => MHeld w 1 ws end)
        else (SK_EOK, MHeld t (n - 1) ws)
      else (SK_ERROR, a)
  end.

Section mutex.
Implicit Types (L : lists) (s : kstate).

(** A change of the mutex table only. *)
Lemma mutex_rep_local L s mx a m :
  sched_inv L s -> waiting L (NSuspend mx) (abs_waiters a) -> waiters s (abs_waiters a) ->
  abs_fields a m ->
  sched_inv L (upd_mutexes (<[mx := m]>) s) /\ mutex_rep L (upd_mutexes (<[mx := m]>) s) mx a.
Proof.
  intros HI Hw Hws Hf. split; [by eapply sched_inv_ext; try apply HI|]. split; [|done..].
  exists m. simpl. by rewrite lookup_insert_eq.
Qed.

(** The parts of [sk_mutex_lock] that do not block. *)
Lemma mutex_lock_run s mx m th time :
  irq_wf s -> ks_mutexes s !! mx = Some m -> ks_threads s !! ks_current s = Some th ->
  sk_mutex_lock mx time s =
    if owner m =? ks_current s then
      if hold m <? SK_MUTEX_HOLD_MAX
      then Done (upd_mutexes (<[mx := set_hold (hold m + 1) m]>) s) SK_EOK
      else Done s SK_EFULL
    else if 0 <? mvalue m then
      let m' := set_owner (ks_current s) (current_pri th) (set_mvalue (mvalue m - 1) m) in
      if hold m <? SK_MUTEX_HOLD_MAX
      then Done (upd_mutexes (<[mx := set_hold (hold m + 1) m']>) s) SK_EOK
      else Done (upd_mutexes (<[mx := m']>) s) SK_EFULL
    else if time =? 0 then Done s SK_ETIMEOUT
    else (__ipc_list_suspend (NSuspend mx) (ks_current s) SK_IPC_FLAG_PRIO;;
          arm_timeout (ks_current s) time;;
          hw_interrupt_enable (ks_daif s);;
          sk_schedule;; mret SK_EOK) (masked s).
Proof.
  intros Hirq Hm Hth. unfold sk_mutex_lock. erewrite bind_done by reflexivity. kstep (disable_ok s Hirq).
  unfold get_mutex, upd_mutex, get_thread. erewrite bind_done by (apply read_at_ok; exact Hm).
  destruct (owner m =? ks_current s); [destruct (hold m <? SK_MUTEX_HOLD_MAX)|destruct (0 <? mvalue m)].
  - erewrite bind_done by (apply update_at_ok; exact Hm). erewrite bind_done by (by apply enable_ok).
    unfold mret, M_ret. by destruct s.
  - erewrite bind_done by (by apply enable_ok). unfold mret, M_ret. by destruct s.
  - erewrite bind_done by (apply update_at_ok; exact Hm). erewrite bind_done by (apply read_at_ok; exact Hth).
    erewrite bind_done by (apply update_at_ok; simpl; rewrite lookup_insert_eq; reflexivity).
    erewrite bind_done by (apply read_at_ok; simpl; rewrite lookup_insert_eq; reflexivity).
    cbn [hold set_owner set_mvalue]. destruct (hold m <? SK_MUTEX_HOLD_MAX).
    + erewrite bind_done by (apply update_at_ok; simpl; rewrite lookup_insert_eq; reflexivity).
      erewrite bind_done by (by apply enable_ok). unfold mret, M_ret. destruct s.
      unfold upd_mutexes, upd_daif; simpl. by rewrite !insert_insert_eq.
    + erewrite bind_done by (by apply enable_ok). unfold mret, M_ret. destruct s.
      unfold upd_mutexes, upd_daif; simpl. by rewrite !insert_insert_eq.
  - destruct (time =? 0); [|done]. erewrite bind_done by (by apply enable_ok).
    unfold mret, M_ret. by destruct s.
Qed.

(** The lock is held by another thread, and the caller waits for it. *)
Definition lock_waits (t time : Z) (a : mutex_abs) : bool :=
  match a with MFree => false | MHeld u _ _ => negb (u =? t) && negb (time =? 0) end.

(** C20: [sk_mutex_lock] refines the abstract lock: a free mutex is taken, the
    owner nests up to 255 times and then gets [SK_EFULL], another thread gets
    [SK_ETIMEOUT] at once when it gave no waiting time, and otherwise joins the
    waiters in the order of priority, suspended, with its timer armed for the ticks
    given (and off when they are negative), and loses the processor; the owner is
    never replaced by a lock.  A lock that waited returns [SK_EOK] for whatever
    reason its thread gets the processor back and does not look at the mutex
    again: when the unlock has handed the mutex over it is the owner, and when its
    time is over it is not, but the result is the same. *)
Theorem mutex_lock_refines L s mx a th time :
  sched_inv L s -> mutex_rep L s mx a -> runner L s th -> ks_nest s = 0 -> ks_group s <> 0 ->
  ks_current s <> SK_NULL ->
  let r := abs_lock (ks_current s) (negb (time =? 0))
             (prio_place (ks_threads s) (current_pri th) (ks_current s)) a in
  exists s' L', after (sk_mutex_lock mx time s) = Some s' /\ sched_inv L' s' /\
    returns r.1 (sk_mutex_lock mx time s) /\ mutex_rep L' s' mx r.2 /\
    if lock_waits (ks_current s) time a
    then ks_current s' <> ks_current s /\
      ks_threads s' !! ks_current s = Some (set_stat SK_THREAD_SUSPEND th) /\
      wait_timeout L' s' (ks_current s) (ks_tick s) time /\
      exists k, sk_mutex_lock mx time s = Switch s' k /\
        forall s2, exists s3, k s2 = Done s3 SK_EOK /\ ks_mutexes s3 = ks_mutexes s2
    else sk_mutex_lock mx time s = Done s' r.1.
Proof.
  intros HI HM HR Hn Hg Hc r. destruct (mr_fields _ _ _ _ HM) as (m & Hm & Hf).
  pose proof (mr_wait _ _ _ _ HM) as Hw. pose proof (mr_threads _ _ _ _ HM) as Hws.
  rewrite (mutex_lock_run s mx m th time (si_irq _ _ HI) Hm (rn_thread _ _ _ HR)).
  subst r. destruct a as [|t n ws]; simpl in Hf, Hw, Hws |- *; unfold SK_MUTEX_HOLD_MAX in *.
  - destruct Hf as (Hv & Ho & Hh). rewrite Ho, Hv, Hh. rewrite (proj2 (Z.eqb_neq _ _)) by congruence. kif.
    eexists _, L. split; [reflexivity|].
    destruct (mutex_rep_local L s mx (MHeld (ks_current s) 1 []) (set_hold (0 + 1)
      (set_owner (ks_current s) (current_pri th) (set_mvalue (1 - 1) m)))) as [HI' HM'];
      [done|done|done|by unfold SK_MUTEX_HOLD_MAX; simpl; split_and!|done].
  - destruct Hf as (Hv & Ho & Hh & Ht & Hn1). rewrite Ho, Hv, Hh.
    destruct (Z.eqb_spec t (ks_current s)) as [Etc|Etc].
    + destruct (Z.ltb_spec n 255) as [Hlt|Hge]; kif.
      * eexists _, L. split; [reflexivity|].
        destruct (mutex_rep_local L s mx (MHeld t (n + 1) ws) (set_hold (n + 1) m)) as [HI' HM'];
          [done|done|done| |done].
        simpl. unfold SK_MUTEX_HOLD_MAX. rewrite uint_small by lia. split_and!; try done; lia.
      * exists s, L. done.
    + kif. destruct (Z.eqb_spec time 0) as [->|Ht0]; simpl.
      { exists s, L. done. }
      destruct (block_switch L s (NSuspend mx) ws th SK_IPC_FLAG_PRIO time)
        as (s' & L' & Hrun & HI' & Hc' & Hw' & Hws' & Hth' & Hsame & _ & Hto); try done; [by right|].
      destruct (Hrun (mret SK_EOK)) as (kk & -> & Hkk). exists s', L'. split; [done|]. split; [done|].
      split; [simpl; intros s2; by rewrite Hkk|]. split; [|split; [done|split; [done|split; [done|]]]].
      * destruct Hsame as (_ & Emx & _). split; [|done|done]. exists m. rewrite Emx. done.
      * exists kk. split; [done|]. intros s2. rewrite Hkk. eexists. split; [reflexivity|]. simpl. by destruct (_ =? 0).
Qed.

(** A lock that had to wait returns [SK_EOK] in whatever state its thread
    is resumed and without looking at the mutex again: when the timeout wakes
    the thread, the call reports success although another thread is the owner. *)
Theorem mutex_timeout_reported_as_success L s mx m th time :
  sched_inv L s -> runner L s th -> ks_nest s = 0 -> ks_group s <> 0 ->
  ks_mutexes s !! mx = Some m -> owner m <> ks_current s -> mvalue m = 0 -> 0 < time ->
  (exists ws, waiting L (NSuspend mx) ws /\ waiters s ws) ->
  exists s' kk, sk_mutex_lock mx time s = Switch s' kk /\
    forall s2, exists s3, kk s2 = Done s3 SK_EOK /\ ks_mutexes s3 = ks_mutexes s2.
Proof.
  intros HI HR Hn Hg Hm Ho Hv Ht (ws & Hw & Hws).
  rewrite (mutex_lock_run s mx m th time (si_irq _ _ HI) Hm (rn_thread _ _ _ HR)).
  rewrite (proj2 (Z.eqb_neq _ _) Ho), Hv. rewrite (proj2 (Z.eqb_neq time 0)) by lia. simpl.
  destruct (block_switch L s (NSuspend mx) ws th SK_IPC_FLAG_PRIO time)
    as (s' & L' & Hrun & _); try done; [by right|].
  destruct (Hrun (mret SK_EOK)) as (kk & -> & Hkk). exists s', kk. split; [done|].
  intros s2. rewrite Hkk. eexists. split; [reflexivity|]. simpl. by destruct (_ =? 0).
Qed.


(** [sk_mutex_unlock] up to the handover to a waiter. *)
Lemma mutex_unlock_run L s mx m ws :
  sched_inv L s -> ks_mutexes s !! mx = Some m -> waiting L (NSuspend mx) ws ->
  sk_mutex_unlock mx s =
    if negb (ks_current s =? owner m) then Done s SK_ERROR
    else
      let m1 := set_hold (hold m - 1) m in
      if hold m1 =? 0 then
        match ws with
        | [] => Done (upd_mutexes (<[mx := set_owner SK_NULL 0xFF (set_mvalue (mvalue m + 1) m1)]>) s) SK_EOK
        | w :: _ =>
            (t ← get_thread w;
             upd_mutex mx (set_owner w (current_pri t));;
             upd_mutex mx (fun m => set_hold (hold m + 1) m);;
             sk_thread_resume w;;
             hw_interrupt_enable (ks_daif s);;
             sk_schedule;; mret SK_EOK) (upd_mutexes (<[mx := m1]>) (masked s))
        end
      else Done (upd_mutexes (<[mx := m1]>) s) SK_EOK.
Proof.
  intros HI Hm Hw. pose proof (si_irq _ _ HI) as Hirq. unfold sk_mutex_unlock.
  erewrite bind_done by reflexivity. kstep (disable_ok s Hirq).
  unfold get_mutex, upd_mutex, get_thread. erewrite bind_done by (apply read_at_ok; exact Hm).
  destruct (negb (ks_current s =? owner m)).
  { erewrite bind_done by (by apply enable_ok). unfold mret, M_ret. by destruct s. }
  erewrite bind_done by (apply update_at_ok; exact Hm).
  erewrite bind_done by (apply read_at_ok; simpl; rewrite lookup_insert_eq; reflexivity). cbv zeta.
  destruct (hold (set_hold (hold m - 1) m) =? 0).
  - erewrite (first_waiter L _ _ ws) by (apply HI || exact Hw). destruct ws as [|w ws]; [|done].
    erewrite bind_done by (apply update_at_ok; simpl; rewrite lookup_insert_eq; reflexivity).
      erewrite bind_done by (apply update_at_ok; simpl; rewrite lookup_insert_eq; reflexivity).
      erewrite bind_done by (by apply enable_ok). unfold mret, M_ret. destruct s.
      unfold upd_mutexes, upd_daif; simpl. by rewrite !insert_insert_eq.
  - erewrite bind_done by (by apply enable_ok). unfold mret, M_ret. by destruct s.
Qed.

(** C21: [sk_mutex_unlock] refines the abstract unlock: only the owner can
    unlock, nested locks are undone one by one, and the last unlock frees the
    mutex or hands it to the first waiter, which becomes the owner before it
    runs and is ready or has the processor. *)
Theorem mutex_unlock_refines L s mx a th :
  sched_inv L s -> mutex_rep L s mx a -> runner L s th ->
  ks_current s <> SK_NULL -> ks_threads s !! SK_NULL = None ->
  let r := abs_unlock (ks_current s) a in
  exists s' L', after (sk_mutex_unlock mx s) = Some s' /\ sched_inv L' s' /\
    returns r.1 (sk_mutex_unlock mx s) /\ mutex_rep L' s' mx r.2 /\
    (forall w ws, a = MHeld (ks_current s) 1 (w :: ws) ->
       ks_current s' = w \/ exists i us, queue L' i us /\ w ∈ us).
Proof.
  intros HI HM HR Hc H0 r. destruct (mr_fields _ _ _ _ HM) as (m & Hm & Hf).
  pose proof (mr_wait _ _ _ _ HM) as Hw. pose proof (mr_threads _ _ _ _ HM) as Hws.
  rewrite (mutex_unlock_run L s mx m _ HI Hm Hw).
  subst r. destruct a as [|t n ws]; simpl in Hf, Hw, Hws |- *; unfold SK_MUTEX_HOLD_MAX in *.
  { destruct Hf as (Hv & Ho & Hh). rewrite Ho, (proj2 (Z.eqb_neq _ _) Hc). kif. by exists s, L. }
  destruct Hf as (Hv & Ho & Hh & Ht & Hn1). rewrite Ho, Hh, (Z.eqb_sym (ks_current s) t).
  destruct (Z.eqb_spec t (ks_current s)) as [->|Htc]; kif; [|exists s, L; split_and!; try done; intros ? ? [=]; congruence].
  rewrite uint_small by lia. destruct (Z.eqb_spec n 1) as [->|Hn].
  2: { rewrite (proj2 (Z.eqb_neq _ _)) by lia.
    destruct (mutex_rep_local L s mx (MHeld (ks_current s) (n - 1) ws) (set_hold (n - 1) m)) as [HI' HM']; try done.
    { simpl. unfold SK_MUTEX_HOLD_MAX. rewrite uint_small by lia. split_and!; try done; lia. }
    eexists _, L. split; [reflexivity|]. split_and!; try done. intros w ws' [=]. lia. }
  change (1 - 1 =? 0) with true. kif. destruct ws as [|w ws].
  { destruct (mutex_rep_local L s mx MFree (set_owner SK_NULL 255 (set_mvalue (mvalue m + 1) (set_hold (1 - 1) m))))
      as [HI' HM']; try done; [by simpl; rewrite Hv|].
    eexists _, L. split; [reflexivity|]. done. }
  destruct (Hws w) as (Hwc & wh & Hwh & _); [by left|].
  set (m2 := set_hold (0 + 1) (set_owner w (current_pri wh) (set_hold (1 - 1) m))).
  set (s1 := upd_mutexes (<[mx := m2]>) s).
  assert (sched_inv L s1) as HI1 by (by eapply sched_inv_ext; try apply HI).
  assert (runner L s1 th) as HR1 by (by eapply runner_ext; [exact HR|..]).
  destruct (wake_schedule L s1 (NSuspend mx) w ws th SK_EOK HI1 HR1 I Hw Hws)
    as (s' & L' & r & Hrun & Haft & Hret & HI' & Hw' & Hws' & Hsame & Hrdy & _).
  exists s', L'.
  assert ((t ← get_thread w;
     upd_mutex mx (set_owner w (current_pri t));;
     upd_mutex mx (fun m => set_hold (hold m + 1) m);;
     sk_thread_resume w;;
     hw_interrupt_enable (ks_daif s);;
     sk_schedule;; mret SK_EOK) (upd_mutexes (<[mx := set_hold (1 - 1) m]>) (masked s)) = r) as ->.
  { rewrite <- Hrun. unfold get_thread. erewrite bind_done by (apply read_at_ok; exact Hwh).
    unfold upd_mutex. erewrite bind_done by (apply update_at_ok; simpl; rewrite lookup_insert_eq; reflexivity).
    erewrite bind_done by (apply update_at_ok; simpl; rewrite lookup_insert_eq; reflexivity).
    f_equal. unfold s1, m2. destruct s. unfold upd_mutexes, masked, upd_daif; simpl. by rewrite !insert_insert_eq. }
  split_and!; try done.
  - destruct Hsame as (_ & Emx & _). split; [|done|done]. exists m2. rewrite Emx. split.
    + unfold s1. simpl. by rewrite lookup_insert_eq.
    + simpl. unfold SK_MUTEX_HOLD_MAX. split_and!; try done. intros ->. congruence.
  - intros w' ws' [= <- <-]. done.
Qed.

End mutex.

(** ** A concrete mutex *)

(** Thread 100 runs; the mutex 900 is held by [t], [n] times, with 300 and 400
    waiting. *)
Definition mutex_state (t n : Z) : kstate :=
  upd_mutexes (fun _ => {[900 := mk_mutex 0 10 n t]}) wait_state.

Lemma mutex_state_inv t n : sched_inv wait_lists (mutex_state t n).
Proof. eapply sched_inv_ext; [apply wait_state_inv|apply wait_state_inv|by left|done..]. Qed.

Lemma mutex_state_waiters t n : waiters (mutex_state t n) [300; 400].
Proof. by eapply waiters_ext; [apply wait_state_waiters|..]. Qed.

Lemma mutex_state_rep t n :
  t <> SK_NULL -> 1 <= n <= SK_MUTEX_HOLD_MAX ->
  mutex_rep wait_lists (mutex_state t n) 900 (MHeld t n [300; 400]).
Proof.
  intros Ht Hn. split; [|by vm_compute|apply mutex_state_waiters].
  exists (mk_mutex 0 10 n t). split; [by vm_compute|]. done.
Qed.

Lemma mutex_state_runner t n : runner wait_lists (mutex_state t n) (a_thread SK_THREAD_RUNNING 10 5).
Proof. by eapply runner_ext; [apply wait_state_runner|..]. Qed.

Lemma mutex_lock_refines_witness :
  exists s' L', after (sk_mutex_lock 900 7 (mutex_state 400 1)) = Some s' /\ sched_inv L' s' /\
    returns SK_EOK (sk_mutex_lock 900 7 (mutex_state 400 1)) /\
    mutex_rep L' s' 900 (MHeld 400 1 [300; 100; 400]) /\ ks_current s' <> 100 /\
    ks_threads s' !! 100 = Some (set_stat SK_THREAD_SUSPEND (a_thread SK_THREAD_RUNNING 10 5)) /\
    wait_timeout L' s' 100 (ks_tick (mutex_state 400 1)) 7 /\
    exists k, sk_mutex_lock 900 7 (mutex_state 400 1) = Switch s' k /\
      forall s2, exists s3, k s2 = Done s3 SK_EOK /\ ks_mutexes s3 = ks_mutexes s2.
Proof.
  exact (mutex_lock_refines wait_lists (mutex_state 400 1) 900 (MHeld 400 1 [300; 400])
    (a_thread SK_THREAD_RUNNING 10 5) 7 (mutex_state_inv 400 1)
    (mutex_state_rep 400 1 ltac:(done) ltac:(unfold SK_MUTEX_HOLD_MAX; lia)) (mutex_state_runner 400 1)
    ltac:(done) ltac:(done) ltac:(done)).
Defined.

Lemma mutex_unlock_refines_witness :
  exists s' L', after (sk_mutex_unlock 900 (mutex_state 100 1)) = Some s' /\ sched_inv L' s' /\
    returns SK_EOK (sk_mutex_unlock 900 (mutex_state 100 1)) /\ mutex_rep L' s' 900 (MHeld 300 1 [400]) /\
    (forall w ws, MHeld 100 1 [300; 400] = MHeld 100 1 (w :: ws) ->
       ks_current s' = w \/ exists i us, queue L' i us /\ w ∈ us).
Proof.
  exact (mutex_unlock_refines wait_lists (mutex_state 100 1) 900 (MHeld 100 1 [300; 400])
    (a_thread SK_THREAD_RUNNING 10 5) (mutex_state_inv 100 1)
    (mutex_state_rep 100 1 ltac:(done) ltac:(unfold SK_MUTEX_HOLD_MAX; lia)) (mutex_state_runner 100 1)
    ltac:(done) ltac:(by vm_compute)).
Defined.

Lemma mutex_timeout_reported_as_success_witness :
  exists s' kk, sk_mutex_lock 900 7 (mutex_state 400 1) = Switch s' kk /\
    forall s2, exists s3, kk s2 = Done s3 SK_EOK /\ ks_mutexes s3 = ks_mutexes s2.
Proof.
  apply (mutex_timeout_reported_as_success wait_lists (mutex_state 400 1) 900 (mk_mutex 0 10 1 400)
    (a_thread SK_THREAD_RUNNING 10 5) 7); [apply mutex_state_inv|apply mutex_state_runner|done|done|
    by vm_compute|done|done|lia|].
  exists [300; 400]. split; [by vm_compute|apply mutex_state_waiters].
Defined.
