(* ===== verification/Event.v ===== *)
(** * Events: [src/ipc/event.c]

    The operations on event sets and their correctness: what a receiver takes
    from the set, when it waits, and which waiter a send wakes. *)

From S2P Require Import Prelude BaseDef KList Slab Kernel Sched KObj Timer Thread IpcBase.

Local Open Scope c_scope.

Definition SK_EVENT_FLAG_AND : Z := 0x01.
Definition SK_EVENT_FLAG_OR : Z := 0x02.
Definition SK_EVENT_FLAG_CLEAR : Z := 0x04.

Definition get_event (event : Z) : M Z := read_at ks_events event.
Definition upd_event (event : Z) (g : Z -> Z) : M unit := update_at ks_events upd_events event g.

(** [thread->event_set = v] and [thread->event_info = info]. *)
Definition set_event_set (v : Z) (t : sk_thread) : sk_thread :=
  mk_thread (stat t) (current_pri t) (init_pri t) (number_mask t) (sp t) (entry t) (param t)
    (stack_addr t) (stack_size t) (init_tick t) (remain_tick t) (u32 v) (event_info t)
    (cleanup t) (user_data t).
Definition set_event_info (info : Z) (t : sk_thread) : sk_thread :=
  mk_thread (stat t) (current_pri t) (init_pri t) (number_mask t) (sp t) (entry t) (param t)
    (stack_addr t) (stack_size t) (init_tick t) (remain_tick t) (event_set t) (u8 info)
    (cleanup t) (user_data t).

(** The flag [f] is in the option byte. *)
Definition has_flag (info f : Z) : bool := negb (info & f =? 0).

(** ** Operations *)

Definition sk_event_create (name flag : Z) : M Z :=
  event ← sk_object_alloc SK_OBJECT_EVENT name;
  if event =? SK_NULL then mret event
  else
    __ipc_object_init event;;
    upd_event event (fun _ => 0);;
    upd_obj event (set_obj_flag flag);;
    mret event.

Definition sk_event_init (event name flag : Z) : M Z :=
  sk_object_init event SK_OBJECT_EVENT name;;
  __ipc_object_init event;;
  upd_event event (fun _ => 0);;
  upd_obj event (set_obj_flag flag);;
  mret SK_EOK.

Definition sk_event_destroy (event : Z) : M Z :=
  if event =? SK_NULL then mret SK_EOK
  else
    fuel ← gets node_fuel;
    __ipc_list_resume_all fuel (NSuspend event);;
    sk_object_delete event;;
    mret SK_EOK.

(** The test of both calls: all of the awaited bits, or one of them; [None] when
    the option asks for neither. *)
Definition event_check (info set e : Z) : option bool :=
  if has_flag info SK_EVENT_FLAG_AND then Some (e & set =? set)
  else if has_flag info SK_EVENT_FLAG_OR then Some (negb (e & set =? 0))
  else None.

(** The local [need_schedule] is not initialised in the source: [garbage] is the
    value it happens to have. *)
Definition sk_event_send (garbage : bool) (event set : Z) : M Z :=
  if set =? 0 then mret SK_ERROR
  else
    level ← hw_interrupt_disable;
    upd_event event (fun e => e ||| set);;
    let finish need_schedule :=
      hw_interrupt_enable level;;
      (if need_schedule : bool then sk_schedule;; mret SK_EOK else mret SK_EOK) in
    e ← list_empty (NSuspend event);
    if negb e then
      n ← node_next (NSuspend event);
      thread ← entry_thread n;
      th ← get_thread thread;
      e ← get_event event;
      match event_check (event_info th) (event_set th) e with
      | None => hw_interrupt_enable level;; mret SK_EINVAL
      | Some status =>
          when_ (status && negb (has_flag (event_info th) SK_EVENT_FLAG_AND))
            (upd_thread thread (set_event_set (event_set th & e)));;
          node_next (NTlist thread);;
          if status then
            th ← get_thread thread;
            when_ (has_flag (event_info th) SK_EVENT_FLAG_CLEAR)
              (upd_event event (fun e => u32 (e & ~~ event_set th)));;
            sk_thread_resume thread;;
            finish true
          else finish garbage
      end
    else finish garbage.

(** [if(recved) *recved = v;] *)
Definition store_recved (recved v : Z) : M unit :=
  when_ (negb (recved =? SK_NULL)) (modify (upd_words (<[recved := u32 v]>))).

Definition sk_event_recv (event set option_ timeout recved : Z) : M Z :=
  if set =? 0 then mret SK_ERROR
  else
    thread ← sk_current_thread;
    level ← hw_interrupt_disable;
    e ← get_event event;
    match event_check option_ set e with
    | None => hw_interrupt_enable level;; mret SK_EINVAL
    | Some true =>
        store_recved recved (e & set);;
        upd_thread thread (set_event_set (e & set));;
        upd_thread thread (set_event_info option_);;
        when_ (has_flag option_ SK_EVENT_FLAG_CLEAR) (upd_event event (fun e => u32 (e & ~~ set)));;
        hw_interrupt_enable level;;
        mret SK_EOK
    | Some false =>
        if timeout =? 0 then
          hw_interrupt_enable level;;
          mret SK_ETIMEOUT
        else
          upd_thread thread (set_event_set set);;
          upd_thread thread (set_event_info option_);;
          o ← get_obj event;
          __ipc_list_suspend (NSuspend event) thread (obj_flag o);;
          arm_timeout thread timeout;;
          hw_interrupt_enable level;;
          sk_schedule;;
          level ← hw_interrupt_disable;
          th ← get_thread thread;
          store_recved recved (event_set th);;
          hw_interrupt_enable level;;
          mret SK_EOK
    end.

(** ** Properties *)

(** The event set and the waiters of an event object. *)
Record event_rep (L : lists) (s : kstate) (ev flag e : Z) (ws : list Z) : Prop := {
  er_set : ks_events s !! ev = Some e;
  er_obj : exists o, ks_objs s !! ev = Some o /\ obj_flag o = flag;
  er_wait : waiting L (NSuspend ev) ws;
  er_range : 0 <= e < 2 ^ 32;
  er_threads : waiters s ws
}.

(** The set left by a receiver that takes the bits [v]. *)
Definition event_take (info v e : Z) : Z :=
  if has_flag info SK_EVENT_FLAG_CLEAR then u32 (e & ~~ v) else e.

(** The value the receiver finds at [recved]. *)
Definition received (recved v : Z) (s : kstate) : Prop :=
  recved <> SK_NULL -> ks_words s !! recved = Some (u32 v).

Section event.
Implicit Types (L : lists) (s : kstate).

(** A change of a thread that keeps its priority. *)
Lemma sched_inv_thread L s t th th' :
  sched_inv L s -> ks_threads s !! t = Some th -> current_pri th' = current_pri th ->
  number_mask th' = number_mask th -> sched_inv L (upd_threads (<[t := th']>) s).
Proof.
  intros HI Ht Hp Hm. split; try apply HI; simpl.
  - intros i Hi. destruct (si_queue _ _ HI i Hi) as (ts & Hq & Hts). exists ts. split; [done|].
    intros u Hu. destruct (Hts u Hu) as (uh & Huh & Hpu). destruct (decide (u = t)) as [->|].
    + exists th'. rewrite lookup_insert_eq. split; congruence.
    + exists uh. by rewrite lookup_insert_ne.
  - intros u uh. rewrite lookup_insert. case_decide as E; [|apply HI].
    intros [= <-]. rewrite Hp, Hm. by apply (si_thread _ _ HI t).
Qed.

Lemma runner_thread L s th th' :
  runner L s th -> stat th' = stat th -> runner L (upd_threads (<[ks_current s := th']>) s) th'.
Proof.
  intros [? Hst ? (tms & tmr & o & [])] E. split; simpl; [by rewrite lookup_insert_eq|congruence|done|].
  exists tms, tmr, o. done.
Qed.

Lemma waiters_thread s t th ws :
  waiters s ws -> t ∉ ws -> waiters (upd_threads (<[t := th]>) s) ws.
Proof.
  intros Hws Hn w Hw. destruct (Hws w Hw) as (? & wh & ? & ?). split; [done|].
  exists wh. simpl. rewrite lookup_insert_ne by (by intros ->). done.
Qed.

Lemma current_not_waiting s ws : waiters s ws -> ks_current s ∉ ws.
Proof. intros H Hin. by destruct (H _ Hin). Qed.

Lemma take_range info v e : 0 <= e < 2 ^ 32 -> 0 <= event_take info v e < 2 ^ 32.
Proof. unfold event_take. destruct (has_flag _ _); [|done]. intros _. by apply uint_range. Qed.

(** The state after a receiver has taken the awaited bits. *)
Definition taken (ev set info recved e : Z) (th : sk_thread) s : kstate :=
  upd_events (<[ev := event_take info set e]>)
    (upd_threads (<[ks_current s := set_event_info info (set_event_set (e & set) th)]>)
      (upd_words (fun w => if recved =? SK_NULL then w else <[recved := u32 (e & set)]> w) s)).

Lemma store_recved_run recved v s :
  store_recved recved v s =
    Done (upd_words (fun w => if recved =? SK_NULL then w else <[recved := u32 v]> w) s) tt.
Proof. unfold store_recved. by destruct (recved =? SK_NULL); destruct s. Qed.

Lemma event_recv_run s ev set info time recved e th :
  irq_wf s -> ks_events s !! ev = Some e -> ks_threads s !! ks_current s = Some th -> set <> 0 ->
  sk_event_recv ev set info time recved s =
    match event_check info set e with
    | None => Done s SK_EINVAL
    | Some true => Done (taken ev set info recved e th s) SK_EOK
    | Some false =>
        if time =? 0 then Done s SK_ETIMEOUT
        else (o ← get_obj ev;
              __ipc_list_suspend (NSuspend ev) (ks_current s) (obj_flag o);;
              arm_timeout (ks_current s) time;;
              hw_interrupt_enable (ks_daif s);;
              sk_schedule;;
              level ← hw_interrupt_disable;
              th ← get_thread (ks_current s);
              store_recved recved (event_set th);;
              hw_interrupt_enable level;;
              mret SK_EOK)
             (masked (upd_threads (<[ks_current s := set_event_info info (set_event_set set th)]>) s))
    end.
Proof.
  intros Hirq He Hth Hset. unfold sk_event_recv. rewrite (proj2 (Z.eqb_neq _ _) Hset).
  erewrite bind_done by reflexivity. kstep (disable_ok s Hirq). unfold get_event.
  erewrite bind_done by (apply read_at_ok; exact He). unfold upd_thread.
  destruct (event_check info set e) as [[]|].
  - kstep (store_recved_run recved (e & set) (masked s)).
    erewrite bind_done by (apply update_at_ok; exact Hth).
    erewrite bind_done by (apply update_at_ok; simpl; rewrite lookup_insert_eq; reflexivity).
    unfold taken, event_take. destruct (has_flag info SK_EVENT_FLAG_CLEAR); simpl when_.
    + unfold upd_event. erewrite bind_done by (apply update_at_ok; exact He).
      erewrite bind_done by (by apply enable_ok). unfold mret, M_ret. destruct s.
      unfold upd_events, upd_threads, upd_daif; simpl. by rewrite insert_insert_eq.
    + erewrite bind_done by reflexivity. erewrite bind_done by (by apply enable_ok).
      unfold mret, M_ret. destruct s. unfold upd_events, upd_threads, upd_daif; simpl in *.
      by rewrite insert_insert_eq, (insert_id _ ev).
  - destruct (time =? 0).
    + erewrite bind_done by (by apply enable_ok). unfold mret, M_ret. by destruct s.
    + erewrite bind_done by (apply update_at_ok; exact Hth).
      erewrite bind_done by (apply update_at_ok; simpl; rewrite lookup_insert_eq; reflexivity).
      same_run.
      destruct s. unfold masked, upd_threads, upd_daif; simpl. by rewrite insert_insert_eq.
  - erewrite bind_done by (by apply enable_ok). unfold mret, M_ret. by destruct s.
Qed.

(** What runs when a waiting receiver gets the processor back. *)
Lemma event_recv_resumed c recved d s th :
  irq_wf s -> ks_threads s !! c = Some th ->
  exists s', bind_res (hw_interrupt_enable d s) (fun _ =>
     level ← hw_interrupt_disable;
     th ← get_thread c;
     store_recved recved (event_set th);;
     hw_interrupt_enable level;;
     mret SK_EOK) = Done s' SK_EOK /\ received recved (event_set th) s'.
Proof.
  intros Hirq Ht. set (s1 := if d & 0xC0 =? 0 then upd_daif (fun d => d & ~~ 0xC0) s else s).
  change (hw_interrupt_enable d s) with (Done s1 tt). cbn [bind_res].
  assert (irq_wf s1) as Hirq1.
  { unfold s1. destruct (_ =? 0); [|done]. left. simpl. by destruct Hirq as [-> | ->]. }
  kstep (disable_ok s1 Hirq1). unfold get_thread.
  erewrite bind_done by (apply read_at_ok; simpl; unfold s1; destruct (_ =? 0); exact Ht).
  kstep (store_recved_run recved (event_set th) (masked s1)).
  erewrite bind_done by (by apply enable_ok). eexists. split; [reflexivity|].
  intros Hr. simpl. rewrite (proj2 (Z.eqb_neq _ _) Hr). by rewrite lookup_insert_eq.
Qed.

(** C22: [sk_event_recv] on every branch.  An empty set is refused with [SK_ERROR],
    an option with neither AND nor OR with [SK_EINVAL]; when the awaited bits are there, the caller gets
    them, with CLEAR they leave the set, and the call returns [SK_EOK]; when they
    are not, a call without waiting time returns [SK_ETIMEOUT] and changes
    nothing, and any other joins the waiters with its request recorded in the
    thread, suspended, with its timer armed for the ticks given (and off when they
    are negative), loses the processor, and, in whatever state it is resumed,
    returns [SK_EOK] with the bits then recorded in the thread: those it was sent,
    or, when its time is over, those it had asked for. *)
Theorem event_recv_refines L s ev flag e ws th set info time recved :
  sched_inv L s -> event_rep L s ev flag e ws -> runner L s th -> ks_nest s = 0 -> ks_group s <> 0 ->
  flag = SK_IPC_FLAG_FIFO \/ flag = SK_IPC_FLAG_PRIO -> ev <> thread_timer (ks_current s) ->
  0 <= set < 2 ^ 32 -> 0 <= info < 2 ^ 8 ->
  let r := sk_event_recv ev set info time recved s in
  exists s' L', after r = Some s' /\ sched_inv L' s' /\
    if set =? 0 then r = Done s SK_ERROR else
    match event_check info set e with
    | None => r = Done s SK_EINVAL
    | Some true => r = Done s' SK_EOK /\ event_rep L' s' ev flag (event_take info set e) ws /\
        received recved (e & set) s'
    | Some false =>
        if time =? 0 then r = Done s SK_ETIMEOUT
        else ks_current s' <> ks_current s /\
          event_rep L' s' ev flag e (wait_place flag (ks_threads s) (current_pri th) (ks_current s) ws) /\
          (exists th', ks_threads s' !! ks_current s = Some th' /\ stat th' = SK_THREAD_SUSPEND /\
             event_set th' = set /\ event_info th' = info) /\
          wait_timeout L' s' (ks_current s) (ks_tick s) time /\
          exists k, r = Switch s' k /\ forall s2 th2, irq_wf s2 -> ks_threads s2 !! ks_current s = Some th2 ->
            exists s3, k s2 = Done s3 SK_EOK /\ received recved (event_set th2) s3
    end.
Proof.
  intros HI HE HR Hn Hg Hflag Hneq Hset Hinfo r. subst r. pose proof (si_irq _ _ HI) as Hirq.
  destruct (Z.eqb_spec set 0) as [->|Hnz]; [by exists s, L|].
  rewrite (event_recv_run s ev set info time recved e th) by (done || apply HE || apply HR || lia).
  pose proof (er_threads _ _ _ _ _ _ HE) as Hws. pose proof (current_not_waiting _ _ Hws) as Hcn.
  pose proof (rn_thread _ _ _ HR) as Hth.
  destruct (event_check info set e) as [[]|]; [| |by exists s, L].
  - eexists _, L. split; [reflexivity|]. split.
    { eapply sched_inv_ext; [eapply (sched_inv_thread L s); [exact HI|exact Hth|..]|apply HI|apply HI|done..]; done. }
    split; [done|]. split.
    + destruct HE as [_ (o & Ho & Hfl) Hw Hrg _]. split; [by simpl; rewrite lookup_insert_eq|by exists o|done|by apply take_range|].
      eapply waiters_ext; [by apply waiters_thread|done..].
    + intros Hr. simpl. rewrite (proj2 (Z.eqb_neq _ _) Hr). by rewrite lookup_insert_eq.
  - destruct (time =? 0); [by exists s, L|].
    destruct HE as [He (o & Ho & Hfl) Hw Hrg _].
    unfold get_obj. erewrite bind_done by (apply read_at_ok; exact Ho). rewrite Hfl.
    set (th1 := set_event_info info (set_event_set set th)).
    set (s1 := upd_threads (<[ks_current s := th1]>) s).
    destruct (block_switch L s1 (NSuspend ev) ws th1 flag time)
      as (s' & L' & Hrun & HI' & Hc & Hw' & Hws' & Hth' & Hsame & _ & Hto); try done.
    { by apply (sched_inv_thread L s _ th). }
    { by apply runner_thread with th. }
    { by apply waiters_thread. }
    destruct (Hrun (level ← hw_interrupt_disable; th ← get_thread (ks_current s);
      store_recved recved (event_set th);; hw_interrupt_enable level;; mret SK_EOK)) as (kk & Hk & Hkk).
    exists s', L'. change (ks_current s1) with (ks_current s) in *. change (ks_daif s1) with (ks_daif s) in *.
    rewrite Hk. split; [done|]. split; [done|]. split; [done|]. split; [|split; [|split; [done|]]].
    + destruct Hsame as (_ & _ & Ev & _ & _ & _ & _ & Eo).
      assert (wait_place flag (ks_threads s1) (current_pri th1) (ks_current s) ws =
        wait_place flag (ks_threads s) (current_pri th) (ks_current s) ws) as <-.
      { unfold wait_place. destruct (flag =? _); [done|]. apply prio_place_ext. intros w Hin.
        unfold s1. simpl. rewrite lookup_insert_ne; [done|]. intros E. by rewrite E in Hcn. }
      split; [by rewrite Ev|exists o; by rewrite Eo|done|done|done].
    + eexists. split; [exact Hth'|]. simpl. by rewrite !uint_small by lia.
    + exists kk. split; [done|]. intros s2 th2 Hirq2 Ht2. rewrite Hkk. by apply event_recv_resumed.
Qed.

(** The waiter after a send that satisfies it: with OR it keeps the bits that
    arrived. *)
Definition woken (e : Z) (th : sk_thread) : sk_thread :=
  if has_flag (event_info th) SK_EVENT_FLAG_AND then th else set_event_set (event_set th & e) th.

(** The end of a send that has woken nobody. *)
Definition send_end (need_schedule : bool) s : res Z :=
  if need_schedule then (sk_schedule;; mret SK_EOK) s else Done s SK_EOK.

Lemma send_end_run (b : bool) s :
  irq_wf s ->
  (hw_interrupt_enable (ks_daif s);; if b then sk_schedule;; mret SK_EOK else mret SK_EOK) (masked s) =
  send_end b s.
Proof.
  intros Hirq. erewrite bind_done by (by apply enable_ok).
  assert (upd_daif (fun _ => ks_daif s) (masked s) = s) as -> by (by destruct s). by destruct b.
Qed.

(** [sk_event_send] up to the waking of the first waiter. *)
Lemma event_send_run L s g ev set e ws :
  sched_inv L s -> ks_events s !! ev = Some e -> waiting L (NSuspend ev) ws -> set <> 0 ->
  let s1 := upd_events (<[ev := e ||| set]>) s in
  sk_event_send g ev set s =
    match ws with
    | [] => send_end g s1
    | w :: _ =>
        match ks_threads s !! w with
        | None => Fault
        | Some wh =>
            match event_check (event_info wh) (event_set wh) (e ||| set) with
            | None => Done s1 SK_EINVAL
            | Some false => send_end g s1
            | Some true =>
                (sk_thread_resume w;; hw_interrupt_enable (ks_daif s);; sk_schedule;; mret SK_EOK)
                (masked (upd_events
                   (<[ev := event_take (event_info wh) (event_set (woken (e ||| set) wh)) (e ||| set)]>)
                   (upd_threads (<[w := woken (e ||| set) wh]>) s)))
            end
        end
    end.
Proof.
  intros HI He Hw Hset s1. unfold sk_event_send. rewrite (proj2 (Z.eqb_neq _ _) Hset).
  kstep (disable_ok s (si_irq _ _ HI)). unfold upd_event at 1.
  erewrite bind_done by (apply update_at_ok; exact He). cbv zeta.
  erewrite (first_waiter L _ _ ws) by (apply HI || exact Hw).
  pose proof (send_end_run g s1 (si_irq _ _ HI)) as Hend. destruct ws as [|w ws]; [exact Hend|].
  unfold get_thread, get_event. destruct (ks_threads s !! w) as [wh|] eqn:Hwh.
  2: { unfold mbind, M_bind, read_at. simpl. by rewrite Hwh. }
  erewrite bind_done by (apply read_at_ok; exact Hwh).
  erewrite bind_done by (apply read_at_ok; simpl; rewrite lookup_insert_eq; reflexivity).
  destruct (event_check (event_info wh) (event_set wh) (e ||| set)) as [status|] eqn:Hchk.
  2: { erewrite bind_done by (apply enable_ok; [apply HI|done]). unfold mret, M_ret, s1. by destruct s. }
  assert (event_info (woken (e ||| set) wh) = event_info wh) as Einfo
    by (unfold woken; by destruct (has_flag _ _)).
  set (s2 := masked (upd_threads (if status then <[w := woken (e ||| set) wh]> else id) s1)).
  assert ((when_ (status && negb (has_flag (event_info wh) SK_EVENT_FLAG_AND))
     (upd_thread w (set_event_set (event_set wh & (e ||| set)))))
     (upd_events <[ev:=e ||| set]> (masked s)) = Done s2 tt) as Hfill.
  { unfold s2, s1, woken. destruct status; simpl; [|by destruct s]. destruct (has_flag _ _); simpl.
    - destruct s. unfold upd_threads, masked, upd_daif; simpl in *. by rewrite insert_id.
    - unfold upd_thread. by erewrite update_at_ok by exact Hwh. }
  kstep Hfill.
  pose proof (rep_is_list _ _ (si_rep _ _ HI) _ _ Hw) as Hl. rewrite fmap_cons in Hl.
  destruct (neighbours _ _ [] _ _ Hl) as [Hnx _]. unfold node_next.
  erewrite bind_done by (unfold s2, s1; simpl; rewrite Hnx; reflexivity).
  destruct status; [|exact Hend].
  erewrite bind_done by (apply read_at_ok; simpl; rewrite lookup_insert_eq; reflexivity).
  rewrite Einfo. unfold event_take. destruct (has_flag (event_info wh) SK_EVENT_FLAG_CLEAR); simpl when_.
  - unfold upd_event. erewrite bind_done by (apply update_at_ok; simpl; rewrite lookup_insert_eq; reflexivity).
    same_run.
    unfold s2, s1. destruct s. unfold masked, upd_events, upd_threads, upd_daif; simpl. by rewrite insert_insert_eq.
  - by erewrite bind_done by reflexivity.
Qed.

(** A send that wakes nobody only adds its bits to the set. *)
Lemma send_end_spec L s ev flag e ws th (b : bool) :
  sched_inv L s -> event_rep L s ev flag e ws -> runner L s th ->
  exists s' L', after (send_end b s) = Some s' /\ sched_inv L' s' /\ returns SK_EOK (send_end b s) /\
    event_rep L' s' ev flag e ws.
Proof.
  intros HI HE HR. destruct b; [|by exists s, L]. cbn [send_end].
  destruct (schedule_waiters L s th SK_EOK HI HR) as (s' & L' & Haft & Hret & HI' & Hsame & _ & _ & Hwait).
  destruct (Hwait (NSuspend ev) ws) as [Hw' Hws']; [done|apply HE|apply HE|].
  exists s', L'. do 3 (split; [done|]). destruct Hsame as (_ & _ & Ev & _ & _ & _ & _ & _ & Eo).
  split; [rewrite Ev; apply HE|rewrite Eo; apply HE|done|apply HE|done].
Qed.

Lemma event_rep_send L s ev flag e ws set :
  event_rep L s ev flag e ws -> 0 < set < 2 ^ 16 ->
  event_rep L (upd_events (<[ev := e ||| set]>) s) ev flag (e ||| set) ws.
Proof.
  intros [He Ho Hw Hrg Hws] Hset. split; try done; [by simpl; rewrite lookup_insert_eq|].
  apply bits_range; [lia|]. intros i Hi. rewrite Z.lor_spec.
  rewrite (range_bits 32 e), (range_bits 16 set); [done|lia..].
Qed.

(** C23: [sk_event_send] adds its bits to the set and looks at the first waiter
    only.  If that one is satisfied it leaves the list, finds in its thread the
    bits it got, which leave the set if it asked for CLEAR, and is ready or
    already has the processor; if it is not, everybody waits on, also those who
    wait for the bits just sent.  The result does not depend on the value of
    the local variable the source leaves uninitialised. *)
Theorem event_send_refines L s g ev flag e ws th set :
  sched_inv L s -> event_rep L s ev flag e ws -> runner L s th -> 0 < set < 2 ^ 16 ->
  let e' := e ||| set in let r := sk_event_send g ev set s in
  exists s' L', after r = Some s' /\ sched_inv L' s' /\
    match ws with
    | [] => returns SK_EOK r /\ event_rep L' s' ev flag e' []
    | w :: ws' => forall wh, ks_threads s !! w = Some wh ->
        match event_check (event_info wh) (event_set wh) e' with
        | None => returns SK_EINVAL r /\ event_rep L' s' ev flag e' ws
        | Some false => returns SK_EOK r /\ event_rep L' s' ev flag e' ws
        | Some true => returns SK_EOK r /\
            event_rep L' s' ev flag (event_take (event_info wh) (event_set (woken e' wh)) e') ws' /\
            (exists st, ks_threads s' !! w = Some (set_stat st (woken e' wh))) /\
            (ks_current s' = w \/ exists i us, queue L' i us /\ w ∈ us)
        end
    end.
Proof.
  intros HI HE HR Hset e' r. subst r.
  pose proof (er_wait _ _ _ _ _ _ HE) as Hw. pose proof (er_threads _ _ _ _ _ _ HE) as Hws.
  rewrite (event_send_run L s g ev set e ws) by (done || apply HE || lia). cbv zeta. fold e'.
  set (s1 := upd_events (<[ev := e']>) s).
  assert (sched_inv L s1) as HI1 by (by eapply sched_inv_ext; try apply HI).
  pose proof (event_rep_send _ _ _ _ _ _ _ HE Hset : event_rep L s1 ev flag e' ws) as HE1.
  assert (runner L s1 th) as HR1 by (by eapply runner_ext; [exact HR|..]).
  destruct (send_end_spec L s1 ev flag e' ws th g HI1 HE1 HR1) as (s' & L' & Haft & HI' & Hret & HE').
  destruct ws as [|w ws]; [by exists s', L'|]. destruct (Hws w) as (Hwc & wh & Hwh & Hst); [by left|].
  rewrite Hwh. destruct (event_check (event_info wh) (event_set wh) e') as [[]|] eqn:Hchk.
  2: { exists s', L'. do 2 (split; [done|]). intros ? [= <-]. by rewrite Hchk. }
  2: { exists s1, L. do 2 (split; [done|]). intros ? [= <-]. by rewrite Hchk. }
  set (e2 := event_take (event_info wh) (event_set (woken e' wh)) e').
  set (s2 := upd_events (<[ev := e2]>) (upd_threads (<[w := woken e' wh]>) s)).
  assert (stat (woken e' wh) = stat wh /\ current_pri (woken e' wh) = current_pri wh /\
    number_mask (woken e' wh) = number_mask wh) as (Es & Ep & Em) by (unfold woken; by destruct (has_flag _ _)).
  destruct (wake_schedule L s2 (NSuspend ev) w ws th SK_EOK)
    as (s3 & L3 & r & Hrun & Haft3 & Hret3 & HI3 & Hw3 & Hws3 & Hsame & Hrdy & Hths & _); try done.
  { eapply sched_inv_ext; [eapply (sched_inv_thread L s w wh (woken e' wh)); [exact HI|done..]|apply HI|apply HI|done..]. }
  { destruct HR as [? ? ? (tms & tmr & o & [])]. split; simpl; [by rewrite lookup_insert_ne|done|done|].
    exists tms, tmr, o. done. }
  { intros u Hu. destruct (Hws u Hu) as (Huc & uh & Huh & Hus). split; [done|]. simpl.
    destruct (decide (u = w)) as [->|]; [|exists uh; by rewrite lookup_insert_ne].
    exists (woken e' wh). rewrite lookup_insert_eq. split; congruence. }
  change (ks_daif s2) with (ks_daif s) in Hrun. rewrite Hrun. exists s3, L3. do 2 (split; [done|]).
  intros ? [= <-]. rewrite Hchk. split; [done|]. destruct Hsame as (_ & _ & Ev & _ & _ & _ & _ & _ & Eo).
  split; [|split; [|done]].
  - split; [rewrite Ev; simpl; by rewrite lookup_insert_eq|rewrite Eo; apply HE|done|apply take_range, HE1|done].
  - apply Hths. simpl. by rewrite lookup_insert_eq.
Qed.

End event.

(** ** A concrete event *)

(** Thread 100 runs; 300 waits on the event 900 for the bits 1 and 2 together,
    400 for bit 4; the set is [e]. *)
Definition event_threads : gmap Z sk_thread :=
  <[300 := set_event_info SK_EVENT_FLAG_AND (set_event_set 3 (a_thread SK_THREAD_SUSPEND 8 5))]>
  (<[400 := set_event_info SK_EVENT_FLAG_OR (set_event_set 4 (a_thread SK_THREAD_SUSPEND 12 5))]> wait_threads).

Definition event_state (e : Z) : kstate :=
  upd_threads (fun _ => event_threads) (upd_events (fun _ => {[900 := e]}) wait_state).

Lemma event_state_inv e : sched_inv wait_lists (event_state e).
Proof. apply sched_check_sound. by vm_compute. Qed.

Lemma event_state_runner e : runner wait_lists (event_state e) (a_thread SK_THREAD_RUNNING 10 5).
Proof.
  split; [by vm_compute|done|by vm_compute|].
  exists [], (mk_timer FN_sk_thread_timeout 100 0 0), (mk_object 7 0). by destruct wait_state_timer.
Qed.

Lemma event_state_rep e : 0 <= e < 2 ^ 32 ->
  event_rep wait_lists (event_state e) 900 SK_IPC_FLAG_PRIO e [300; 400].
Proof.
  intros He. split; [done|eexists; by vm_compute|by vm_compute|done|].
  intros w Hw. apply elem_of_cons in Hw as [->|Hw]; [|apply list_elem_of_singleton in Hw as ->];
    (split; [done|eexists; by vm_compute]).
Qed.

(** The receiver asks for bit 8, which is not in the set, and waits; it joins
    the waiters between the other two. *)
Lemma event_recv_refines_witness :
  let r := sk_event_recv 900 8 SK_EVENT_FLAG_OR 7 5000 (event_state 1) in
  exists s' L', after r = Some s' /\ sched_inv L' s' /\
    ks_current s' <> 100 /\ event_rep L' s' 900 SK_IPC_FLAG_PRIO 1 [300; 100; 400] /\
    (exists th', ks_threads s' !! 100 = Some th' /\ stat th' = SK_THREAD_SUSPEND /\ event_set th' = 8 /\
       event_info th' = SK_EVENT_FLAG_OR) /\
    wait_timeout L' s' 100 (ks_tick (event_state 1)) 7 /\
    exists k, r = Switch s' k /\ forall s2 th2, irq_wf s2 -> ks_threads s2 !! 100 = Some th2 ->
      exists s3, k s2 = Done s3 SK_EOK /\ received 5000 (event_set th2) s3.
Proof.
  exact (event_recv_refines wait_lists (event_state 1) 900 SK_IPC_FLAG_PRIO 1 [300; 400]
    (a_thread SK_THREAD_RUNNING 10 5) 8 SK_EVENT_FLAG_OR 7 5000 (event_state_inv 1)
    (event_state_rep 1 ltac:(lia)) (event_state_runner 1) ltac:(done) ltac:(done) ltac:(by right) ltac:(done)
    ltac:(done) ltac:(done)).
Defined.

(** Bit 2 completes the request of 300. *)
Lemma event_send_refines_witness :
  let r := sk_event_send false 900 2 (event_state 1) in
  exists s' L', after r = Some s' /\ sched_inv L' s' /\
    forall wh, event_threads !! 300 = Some wh ->
    match event_check (event_info wh) (event_set wh) 3 with
    | None => returns SK_EINVAL r /\ event_rep L' s' 900 SK_IPC_FLAG_PRIO 3 [300; 400]
    | Some false => returns SK_EOK r /\ event_rep L' s' 900 SK_IPC_FLAG_PRIO 3 [300; 400]
    | Some true => returns SK_EOK r /\
        event_rep L' s' 900 SK_IPC_FLAG_PRIO (event_take (event_info wh) (event_set (woken 3 wh)) 3) [400] /\
        (exists st, ks_threads s' !! 300 = Some (set_stat st (woken 3 wh))) /\
        (ks_current s' = 300 \/ exists i us, queue L' i us /\ 300 ∈ us)
    end.
Proof.
  exact (event_send_refines wait_lists (event_state 1) false 900 SK_IPC_FLAG_PRIO 1 [300; 400]
    (a_thread SK_THREAD_RUNNING 10 5) 2 (event_state_inv 1) (event_state_rep 1 ltac:(lia))
    (event_state_runner 1) ltac:(done)).
Defined.
