(* ===== verification/Mailbox.v ===== *)
(** * Mailboxes: [src/ipc/mailbox.c]

    A mailbox is a ring of machine words in [msg_pool] with two waiting lists,
    [suspend_thread] for receivers and [suspend_sender_thread] for senders.  The
    ring is proved to be a bounded queue, and the calls are proved to implement
    it on every branch, the continuation of a call that had to wait included. *)

From S2P Require Import Prelude BaseDef KList Slab Kernel Sched KObj Timer Thread IpcBase.

Local Open Scope c_scope.
#[local] Coercion Z.of_nat : nat >-> Z.

Definition get_mailbox (mb : Z) : M sk_mailbox := read_at ks_mailboxes mb.
Definition upd_mailbox (mb : Z) (g : sk_mailbox -> sk_mailbox) : M unit :=
  update_at ks_mailboxes upd_mailboxes mb g.

(** Stores into the fields of the structure, at their width. *)
Definition set_mb_size (n : Z) (b : sk_mailbox) :=
  mk_mailbox (mb_pool b) (u16 n) (mb_entry b) (in_offset b) (out_offset b).
Definition set_mb_pool (p : Z) (b : sk_mailbox) :=
  mk_mailbox p (mb_size b) (mb_entry b) (in_offset b) (out_offset b).
Definition set_mb_entry (n : Z) (b : sk_mailbox) :=
  mk_mailbox (mb_pool b) (mb_size b) (u16 n) (in_offset b) (out_offset b).
Definition set_in_offset (n : Z) (b : sk_mailbox) :=
  mk_mailbox (mb_pool b) (mb_size b) (mb_entry b) (u16 n) (out_offset b).
Definition set_out_offset (n : Z) (b : sk_mailbox) :=
  mk_mailbox (mb_pool b) (mb_size b) (mb_entry b) (in_offset b) (u16 n).
Definition mb_empty (b : sk_mailbox) := set_mb_entry 0 (set_in_offset 0 (set_out_offset 0 b)).

(** ** Operations *)

Definition sk_mailbox_create (name size flag : Z) : M Z :=
  mb ← sk_object_alloc SK_OBJECT_MAILBOX name;
  if mb =? SK_NULL then mret mb
  else
    upd_obj mb (set_obj_flag flag);;
    __ipc_object_init mb;;
    upd_mailbox mb (set_mb_size size);;
    b ← get_mailbox mb;
    p ← kmalloc (mb_size b * 8);
    upd_mailbox mb (set_mb_pool p);;
    if negb (p =? SK_NULL) then
      sk_object_delete mb;;
      mret SK_NULL
    else
      upd_mailbox mb mb_empty;;
      list_init (NSender mb);;
      mret mb.

Definition sk_mailbox_init (mb name msgpool size flag : Z) : M Z :=
  sk_object_init mb SK_OBJECT_MAILBOX name;;
  upd_obj mb (set_obj_flag flag);;
  __ipc_object_init mb;;
  upd_mailbox mb (fun b => mb_empty (set_mb_pool msgpool (set_mb_size size b)));;
  list_init (NSender mb);;
  mret SK_EOK.

Definition sk_mailbox_delete (mb : Z) : M Z :=
  if mb =? SK_NULL then mret SK_EOK
  else
    fuel ← gets node_fuel;
    __ipc_list_resume_all fuel (NSuspend mb);;
    fuel ← gets node_fuel;
    __ipc_list_resume_all fuel (NSender mb);;
    b ← get_mailbox mb;
    when_ (negb (mb_pool b =? SK_NULL)) (kfree (mb_pool b));;
    sk_object_delete mb;;
    mret SK_EOK.

(** [++mb->in_offset; if(mb->in_offset >= mb->size) mb->in_offset = 0;] *)
Definition step_in (b : sk_mailbox) : sk_mailbox :=
  let b := set_in_offset (in_offset b + 1) b in
  if mb_size b <=? in_offset b then set_in_offset 0 b else b.

Definition step_out (b : sk_mailbox) : sk_mailbox :=
  let b := set_out_offset (out_offset b + 1) b in
  if mb_size b <=? out_offset b then set_out_offset 0 b else b.

(** [sk_mailbox_send_wait] from the second test for a full mailbox. *)
Definition mailbox_put (mb value temp : Z) : M Z :=
  b ← get_mailbox mb;
  if mb_entry b =? mb_size b then mret SK_EFULL
  else
    write_word (mb_pool b + 8 * in_offset b) value;;
    upd_mailbox mb step_in;;
    b ← get_mailbox mb;
    if mb_entry b <? mb_size b then
      upd_mailbox mb (fun b => set_mb_entry (mb_entry b + 1) b);;
      resume_first mb temp
    else
      hw_interrupt_enable temp;;
      mret SK_EFULL.

Definition sk_mailbox_send_wait (mb value timeout : Z) : M Z :=
  thread ← sk_current_thread;
  temp ← hw_interrupt_disable;
  b ← get_mailbox mb;
  if (mb_entry b =? mb_size b) && (timeout =? 0) then
    hw_interrupt_enable temp;;
    mret SK_EFULL
  else if mb_entry b =? mb_size b then
    o ← get_obj mb;
    __ipc_list_suspend (NSender mb) thread (obj_flag o);;
    arm_timeout thread timeout;;
    hw_interrupt_enable temp;;
    sk_schedule;;
    mailbox_put mb value temp
  else mailbox_put mb value temp.

Definition sk_mailbox_send (mb value : Z) : M Z := sk_mailbox_send_wait mb value 0.

(** [sk_mailbox_recv] from the second test for an empty mailbox. *)
Definition mailbox_take (mb value temp : Z) : M Z :=
  b ← get_mailbox mb;
  if mb_entry b =? 0 then mret SK_ETIMEOUT
  else
    v ← read_word (mb_pool b + 8 * out_offset b);
    write_word value v;;
    upd_mailbox mb step_out;;
    b ← get_mailbox mb;
    when_ (0 <? mb_entry b) (upd_mailbox mb (fun b => set_mb_entry (mb_entry b - 1) b));;
    resume_first mb temp.

Definition sk_mailbox_recv (mb value timeout : Z) : M Z :=
  thread ← sk_current_thread;
  temp ← hw_interrupt_disable;
  b ← get_mailbox mb;
  if (mb_entry b =? 0) && (timeout =? 0) then
    hw_interrupt_enable temp;;
    mret SK_ETIMEOUT
  else if mb_entry b =? 0 then
    o ← get_obj mb;
    __ipc_list_suspend (NSuspend mb) thread (obj_flag o);;
    arm_timeout thread timeout;;
    hw_interrupt_enable temp;;
    sk_schedule;;
    mailbox_take mb value temp
  else mailbox_take mb value temp.

(** ** The ring of messages *)

Definition wordat (w : gmap Z Z) (a : Z) : Z := default 0 (w !! a).

(** Cell [i] of the queue that starts at [out_offset]. *)
Definition cell (b : sk_mailbox) (i : Z) : Z := mb_pool b + 8 * ((out_offset b + i) mod mb_size b).

(** The ring holds the messages [msgs], oldest first. *)
Record box_rep (b : sk_mailbox) (w : gmap Z Z) (msgs : list Z) : Prop := {
  br_size : 0 < mb_size b < 2 ^ 16;
  br_out : 0 <= out_offset b < mb_size b;
  br_in : in_offset b = (out_offset b + length msgs) mod mb_size b;
  br_entry : mb_entry b = length msgs;
  br_bound : length msgs <= mb_size b;
  br_cells : forall (i : nat) x, msgs !! i = Some x -> wordat w (cell b i) = x;
  br_words : Forall (fun x => 0 <= x < 2 ^ 64) msgs
}.

(** The address is not one of the pool's words. *)
Definition off_pool (b : sk_mailbox) (a : Z) : Prop := forall i, 0 <= i < mb_size b -> a <> mb_pool b + 8 * i.

Definition box_put (b : sk_mailbox) : sk_mailbox :=
  let b := step_in b in set_mb_entry (mb_entry b + 1) b.
Definition box_take (b : sk_mailbox) : sk_mailbox :=
  let b := step_out b in set_mb_entry (mb_entry b - 1) b.

Section ring.

Lemma mod_succ x n : 0 < n -> (x + 1) mod n = if n <=? x mod n + 1 then 0 else x mod n + 1.
Proof.
  intros Hn. rewrite <- Zplus_mod_idemp_l. pose proof (Z.mod_pos_bound x n Hn).
  destruct (Z.leb_spec n (x mod n + 1)).
  - replace (x mod n + 1) with n by lia. apply Z.mod_same. lia.
  - apply Z.mod_small. lia.
Qed.

Lemma mod_apart x i j n : 0 < n -> 0 <= i < n -> 0 <= j < n -> i <> j -> (x + i) mod n <> (x + j) mod n.
Proof.
  intros Hn Hi Hj Hij E. apply Hij.
  assert ((i - j) mod n = 0) as Hm.
  { replace (i - j) with ((x + i) - (x + j)) by lia. by rewrite Zminus_mod, E, Z.sub_diag, Z.mod_0_l by lia. }
  apply Z.mod_divide in Hm as [q Hq]; [|lia]. assert (q < 1) by nia. assert (-1 < q) by nia. nia.
Qed.

Lemma step_in_eq b : 0 < mb_size b < 2 ^ 16 -> 0 <= in_offset b < mb_size b ->
  step_in b = mk_mailbox (mb_pool b) (mb_size b) (mb_entry b)
    (if mb_size b <=? in_offset b + 1 then 0 else in_offset b + 1) (out_offset b).
Proof.
  intros Hs Hi. unfold step_in, set_in_offset. simpl. rewrite (uint_small 16 (in_offset b + 1)) by lia.
  by destruct (mb_size b <=? in_offset b + 1).
Qed.

Lemma step_out_eq b : 0 < mb_size b < 2 ^ 16 -> 0 <= out_offset b < mb_size b ->
  step_out b = mk_mailbox (mb_pool b) (mb_size b) (mb_entry b) (in_offset b)
    (if mb_size b <=? out_offset b + 1 then 0 else out_offset b + 1).
Proof.
  intros Hs Hi. unfold step_out, set_out_offset. simpl. rewrite (uint_small 16 (out_offset b + 1)) by lia.
  by destruct (mb_size b <=? out_offset b + 1).
Qed.

Lemma box_put_rep b w msgs v :
  box_rep b w msgs -> length msgs < mb_size b -> 0 <= v < 2 ^ 64 ->
  box_rep (box_put b) (<[mb_pool b + 8 * in_offset b := v]> w) (msgs ++ [v]).
Proof.
  intros [Hs Ho Hi He Hb Hc Hr] Hlt Hv.
  assert (0 <= in_offset b < mb_size b) as Hin by (rewrite Hi; apply Z.mod_pos_bound; lia).
  unfold box_put. rewrite (step_in_eq b Hs Hin). simpl.
  split; simpl; rewrite ?length_app; simpl; [done|done| | |lia| |by apply Forall_app_2; [|constructor]].
  - rewrite Hi. replace (out_offset b + (length msgs + 1)%nat) with (out_offset b + length msgs + 1) by lia.
    by rewrite mod_succ by lia.
  - rewrite He, uint_small by lia. lia.
  - intros i x Hx. unfold wordat, cell. simpl. rewrite Hi.
    apply lookup_snoc_Some in Hx as [[Hlen Hx]|[-> ->]]; [|by rewrite lookup_insert_eq].
    rewrite lookup_insert_ne; [by apply Hc|].
    pose proof (mod_apart (out_offset b) (length msgs) i (mb_size b)). lia.
Qed.

Lemma box_take_rep b w w' x msgs :
  box_rep b w (x :: msgs) -> (forall i, 0 <= i < mb_size b ->
    w' !! (mb_pool b + 8 * i) = w !! (mb_pool b + 8 * i)) ->
  wordat w (mb_pool b + 8 * out_offset b) = x /\ box_rep (box_take b) w' msgs.
Proof.
  intros [Hs Ho Hi He Hb Hc Hr] Hw. simpl length in *. split.
  { rewrite <- (Hc 0%nat x) by done. unfold cell. by rewrite Z.add_0_r, (Z.mod_small _ _ Ho). }
  assert (forall i : nat, (out_offset b + S i) mod mb_size b =
    ((if mb_size b <=? out_offset b + 1 then 0 else out_offset b + 1) + i) mod mb_size b) as Hm.
  { intros i. pose proof (mod_succ (out_offset b) (mb_size b)) as E. rewrite (Z.mod_small _ _ Ho) in E.
    rewrite <- E by lia. rewrite Zplus_mod_idemp_l. f_equal. lia. }
  unfold box_take. rewrite (step_out_eq b Hs Ho). simpl. split; simpl; [done| | | |lia| |by apply Forall_cons in Hr as [_ Hr]].
  - destruct (Z.leb_spec (mb_size b) (out_offset b + 1)); lia.
  - by rewrite Hi, Hm.
  - rewrite He, uint_small by lia. lia.
  - intros i y Hy. rewrite <- (Hc (S i) y) by done. unfold wordat, cell. simpl. rewrite <- Hm.
    f_equal. apply Hw. apply Z.mod_pos_bound. lia.
Qed.

End ring.

(** ** Properties *)

(** A mailbox, its messages, and the receivers [rs] and senders [ss] that wait. *)
Record mailbox_rep (L : lists) (s : kstate) (mb flag : Z) (b : sk_mailbox)
    (msgs rs ss : list Z) : Prop := {
  mbr_box : ks_mailboxes s !! mb = Some b;
  mbr_ring : box_rep b (ks_words s) msgs;
  mbr_obj : exists o, ks_objs s !! mb = Some o /\ obj_flag o = flag;
  mbr_recv : waiting L (NSuspend mb) rs;
  mbr_recvs : waiters s rs;
  mbr_send : waiting L (NSender mb) ss;
  mbr_sends : waiters s ss
}.

(** The outcome of a send of [v] into the given mailbox. *)
Definition sent (mb flag v : Z) (b : sk_mailbox) (msgs rs ss : list Z) (r : res Z) : Prop :=
  exists s' L', after r = Some s' /\ sched_inv L' s' /\
    if length msgs =? mb_size b then returns SK_EFULL r /\ mailbox_rep L' s' mb flag b msgs rs ss
    else returns SK_EOK r /\ mailbox_rep L' s' mb flag (box_put b) (msgs ++ [v]) (tail rs) ss /\
      first_runs L' s' rs.

(** The outcome of a receive into the word at [value]. *)
Definition fetched (mb flag value : Z) (b : sk_mailbox) (msgs rs ss : list Z) (r : res Z) : Prop :=
  exists s' L', after r = Some s' /\ sched_inv L' s' /\
    match msgs with
    | [] => returns SK_ETIMEOUT r /\ mailbox_rep L' s' mb flag b [] rs ss
    | x :: msgs => returns SK_EOK r /\ ks_words s' !! value = Some x /\
        mailbox_rep L' s' mb flag (box_take b) msgs (tail rs) ss /\ first_runs L' s' rs
    end.

Section mailbox.
Implicit Types (L : lists) (s : kstate).

Lemma mailbox_rep_ext L s s' mb flag b b' msgs msgs' rs ss :
  mailbox_rep L s mb flag b msgs rs ss -> ks_mailboxes s' !! mb = Some b' ->
  box_rep b' (ks_words s') msgs' -> ks_objs s' = ks_objs s -> ks_threads s' = ks_threads s ->
  ks_current s' = ks_current s -> mailbox_rep L s' mb flag b' msgs' rs ss.
Proof.
  intros [] Hb Hr Eo Et Ec. split; try done; [by rewrite Eo| |]; by eapply waiters_ext.
Qed.

Lemma mailbox_resume_spec L s mb flag b msgs rs ss th d :
  sched_inv L s -> runner L s th -> mailbox_rep L s mb flag b msgs rs ss -> d = 0 \/ d = 0xC0 ->
  exists s' L', let r := resume_first mb d s in
    after r = Some s' /\ sched_inv L' s' /\ returns SK_EOK r /\
    mailbox_rep L' s' mb flag b msgs (tail rs) ss /\ first_runs L' s' rs /\ ks_words s' = ks_words s.
Proof.
  intros HI HR HM Hd. destruct (resume_first_spec L s mb rs th d)
    as (s' & L' & Haft & HI' & Hret & Hw' & Hws' & Hsame & Hfst & Hoth); try done; try apply HM.
  destruct (Hoth (NSender mb) ss) as [Hw2 Hws2]; [done|done|apply HM|apply HM|].
  destruct Hsame as (_ & _ & _ & Em & _ & Ew & _ & _ & Eo).
  exists s', L'. do 3 (split; [done|]). split; [|done].
  split; rewrite ?Em, ?Ew, ?Eo; try apply HM; done.
Qed.

Lemma mailbox_put_spec L s mb flag b msgs rs ss th d v :
  sched_inv L s -> runner L s th -> mailbox_rep L s mb flag b msgs rs ss -> d = 0 \/ d = 0xC0 ->
  0 <= v < 2 ^ 64 -> sent mb flag v b msgs rs ss (mailbox_put mb v d s).
Proof.
  intros HI HR HM Hd Hv. pose proof (mbr_ring _ _ _ _ _ _ _ _ HM) as [Hs Ho Hi He Hb _ _].
  pose proof (mbr_box _ _ _ _ _ _ _ _ HM) as Hbox. unfold sent, mailbox_put, get_mailbox, upd_mailbox.
  erewrite bind_done by (apply read_at_ok; exact Hbox). rewrite He.
  destruct (Z.eqb_spec (length msgs) (mb_size b)) as [Hfull|Hfull]; [by exists s, L|].
  erewrite bind_done by reflexivity.
  erewrite bind_done by (apply update_at_ok; exact Hbox).
  erewrite bind_done by (apply read_at_ok; simpl; rewrite lookup_insert_eq; reflexivity).
  assert (0 <= in_offset b < mb_size b) as Hin by (rewrite Hi; apply Z.mod_pos_bound; lia).
  assert (mb_entry (step_in b) <? mb_size (step_in b) = true) as ->.
  { rewrite step_in_eq by done. simpl. apply Z.ltb_lt. lia. }
  erewrite bind_done by (apply update_at_ok; simpl; rewrite lookup_insert_eq; reflexivity).
  match goal with |- context [resume_first mb d ?x] => set (s1 := x) end.
  assert (runner L s1 th) as HR1 by (by eapply runner_ext; [exact HR|..]).
  assert (sched_inv L s1) as HI1 by (by eapply sched_inv_ext; try apply HI).
  destruct (mailbox_resume_spec L s1 mb flag (box_put b) (msgs ++ [v]) rs ss th d HI1 HR1)
    as (s' & L' & Haft & HI' & Hret & HM' & Hfst & _); try done; [|by exists s', L'].
  eapply (mailbox_rep_ext L s); [exact HM| | |done..].
  - simpl. by rewrite lookup_insert_eq.
  - simpl. rewrite uint_small by lia. apply box_put_rep; [apply HM|lia|done].
Qed.

Lemma mailbox_take_spec L s mb flag b msgs rs ss th d value :
  sched_inv L s -> runner L s th -> mailbox_rep L s mb flag b msgs rs ss -> d = 0 \/ d = 0xC0 ->
  off_pool b value -> fetched mb flag value b msgs rs ss (mailbox_take mb value d s).
Proof.
  intros HI HR HM Hd Hoff. pose proof (mbr_ring _ _ _ _ _ _ _ _ HM) as Hring.
  pose proof (mbr_box _ _ _ _ _ _ _ _ HM) as Hbox. unfold fetched, mailbox_take, get_mailbox, upd_mailbox.
  erewrite bind_done by (apply read_at_ok; exact Hbox). rewrite (br_entry _ _ _ Hring).
  destruct msgs as [|x msgs]; [by exists s, L|]. change (length (x :: msgs) =? 0) with false.
  destruct (box_take_rep b (ks_words s) (<[value := u64 x]> (ks_words s)) x msgs Hring) as [Hx Htake].
  { intros i Hi. rewrite lookup_insert_ne; [done|]. by apply Hoff. }
  erewrite bind_done by reflexivity. fold (wordat (ks_words s) (mb_pool b + 8 * out_offset b)). rewrite Hx.
  erewrite bind_done by reflexivity.
  erewrite bind_done by (apply update_at_ok; exact Hbox).
  erewrite bind_done by (apply read_at_ok; simpl; rewrite lookup_insert_eq; reflexivity).
  assert (0 <? mb_entry (step_out b) = true) as ->.
  { rewrite step_out_eq by apply Hring. simpl. rewrite (br_entry _ _ _ Hring). done. }
  simpl when_.
  erewrite bind_done by (apply update_at_ok; simpl; rewrite lookup_insert_eq; reflexivity).
  match goal with |- context [resume_first mb d ?x] => set (s1 := x) end.
  assert (runner L s1 th) as HR1 by (by eapply runner_ext; [exact HR|..]).
  assert (sched_inv L s1) as HI1 by (by eapply sched_inv_ext; try apply HI).
  destruct (mailbox_resume_spec L s1 mb flag (box_take b) msgs rs ss th d HI1 HR1)
    as (s' & L' & Haft & HI' & Hret & HM' & Hfst & Ew); try done.
  { eapply (mailbox_rep_ext L s _ mb flag b _ (x :: msgs)); [exact HM| |done..]. simpl. by rewrite lookup_insert_eq. }
  exists s', L'. do 3 (split; [done|]). split; [|done]. rewrite Ew. simpl. rewrite lookup_insert_eq.
  pose proof (br_words _ _ _ Hring) as [Hrg _]%Forall_cons. by rewrite uint_small.
Qed.

(** The calls up to the second test. *)
Lemma mailbox_send_run s mb b v time :
  irq_wf s -> ks_mailboxes s !! mb = Some b ->
  sk_mailbox_send_wait mb v time s =
    if mb_entry b =? mb_size b then
      if time =? 0 then Done s SK_EFULL
      else (o ← get_obj mb;
            __ipc_list_suspend (NSender mb) (ks_current s) (obj_flag o);;
            arm_timeout (ks_current s) time;;
            hw_interrupt_enable (ks_daif s);;
            sk_schedule;;
            mailbox_put mb v (ks_daif s)) (masked s)
    else mailbox_put mb v (ks_daif s) (masked s).
Proof.
  intros Hirq Hb. unfold sk_mailbox_send_wait. erewrite bind_done by reflexivity. kstep (disable_ok s Hirq).
  unfold get_mailbox. erewrite bind_done by (apply read_at_ok; exact Hb).
  destruct (mb_entry b =? mb_size b); [|done]. destruct (time =? 0); [|done]. kif.
  erewrite bind_done by (by apply enable_ok). unfold mret, M_ret. by destruct s.
Qed.

Lemma mailbox_recv_run s mb b v time :
  irq_wf s -> ks_mailboxes s !! mb = Some b ->
  sk_mailbox_recv mb v time s =
    if mb_entry b =? 0 then
      if time =? 0 then Done s SK_ETIMEOUT
      else (o ← get_obj mb;
            __ipc_list_suspend (NSuspend mb) (ks_current s) (obj_flag o);;
            arm_timeout (ks_current s) time;;
            hw_interrupt_enable (ks_daif s);;
            sk_schedule;;
            mailbox_take mb v (ks_daif s)) (masked s)
    else mailbox_take mb v (ks_daif s) (masked s).
Proof.
  intros Hirq Hb. unfold sk_mailbox_recv. erewrite bind_done by reflexivity. kstep (disable_ok s Hirq).
  unfold get_mailbox. erewrite bind_done by (apply read_at_ok; exact Hb).
  destruct (mb_entry b =? 0); [|done]. destruct (time =? 0); [|done]. kif.
  erewrite bind_done by (by apply enable_ok). unfold mret, M_ret. by destruct s.
Qed.

(** The interrupt level does not matter to the mailbox and the running thread. *)
Lemma mailbox_level L s mb flag b msgs rs ss th d :
  sched_inv L s -> runner L s th -> mailbox_rep L s mb flag b msgs rs ss -> d = 0 \/ d = 0xC0 ->
  let s' := upd_daif (fun _ => d) s in
  sched_inv L s' /\ runner L s' th /\ mailbox_rep L s' mb flag b msgs rs ss.
Proof.
  intros HI HR HM Hd s'. split; [eapply sched_inv_ext; [exact HI|apply HI|exact Hd|done..]|].
  split; [by eapply runner_ext; [exact HR|..]|]. by eapply mailbox_rep_ext; try apply HM.
Qed.

Lemma box_full b w msgs : box_rep b w msgs -> (mb_entry b =? mb_size b) = (length msgs =? mb_size b).
Proof. intros H. by rewrite (br_entry _ _ _ H). Qed.

(** C24: [sk_mailbox_send_wait] into a mailbox with space appends the message to
    the queue and wakes the first waiting receiver.  Into a full one it returns
    [SK_EFULL] at once when no waiting time is given; otherwise the caller joins
    the waiting senders, its timer armed for the ticks given, and loses the
    processor, and in whatever consistent
    state it gets it back the message is sent if there is now space, and
    [SK_EFULL] is returned if there is not. *)
Theorem mailbox_send_refines L s mb flag b msgs rs ss th v time :
  sched_inv L s -> mailbox_rep L s mb flag b msgs rs ss -> runner L s th -> ks_nest s = 0 ->
  ks_group s <> 0 -> flag = SK_IPC_FLAG_FIFO \/ flag = SK_IPC_FLAG_PRIO ->
  mb <> thread_timer (ks_current s) -> 0 <= v < 2 ^ 64 ->
  let r := sk_mailbox_send_wait mb v time s in
  if length msgs =? mb_size b then
    if time =? 0 then r = Done s SK_EFULL
    else exists s' L' k, r = Switch s' k /\ sched_inv L' s' /\ ks_current s' <> ks_current s /\
      mailbox_rep L' s' mb flag b msgs rs
        (wait_place flag (ks_threads s) (current_pri th) (ks_current s) ss) /\
      wait_timeout L' s' (ks_current s) (ks_tick s) time /\
      forall L2 s2 b2 msgs2 rs2 ss2 th2,
        sched_inv L2 s2 -> mailbox_rep L2 s2 mb flag b2 msgs2 rs2 ss2 -> runner L2 s2 th2 ->
        sent mb flag v b2 msgs2 rs2 ss2 (k s2)
  else sent mb flag v b msgs rs ss r.
Proof.
  intros HI HM HR Hn Hg Hflag Hneq Hv r. subst r.
  rewrite (mailbox_send_run s mb b v time (si_irq _ _ HI)) by apply HM.
  rewrite (box_full b _ msgs) by apply HM. destruct (length msgs =? mb_size b) eqn:Hfull.
  2: { destruct (mailbox_level L s mb flag b msgs rs ss th 0xC0) as (HI1 & HR1 & HM1); [done|done|done|by right|].
    eapply mailbox_put_spec; [exact HI1|exact HR1|exact HM1|apply HI|done]. }
  destruct (time =? 0); [done|]. destruct HM as [Hb Hr (o & Ho & Hfl) Hw1 Hws1 Hw2 Hws2].
  unfold get_obj. erewrite bind_done by (apply read_at_ok; exact Ho). rewrite Hfl.
  destruct (block_switch L s (NSender mb) ss th flag time)
    as (s' & L' & Hrun & HI' & Hc & Hw' & Hws' & _ & Hsame & Hoth & Hto); try done.
  destruct (Hrun (mailbox_put mb v (ks_daif s))) as (kk & -> & Hkk). exists s', L', kk.
  do 3 (split; [done|]). split.
  - destruct (Hoth (NSuspend mb) rs) as [? ?]; try done.
    destruct Hsame as (_ & _ & _ & Em & _ & Ew & _ & Eo). split; rewrite ?Em, ?Ew; try done.
    exists o. by rewrite Eo.
  - split; [done|]. intros L2 s2 b2 msgs2 rs2 ss2 th2 HI2 HM2 HR2. rewrite Hkk.
    destruct (enable_any (ks_daif s) s2 (si_irq _ _ HI) (si_irq _ _ HI2)) as (d' & Hdd & ->).
    destruct (mailbox_level L2 s2 mb flag b2 msgs2 rs2 ss2 th2 d') as (HI3 & HR3 & HM3); try done.
    eapply mailbox_put_spec; [exact HI3|exact HR3|exact HM3|apply HI|done].
Qed.

(** C25: [sk_mailbox_recv] from a mailbox with messages returns the oldest one;
    the thread it wakes is the first waiting receiver, and the senders that wait
    for the space it has made stay suspended.  From an empty one it returns
    [SK_ETIMEOUT] at once when no waiting time is given; otherwise the caller
    joins the waiting receivers, its timer armed for the ticks given, and loses the
    processor, and when it gets it back it takes the oldest message, or returns
    [SK_ETIMEOUT] if there is none. *)
Theorem mailbox_recv_refines L s mb flag b msgs rs ss th value time :
  sched_inv L s -> mailbox_rep L s mb flag b msgs rs ss -> runner L s th -> ks_nest s = 0 ->
  ks_group s <> 0 -> flag = SK_IPC_FLAG_FIFO \/ flag = SK_IPC_FLAG_PRIO ->
  mb <> thread_timer (ks_current s) -> off_pool b value ->
  let r := sk_mailbox_recv mb value time s in
  match msgs with
  | [] =>
    if time =? 0 then r = Done s SK_ETIMEOUT
    else exists s' L' k, r = Switch s' k /\ sched_inv L' s' /\ ks_current s' <> ks_current s /\
      mailbox_rep L' s' mb flag b []
        (wait_place flag (ks_threads s) (current_pri th) (ks_current s) rs) ss /\
      wait_timeout L' s' (ks_current s) (ks_tick s) time /\
      forall L2 s2 b2 msgs2 rs2 ss2 th2,
        sched_inv L2 s2 -> mailbox_rep L2 s2 mb flag b2 msgs2 rs2 ss2 -> runner L2 s2 th2 ->
        off_pool b2 value -> fetched mb flag value b2 msgs2 rs2 ss2 (k s2)
  | _ => fetched mb flag value b msgs rs ss r
  end.
Proof.
  intros HI HM HR Hn Hg Hflag Hneq Hoff r. subst r.
  rewrite (mailbox_recv_run s mb b value time (si_irq _ _ HI)) by apply HM.
  rewrite (br_entry _ _ _ (mbr_ring _ _ _ _ _ _ _ _ HM)). destruct msgs as [|x msgs].
  2: { destruct (mailbox_level L s mb flag b (x :: msgs) rs ss th 0xC0) as (HI1 & HR1 & HM1); [done|done|done|by right|].
    eapply mailbox_take_spec; [exact HI1|exact HR1|exact HM1|apply HI|done]. }
  simpl length. destruct (time =? 0); [done|]. destruct HM as [Hb Hr (o & Ho & Hfl) Hw1 Hws1 Hw2 Hws2].
  unfold get_obj. erewrite bind_done by (apply read_at_ok; exact Ho). rewrite Hfl.
  destruct (block_switch L s (NSuspend mb) rs th flag time)
    as (s' & L' & Hrun & HI' & Hc & Hw' & Hws' & _ & Hsame & Hoth & Hto); try done.
  destruct (Hrun (mailbox_take mb value (ks_daif s))) as (kk & -> & Hkk). exists s', L', kk.
  do 3 (split; [done|]). split.
  - destruct (Hoth (NSender mb) ss) as [? ?]; try done.
    destruct Hsame as (_ & _ & _ & Em & _ & Ew & _ & Eo). split; rewrite ?Em, ?Ew; try done.
    exists o. by rewrite Eo.
  - split; [done|]. intros L2 s2 b2 msgs2 rs2 ss2 th2 HI2 HM2 HR2 Hoff2. rewrite Hkk.
    destruct (enable_any (ks_daif s) s2 (si_irq _ _ HI) (si_irq _ _ HI2)) as (d' & Hdd & ->).
    destruct (mailbox_level L2 s2 mb flag b2 msgs2 rs2 ss2 th2 d') as (HI3 & HR3 & HM3); try done.
    eapply mailbox_take_spec; [exact HI3|exact HR3|exact HM3|apply HI|done].
Qed.

End mailbox.

(** ** A concrete mailbox *)

(** Thread 100 runs; the mailbox 900 has two words at 7000, of which the ring
    holds 11 and 22, and 300 and 400 wait to send. *)
Definition box_lists : lists :=
  <[NSender 900 := [NTlist 300; NTlist 400]]> (<[NSuspend 900 := []]> (<[NPrio 5 := [NTlist 200]]>
    (<[NTlist 100 := []]> (<[NTimerList := []]> (<[NTimer 220 := []]> prio_lists))))).

Definition full_box : sk_mailbox := mk_mailbox 7000 2 2 1 1.

Definition box_state : kstate :=
  upd_nodes (fun _ => heap_of box_lists) (upd_mailboxes (fun _ => {[900 := full_box]})
    (upd_words (fun _ => list_to_map [(7000, 22); (7008, 11)]) wait_state)).

Lemma box_state_inv : sched_inv box_lists box_state.
Proof. apply sched_check_sound. by vm_compute. Qed.

Lemma box_state_runner : runner box_lists box_state (a_thread SK_THREAD_RUNNING 10 5).
Proof.
  split; [by vm_compute|done|by vm_compute|].
  exists [], (mk_timer FN_sk_thread_timeout 100 0 0), (mk_object 7 0).
  split; [by vm_compute..|right; by vm_compute].
Qed.

Lemma box_state_rep : mailbox_rep box_lists box_state 900 SK_IPC_FLAG_PRIO full_box [11; 22] [] [300; 400].
Proof.
  split; [done| |eexists; by vm_compute|by vm_compute|by intros w ?%elem_of_nil|by vm_compute|
    by eapply waiters_ext; [apply wait_state_waiters|..]].
  split; [done|done|done|done|done| |by repeat constructor].
  intros [|[|i]] x; [intros [= <-]; by vm_compute|intros [= <-]; by vm_compute|done].
Qed.

Lemma mailbox_send_refines_witness :
  exists s' L' k, sk_mailbox_send_wait 900 33 (-1) box_state = Switch s' k /\ sched_inv L' s' /\
    ks_current s' <> 100 /\
    mailbox_rep L' s' 900 SK_IPC_FLAG_PRIO full_box [11; 22] [] [300; 100; 400] /\
    wait_timeout L' s' 100 (ks_tick box_state) (-1) /\
    forall L2 s2 b2 msgs2 rs2 ss2 th2,
      sched_inv L2 s2 -> mailbox_rep L2 s2 900 SK_IPC_FLAG_PRIO b2 msgs2 rs2 ss2 -> runner L2 s2 th2 ->
      sent 900 SK_IPC_FLAG_PRIO 33 b2 msgs2 rs2 ss2 (k s2).
Proof.
  exact (mailbox_send_refines box_lists box_state 900 SK_IPC_FLAG_PRIO full_box [11; 22] [] [300; 400]
    (a_thread SK_THREAD_RUNNING 10 5) 33 (-1) box_state_inv box_state_rep box_state_runner
    ltac:(done) ltac:(done) ltac:(by right) ltac:(done) ltac:(done)).
Defined.

(** The full mailbox gives up its oldest message; the senders stay suspended. *)
Lemma mailbox_recv_refines_witness :
  fetched 900 SK_IPC_FLAG_PRIO 5000 full_box [11; 22] [] [300; 400] (sk_mailbox_recv 900 5000 (-1) box_state).
Proof.
  exact (mailbox_recv_refines box_lists box_state 900 SK_IPC_FLAG_PRIO full_box [11; 22] [] [300; 400]
    (a_thread SK_THREAD_RUNNING 10 5) 5000 (-1) box_state_inv box_state_rep box_state_runner
    ltac:(done) ltac:(done) ltac:(by right) ltac:(done) ltac:(intros i Hi; simpl in *; lia)).
Defined.
