(* ===== verification/MsgQueue.v ===== *)
(** * Message queues: [src/ipc/msg_queue.c]

    The pool of a message queue is cut into blocks, each a [struct
    sk_mq_message] (a pointer to the next block) followed by [msg_size] bytes.
    Free blocks form a chain at [msg_queue_free], queued messages one from
    [msg_queue_head] to [msg_queue_tail].  The next pointers are words of the
    memory, the payloads are bytes. *)

From S2P Require Import Prelude BaseDef KList Slab Kernel Sched KObj Timer Thread IpcBase.

Local Open Scope c_scope.
#[local] Coercion Z.of_nat : nat >-> Z.

Definition sizeof_sk_mq_message : Z := 8.

Definition get_mq (mq : Z) : M sk_msg_queue := read_at ks_mqs mq.
Definition upd_mq (mq : Z) (g : sk_msg_queue -> sk_msg_queue) : M unit := update_at ks_mqs upd_mqs mq g.

Definition set_pool (p : Z) (q : sk_msg_queue) := mk_mq p (msg_size q) (max_msgs q) (mq_entry q)
  (msg_queue_head q) (msg_queue_tail q) (msg_queue_free q).
Definition set_msg_size (n : Z) (q : sk_msg_queue) := mk_mq (mq_pool q) (u16 n) (max_msgs q) (mq_entry q)
  (msg_queue_head q) (msg_queue_tail q) (msg_queue_free q).
Definition set_max_msgs (n : Z) (q : sk_msg_queue) := mk_mq (mq_pool q) (msg_size q) (u16 n) (mq_entry q)
  (msg_queue_head q) (msg_queue_tail q) (msg_queue_free q).
Definition set_entry (n : Z) (q : sk_msg_queue) := mk_mq (mq_pool q) (msg_size q) (max_msgs q) (u16 n)
  (msg_queue_head q) (msg_queue_tail q) (msg_queue_free q).
Definition set_head (p : Z) (q : sk_msg_queue) := mk_mq (mq_pool q) (msg_size q) (max_msgs q) (mq_entry q)
  p (msg_queue_tail q) (msg_queue_free q).
Definition set_tail (p : Z) (q : sk_msg_queue) := mk_mq (mq_pool q) (msg_size q) (max_msgs q) (mq_entry q)
  (msg_queue_head q) p (msg_queue_free q).
Definition set_free (p : Z) (q : sk_msg_queue) := mk_mq (mq_pool q) (msg_size q) (max_msgs q) (mq_entry q)
  (msg_queue_head q) (msg_queue_tail q) p.

(** [msg->next], which needs a block to be there. *)
Definition msg_next (msg : Z) : M Z := if msg =? SK_NULL then fault else read_word msg.

(** ** Operations *)

(** [for(i = 0; i < mq->max_msgs; i++)]: block [i] goes to the front of the free
    chain. *)
Fixpoint mq_free_loop (cnt : nat) (i mq : Z) : M unit :=
  match cnt with
  | O => mret tt
  | S cnt =>
      q ← get_mq mq;
      let head := mq_pool q + i * (msg_size q + sizeof_sk_mq_message) in
      write_word head (msg_queue_free q);;
      upd_mq mq (set_free head);;
      mq_free_loop cnt (i + 1) mq
  end.

(** The lists, the free chain, the entry count and the list of senders. *)
Definition mq_lists_init (mq : Z) : M unit :=
  upd_mq mq (fun q => set_head SK_NULL (set_tail SK_NULL (set_free SK_NULL q)));;
  q ← get_mq mq;
  mq_free_loop (Z.to_nat (max_msgs q)) 0 mq;;
  upd_mq mq (set_entry 0);;
  list_init (NSender mq).

Definition sk_msg_queue_create (name size max flag : Z) : M Z :=
  mq ← sk_object_alloc SK_OBJECT_MSQUE name;
  if mq =? SK_NULL then mret mq
  else
    upd_obj mq (set_obj_flag flag);;
    __ipc_object_init mq;;
    upd_mq mq (fun q => set_max_msgs max (set_msg_size size q));;
    q ← get_mq mq;
    p ← kmalloc ((msg_size q + sizeof_sk_mq_message) * max_msgs q);
    upd_mq mq (set_pool p);;
    if negb (p =? SK_NULL) then
      sk_object_delete mq;;
      mret SK_NULL
    else
      mq_lists_init mq;;
      mret mq.

(** The source returns [SK_EOK] as a pointer. *)
Definition sk_msg_queue_init (mq name msgpool size pool_size flag : Z) : M Z :=
  upd_obj mq (set_obj_flag flag);;
  __ipc_object_init mq;;
  upd_mq mq (set_pool msgpool);;
  upd_mq mq (set_msg_size size);;
  upd_mq mq (fun q => set_max_msgs (pool_size / (msg_size q + sizeof_sk_mq_message)) q);;
  mq_lists_init mq;;
  mret SK_EOK.

Definition sk_msg_queue_delete (mq : Z) : M Z :=
  if mq =? SK_NULL then mret SK_EOK
  else
    fuel ← gets node_fuel;
    __ipc_list_resume_all fuel (NSuspend mq);;
    fuel ← gets node_fuel;
    __ipc_list_resume_all fuel (NSender mq);;
    q ← get_mq mq;
    when_ (negb (mq_pool q =? SK_NULL)) (kfree (mq_pool q));;
    sk_object_delete mq;;
    mret SK_EOK.

(** [link msg to message queue]: the block becomes the tail, and the head of an
    empty queue. *)
Definition mq_link (mq msg : Z) : M unit :=
  q ← get_mq mq;
  when_ (negb (msg_queue_tail q =? SK_NULL)) (write_word (msg_queue_tail q) msg);;
  upd_mq mq (set_tail msg);;
  upd_mq mq (fun q => if msg_queue_head q =? SK_NULL then set_head msg q else q);;
  upd_mq mq (fun q => set_entry (mq_entry q + 1) q).

Definition sk_msg_queue_send_wait (mq buffer size timeout : Z) : M Z :=
  q ← get_mq mq;
  if msg_size q <? size then mret SK_ERROR
  else
    thread ← sk_current_thread;
    temp ← hw_interrupt_disable;
    q ← get_mq mq;
    let msg := msg_queue_free q in
    if (msg =? SK_NULL) && (timeout =? 0) then
      hw_interrupt_enable temp;;
      mret SK_EFULL
    else
      when_ (mq =? SK_NULL) (
        o ← get_obj mq;
        __ipc_list_suspend (NSender mq) thread (obj_flag o);;
        arm_timeout thread timeout;;
        hw_interrupt_enable temp;;
        sk_schedule);;
      next ← msg_next msg;
      upd_mq mq (set_free next);;
      hw_interrupt_enable temp;;
      write_word msg SK_NULL;;
      kmemcpy (msg + sizeof_sk_mq_message) buffer size;;
      temp ← hw_interrupt_disable;
      mq_link mq msg;;
      resume_first mq temp.

Definition sk_msg_queue_send (mq buffer size : Z) : M Z := sk_msg_queue_send_wait mq buffer size 0.

(** [sk_msg_queue_recv] from the second test for an empty queue. *)
Definition mq_take (mq buffer size temp : Z) : M Z :=
  q ← get_mq mq;
  if mq_entry q =? 0 then mret SK_ETIMEOUT
  else
    let msg := msg_queue_head q in
    next ← msg_next msg;
    upd_mq mq (set_head next);;
    upd_mq mq (fun q => if msg_queue_tail q =? msg then set_tail SK_NULL q else q);;
    upd_mq mq (fun q => if 0 <? mq_entry q then set_entry (mq_entry q - 1) q else q);;
    hw_interrupt_enable temp;;
    q ← get_mq mq;
    kmemcpy buffer (msg + sizeof_sk_mq_message) (if msg_size q <? size then msg_size q else size);;
    temp ← hw_interrupt_disable;
    q ← get_mq mq;
    write_word msg (msg_queue_free q);;
    upd_mq mq (set_free msg);;
    resume_first mq temp.

Definition sk_msg_queue_recv (mq buffer size timeout : Z) : M Z :=
  thread ← sk_current_thread;
  temp ← hw_interrupt_disable;
  q ← get_mq mq;
  if (mq_entry q =? 0) && (timeout =? 0) then
    hw_interrupt_enable temp;;
    mret SK_ETIMEOUT
  else if mq_entry q =? 0 then
    o ← get_obj mq;
    __ipc_list_suspend (NSuspend mq) thread (obj_flag o);;
    arm_timeout thread timeout;;
    hw_interrupt_enable temp;;
    sk_schedule;;
    mq_take mq buffer size temp
  else mq_take mq buffer size temp.

(** ** The blocks of a queue *)

(** The blocks [l] are chained from [p] by their next pointers. *)
Fixpoint mchain (w : gmap Z Z) (p : Z) (l : list Z) : Prop :=
  match l with
  | [] => p = SK_NULL
  | a :: l => p = a /\ 0 < a < 2 ^ 64 /\ mchain w (default 0 (w !! a)) l
  end.

(** The block at [a] holds the message [m]. *)
Definition holds (mm : mem) (n a : Z) (m : list Z) : Prop :=
  length m <= n /\ bytes mm (a + sizeof_sk_mq_message) (length m) = m.

(** The queue has the messages [msgs] in the blocks [bs], and the free blocks [fs]. *)
Record blocks_rep (q : sk_msg_queue) (w : gmap Z Z) (mm : mem) (bs fs : list Z)
    (msgs : list (list Z)) : Prop := {
  qr_size : 0 <= msg_size q < 2 ^ 16;
  qr_entry : mq_entry q = length bs;
  qr_total : length bs + length fs = max_msgs q;
  qr_max : max_msgs q < 2 ^ 16;
  qr_head : mchain w (msg_queue_head q) bs;
  qr_tail : msg_queue_tail q = default SK_NULL (last bs);
  qr_free : mchain w (msg_queue_free q) fs;
  qr_nodup : NoDup (bs ++ fs);
  qr_apart : forall a b, a ∈ bs ++ fs -> b ∈ bs ++ fs -> a <> b ->
    a + sizeof_sk_mq_message + msg_size q <= b \/ b + sizeof_sk_mq_message + msg_size q <= a;
  qr_msgs : Forall2 (holds mm (msg_size q)) bs msgs
}.

(** The user's buffer shares no byte with the payloads. *)
Definition buffer_apart (q : sk_msg_queue) (l : list Z) (buffer size : Z) : Prop :=
  forall a, a ∈ l -> buffer + size <= a + sizeof_sk_mq_message \/
    a + sizeof_sk_mq_message + msg_size q <= buffer.

(** The structure and the next pointers after a message went into the block
    [a], whose successor in the free chain is [next], and after the head block
    [a] went back to the free chain. *)
Definition put_fields (a next : Z) (q : sk_msg_queue) : sk_msg_queue :=
  let q := set_tail a (set_free next q) in
  let q := if msg_queue_head q =? SK_NULL then set_head a q else q in
  set_entry (mq_entry q + 1) q.
Definition put_words (a : Z) (q : sk_msg_queue) (w : gmap Z Z) : gmap Z Z :=
  let w := <[a := 0]> w in
  if msg_queue_tail q =? SK_NULL then w else <[msg_queue_tail q := a]> w.

Definition take_fields (a next : Z) (q : sk_msg_queue) : sk_msg_queue :=
  let q := set_head next q in
  let q := if msg_queue_tail q =? a then set_tail SK_NULL q else q in
  let q := if 0 <? mq_entry q then set_entry (mq_entry q - 1) q else q in
  set_free a q.

Section blocks.

Lemma mchain_ext w w' p l : (forall a, a ∈ l -> w' !! a = w !! a) -> mchain w p l -> mchain w' p l.
Proof.
  revert p. induction l as [|a l IH]; intros p Hw; simpl; [done|].
  intros (-> & Ha & Hl). split; [done|]. split; [done|]. rewrite Hw by (by left).
  apply IH; [|done]. intros b Hb. apply Hw. by right.
Qed.

Lemma mchain_range w p l : mchain w p l -> 0 <= p < 2 ^ 64.
Proof. destruct l; simpl; [intros ->; done|lia]. Qed.

Lemma mchain_null w p l : mchain w p l -> (p =? SK_NULL) = bool_decide (l = []).
Proof.
  destruct l; simpl; [intros ->; done|]. intros (-> & Ha & _).
  apply Z.eqb_neq. unfold SK_NULL. lia.
Qed.

Lemma mchain_link w p l t a :
  mchain w p (l ++ [t]) -> NoDup (l ++ [t]) -> a ∉ l ++ [t] -> 0 < a < 2 ^ 64 ->
  mchain (<[t := a]> (<[a := 0]> w)) p (l ++ [t; a]).
Proof.
  intros Hc Hnd Ha Hr. revert p Hc. induction l as [|b l IH]; intros p; simpl.
  - intros (-> & Ht & _). split_and!; [done|lia|lia|by rewrite lookup_insert_eq|lia|lia|].
    rewrite lookup_insert_ne by set_solver. by rewrite lookup_insert_eq.
  - simpl in Hnd, Ha. apply NoDup_cons in Hnd as [Hb Hnd]. apply not_elem_of_cons in Ha as [Hab Ha].
    intros (-> & Hbr & Hc). split_and!; [done|lia|lia|].
    rewrite !lookup_insert_ne by set_solver. by apply IH.
Qed.

Lemma holds_frame mm mm' n a m :
  holds mm n a m ->
  (forall i, 0 <= i < n -> mm'.[a + sizeof_sk_mq_message + i] = mm.[a + sizeof_sk_mq_message + i]) ->
  holds mm' n a m.
Proof.
  intros [Hl Hm] He. split; [done|]. rewrite <- Hm at 2. apply bytes_ext. intros i Hi. apply He. lia.
Qed.

Lemma last_null w p l q : mchain w p l -> q = default SK_NULL (last l) -> (q =? SK_NULL) = bool_decide (l = []).
Proof.
  intros Hc ->. destruct (list_snoc_cases l) as [->|(l' & t & ->)]; [done|].
  rewrite last_snoc, bool_decide_eq_false_2 by (by destruct l'). simpl. apply Z.eqb_neq.
  assert (forall l' p, mchain w p (l' ++ [t]) -> t <> SK_NULL) as H.
  { clear. intros l'. unfold SK_NULL. induction l' as [|b l' IH]; intros p; simpl; [lia|].
    intros (_ & _ & Hc). by eapply IH. }
  by eapply H.
Qed.

Lemma blocks_put_rep q w mm a bs fs msgs buffer size :
  blocks_rep q w mm bs (a :: fs) msgs -> 0 <= size <= msg_size q ->
  msg_queue_free q = a /\
  blocks_rep (put_fields a (default 0 (w !! a)) q) (put_words a q w)
    (sk_memcpy (a + sizeof_sk_mq_message) buffer size mm) (bs ++ [a]) fs (msgs ++ [bytes mm buffer size]).
Proof.
  intros [Hs He Htot Hmax Hh Ht Hf Hnd Hap Hm] Hsz. simpl in Hf. destruct Hf as (Hfa & Hra & Hf).
  simpl length in Htot. split; [done|].
  assert (a ∉ bs /\ a ∉ fs /\ NoDup bs) as (Hab & Haf & Hnb).
  { apply NoDup_app in Hnd as (Hnb & Hd & Hna). apply NoDup_cons in Hna as [? _].
    split_and!; try done. intros Hin. apply (Hd a Hin). by left. }
  assert (forall x, x ∈ bs -> x ∉ fs) as Hbf.
  { apply NoDup_app in Hnd as (_ & Hd & _). intros x Hx ?. apply (Hd x Hx). by right. }
  assert (mq_entry (put_fields a (default 0 (w !! a)) q) = u16 (mq_entry q + 1) /\
    msg_queue_head (put_fields a (default 0 (w !! a)) q) = (if msg_queue_head q =? SK_NULL then a else msg_queue_head q) /\
    msg_queue_tail (put_fields a (default 0 (w !! a)) q) = a /\
    msg_queue_free (put_fields a (default 0 (w !! a)) q) = default 0 (w !! a) /\
    msg_size (put_fields a (default 0 (w !! a)) q) = msg_size q /\
    max_msgs (put_fields a (default 0 (w !! a)) q) = max_msgs q) as (E1 & E2 & E3 & E4 & E5 & E6).
  { unfold put_fields. simpl. by destruct (msg_queue_head q =? SK_NULL). }
  split; rewrite ?E1, ?E2, ?E3, ?E4, ?E5, ?E6; try done.
  - rewrite He, length_app, uint_small by lia. simpl. lia.
  - rewrite length_app. simpl. lia.
  - rewrite (mchain_null _ _ _ Hh). unfold put_words. rewrite (last_null _ _ _ _ Hh Ht).
    destruct (list_snoc_cases bs) as [->|(l & t & ->)].
    + rewrite bool_decide_eq_true_2 by done. simpl. rewrite lookup_insert_eq. done.
    + rewrite bool_decide_eq_false_2 by (by destruct l). rewrite Ht, last_snoc. simpl.
      rewrite <- app_assoc. by apply mchain_link.
  - by rewrite last_snoc.
  - eapply mchain_ext; [|exact Hf]. intros x Hx. unfold put_words.
    assert (<[a:=0]> w !! x = w !! x) as Ea by (rewrite lookup_insert_ne; set_solver).
    destruct (msg_queue_tail q =? SK_NULL) eqn:Etl; [done|]. rewrite lookup_insert_ne; [done|]. intros E.
    rewrite Ht in E, Etl. destruct (last bs) as [t|] eqn:El; [|done]. simpl in E. subst t.
    apply (Hbf x); [|done]. by eapply last_Some_elem_of.
  - by rewrite <- app_assoc.
  - intros x y Hx Hy. apply Hap; rewrite <- app_assoc in *; done.
  - apply Forall2_app.
    + rewrite Forall2_lookup in Hm |- *. intros i. specialize (Hm i).
      destruct (bs !! i) as [b|] eqn:Hb; inversion Hm as [? m Hbm|]; constructor.
      eapply holds_frame; [exact Hbm|]. intros j Hj. rewrite memcpy_spec by lia.
      assert (b ∈ bs) as Hbin by (by eapply list_elem_of_lookup_2).
      destruct (Hap b a) as [?|?]; [set_solver|set_solver|by intros ->| |];
        unfold sizeof_sk_mq_message in *; case_decide; lia || done.
    + constructor; [|done]. split; [rewrite length_bytes; lia|].
      rewrite length_bytes, Z2Nat.id by lia. apply bytes_ext. intros i Hi. rewrite memcpy_spec by lia.
      case_decide; [|lia]. f_equal. lia.
Qed.

Lemma take_bytes m a n k : 0 <= n -> take k (bytes m a n) = bytes m a (Z.min k n).
Proof.
  intros Hn. apply list_eq. intros i. rewrite lookup_take. case_decide as Hi.
  - destruct (decide (i < n)) as [Hin|Hin]; [by rewrite !bytes_lookup by lia|].
    rewrite !lookup_ge_None_2; [done|rewrite length_bytes; lia..].
  - rewrite lookup_ge_None_2; [done|rewrite length_bytes; lia].
Qed.

Lemma blocks_take_rep q w mm a m bs fs msgs buffer n :
  blocks_rep q w mm (a :: bs) fs (m :: msgs) -> 0 <= n <= msg_size q -> buffer_apart q bs buffer n ->
  let mm' := sk_memcpy buffer (a + sizeof_sk_mq_message) n mm in
  msg_queue_head q = a /\ 0 <= msg_queue_free q < 2 ^ 64 /\
  take (length m) (bytes mm' buffer n) = take (Z.to_nat n) m /\
  blocks_rep (take_fields a (default 0 (w !! a)) q) (<[a := msg_queue_free q]> w) mm' bs (a :: fs) msgs.
Proof.
  intros [Hs He Htot Hmax Hh Ht Hf Hnd Hap Hm] Hn Hbuf mm'. simpl in Hh. destruct Hh as (Hha & Hra & Hh).
  apply Forall2_cons in Hm as [[Hml Hmb] Hm]. simpl length in *.
  split; [done|]. split; [by eapply mchain_range|]. split.
  { unfold mm'. replace (bytes _ buffer n) with (bytes mm (a + sizeof_sk_mq_message) n).
    - rewrite <- Hmb at 2. rewrite !take_bytes by lia. f_equal. lia.
    - apply bytes_ext. intros i Hi. rewrite memcpy_spec by lia. case_decide; [f_equal; lia|lia]. }
  simpl in Hnd. apply NoDup_cons in Hnd as [Ha Hnd]. apply not_elem_of_app in Ha as [Hab Haf].
  assert (mq_entry (take_fields a (default 0 (w !! a)) q) = length bs /\
    msg_queue_head (take_fields a (default 0 (w !! a)) q) = default 0 (w !! a) /\
    msg_queue_tail (take_fields a (default 0 (w !! a)) q) = (if msg_queue_tail q =? a then SK_NULL else msg_queue_tail q) /\
    msg_queue_free (take_fields a (default 0 (w !! a)) q) = a /\
    msg_size (take_fields a (default 0 (w !! a)) q) = msg_size q /\
    max_msgs (take_fields a (default 0 (w !! a)) q) = max_msgs q) as (E1 & E2 & E3 & E4 & E5 & E6).
  { assert (u16 (mq_entry q - 1) = length bs) by (rewrite uint_small; lia).
    assert (0 <? mq_entry q = true) as Hpos by (apply Z.ltb_lt; lia).
    unfold take_fields. simpl. destruct (msg_queue_tail q =? a); simpl; rewrite Hpos; simpl; done. }
  assert (forall l : list Z, a ∉ l -> forall x, x ∈ l -> <[a := msg_queue_free q]> w !! x = w !! x) as Hw.
  { intros l Hal x Hx. rewrite lookup_insert_ne; [done|]. by intros ->. }
  split; rewrite ?E1, ?E2, ?E3, ?E4, ?E5, ?E6; try done.
  - simpl. lia.
  - by eapply mchain_ext; [apply Hw|].
  - rewrite Ht. destruct (list_snoc_cases bs) as [->|(l & t & ->)]; simpl; [by rewrite Z.eqb_refl|].
    change (a :: l ++ [t]) with ((a :: l) ++ [t]). rewrite !last_snoc. simpl.
    rewrite (proj2 (Z.eqb_neq _ _)); [done|]. intros ->. set_solver.
  - simpl. split; [done|]. split; [done|]. rewrite lookup_insert_eq. simpl. by eapply mchain_ext; [apply Hw|].
  - rewrite <- Permutation_middle. by apply NoDup_cons; split; [apply not_elem_of_app|].
  - intros x y Hx Hy. apply Hap; set_solver.
  - rewrite Forall2_lookup in Hm |- *. intros i. specialize (Hm i).
    destruct (bs !! i) as [b|] eqn:Hb; inversion Hm as [? m' Hbm|]; constructor.
    eapply holds_frame; [exact Hbm|]. intros j Hj. unfold mm'. rewrite memcpy_spec by lia.
    destruct (Hbuf b) as [?|?]; [by eapply list_elem_of_lookup_2| |]; case_decide; lia || done.
Qed.

End blocks.

(** ** Properties *)

(** A message queue with its blocks and the threads that wait on it. *)
Record mq_rep (L : lists) (s : kstate) (mq flag : Z) (q : sk_msg_queue) (bs fs : list Z)
    (msgs : list (list Z)) (rs ss : list Z) : Prop := {
  mqr_queue : ks_mqs s !! mq = Some q;
  mqr_blocks : blocks_rep q (ks_words s) (ks_mem s) bs fs msgs;
  mqr_obj : exists o, ks_objs s !! mq = Some o /\ obj_flag o = flag;
  mqr_recv : waiting L (NSuspend mq) rs;
  mqr_recvs : waiters s rs;
  mqr_send : waiting L (NSender mq) ss;
  mqr_sends : waiters s ss
}.

(** The outcome of a receive into [size] bytes at [buffer]. *)
Definition mq_fetched (mq flag buffer size : Z) (q : sk_msg_queue) (bs fs : list Z)
    (msgs : list (list Z)) (rs ss : list Z) (r : res Z) : Prop :=
  exists s' L', after r = Some s' /\ sched_inv L' s' /\
    match bs, msgs with
    | a :: bs, m :: msgs => returns SK_EOK r /\
        (exists q', mq_rep L' s' mq flag q' bs (a :: fs) msgs (tail rs) ss) /\ first_runs L' s' rs /\
        let n := Z.min size (msg_size q) in
        take (length m) (bytes (ks_mem s') buffer n) = take (Z.to_nat n) m
    | _, _ => returns SK_ETIMEOUT r /\ mq_rep L' s' mq flag q bs fs msgs rs ss
    end.

Section msg_queue.
Implicit Types (L : lists) (s : kstate).

Lemma mq_rep_ext L s s' mq flag q q' bs bs' fs fs' msgs msgs' rs ss :
  mq_rep L s mq flag q bs fs msgs rs ss -> ks_mqs s' !! mq = Some q' ->
  blocks_rep q' (ks_words s') (ks_mem s') bs' fs' msgs' -> ks_objs s' = ks_objs s ->
  ks_threads s' = ks_threads s -> ks_current s' = ks_current s ->
  mq_rep L s' mq flag q' bs' fs' msgs' rs ss.
Proof.
  intros [] Hb Hr Eo Et Ec. split; try done; [by rewrite Eo| |]; by eapply waiters_ext.
Qed.

Lemma mq_resume_spec L s mq flag q bs fs msgs rs ss th d :
  sched_inv L s -> runner L s th -> mq_rep L s mq flag q bs fs msgs rs ss -> d = 0 \/ d = 0xC0 ->
  exists s' L', let r := resume_first mq d s in
    after r = Some s' /\ sched_inv L' s' /\ returns SK_EOK r /\
    mq_rep L' s' mq flag q bs fs msgs (tail rs) ss /\ first_runs L' s' rs /\ ks_mem s' = ks_mem s.
Proof.
  intros HI HR HM Hd. destruct (resume_first_spec L s mq rs th d)
    as (s' & L' & Haft & HI' & Hret & Hw' & Hws' & Hsame & Hfst & Hoth); try done; try apply HM.
  destruct (Hoth (NSender mq) ss) as [Hw2 Hws2]; [done|done|apply HM|apply HM|].
  destruct Hsame as (_ & _ & _ & _ & Em & Ew & Eb & _ & Eo).
  exists s', L'. do 3 (split; [done|]). split; [|done].
  split; rewrite ?Em, ?Ew, ?Eb, ?Eo; try apply HM; done.
Qed.

(** The effect of [mq_link], from the structure whose free pointer has moved. *)
Lemma mq_link_run s mq q a next :
  ks_mqs s !! mq = Some (set_free next q) -> 0 < a < 2 ^ 64 ->
  mq_link mq a s = Done (upd_mqs (<[mq := put_fields a next q]>)
    (upd_words (fun w => if msg_queue_tail q =? SK_NULL then w else <[msg_queue_tail q := a]> w) s)) tt.
Proof.
  intros Hq Ha. unfold mq_link, get_mq, upd_mq. erewrite bind_done by (apply read_at_ok; exact Hq).
  erewrite (bind_done (when_ _ _)); cycle 1.
  { instantiate (1 := tt).
    instantiate (1 := upd_words (fun w => if msg_queue_tail q =? SK_NULL then w else <[msg_queue_tail q := a]> w) s).
    simpl. destruct (msg_queue_tail q =? SK_NULL); [by destruct s|]. simpl. unfold write_word, modify.
    by rewrite uint_small by lia. }
  erewrite bind_done by (apply update_at_ok; exact Hq).
  erewrite bind_done by (apply update_at_ok; simpl; rewrite lookup_insert_eq; reflexivity).
  erewrite update_at_ok by (simpl; rewrite lookup_insert_eq; reflexivity).
  destruct s. unfold upd_mqs, upd_words; simpl. by rewrite !insert_insert_eq.
Qed.

(** [sk_msg_queue_send_wait] with a free block. *)
Lemma mq_send_run L s mq flag q bs a fs msgs rs ss buffer size time :
  sched_inv L s -> mq_rep L s mq flag q bs (a :: fs) msgs rs ss -> mq <> SK_NULL ->
  0 <= size <= msg_size q ->
  sk_msg_queue_send_wait mq buffer size time s =
    resume_first mq (ks_daif s) (masked
      (upd_mqs (<[mq := put_fields a (default 0 (ks_words s !! a)) q]>) (upd_words (put_words a q)
        (upd_mem (sk_memcpy (a + sizeof_sk_mq_message) buffer size) s)))).
Proof.
  intros HI HM Hnull Hsz. pose proof (mqr_queue _ _ _ _ _ _ _ _ _ _ HM) as Hq.
  destruct (qr_free _ _ _ _ _ _ (mqr_blocks _ _ _ _ _ _ _ _ _ _ HM)) as (Hfa & Hra & _).
  unfold sk_msg_queue_send_wait, get_mq. erewrite bind_done by (apply read_at_ok; exact Hq).
  rewrite (proj2 (Z.ltb_ge _ _)) by lia. erewrite bind_done by reflexivity.
  kstep (disable_ok s (si_irq _ _ HI)). erewrite bind_done by (apply read_at_ok; exact Hq). cbv zeta.
  assert (msg_queue_free q =? SK_NULL = false) as Hnn by (apply Z.eqb_neq; unfold SK_NULL; lia).
  rewrite Hnn. kif. rewrite (proj2 (Z.eqb_neq _ _) Hnull). erewrite bind_done by reflexivity.
  unfold msg_next. rewrite Hnn, Hfa. erewrite bind_done by reflexivity. unfold upd_mq.
  erewrite bind_done by (apply update_at_ok; exact Hq).
  erewrite bind_done by (apply enable_ok; [apply HI|done]).
  erewrite bind_done by reflexivity. erewrite bind_done by reflexivity.
  erewrite bind_done by (apply disable_ok; apply HI).
  erewrite bind_done by (apply mq_link_run; [simpl; by rewrite lookup_insert_eq|done]).
  f_equal. unfold put_words. change (u64 SK_NULL) with 0. destruct s. kstate_eval.
  by rewrite insert_insert_eq.
Qed.

(** C26: [sk_msg_queue_send_wait] refuses a message that is too long, and appends
    any other to the queue if there is a free block, whatever [timeout] is, and
    wakes the first waiting receiver.  When no block is free it returns
    [SK_EFULL] without waiting time; with one it does not wait, since the source
    tests the queue instead of the block against NULL, but loads the successor of
    the block NULL. *)
Theorem msg_queue_send_refines L s mq flag q bs fs msgs rs ss th buffer size time :
  sched_inv L s -> mq_rep L s mq flag q bs fs msgs rs ss -> runner L s th -> mq <> SK_NULL -> 0 <= size ->
  let r := sk_msg_queue_send_wait mq buffer size time s in
  if msg_size q <? size then r = Done s SK_ERROR
  else match fs with
  | [] => r = if time =? 0 then Done s SK_EFULL else Fault
  | a :: fs' => exists s' L' q', after r = Some s' /\ sched_inv L' s' /\ returns SK_EOK r /\
      mq_rep L' s' mq flag q' (bs ++ [a]) fs' (msgs ++ [bytes (ks_mem s) buffer size]) (tail rs) ss /\
      first_runs L' s' rs
  end.
Proof.
  intros HI HM HR Hnull Hsz r. subst r. pose proof (mqr_queue _ _ _ _ _ _ _ _ _ _ HM) as Hq.
  pose proof (mqr_blocks _ _ _ _ _ _ _ _ _ _ HM) as HB.
  destruct (Z.ltb_spec (msg_size q) size) as [Hlong|Hok].
  { unfold sk_msg_queue_send_wait, get_mq. erewrite bind_done by (apply read_at_ok; exact Hq).
    by rewrite (proj2 (Z.ltb_lt _ _) Hlong). }
  destruct fs as [|a fs].
  - pose proof (qr_free _ _ _ _ _ _ HB) as Hf. simpl in Hf.
    unfold sk_msg_queue_send_wait, get_mq. erewrite bind_done by (apply read_at_ok; exact Hq).
    rewrite (proj2 (Z.ltb_ge _ _) Hok). erewrite bind_done by reflexivity.
    kstep (disable_ok s (si_irq _ _ HI)). erewrite bind_done by (apply read_at_ok; exact Hq). cbv zeta.
    rewrite Hf, Z.eqb_refl. destruct (time =? 0); kif.
    + erewrite bind_done by (by apply enable_ok; [apply HI|]). unfold mret, M_ret. by destruct s.
    + rewrite (proj2 (Z.eqb_neq _ _) Hnull). by erewrite bind_done by reflexivity.
  - rewrite (mq_send_run L s mq flag q bs a fs msgs rs ss) by done.
    destruct (blocks_put_rep q (ks_words s) (ks_mem s) a bs fs msgs buffer size HB) as [_ HB']; [lia|].
    match goal with |- context [resume_first mq _ ?x] => set (s1 := x) end.
    assert (sched_inv L s1) as HI1 by (eapply sched_inv_ext; [exact HI|apply HI|by right|done..]).
    assert (runner L s1 th) as HR1 by (by eapply runner_ext; [exact HR|..]).
    destruct (mq_resume_spec L s1 mq flag (put_fields a (default 0 (ks_words s !! a)) q) (bs ++ [a]) fs
      (msgs ++ [bytes (ks_mem s) buffer size]) rs ss th (ks_daif s) HI1 HR1)
      as (s' & L' & Haft & HI' & Hret & HM' & Hfst & _); [|apply HI|by eexists s', L', _].
    eapply (mq_rep_ext L s); [exact HM| |exact HB'|done..]. simpl. by rewrite lookup_insert_eq.
Qed.

(** [mq_take] with a message in the head block [a]. *)
Lemma mq_take_run L s mq flag q a bs fs m msgs rs ss buffer size d :
  sched_inv L s -> mq_rep L s mq flag q (a :: bs) fs (m :: msgs) rs ss -> d = 0 \/ d = 0xC0 ->
  exists d', (d' = 0 \/ d' = 0xC0) /\
  mq_take mq buffer size d s =
    resume_first mq d' (masked
      (upd_mqs (<[mq := take_fields a (default 0 (ks_words s !! a)) q]>)
        (upd_words (<[a := msg_queue_free q]>)
          (upd_mem (sk_memcpy buffer (a + sizeof_sk_mq_message) (Z.min size (msg_size q))) s)))).
Proof.
  intros HI HM Hd. pose proof (mqr_queue _ _ _ _ _ _ _ _ _ _ HM) as Hq.
  pose proof (mqr_blocks _ _ _ _ _ _ _ _ _ _ HM) as HB.
  destruct (qr_head _ _ _ _ _ _ HB) as (Hha & Hra & _).
  pose proof (mchain_range _ _ _ (qr_free _ _ _ _ _ _ HB)) as Hfr.
  assert (mq_entry q =? 0 = false) as He.
  { apply Z.eqb_neq. rewrite (qr_entry _ _ _ _ _ _ HB). simpl. lia. }
  unfold mq_take, get_mq, upd_mq. erewrite bind_done by (apply read_at_ok; exact Hq).
  rewrite He. cbv zeta. unfold msg_next. rewrite Hha.
  assert (a =? SK_NULL = false) as -> by (apply Z.eqb_neq; unfold SK_NULL; lia).
  erewrite bind_done by reflexivity.
  erewrite bind_done by (apply update_at_ok; exact Hq).
  erewrite bind_done by (apply update_at_ok; simpl; rewrite lookup_insert_eq; reflexivity).
  erewrite bind_done by (apply update_at_ok; simpl; rewrite lookup_insert_eq; reflexivity).
  match goal with |- context [(hw_interrupt_enable d ≫= _) ?x] => set (s1 := x) end.
  set (q1 := set_head (default 0 (ks_words s !! a)) q).
  set (q2 := if msg_queue_tail q1 =? a then set_tail SK_NULL q1 else q1).
  set (q3 := if 0 <? mq_entry q2 then set_entry (mq_entry q2 - 1) q2 else q2).
  assert (ks_mqs s1 !! mq = Some q3) as Hq3 by (unfold s1; simpl; by rewrite lookup_insert_eq).
  assert (msg_size q3 = msg_size q /\ msg_queue_free q3 = msg_queue_free q) as [E1 E2]
    by (unfold q3, q2; by destruct (0 <? _), (_ =? a)).
  destruct (enable_any d s1 Hd) as (d' & Hdd & Hen); [apply HI|]. kstep Hen. exists d'. split; [done|].
  erewrite bind_done by (apply read_at_ok; exact Hq3).
  erewrite bind_done by reflexivity. erewrite bind_done by (by apply disable_ok).
  erewrite bind_done by (apply read_at_ok; exact Hq3). erewrite bind_done by reflexivity.
  erewrite bind_done by (apply update_at_ok; exact Hq3).
  change (take_fields a (default 0 (ks_words s !! a)) q) with (set_free a q3). rewrite E1, E2.
  replace (if msg_size q <? size then msg_size q else size) with (Z.min size (msg_size q))
    by (destruct (Z.ltb_spec (msg_size q) size); lia).
  rewrite (uint_small 64 (msg_queue_free q)) by done.
  f_equal. unfold s1. clearbody q3. clear. destruct s. kstate_eval. by rewrite !insert_insert_eq.
Qed.

Lemma mq_take_spec L s mq flag q bs fs msgs rs ss th buffer size d :
  sched_inv L s -> runner L s th -> mq_rep L s mq flag q bs fs msgs rs ss -> d = 0 \/ d = 0xC0 ->
  0 <= size -> buffer_apart q bs buffer (Z.min size (msg_size q)) ->
  mq_fetched mq flag buffer size q bs fs msgs rs ss (mq_take mq buffer size d s).
Proof.
  intros HI HR HM Hd Hsz Hbuf. pose proof (mqr_blocks _ _ _ _ _ _ _ _ _ _ HM) as HB. unfold mq_fetched.
  pose proof (qr_msgs _ _ _ _ _ _ HB) as Hm. destruct bs as [|a bs], msgs as [|m msgs]; [|by inversion Hm..|].
  { unfold mq_take, get_mq. erewrite bind_done by (apply read_at_ok; apply HM).
    rewrite (qr_entry _ _ _ _ _ _ HB). by exists s, L. }
  destruct (mq_take_run L s mq flag q a bs fs m msgs rs ss buffer size d HI HM Hd) as (d' & Hdd & ->).
  pose proof (qr_size _ _ _ _ _ _ HB) as Hs.
  destruct (blocks_take_rep q (ks_words s) (ks_mem s) a m bs fs msgs buffer (Z.min size (msg_size q)) HB)
    as (_ & _ & Hdata & HB'); [lia|intros b Hb; apply Hbuf; by right|].
  match goal with |- context [resume_first mq _ ?x] => set (s1 := x) end.
  assert (sched_inv L s1) as HI1 by (eapply sched_inv_ext; [exact HI|apply HI|by right|done..]).
  assert (runner L s1 th) as HR1 by (by eapply runner_ext; [exact HR|..]).
  destruct (mq_resume_spec L s1 mq flag (take_fields a (default 0 (ks_words s !! a)) q) bs (a :: fs)
    msgs rs ss th d' HI1 HR1) as (s' & L' & Haft & HI' & Hret & HM' & Hfst & Emem); [|done|].
  { eapply (mq_rep_ext L s); [exact HM| |exact HB'|done..]. simpl. by rewrite lookup_insert_eq. }
  exists s', L'. do 3 (split; [done|]). split; [by eexists|]. split; [done|]. by rewrite Emem.
Qed.

Lemma mq_recv_run s mq q buffer size time :
  irq_wf s -> ks_mqs s !! mq = Some q ->
  sk_msg_queue_recv mq buffer size time s =
    if mq_entry q =? 0 then
      if time =? 0 then Done s SK_ETIMEOUT
      else (o ← get_obj mq;
            __ipc_list_suspend (NSuspend mq) (ks_current s) (obj_flag o);;
            arm_timeout (ks_current s) time;;
            hw_interrupt_enable (ks_daif s);;
            sk_schedule;;
            mq_take mq buffer size (ks_daif s)) (masked s)
    else mq_take mq buffer size (ks_daif s) (masked s).
Proof.
  intros Hirq Hb. unfold sk_msg_queue_recv. erewrite bind_done by reflexivity. kstep (disable_ok s Hirq).
  unfold get_mq. erewrite bind_done by (apply read_at_ok; exact Hb).
  destruct (mq_entry q =? 0); [|done]. destruct (time =? 0); [|done]. kif.
  erewrite bind_done by (by apply enable_ok). unfold mret, M_ret. by destruct s.
Qed.

Lemma mq_level L s mq flag q bs fs msgs rs ss th d :
  sched_inv L s -> runner L s th -> mq_rep L s mq flag q bs fs msgs rs ss -> d = 0 \/ d = 0xC0 ->
  let s' := upd_daif (fun _ => d) s in
  sched_inv L s' /\ runner L s' th /\ mq_rep L s' mq flag q bs fs msgs rs ss.
Proof.
  intros HI HR HM Hd s'. split; [eapply sched_inv_ext; [exact HI|apply HI|exact Hd|done..]|].
  split; [by eapply runner_ext; [exact HR|..]|]. by eapply mq_rep_ext; try apply HM.
Qed.

(** C27: [sk_msg_queue_recv] copies the oldest message, truncated to the size of
    the buffer, gives its block back to the free chain and keeps the others in
    order; the thread it wakes is the first waiting receiver, never a sender.
    On an empty queue it returns [SK_ETIMEOUT] at once when no waiting time is
    given; otherwise the caller joins the waiting receivers, its timer armed for
    the ticks given, and loses the processor, and when it gets it back it takes the oldest message, or returns
    [SK_ETIMEOUT] if there is none. *)
Theorem msg_queue_recv_refines L s mq flag q bs fs msgs rs ss th buffer size time :
  sched_inv L s -> mq_rep L s mq flag q bs fs msgs rs ss -> runner L s th -> ks_nest s = 0 ->
  ks_group s <> 0 -> flag = SK_IPC_FLAG_FIFO \/ flag = SK_IPC_FLAG_PRIO ->
  mq <> thread_timer (ks_current s) -> 0 <= size ->
  buffer_apart q bs buffer (Z.min size (msg_size q)) ->
  let r := sk_msg_queue_recv mq buffer size time s in
  match bs with
  | [] =>
    if time =? 0 then r = Done s SK_ETIMEOUT
    else exists s' L' k, r = Switch s' k /\ sched_inv L' s' /\ ks_current s' <> ks_current s /\
      mq_rep L' s' mq flag q [] fs []
        (wait_place flag (ks_threads s) (current_pri th) (ks_current s) rs) ss /\
      wait_timeout L' s' (ks_current s) (ks_tick s) time /\
      forall L2 s2 q2 bs2 fs2 msgs2 rs2 ss2 th2,
        sched_inv L2 s2 -> mq_rep L2 s2 mq flag q2 bs2 fs2 msgs2 rs2 ss2 -> runner L2 s2 th2 ->
        buffer_apart q2 bs2 buffer (Z.min size (msg_size q2)) ->
        mq_fetched mq flag buffer size q2 bs2 fs2 msgs2 rs2 ss2 (k s2)
  | _ => mq_fetched mq flag buffer size q bs fs msgs rs ss r
  end.
Proof.
  intros HI HM HR Hn Hg Hflag Hneq Hsz Hbuf r. subst r. pose proof (mqr_blocks _ _ _ _ _ _ _ _ _ _ HM) as HB.
  rewrite (mq_recv_run s mq q buffer size time (si_irq _ _ HI)) by apply HM.
  rewrite (qr_entry _ _ _ _ _ _ HB). destruct bs as [|a bs].
  2: { destruct (mq_level L s mq flag q (a :: bs) fs msgs rs ss th 0xC0) as (HI1 & HR1 & HM1); [done|done|done|by right|].
    eapply mq_take_spec; [exact HI1|exact HR1|exact HM1|apply HI|done|done]. }
  simpl length. destruct (time =? 0); [done|].
  destruct (Forall2_nil_inv_l _ _ (qr_msgs _ _ _ _ _ _ HB)).
  destruct HM as [Hb Hr (o & Ho & Hfl) Hw1 Hws1 Hw2 Hws2].
  unfold get_obj. erewrite bind_done by (apply read_at_ok; exact Ho). rewrite Hfl.
  destruct (block_switch L s (NSuspend mq) rs th flag time)
    as (s' & L' & Hrun & HI' & Hc & Hw' & Hws' & _ & Hsame & Hoth & Hto); try done.
  destruct (Hrun (mq_take mq buffer size (ks_daif s))) as (kk & -> & Hkk). exists s', L', kk.
  do 3 (split; [done|]). split.
  - destruct (Hoth (NSender mq) ss) as [? ?]; try done.
    destruct Hsame as (_ & _ & _ & _ & Em & Ew & Eb & Eo). split; rewrite ?Em, ?Ew, ?Eb; try done.
    exists o. by rewrite Eo.
  - split; [done|]. intros L2 s2 q2 bs2 fs2 msgs2 rs2 ss2 th2 HI2 HM2 HR2 Hbuf2. rewrite Hkk.
    destruct (enable_any (ks_daif s) s2 (si_irq _ _ HI) (si_irq _ _ HI2)) as (d' & Hdd & ->).
    destruct (mq_level L2 s2 mq flag q2 bs2 fs2 msgs2 rs2 ss2 th2 d') as (HI3 & HR3 & HM3); try done.
    eapply mq_take_spec; [exact HI3|exact HR3|exact HM3|apply HI|done|done].
Qed.

(** The addresses of the blocks [i], ..., [i + cnt - 1] of a pool. *)
Fixpoint pool_blocks (pool stride i : Z) (cnt : nat) : list Z :=
  match cnt with O => [] | S cnt => pool + i * stride :: pool_blocks pool stride (i + 1) cnt end.

Lemma pool_blocks_spec pool stride cnt : forall i a,
  a ∈ pool_blocks pool stride i cnt -> exists j, i <= j < i + cnt /\ a = pool + j * stride.
Proof.
  induction cnt as [|cnt IH]; intros i a; simpl; [by intros ?%elem_of_nil|].
  intros [->|Ha]%elem_of_cons; [exists i; lia|]. destruct (IH _ _ Ha) as (j & ? & ?). exists j. lia.
Qed.

Lemma pool_blocks_NoDup pool stride cnt i : 0 < stride -> NoDup (pool_blocks pool stride i cnt).
Proof.
  intros Hs. revert i. induction cnt as [|cnt IH]; intros i; simpl; [constructor|].
  constructor; [|apply IH]. intros (j & Hj & E)%pool_blocks_spec. nia.
Qed.

Lemma length_pool_blocks pool stride cnt i : length (pool_blocks pool stride i cnt) = cnt.
Proof. revert i. induction cnt as [|cnt IH]; intros i; simpl; [done|]. by rewrite IH. Qed.

(** The loop puts block after block in front of the free chain. *)
Lemma mq_free_loop_spec mq q cnt : forall s i f fs,
  let stride := msg_size q + sizeof_sk_mq_message in
  ks_mqs s !! mq = Some (set_free f q) -> mchain (ks_words s) f fs ->
  (forall a, a ∈ fs -> a ∉ pool_blocks (mq_pool q) stride i cnt) -> 0 < stride ->
  (forall a, a ∈ pool_blocks (mq_pool q) stride i cnt -> 0 < a < 2 ^ 64) ->
  exists f' w', mq_free_loop cnt i mq s =
      Done (upd_mqs (<[mq := set_free f' q]>) (upd_words (fun _ => w') s)) tt /\
    mchain w' f' (rev (pool_blocks (mq_pool q) stride i cnt) ++ fs).
Proof.
  induction cnt as [|cnt IH]; intros s i f fs stride Hq Hc Hd Hst Hr; simpl.
  - exists f, (ks_words s). split; [|done]. unfold mret, M_ret. f_equal.
    destruct s. kstate_eval. simpl in Hq. by rewrite insert_id.
  - set (a := mq_pool q + i * stride). pose proof (mchain_range _ _ _ Hc) as Hf.
    assert (0 < a < 2 ^ 64) as Ha by (apply Hr; by left).
    pose proof (pool_blocks_NoDup (mq_pool q) stride (S cnt) i Hst) as [Hna _]%NoDup_cons.
    unfold get_mq, upd_mq. erewrite bind_done by (apply read_at_ok; exact Hq). cbv zeta.
    erewrite bind_done by reflexivity. cbn [mq_pool msg_size msg_queue_free set_free]. fold stride a.
    erewrite bind_done by (apply update_at_ok; exact Hq).
    match goal with |- context [mq_free_loop cnt _ _ ?x] => set (s1 := x) end.
    destruct (IH s1 (i + 1) a (a :: fs)) as (f' & w' & Hrun & Hch).
    + unfold s1. simpl. by rewrite lookup_insert_eq.
    + simpl. split; [done|]. split; [done|]. rewrite (uint_small 64 f) by done. rewrite lookup_insert_eq. simpl.
      eapply mchain_ext; [|exact Hc]. intros x Hx. rewrite lookup_insert_ne; [done|].
      intros <-. apply (Hd a Hx). by left.
    + intros x [->|Hx]%elem_of_cons; [exact Hna|]. intros Hin. apply (Hd x Hx). by right.
    + done.
    + intros x Hx. apply Hr. by right.
    + exists f', w'. rewrite <- app_assoc. split; [|exact Hch]. rewrite Hrun. f_equal.
      unfold s1. clear. destruct s. kstate_eval. by rewrite insert_insert_eq.
Qed.

(** The empty queue over the blocks of its pool. *)
Lemma mq_lists_init_spec L s mq q mm :
  let stride := msg_size q + sizeof_sk_mq_message in
  Rep (ks_nodes s) L -> fresh L (NSender mq) -> is_Some (ks_nodes s !! NSender mq) ->
  ks_mqs s !! mq = Some q -> 0 <= msg_size q < 2 ^ 16 -> 0 <= max_msgs q < 2 ^ 16 -> 0 < mq_pool q ->
  mq_pool q + max_msgs q * stride < 2 ^ 64 ->
  exists h w q', mq_lists_init mq s =
      Done (upd_nodes (fun _ => h) (upd_mqs (<[mq := q']>) (upd_words (fun _ => w) s))) tt /\
    Rep h (<[NSender mq := []]> L) /\
    blocks_rep q' w mm [] (rev (pool_blocks (mq_pool q) stride 0 (Z.to_nat (max_msgs q)))) [].
Proof.
  intros stride HR Hfr Hdom Hq Hs Hmx Hp Hend. unfold mq_lists_init, upd_mq, get_mq.
  assert (0 < stride) as Hst by (unfold stride, sizeof_sk_mq_message; lia).
  erewrite bind_done by (apply update_at_ok; exact Hq).
  erewrite bind_done by (apply read_at_ok; simpl; rewrite lookup_insert_eq; reflexivity).
  set (q0 := set_head SK_NULL (set_tail SK_NULL q)). set (cnt := Z.to_nat (max_msgs q)).
  match goal with |- context [(mq_free_loop _ _ _ ≫= _) ?x] => set (s1 := x) end.
  destruct (mq_free_loop_spec mq q0 cnt s1 0 SK_NULL []) as (f & w & Hrun & Hch).
  { unfold s1. simpl. by rewrite lookup_insert_eq. }
  { done. }
  { by intros a ?%elem_of_nil. }
  { done. }
  { intros a (k & Hk & ->)%pool_blocks_spec. subst cnt. simpl in *.
    unfold stride, sizeof_sk_mq_message in *. nia. }
  rewrite app_nil_r in Hch. change (msg_size q0 + sizeof_sk_mq_message) with stride in Hch.
  change (mq_pool q0) with (mq_pool q) in Hch. kstep Hrun.
  erewrite bind_done by (apply update_at_ok; simpl; rewrite lookup_insert_eq; reflexivity).
  destruct (rep_init _ _ (NSender mq) HR Hfr Hdom) as (h & Hinit & HR' & _). unfold list_init.
  erewrite on_nodes_ok by exact Hinit. exists h, w, (set_entry 0 (set_free f q0)).
  split; [|split; [done|]].
  - f_equal. unfold s1. clear. destruct s. kstate_eval. by rewrite !insert_insert_eq.
  - assert (NoDup (rev (pool_blocks (mq_pool q) stride 0 cnt))) as Hnd.
    { rewrite <- Permutation_rev. by apply pool_blocks_NoDup. }
    split; simpl; try done.
    + rewrite length_rev, length_pool_blocks. subst cnt. lia.
    + apply Hmx.
    + intros a b. rewrite !list_elem_of_In, <- !in_rev, <- !list_elem_of_In.
      intros (i & _ & ->)%pool_blocks_spec (j & _ & ->)%pool_blocks_spec Hne.
      assert (i <> j) by congruence. unfold stride, sizeof_sk_mq_message in *. nia.
Qed.

(** [sk_msg_queue_init] on a pool at a valid address makes an empty queue:
    every block of the pool that fits is free, blocks do not overlap, no thread
    waits, and the scheduler's state is kept. *)
Theorem msg_queue_init_establishes L s mq q o name pool size pool_size flag :
  sched_inv L s -> ks_mqs s !! mq = Some q -> ks_objs s !! mq = Some o ->
  fresh L (NSuspend mq) -> is_Some (ks_nodes s !! NSuspend mq) ->
  fresh L (NSender mq) -> is_Some (ks_nodes s !! NSender mq) ->
  0 <= size < 2 ^ 16 -> 0 <= pool_size -> pool_size / (size + 8) < 2 ^ 16 ->
  0 < pool -> pool + pool_size < 2 ^ 64 ->
  exists s' L' q' fs, sk_msg_queue_init mq name pool size pool_size flag s = Done s' SK_EOK /\
    sched_inv L' s' /\ mq_rep L' s' mq flag q' [] fs [] [] [] /\
    length fs = Z.to_nat (pool_size / (size + 8)).
Proof.
  intros HI Hq Ho Hf1 Hd1 Hf2 Hd2 Hsz Hps Hcnt Hpool Hend. set (n := pool_size / (size + 8)) in *.
  assert (0 <= n) as Hn0 by (apply Z.div_pos; lia).
  assert (n * (size + 8) <= pool_size) as Hnp by (unfold n; pose proof (Z.mul_div_le pool_size (size + 8)); lia).
  unfold sk_msg_queue_init, upd_obj, __ipc_object_init, upd_mq.
  erewrite bind_done by (apply update_at_ok; exact Ho).
  destruct (rep_init _ _ (NSuspend mq) (si_rep _ _ HI) Hf1 Hd1) as (h1 & Hinit1 & HR1 & Hdom1).
  erewrite bind_done by (erewrite bind_done by (apply on_nodes_ok; exact Hinit1); reflexivity).
  erewrite bind_done by (apply update_at_ok; exact Hq).
  do 2 erewrite bind_done by (apply update_at_ok; simpl; rewrite lookup_insert_eq; reflexivity).
  set (q3 := set_max_msgs n (set_msg_size size (set_pool pool q))).
  match goal with |- context [(mq_lists_init mq ≫= _) ?x] => set (s1 := x) end.
  assert (ks_mqs s1 !! mq = Some q3) as Hq3.
  { unfold s1, q3, n. simpl. rewrite lookup_insert_eq. simpl. by rewrite (uint_small 16 size). }
  destruct (mq_lists_init_spec (<[NSuspend mq := []]> L) s1 mq q3 (ks_mem s)) as (h & w & q' & Hrun & HR' & HB).
  { exact HR1. }
  { intros hd xs. rewrite lookup_insert. case_decide as E; [|apply Hf2].
    intros [= <-]. subst hd. by intros [?|?%elem_of_nil]%elem_of_cons. }
  { simpl. by rewrite <- elem_of_dom, Hdom1, elem_of_dom. }
  { exact Hq3. }
  { simpl. by rewrite uint_small. }
  { simpl. rewrite uint_small; lia. }
  { done. }
  { simpl. rewrite !uint_small by lia. unfold sizeof_sk_mq_message. lia. }
  kstep Hrun. eexists _, _, q', _. split; [reflexivity|]. split; [|split; [split|]].
  - eapply (sched_inv_ext L); [exact HI|exact HR'|apply HI|done|done|intros i _; by rewrite !lookup_insert_ne].
  - simpl. by rewrite lookup_insert_eq.
  - exact HB.
  - eexists. split; [simpl; by rewrite lookup_insert_eq|done].
  - unfold waiting. by rewrite lookup_insert_ne, lookup_insert_eq.
  - by intros x ?%elem_of_nil.
  - unfold waiting. by rewrite lookup_insert_eq.
  - by intros x ?%elem_of_nil.
  - rewrite length_rev, length_pool_blocks. simpl. rewrite uint_small; [done|lia].
Qed.

End msg_queue.

(** ** A concrete message queue *)

(** Thread 100 runs; the queue 900 has three blocks of 8 + 4 bytes at 7000, of
    which the first holds the message [1; 2; 3], and the byte at 5000 is 9. *)
Definition a_queue : sk_msg_queue := mk_mq 7000 4 3 1 7000 7000 7012.

Definition mq_lists : lists :=
  <[NSender 900 := []]> (<[NSuspend 900 := [NTlist 300; NTlist 400]]> (<[NPrio 5 := [NTlist 200]]>
    (<[NTlist 100 := []]> (<[NTimerList := []]> (<[NTimer 220 := []]> prio_lists))))).

Definition mq_state : kstate :=
  upd_nodes (fun _ => heap_of mq_lists) (upd_mqs (fun _ => {[900 := a_queue]})
    (upd_words (fun _ => list_to_map [(7000, 0); (7012, 7024); (7024, 0)])
      (upd_mem (fun _ => list_to_map [(7008, 1); (7009, 2); (7010, 3); (5000, 9)]) wait_state))).

Lemma mq_state_inv : sched_inv mq_lists mq_state.
Proof. apply sched_check_sound. by vm_compute. Qed.

Lemma mq_state_runner : runner mq_lists mq_state (a_thread SK_THREAD_RUNNING 10 5).
Proof.
  split; [by vm_compute|done|by vm_compute|].
  exists [], (mk_timer FN_sk_thread_timeout 100 0 0), (mk_object 7 0).
  split; [by vm_compute..|right; by vm_compute].
Qed.

Lemma mq_state_rep :
  mq_rep mq_lists mq_state 900 SK_IPC_FLAG_PRIO a_queue [7000] [7012; 7024] [[1; 2; 3]] [300; 400] [].
Proof.
  split; [done| |eexists; by vm_compute|by vm_compute|by eapply waiters_ext; [apply wait_state_waiters|..]|
    by vm_compute|by intros w ?%elem_of_nil].
  split; [done|done|done|done|by vm_compute|done|by vm_compute|by apply (bool_decide_unpack _); vm_compute| |].
  - unfold sizeof_sk_mq_message. intros a b Ha Hb. simpl in *. set_unfold. lia.
  - constructor; [|constructor]. split; [done|by vm_compute].
Qed.

Lemma msg_queue_send_refines_witness :
  exists s' L' q', after (sk_msg_queue_send_wait 900 5000 1 7 mq_state) = Some s' /\ sched_inv L' s' /\
    returns SK_EOK (sk_msg_queue_send_wait 900 5000 1 7 mq_state) /\
    mq_rep L' s' 900 SK_IPC_FLAG_PRIO q' [7000; 7012] [7024] [[1; 2; 3]; bytes (ks_mem mq_state) 5000 1] [400] [] /\
    first_runs L' s' [300; 400].
Proof.
  exact (msg_queue_send_refines mq_lists mq_state 900 SK_IPC_FLAG_PRIO a_queue [7000] [7012; 7024] [[1; 2; 3]]
    [300; 400] [] (a_thread SK_THREAD_RUNNING 10 5) 5000 1 7 mq_state_inv mq_state_rep mq_state_runner
    ltac:(done) ltac:(done)).
Defined.

Lemma msg_queue_recv_refines_witness :
  mq_fetched 900 SK_IPC_FLAG_PRIO 5000 2 a_queue [7000] [7012; 7024] [[1; 2; 3]] [300; 400] []
    (sk_msg_queue_recv 900 5000 2 0 mq_state).
Proof.
  exact (msg_queue_recv_refines mq_lists mq_state 900 SK_IPC_FLAG_PRIO a_queue [7000] [7012; 7024] [[1; 2; 3]]
    [300; 400] [] (a_thread SK_THREAD_RUNNING 10 5) 5000 2 0 mq_state_inv mq_state_rep mq_state_runner
    ltac:(done) ltac:(done) ltac:(by right) ltac:(done) ltac:(done)
    ltac:(intros a ->%list_elem_of_singleton; left; by vm_compute)).
Defined.

(** The nodes of the queue 800 are not initialised yet. *)
Definition mq_raw_state : kstate :=
  upd_nodes (fun h => <[NSuspend 800 := mk_node NNull NNull]> (<[NSender 800 := mk_node NNull NNull]> h))
    (upd_mqs (fun _ => {[800 := mk_mq 0 0 0 0 0 0 0]}) (upd_objs (fun _ => {[800 := mk_object 5 0]}) wait_state)).

Lemma mq_raw_inv : sched_inv wait_lists mq_raw_state.
Proof. apply sched_check_sound. by vm_compute. Qed.

Lemma fresh_check (L : lists) n :
  forallb (fun p => bool_decide (n ∉ p.1 :: p.2)) (map_to_list L) = true -> fresh L n.
Proof.
  intros H hd xs Hhd. apply elem_of_map_to_list, list_elem_of_In in Hhd.
  rewrite forallb_forall in H. specialize (H _ Hhd). by apply bool_decide_eq_true in H.
Qed.

Lemma msg_queue_init_establishes_witness :
  exists s' L' q' fs, sk_msg_queue_init 800 0 7000 4 40 SK_IPC_FLAG_PRIO mq_raw_state = Done s' SK_EOK /\
    sched_inv L' s' /\ mq_rep L' s' 800 SK_IPC_FLAG_PRIO q' [] fs [] [] [] /\ length fs = 3%nat.
Proof.
  apply (msg_queue_init_establishes wait_lists mq_raw_state 800 (mk_mq 0 0 0 0 0 0 0) (mk_object 5 0) 0 7000 4 40);
    [apply mq_raw_inv|done|done|apply fresh_check; by vm_compute|eexists; by vm_compute|
     apply fresh_check; by vm_compute|eexists; by vm_compute|lia|lia|by vm_compute|lia|lia].
Defined.
