(* ===== verification/Common.v ===== *)
(** * Completions and ring buffers on the heap: [src/common/completion.c], [src/common/ring_buffer.c]

    [sk_completion_init] and [sk_completion_wait], and the creation and
    destruction of ring buffers.  The functions [sk_hw_interrupt_disable] and
    [sk_hw_interrupt_enable] that [completion.c] calls are defined nowhere in the
    source: they are arguments, and the theorem on waiting is about the functions
    of [context.S] in their place. *)

From S2P Require Import Prelude BaseDef RingBuffer KList Slab Kernel Sched KObj Timer Thread IpcBase.

Local Open Scope c_scope.

(** ** Completions *)

Definition SK_COMPLETION : Z := 1.
Definition SK_UNCOMPLETION : Z := 0.

Section completion.
Context (sk_hw_interrupt_disable : M Z) (sk_hw_interrupt_enable : Z -> M unit).

(** [cpt->flag] is the word at the address of the structure, its list head the
    node [NSuspend cpt]. *)
Definition get_cpt_flag (cpt : Z) : M Z := read_at ks_words cpt.
Definition set_cpt_flag (cpt v : Z) : M unit := update_at ks_words upd_words cpt (fun _ => u32 v).

Definition sk_completion_init (cpt : Z) : M unit :=
  level ← sk_hw_interrupt_disable;
  set_cpt_flag cpt SK_UNCOMPLETION;;
  list_init (NSuspend cpt);;
  sk_hw_interrupt_enable level.

(** [None] stands for the end of the function without a return statement. *)
Definition sk_completion_wait (cpt timeout : Z) : M (option Z) :=
  thread ← sk_current_thread;
  level ← sk_hw_interrupt_disable;
  flag ← get_cpt_flag cpt;
  if negb (flag =? SK_COMPLETION) then
    if timeout =? 0 then
      sk_hw_interrupt_enable level;;
      mret (Some SK_ETIMEOUT)
    else
      sk_thead_suspend thread;;
      list_add_tail (NSuspend cpt) (NTlist thread);;
      sk_hw_interrupt_enable level;;
      mret None
  else
    sk_hw_interrupt_enable level;;
    mret None.

End completion.

Section wait.
Implicit Types (L : lists) (s : kstate).

(** A running thread cannot suspend itself with [sk_thead_suspend]. *)
Lemma suspend_self_refused s th :
  ks_threads s !! ks_current s = Some th -> stat th = SK_THREAD_RUNNING -> irq_wf s ->
  sk_thead_suspend (ks_current s) s = Done (masked s) SK_ERROR.
Proof.
  intros Hth Hst Hirq. unfold sk_thead_suspend, get_thread.
  erewrite bind_done by (apply read_at_ok; exact Hth). rewrite Hst.
  change (negb (SK_THREAD_RUNNING =? SK_THREAD_READY) && negb (SK_THREAD_RUNNING =? SK_THREAD_RUNNING)) with false.
  cbv iota. kstep (disable_ok s Hirq). erewrite bind_done by (apply read_at_ok; exact Hth).
  erewrite bind_done by reflexivity. rewrite Hst, Z.eqb_refl. simpl. by rewrite Z.eqb_refl.
Qed.

(** Waiting for a completion does not wait.  With a waiting time and the
    completion not done, [sk_completion_wait] puts the running thread on the list
    of the completion and goes on: no switch takes place, the thread is still the
    current one and RUNNING, and the call ends without a result. *)
Theorem completion_wait_does_not_wait L s cpt th ws fl timeout :
  sched_inv L s -> ks_threads s !! ks_current s = Some th -> stat th = SK_THREAD_RUNNING ->
  detached L (ks_current s) -> waiting L (NSuspend cpt) ws ->
  ks_words s !! cpt = Some fl -> fl <> SK_COMPLETION -> timeout <> 0 ->
  exists s' L', sk_completion_wait hw_interrupt_disable hw_interrupt_enable cpt timeout s = Done s' None /\
    Rep (ks_nodes s') L' /\ waiting L' (NSuspend cpt) (ws ++ [ks_current s]) /\
    ks_current s' = ks_current s /\ ks_threads s' = ks_threads s /\ ks_daif s' = ks_daif s.
Proof.
  intros HI Hth Hst Hdet Hw Hfl Hne Ht. pose proof (si_irq _ _ HI) as Hirq.
  unfold sk_completion_wait. erewrite bind_done by reflexivity. kstep (disable_ok s Hirq).
  unfold get_cpt_flag. erewrite bind_done by (apply read_at_ok; exact Hfl).
  rewrite (proj2 (Z.eqb_neq _ _) Hne), (proj2 (Z.eqb_neq _ _) Ht). cbn [negb].
  pose proof (suspend_self_refused (masked s) th Hth Hst (irq_wf_masked s)) as E. kstep E. rewrite masked_idem.
  destruct (rep_add_before (ks_nodes s) (delete (NTlist (ks_current s)) L) (NSuspend cpt) (NTlist <$> ws) []
    (NTlist (ks_current s))) as (h & Eh & HR & _).
  { apply rep_delete, HI. }
  { rewrite app_nil_r, lookup_delete_ne by done. exact Hw. }
  { eapply fresh_delete; [apply HI|exact Hdet]. }
  { eapply rep_dom; [apply HI|exact Hdet]. }
  unfold list_add_tail. erewrite bind_done by (apply on_nodes_ok; exact Eh).
  erewrite bind_done by (by apply enable_ok). eexists _, _. split; [reflexivity|].
  split; [exact HR|]. split; [|done]. unfold waiting. rewrite lookup_insert_eq. by rewrite fmap_app.
Qed.

End wait.

(** ** Ring buffers on the heap *)

Definition sizeof_sk_ring_buffer : Z := 16.

(** The result is the address and the contents of the descriptor, or [None] for
    NULL; the outer [None] is a fault of the allocator. *)
Definition sk_ring_buffer_create (size : Z) (h : slab_state)
  : option (option (Z * sk_ring_buffer) * slab_state) :=
  '(rb, h) ← sk_malloc sizeof_sk_ring_buffer h;
  if rb =? SK_NULL then Some (None, h)
  else
    '(buf, h) ← sk_malloc (u16 size) h;
    if buf =? SK_NULL then h ← sk_free rb h; Some (None, h)
    else Some (Some (rb, sk_ring_buffer_init buf (u16 size)), h).

Definition sk_ring_buffer_destroy (rb : Z) (d : sk_ring_buffer) (h : slab_state) : option slab_state :=
  if negb (rb =? SK_NULL) then h ← sk_free (buffer d) h; sk_free rb h else Some h.

(** A ring buffer that was created is empty, well formed and has the size asked
    for, as long as it fits the 15 bits of an index. *)
Theorem ring_create_empty size h rb d h' m :
  0 < size < 2 ^ 15 -> sk_ring_buffer_create size h = Some (Some (rb, d), h') ->
  rb_wf d /\ buffer_size d = size /\ contents m d = [] /\ rb <> SK_NULL /\ buffer d <> SK_NULL.
Proof.
  intros Hs. unfold sk_ring_buffer_create. rewrite (uint_small 16) by lia.
  destruct (sk_malloc sizeof_sk_ring_buffer h) as [[p h1]|]; [|done]. simpl.
  destruct (Z.eqb_spec p SK_NULL); [done|]. destruct (sk_malloc size h1) as [[buf h2]|]; [|done]. simpl.
  destruct (Z.eqb_spec buf SK_NULL); [by destruct (sk_free p h2)|]. intros [= <- <- <-].
  unfold sk_ring_buffer_init. rewrite (uint_small 16), (sint_small 16) by (simpl; lia).
  split; [split; simpl; lia|done].
Qed.

(** ** Witnesses *)

Definition cpt_lists : lists := <[NSuspend 800 := []]> (<[NTlist 100 := []]> prio_lists).

Lemma completion_wait_does_not_wait_witness :
  let s := upd_words (fun _ => {[800 := 0]}) (demo cpt_lists {[100 := a_thread SK_THREAD_RUNNING 10 5]} 0) in
  exists s' L', sk_completion_wait hw_interrupt_disable hw_interrupt_enable 800 50 s = Done s' None /\
    Rep (ks_nodes s') L' /\ waiting L' (NSuspend 800) [100] /\
    ks_current s' = 100 /\ ks_threads s' = ks_threads s /\ ks_daif s' = 0.
Proof.
  intros s. apply (completion_wait_does_not_wait cpt_lists s 800 (a_thread SK_THREAD_RUNNING 10 5) [] 0 50); try done.
  apply sched_check_sound. by vm_compute.
Defined.

Lemma ring_create_empty_witness :
  exists rb d h', sk_ring_buffer_create 64 (default slab_zero (snd <$> sk_system_mem_init 0x40200000 0x40300000 slab_zero)) =
    Some (Some (rb, d), h') /\
  rb_wf d /\ buffer_size d = 64 /\ contents ∅ d = [] /\ rb <> SK_NULL /\ buffer d <> SK_NULL.
Proof.
  set (r := sk_ring_buffer_create 64 _).
  assert (exists rb d h', r = Some (Some (rb, d), h')) as (rb & d & h' & E).
  { destruct r as [[[[rb d]|] h']|] eqn:E; [by eexists _, _, _|exfalso..]; revert E; vm_compute; discriminate. }
  exists rb, d, h'. split; [exact E|]. refine (ring_create_empty 64 _ rb d h' ∅ _ E). lia.
Defined.
