(* ===== verification/Device.v ===== *)
(** * Devices: [src/init/device.c]

    A device is an object of the registry with a table of driver functions, a
    count of opens and flags.  The driver functions are code outside this file:
    [ops_at] gives the table at an address, and the class [Driver] states what
    the layer needs of a driver, so that the theorem on sequences of calls holds
    for every driver that satisfies it. *)

From S2P Require Import Prelude BaseDef KList Slab IoDef Kernel Sched KObj.

Local Open Scope c_scope.

(** [struct sk_device_ops]: a function pointer may be NULL.  No function of the
    source calls [ioctl], the sixth. *)
Record sk_device_ops := mk_ops {
  op_init : option (Z -> M Z);
  op_open : option (Z -> Z -> M Z);
  op_close : option (Z -> M Z);
  op_read : option (Z -> Z -> Z -> Z -> M Z);
  op_write : option (Z -> Z -> Z -> Z -> M Z)
}.

Definition ks_devices (s : kstate) : gmap Z sk_device := io_devices (ks_io s).
Definition upd_devices (g : gmap Z sk_device -> gmap Z sk_device) : kstate -> kstate :=
  upd_io (set_io_devices g).
Definition get_dev (p : Z) : M sk_device := read_at ks_devices p.
Definition upd_dev (p : Z) (g : sk_device -> sk_device) : M unit :=
  update_at ks_devices upd_devices p g.

(** [SK_ALIGN(x, SK_ALIGN_SIZE)] of a 64-bit [x]: the mask is an [unsigned int]. *)
Definition SK_ALIGN_SIZE : Z := 4.
Definition align_size (x : Z) : Z := u64 (x + SK_ALIGN_SIZE - 1) & u32 (~~ (SK_ALIGN_SIZE - 1)).

Definition sk_device_find (name : Z) : M Z := sk_object_find name SK_OBJECT_DEVICE.

(** The block holds the structure; the bytes after it are the user's. *)
Definition sk_device_create (type attach_size : Z) : M Z :=
  let size := align_size sizeof_sk_device in
  let attach_size := s64 (align_size attach_size) in
  let size := s64 (size + attach_size) in
  device ← kmalloc (u64 size);
  when_ (negb (device =? SK_NULL))
   (kmemset device 0 sizeof_sk_device;;
    modify (zero_device device);;
    upd_dev device (fun d => mk_device type (dev_flag d) (ref_cnt d) (device_id d) (rx_indicate d)
      (tx_complete d) (dev_ops d) (dev_user_data d)));;
  mret device.

Definition sk_device_destroy (dev : Z) : M unit :=
  when_ (negb (dev =? SK_NULL)) (sk_object_delete dev;; kfree dev).

Definition sk_device_register (dev name flag : Z) : M Z :=
  d ← sk_device_find name;
  if negb (d =? SK_NULL) then mret SK_ERROR
  else
    sk_object_init dev SK_OBJECT_DEVICE name;;
    upd_dev dev (set_dev_flag flag);;
    upd_dev dev (set_ref_cnt 0);;
    mret SK_EOK.

Definition sk_device_unregister (dev : Z) : M Z :=
  o ← get_obj dev;
  if negb (obj_type o =? SK_OBJECT_DEVICE) then mret SK_ERROR
  else sk_object_delete dev;; mret SK_EOK.

Section operations.
Context (ops_at : Z -> option sk_device_ops).

(** [dev->ops] *)
Definition ops_of (dev : Z) : M sk_device_ops :=
  d ← get_dev dev; lift_option (ops_at (dev_ops d)).

Definition sk_device_init (dev : Z) : M Z :=
  d ← get_dev dev;
  if negb (dev_flag d & SK_DEVICE_FLAG_ACTIVATED =? 0) then mret SK_EOK
  else
    ops ← ops_of dev;
    match op_init ops with
    | None => mret SK_EOK
    | Some init =>
        ret ← init dev;
        when_ (ret =? SK_EOK)
          (upd_dev dev (fun d => set_dev_flag (dev_flag d ||| SK_DEVICE_FLAG_ACTIVATED) d));;
        mret ret
    end.

Definition sk_device_open (dev flag : Z) : M Z :=
  o ← get_obj dev;
  if negb (obj_type o =? SK_OBJECT_DEVICE) then mret SK_EINVAL
  else
    d ← get_dev dev;
    ret ← (if dev_flag d & SK_DEVICE_FLAG_ACTIVATED =? 0 then sk_device_init dev else mret SK_EOK);
    ret ← (if ret =? SK_EOK then
             ops ← ops_of dev;
             match op_open ops with None => mret ret | Some open => open dev flag end
           else mret ret);
    when_ (ret =? SK_EOK)
      (upd_dev dev (fun d => set_dev_flag (dev_flag d ||| SK_DEVICE_FLAG_OPEN) d);;
       upd_dev dev (fun d => set_ref_cnt (ref_cnt d + 1) d));;
    mret ret.

Definition sk_device_close (dev : Z) : M Z :=
  o ← get_obj dev;
  if negb (obj_type o =? SK_OBJECT_DEVICE) then mret SK_EINVAL
  else
    d ← get_dev dev;
    if ref_cnt d =? 0 then mret SK_ERROR
    else
      upd_dev dev (fun d => set_ref_cnt (ref_cnt d - 1) d);;
      d ← get_dev dev;
      if negb (ref_cnt d =? 0) then mret SK_EOK
      else
        ops ← ops_of dev;
        ret ← match op_close ops with None => mret SK_EOK | Some close => close dev end;
        when_ (ret =? SK_EOK) (upd_dev dev (set_dev_flag SK_DEVICE_FLAG_CLOSE));;
        mret ret.

(** The results are [sk_size_t], the error number included. *)
Definition sk_device_read (dev pos buf size : Z) : M Z :=
  o ← get_obj dev;
  if negb (obj_type o =? SK_OBJECT_DEVICE) then mret (u64 SK_EINVAL)
  else
    d ← get_dev dev;
    if ref_cnt d =? 0 then mret 0
    else
      ops ← ops_of dev;
      match op_read ops with None => mret 0 | Some read => read dev pos buf size end.

Definition sk_device_write (dev pos buf size : Z) : M Z :=
  o ← get_obj dev;
  if negb (obj_type o =? SK_OBJECT_DEVICE) then mret (u64 SK_EINVAL)
  else
    d ← get_dev dev;
    if ref_cnt d =? 0 then mret 0
    else
      ops ← ops_of dev;
      match op_write ops with None => mret 0 | Some write => write dev pos buf size end.

End operations.

(** ** Drivers *)

(** The driver has opened the device: the bit [SK_DEVICE_FLAG_OPEN]. *)
Definition opened (d : sk_device) : bool := Z.testbit (dev_flag d) 5.

Definition activated_bit (d : sk_device) : bool := Z.testbit (dev_flag d) 4.

(** A driver function leaves the identity and the count of opens of its device
    alone and does not clear the two flags of the device layer. *)
Definition driver_frame (dev : Z) (s s' : kstate) : Prop :=
  ks_objs s' !! dev = ks_objs s !! dev /\
  forall d, ks_devices s !! dev = Some d -> exists d', ks_devices s' !! dev = Some d' /\
    ref_cnt d' = ref_cnt d /\ dev_ops d' = dev_ops d /\ (opened d = true -> opened d' = true) /\
    (activated_bit d = true -> activated_bit d' = true).

Lemma driver_frame_refl dev s : driver_frame dev s s.
Proof. split; [done|]. intros d Hd. by exists d. Qed.

Lemma driver_frame_same dev s s' :
  ks_objs s' = ks_objs s -> ks_devices s' = ks_devices s -> driver_frame dev s s'.
Proof. intros Ho Hd. split; [by rewrite Ho|]. intros d. rewrite Hd. by exists d. Qed.

(** A call of a driver function, nothing if its pointer is NULL. *)
Definition call_init (ops : sk_device_ops) (dev : Z) : M Z :=
  match op_init ops with None => mret SK_EOK | Some f => f dev end.
Definition call_open (ops : sk_device_ops) (dev flag : Z) : M Z :=
  match op_open ops with None => mret SK_EOK | Some f => f dev flag end.
Definition call_close (ops : sk_device_ops) (dev : Z) : M Z :=
  match op_close ops with None => mret SK_EOK | Some f => f dev end.
Definition call_read (ops : sk_device_ops) (dev pos buf size : Z) : M Z :=
  match op_read ops with None => mret 0 | Some f => f dev pos buf size end.
Definition call_write (ops : sk_device_ops) (dev pos buf size : Z) : M Z :=
  match op_write ops with None => mret 0 | Some f => f dev pos buf size end.

(** What the device layer needs of a driver.  [I b n s]: in the state [s] the
    driver is open or not ([b]) and has what it needs for [n] more opens. *)
Class Driver (ops : sk_device_ops) (dev : Z) (I : bool -> nat -> kstate -> Prop) : Prop := {
  driver_init n s :
    I false n s -> exists s', call_init ops dev s = Done s' SK_EOK /\ I false n s' /\
      driver_frame dev s s' /\ opened <$> ks_devices s' !! dev = opened <$> ks_devices s !! dev;
  driver_open fl b n s d :
    I b (S n) s -> ks_devices s !! dev = Some d -> opened d = b ->
    exists s', call_open ops dev fl s = Done s' SK_EOK /\ I true n s' /\ driver_frame dev s s';
  driver_close n s :
    I true n s -> exists s', call_close ops dev s = Done s' SK_EOK /\ I false n s' /\ driver_frame dev s s';
  driver_read pos buf size n s :
    I true n s -> exists s' r, call_read ops dev pos buf size s = Done s' r /\ I true n s' /\ driver_frame dev s s';
  driver_write pos buf size n s :
    I true n s -> exists s' r, call_write ops dev pos buf size s = Done s' r /\ I true n s' /\ driver_frame dev s s';
  driver_flag fl b n s d :
    I b n s -> ks_devices s !! dev = Some d -> I b n (upd_devices (<[dev := set_dev_flag fl d]>) s);
  driver_ref c b n s d :
    I b n s -> ks_devices s !! dev = Some d -> I b n (upd_devices (<[dev := set_ref_cnt c d]>) s)
}.

Inductive dev_call :=
  | DevOpen (flag : Z)
  | DevClose
  | DevRead (pos buf size : Z)
  | DevWrite (pos buf size : Z).

Definition run_call (ops_at : Z -> option sk_device_ops) (dev : Z) (c : dev_call) : M Z :=
  match c with
  | DevOpen fl => sk_device_open ops_at dev fl
  | DevClose => sk_device_close ops_at dev
  | DevRead pos buf size => sk_device_read ops_at dev pos buf size
  | DevWrite pos buf size => sk_device_write ops_at dev pos buf size
  end.

Fixpoint run_calls (ops_at : Z -> option sk_device_ops) (dev : Z) (cs : list dev_call) : M (list Z) :=
  match cs with
  | [] => mret []
  | c :: cs => r ← run_call ops_at dev c; rs ← run_calls ops_at dev cs; mret (r :: rs)
  end.

(** The abstract device: the number of clients that have it open. *)
Definition count_after (k : Z) (c : dev_call) : Z :=
  match c with
  | DevOpen _ => k + 1
  | DevClose => if k =? 0 then 0 else k - 1
  | _ => k
  end.

(** The driver is initialised once: the flag ACTIVATED says that it was. *)
Definition spec_start (ops : sk_device_ops) (dev : Z) : M unit :=
  d ← get_dev dev;
  if activated_bit d then mret tt
  else if op_init ops is None then mret tt
  else call_init ops dev;; upd_dev dev (fun d => set_dev_flag (dev_flag d ||| SK_DEVICE_FLAG_ACTIVATED) d).

(** What a call has to do with [k] clients: the first open initialises the
    driver, every open reaches its open function, the last close its close
    function, and a read or write of an open device is the driver's, with its
    arguments and its result. *)
Definition spec_call (ops : sk_device_ops) (dev k : Z) (c : dev_call) : M Z :=
  match c with
  | DevOpen fl =>
      when_ (k =? 0) (spec_start ops dev);;
      call_open ops dev fl;;
      upd_dev dev (fun d => set_dev_flag (dev_flag d ||| SK_DEVICE_FLAG_OPEN) d);;
      upd_dev dev (set_ref_cnt (k + 1));;
      mret SK_EOK
  | DevClose =>
      if k =? 0 then mret SK_ERROR
      else
        upd_dev dev (set_ref_cnt (k - 1));;
        when_ (k =? 1) (call_close ops dev;; upd_dev dev (set_dev_flag SK_DEVICE_FLAG_CLOSE));;
        mret SK_EOK
  | DevRead pos buf size => if k =? 0 then mret 0 else call_read ops dev pos buf size
  | DevWrite pos buf size => if k =? 0 then mret 0 else call_write ops dev pos buf size
  end.

Fixpoint spec_calls (ops : sk_device_ops) (dev k : Z) (cs : list dev_call) : M (list Z) :=
  match cs with
  | [] => mret []
  | c :: cs =>
      r ← spec_call ops dev k c; rs ← spec_calls ops dev (count_after k c) cs; mret (r :: rs)
  end.

Definition is_open (c : dev_call) : bool := if c is DevOpen _ then true else false.
Definition opens (cs : list dev_call) : nat := length (filter (fun c => is_open c = true) cs).

Lemma opens_cons c cs : opens (c :: cs) = ((if is_open c then 1 else 0) + opens cs)%nat.
Proof. unfold opens. rewrite filter_cons. case_decide as H; [by rewrite H|by apply not_true_is_false in H as ->]. Qed.

Lemma testbit_u16 x i : 0 <= i < 16 -> Z.testbit (u16 x) i = Z.testbit x i.
Proof. intros. unfold sk_uint. rewrite Z.mod_pow2_bits_low by lia. done. Qed.

Lemma opened_set fl d : opened (set_dev_flag fl d) = Z.testbit fl 5.
Proof. exact (testbit_u16 fl 5 ltac:(lia)). Qed.

Lemma activated_set fl d : activated_bit (set_dev_flag fl d) = Z.testbit fl 4.
Proof. exact (testbit_u16 fl 4 ltac:(lia)). Qed.

Section protocol.
Context (ops_at : Z -> option sk_device_ops) (ops : sk_device_ops) (dev : Z)
  (I : bool -> nat -> kstate -> Prop) {D : Driver ops dev I}.

Lemma get_dev_ok s d : ks_devices s !! dev = Some d -> get_dev dev s = Done s d.
Proof. apply read_at_ok. Qed.

Lemma upd_dev_ok s d g :
  ks_devices s !! dev = Some d -> upd_dev dev g s = Done (upd_devices (<[dev := g d]>) s) tt.
Proof. apply (update_at_ok ks_devices upd_devices). Qed.

Lemma ops_of_ok s d o :
  ks_devices s !! dev = Some d -> ops_at (dev_ops d) = Some o -> ops_of ops_at dev s = Done s o.
Proof. intros E E'. unfold ops_of. kstep (get_dev_ok s d E). by rewrite E'. Qed.

Lemma devices_upd g s : ks_devices (upd_devices g s) = g (ks_devices s).
Proof. done. Qed.

(** The device record the layer works on, with its driver in the state [b]. *)
Record dev_at (b : bool) (n : nat) (k : Z) (d : sk_device) (s : kstate) : Prop := {
  da_obj : exists fl, ks_objs s !! dev = Some (mk_object SK_OBJECT_DEVICE fl);
  da_dev : ks_devices s !! dev = Some d;
  da_ops : ops_at (dev_ops d) = Some ops;
  da_ref : ref_cnt d = k;
  da_drv : I b n s
}.

Lemma dev_at_flag b n k d s fl :
  dev_at b n k d s ->
  dev_at b n k (set_dev_flag fl d) (upd_devices (<[dev := set_dev_flag fl d]>) s).
Proof.
  intros [Ho Hd Hops Hk HI]. split; try done; [exact (lookup_insert_eq _ _ _)|by apply driver_flag].
Qed.

Lemma dev_at_ref b n k d s c :
  dev_at b n k d s ->
  dev_at b n (u8 c) (set_ref_cnt c d) (upd_devices (<[dev := set_ref_cnt c d]>) s).
Proof.
  intros [Ho Hd Hops Hk HI]. split; try done; [exact (lookup_insert_eq _ _ _)|by apply driver_ref].
Qed.

(** A driver function keeps the record up to its other fields. *)
Lemma dev_at_frame b b' n n' k d s s' :
  dev_at b n k d s -> driver_frame dev s s' -> I b' n' s' ->
  exists d', dev_at b' n' k d' s' /\ (opened d = true -> opened d' = true) /\
    (activated_bit d = true -> activated_bit d' = true).
Proof.
  intros [Ho Hd Hops Hk HI] [Hobj Hf] HI'. destruct (Hf d Hd) as (d' & Hd' & Hr & Hp & Hop & Ha).
  exists d'. split; [|done]. split; try done; [by rewrite Hobj|by rewrite Hp|by rewrite Hr].
Qed.

(** The device at [dev] with [k] clients, its driver able to serve [n] more. *)
Definition dev_inv (n : nat) (k : Z) (s : kstate) : Prop :=
  exists d, dev_at (0 <? k) n k d s /\ opened d = (0 <? k) /\ 0 <= k < 256 /\
    (0 < k -> op_init ops = None \/ activated_bit d = true).

Lemma opened_bit d : (dev_flag d & SK_DEVICE_FLAG_OPEN =? 0) = negb (opened d).
Proof. exact (testbit_land_pow2 (dev_flag d) 5 ltac:(lia)). Qed.

Lemma activated_flag d : (dev_flag d & SK_DEVICE_FLAG_ACTIVATED =? 0) = negb (activated_bit d).
Proof. exact (testbit_land_pow2 (dev_flag d) 4 ltac:(lia)). Qed.

Lemma type_check {A} (m1 m2 : M A) b n k d s :
  dev_at b n k d s ->
  (o ← get_obj dev; if negb (obj_type o =? SK_OBJECT_DEVICE) then m1 else m2) s = m2 s.
Proof. intros [[fl Ho] _ _ _ _]. unfold get_obj. erewrite bind_done by (by apply read_at_ok). done. Qed.

(** Initialisation runs the driver's function unless it has run. *)
Lemma device_init_step n k d s :
  dev_at false n k d s -> activated_bit d = false ->
  exists s' d', sk_device_init ops_at dev s = Done s' SK_EOK /\ spec_start ops dev s = Done s' tt /\
    dev_at false n k d' s' /\
    opened d' = opened d /\ (op_init ops = None \/ activated_bit d' = true).
Proof.
  intros H Ha. pose proof H as [Ho Hd Hops Hk HI]. unfold sk_device_init, spec_start, call_init.
  kstep (get_dev_ok s d Hd). kstep (get_dev_ok s d Hd).
  rewrite activated_flag, Ha. simpl. kstep (ops_of_ok s d ops Hd Hops).
  destruct (driver_init n s HI) as (s1 & E & HI1 & Hf & Hsame). unfold call_init in E.
  destruct (op_init ops) as [f|] eqn:Hop; [|by exists s, d; auto 6].
  destruct (dev_at_frame _ _ _ _ _ _ _ _ H Hf HI1) as (d1 & H1 & _ & _).
  rewrite Hd, (da_dev _ _ _ _ _ H1) in Hsame. injection Hsame as Hop1. kstep E. kstep E. simpl when_. kstep (upd_dev_ok s1 d1 (fun d => set_dev_flag (dev_flag d ||| SK_DEVICE_FLAG_ACTIVATED) d) (da_dev _ _ _ _ _ H1)).
  eexists _, _. split; [reflexivity|]. split; [exact (upd_dev_ok s1 d1 _ (da_dev _ _ _ _ _ H1))|].
  split; [by apply dev_at_flag|].
  rewrite opened_set, Z.lor_spec. rewrite orb_false_r. split; [done|]. right.
  rewrite activated_set, Z.lor_spec. apply orb_true_r.
Qed.

(** The part of an open that comes before the driver's open function. *)
Lemma device_start_step n k d s :
  dev_at (0 <? k) n k d s -> opened d = (0 <? k) -> 0 <= k ->
  (0 < k -> op_init ops = None \/ activated_bit d = true) ->
  exists s1 d1,
    (if negb (activated_bit d) then sk_device_init ops_at dev else mret SK_EOK) s = Done s1 SK_EOK /\
    when_ (k =? 0) (spec_start ops dev) s = Done s1 tt /\
    dev_at (0 <? k) n k d1 s1 /\ opened d1 = (0 <? k) /\
    (op_init ops = None \/ activated_bit d1 = true).
Proof.
  intros H Hop Hk Ha. destruct (activated_bit d) eqn:Eb; cbv iota delta [negb].
  - exists s, d. split_and!; auto. unfold when_, spec_start. destruct (k =? 0); [|done].
    kstep (get_dev_ok s d (da_dev _ _ _ _ _ H)). by rewrite Eb.
  - destruct (Z.ltb_spec 0 k) as [Hpos|Hz].
    + destruct (Ha Hpos) as [Hnone|]; [|congruence]. exists s, d.
      replace (k =? 0) with false by lia. split_and!; auto. unfold sk_device_init.
      kstep (get_dev_ok s d (da_dev _ _ _ _ _ H)). rewrite activated_flag, Eb. simpl.
      kstep (ops_of_ok s d ops (da_dev _ _ _ _ _ H) (da_ops _ _ _ _ _ H)). by rewrite Hnone.
    + destruct (device_init_step n k d s H Eb) as (s1 & d1 & E1 & E1' & H1 & Ho1 & Hx).
      exists s1, d1. replace (k =? 0) with true by lia. rewrite Ho1. auto.
Qed.

(** The count of an open device is an 8-bit number. *)
Lemma device_open_any n k s fl :
  dev_inv (S n) k s ->
  exists s' d, sk_device_open ops_at dev fl s = Done s' SK_EOK /\
    spec_call ops dev k (DevOpen fl) s = Done s' SK_EOK /\ dev_at true n (u8 (k + 1)) d s' /\
    opened d = true /\ (op_init ops = None \/ activated_bit d = true).
Proof.
  intros (d & H & Hop & Hk & Ha). unfold sk_device_open. rewrite (type_check _ _ _ _ _ _ _ H).
  kstep (get_dev_ok s d (da_dev _ _ _ _ _ H)). rewrite activated_flag.
  destruct (device_start_step (S n) k d s H Hop (proj1 Hk) Ha) as (s1 & d1 & E1 & E1' & H1 & Hop1 & Ha1).
  kstep E1. simpl (SK_EOK =? SK_EOK). cbv iota.
  destruct (driver_open fl _ n s1 d1 (da_drv _ _ _ _ _ H1) (da_dev _ _ _ _ _ H1) Hop1)
    as (s2 & E2 & HI2 & Hf2).
  destruct (dev_at_frame _ _ _ _ _ _ _ _ H1 Hf2 HI2) as (d2 & H2 & Hop2 & Ha2).
  erewrite bind_done.
  2:{ kstep (ops_of_ok s1 d1 ops (da_dev _ _ _ _ _ H1) (da_ops _ _ _ _ _ H1)). exact E2. }
  set (d3 := set_dev_flag (dev_flag d2 ||| SK_DEVICE_FLAG_OPEN) d2).
  pose proof (dev_at_flag _ _ _ _ _ (dev_flag d2 ||| SK_DEVICE_FLAG_OPEN) H2) as H3. fold d3 in H3.
  pose proof (upd_dev_ok s2 d2 (fun d => set_dev_flag (dev_flag d ||| SK_DEVICE_FLAG_OPEN) d)
    (da_dev _ _ _ _ _ H2)) as E3. cbv beta in E3. fold d3 in E3.
  pose proof (upd_dev_ok _ d3 (set_ref_cnt (k + 1)) (da_dev _ _ _ _ _ H3)) as E4.
  pose proof (dev_at_ref _ _ _ _ _ (k + 1) H3) as H4. eexists _, _. split; [|split; [|split; [exact H4|split]]].
  - unfold when_. simpl (SK_EOK =? SK_EOK). cbv iota. erewrite bind_done; [reflexivity|].
    kstep E3. rewrite <- (da_ref _ _ _ _ _ H3) in E4 |- *.
    exact (upd_dev_ok _ d3 (fun d => set_ref_cnt (ref_cnt d + 1) d) (da_dev _ _ _ _ _ H3)).
  - simpl spec_call. kstep E1'. kstep E2. kstep E3. kstep E4. done.
  - change (opened d3 = true). unfold d3. rewrite opened_set, Z.lor_spec. apply orb_true_r.
  - change (op_init ops = None \/ activated_bit d3 = true). unfold d3.
    rewrite activated_set, Z.lor_spec, orb_false_r.
    change (op_init ops = None \/ activated_bit d2 = true). destruct Ha1; auto.
Qed.

Lemma device_open_step n k s fl :
  dev_inv (S n) k s -> k < 255 ->
  exists s', sk_device_open ops_at dev fl s = Done s' SK_EOK /\
    spec_call ops dev k (DevOpen fl) s = Done s' SK_EOK /\ dev_inv n (k + 1) s'.
Proof.
  intros H Hlt. pose proof H as (_ & _ & _ & Hk & _).
  destruct (device_open_any n k s fl H) as (s' & d & E & E' & H' & Hop & Ha).
  rewrite (uint_small 8) in H' by lia. exists s'. split; [done|]. split; [done|]. exists d.
  replace (0 <? k + 1) with true by lia. split_and!; try done; lia.
Qed.

Lemma device_close_step n k s :
  dev_inv n k s ->
  exists s' r, sk_device_close ops_at dev s = Done s' r /\ spec_call ops dev k DevClose s = Done s' r /\
    dev_inv n (if k =? 0 then 0 else k - 1) s'.
Proof.
  intros (d & H & Hop & Hk & Ha). unfold sk_device_close. rewrite (type_check _ _ _ _ _ _ _ H).
  kstep (get_dev_ok s d (da_dev _ _ _ _ _ H)). rewrite (da_ref _ _ _ _ _ H).
  destruct (Z.eqb_spec k 0) as [->|Hne]; [exists s, SK_ERROR; split; [done|]; split; [done|]; by exists d|].
  simpl spec_call. kif. replace (k =? 0) with false by lia.
  kstep (upd_dev_ok s d (fun d => set_ref_cnt (ref_cnt d - 1) d) (da_dev _ _ _ _ _ H)).
  kstep (upd_dev_ok s d (set_ref_cnt (k - 1)) (da_dev _ _ _ _ _ H)).
  pose proof (da_ref _ _ _ _ _ H) as Ek. rewrite <- Ek in Hne, Hk, Ha, Hop |- *.
  pose proof (dev_at_ref _ _ _ _ _ (ref_cnt d - 1) H) as H1. rewrite (uint_small 8) in H1 by lia. subst k.
  set (d1 := set_ref_cnt (ref_cnt d - 1) d) in *. set (k := ref_cnt d) in *.
  kstep (get_dev_ok _ d1 (da_dev _ _ _ _ _ H1)). rewrite (da_ref _ _ _ _ _ H1).
  replace (0 <? k) with true in H1 by lia. change (opened d1 = (0 <? k)) in Hop.
  destruct (Z.eqb_spec (k - 1) 0) as [E0|Hne'].
  2:{ eexists _, _. split; [reflexivity|]. replace (k =? 1) with false by lia. split; [reflexivity|].
      exists d1. replace (0 <? k - 1) with true by lia.
      replace (0 <? k) with true in Hop by lia. split; [exact H1|]. split; [done|].
      split; [lia|]. intros _. apply (Ha ltac:(lia)). }
  replace (k =? 1) with true by lia. kif. kstep (ops_of_ok _ d1 ops (da_dev _ _ _ _ _ H1) (da_ops _ _ _ _ _ H1)).
  destruct (driver_close n _ (da_drv _ _ _ _ _ H1)) as (s2 & E2 & HI2 & Hf2).
  destruct (dev_at_frame _ _ _ _ _ _ _ _ H1 Hf2 HI2) as (d2 & H2 & _ & _).
  pose proof (upd_dev_ok s2 d2 (set_dev_flag SK_DEVICE_FLAG_CLOSE) (da_dev _ _ _ _ _ H2)) as E3.
  kstep E2. unfold when_. simpl (SK_EOK =? SK_EOK). cbv iota. kstep E3.
  eexists _, _. split; [reflexivity|]. split; [erewrite bind_done; [reflexivity|]; kstep E2; exact E3|]. exists (set_dev_flag SK_DEVICE_FLAG_CLOSE d2).
  replace (0 <? k - 1) with false by lia. split; [by apply dev_at_flag|]. split; [|split; [lia|lia]].
  by rewrite opened_set.
Qed.

(** Reading and writing reach the driver exactly when the device is open. *)
Lemma dev_inv_call (f : sk_device_ops -> option (Z -> Z -> Z -> Z -> M Z)) pos buf size n k s :
  dev_inv n k s ->
  (I true n s -> exists s' r,
    match f ops with None => mret 0 | Some g => g dev pos buf size end s = Done s' r /\
    I true n s' /\ driver_frame dev s s') ->
  exists s' r,
    (o ← get_obj dev;
     if negb (obj_type o =? SK_OBJECT_DEVICE) then mret (u64 SK_EINVAL)
     else
       d ← get_dev dev;
       if ref_cnt d =? 0 then mret 0
       else
         ops ← ops_of ops_at dev;
         match f ops with None => mret 0 | Some g => g dev pos buf size end) s = Done s' r /\
    (if k =? 0 then mret 0 else match f ops with None => mret 0 | Some g => g dev pos buf size end) s =
      Done s' r /\ dev_inv n k s'.
Proof.
  intros (d & H & Hop & Hk & Ha) Hcall. rewrite (type_check _ _ _ _ _ _ _ H).
  kstep (get_dev_ok s d (da_dev _ _ _ _ _ H)). rewrite (da_ref _ _ _ _ _ H).
  destruct (Z.eqb_spec k 0) as [->|Hne]; [exists s, 0; split; [done|]; split; [done|]; by exists d|].
  kstep (ops_of_ok _ d ops (da_dev _ _ _ _ _ H) (da_ops _ _ _ _ _ H)).
  replace (0 <? k) with true in * by lia.
  destruct (Hcall (da_drv _ _ _ _ _ H)) as (s' & r & E & HI & Hf).
  destruct (dev_at_frame _ _ _ _ _ _ _ _ H Hf HI) as (d' & H' & Hop' & Ha').
  exists s', r. split; [done|]. split; [done|]. exists d'. replace (0 <? k) with true by lia.
  split_and!; auto; try lia. intros Hpos. destruct (Ha Hpos); auto.
Qed.

Lemma device_call_step n k c s :
  dev_inv ((if is_open c then 1 else 0) + n) k s -> (is_open c = true -> k < 255) ->
  exists s' r, run_call ops_at dev c s = Done s' r /\ spec_call ops dev k c s = Done s' r /\
    dev_inv n (count_after k c) s'.
Proof.
  intros H Hk. destruct c as [fl| |pos buf size|pos buf size]; simpl in *.
  - destruct (device_open_step n k s fl H (Hk eq_refl)) as (s' & E & H'). by exists s', SK_EOK.
  - by apply device_close_step.
  - apply (dev_inv_call op_read); [done|]. apply driver_read.
  - apply (dev_inv_call op_write); [done|]. apply driver_write.
Qed.

Lemma count_after_le k c : 0 <= k -> 0 <= count_after k c <= k + (if is_open c then 1 else 0).
Proof. destruct c; simpl; case_bool; lia. Qed.

Lemma device_calls_step cs : forall n k s,
  dev_inv (opens cs + n) k s -> k + Z.of_nat (opens cs) <= 255 ->
  exists s' rs, run_calls ops_at dev cs s = Done s' rs /\ spec_calls ops dev k cs s = Done s' rs /\
    dev_inv n (foldl count_after k cs) s'.
Proof.
  induction cs as [|c cs IH]; intros n k s H Hk; [by exists s, []|].
  rewrite opens_cons in *. pose proof H as (d & _ & _ & Hrange & _).
  rewrite <- Nat.add_assoc in H.
  destruct (device_call_step (opens cs + n) k c s H) as (s1 & r & E1 & Hr & H1).
  { destruct (is_open c); [lia|done]. }
  pose proof (count_after_le k c ltac:(lia)).
  destruct (IH n (count_after k c) s1 H1) as (s2 & rs & E2 & Hrs & H2).
  { destruct (is_open c); lia. }
  exists s2, (r :: rs). simpl run_calls. simpl spec_calls. kstep E1. kstep E2. kstep Hr. kstep Hrs. done.
Qed.

End protocol.

(** ** Names *)

(** The 16 bytes of a name at [a] do not overlap those at [b]. *)
Definition name_apart (a b : Z) : Prop := a + SK_NAME_MAX <= b \/ b + SK_NAME_MAX <= a.

(** A name that fits in the header of an object stays where it is when another
    header is written, and is copied whole. *)
Lemma cstr_name_kept m dst src a l :
  cstr m a l -> (length l < 16)%nat -> name_apart a dst -> cstr (sk_memcpy dst src SK_NAME_MAX m) a l.
Proof.
  unfold name_apart, SK_NAME_MAX. intros (Hl & Hi & He) Hlen Hap. split; [done|].
  assert (forall i, 0 <= i < 16 -> mget (sk_memcpy dst src 16 m) (a + i) = m.[a + i]) as Hk.
  { intros i Hi'. rewrite memcpy_spec by lia. rewrite decide_False; [done|lia]. }
  split; [intros i c Hc; pose proof (lookup_lt_Some _ _ _ Hc); rewrite Hk by lia; by apply Hi|].
  by rewrite Hk by lia.
Qed.

Lemma cstr_name_copied m dst src l :
  cstr m src l -> (length l < 16)%nat -> cstr (sk_memcpy dst src SK_NAME_MAX m) dst l.
Proof.
  unfold SK_NAME_MAX. intros (Hl & Hi & He) Hlen. split; [done|].
  assert (forall i, 0 <= i < 16 -> mget (sk_memcpy dst src 16 m) (dst + i) = m.[src + i]) as Hk.
  { intros i Hi'. rewrite memcpy_spec by lia. rewrite decide_True by lia. f_equal. lia. }
  split; [intros i c Hc; pose proof (lookup_lt_Some _ _ _ Hc); rewrite Hk by lia; by apply Hi|].
  by rewrite Hk by lia.
Qed.

Lemma strcmp_names m a b x y :
  cstr m a x -> cstr m b y -> (length x < 16)%nat -> (length y < 16)%nat ->
  (sk_strcmp a b SK_NAME_MAX m =? 0) = true <-> x = y.
Proof.
  intros Ha Hb Hx Hy. rewrite Z.eqb_eq. unfold sk_strcmp.
  rewrite (strcmp_loop_zero m _ _ _ _ _ Ha Hb). change (Z.to_nat SK_NAME_MAX) with 16%nat.
  by rewrite !take_ge by lia.
Qed.

Lemma find_first L s o os name n :
  Rep (ks_nodes s) L -> registered L SK_OBJECT_DEVICE (o :: os) -> name <> SK_NULL ->
  cstr (ks_mem s) name n -> cstr (ks_mem s) o n -> (length n < 16)%nat ->
  sk_device_find name s = Done s o.
Proof.
  intros HR Hr Hn Hcn Hco Hlen. unfold sk_device_find.
  rewrite (object_find_eq L s _ (o :: os)) by (done || unfold SK_OBJECT_DEVICE, SK_OBJECT_UNKNOWN; lia).
  simpl. rewrite decide_True; [done|]. by eapply strcmp_names.
Qed.

(** The name is free, or some device of the list has it. *)
Lemma find_cases L s os (nm : Z -> list Z) name n :
  Rep (ks_nodes s) L -> registered L SK_OBJECT_DEVICE os -> name <> SK_NULL ->
  cstr (ks_mem s) name n -> (length n < 16)%nat ->
  (forall o, o ∈ os -> o <> SK_NULL /\ cstr (ks_mem s) o (nm o) /\ (length (nm o) < 16)%nat) ->
  exists r, sk_device_find name s = Done s r /\ (r = SK_NULL <-> forall o, o ∈ os -> nm o <> n).
Proof.
  intros HR Hr Hn Hcn Hlen Hos. unfold sk_device_find.
  rewrite (object_find_eq L s _ os) by (done || unfold SK_OBJECT_DEVICE, SK_OBJECT_UNKNOWN; lia).
  eexists. split; [reflexivity|]. destruct (list_find _ os) as [[i r]|] eqn:E; simpl.
  - apply list_find_Some in E as (Hi & Hr' & _). apply list_elem_of_lookup_2 in Hi.
    destruct (Hos r Hi) as (Hnn & Hc & Hl). split; [done|]. intros Hall. exfalso.
    apply (Hall r Hi). by apply (strcmp_names _ _ _ _ _ Hc Hcn Hl Hlen).
  - split; [intros _|done]. apply list_find_None in E. rewrite Forall_forall in E.
    intros o Ho Heq. destruct (Hos o Ho) as (_ & Hc & Hl).
    apply (E o Ho). by apply (strcmp_names _ _ _ _ _ Hc Hcn Hl Hlen).
Qed.

(** ** Properties *)

(** C30: every sequence of calls with at most 255 opens, on a closed device
    whose driver satisfies [Driver], runs to its end and does in the same order,
    from the same states and with the same results what [spec_calls] does, which
    keeps the number [k] of clients and calls the driver's functions itself: an
    open succeeds, adds a client and calls the driver's open function, the first
    one after its init function unless that has run; a close without clients is
    SK_ERROR and changes nothing, others take a client back and the last calls
    the driver's close function; a read or write with clients is the driver's
    own, with its arguments and its result, and returns 0 without one. *)
Theorem device_calls_follow_count ops_at ops dev I cs n s :
  Driver ops dev I -> dev_inv ops_at ops dev I (opens cs + n) 0 s -> (opens cs <= 255)%nat ->
  exists s' rs, run_calls ops_at dev cs s = Done s' rs /\ spec_calls ops dev 0 cs s = Done s' rs /\
    dev_inv ops_at ops dev I n (foldl count_after 0 cs) s'.
Proof. intros D H Hn. apply device_calls_step; [done|done|lia]. Qed.

(** [sk_device_register] refuses a name that a registered device has and
    changes nothing; otherwise it registers the device, closed and with the
    given flags, after which the name finds it and cannot be registered
    again. *)
Theorem device_register_find L s os (nm : Z -> list Z) dev o d name n flag :
  Rep (ks_nodes s) L -> registered L SK_OBJECT_DEVICE os ->
  (forall o, o ∈ os -> o <> SK_NULL /\ cstr (ks_mem s) o (nm o) /\ (length (nm o) < 16)%nat) ->
  name <> SK_NULL -> cstr (ks_mem s) name n -> (length n < 16)%nat -> name_apart name dev ->
  dev <> SK_NULL -> ks_objs s !! dev = Some o -> ks_devices s !! dev = Some d ->
  fresh L (NObj dev) -> is_Some (ks_nodes s !! NObj dev) ->
  ((exists o, o ∈ os /\ nm o = n) /\ sk_device_register dev name flag s = Done s SK_ERROR) \/
  ((forall o, o ∈ os -> nm o <> n) /\
   exists s', sk_device_register dev name flag s = Done s' SK_EOK /\
     ks_devices s' !! dev = Some (set_ref_cnt 0 (set_dev_flag flag d)) /\
     sk_device_find name s' = Done s' dev /\
     forall dev' flag', sk_device_register dev' name flag' s' = Done s' SK_ERROR).
Proof.
  intros HR Hr Hos Hn Hcn Hlen Hap Hdev Ho Hd Hfr Hdom.
  destruct (find_cases L s os nm name n HR Hr Hn Hcn Hlen Hos) as (r & Ef & Hiff).
  unfold sk_device_register. destruct (decide (r = SK_NULL)) as [->|Hr0].
  - right. split; [by apply Hiff|].
    destruct (object_init_fresh L s SK_OBJECT_DEVICE os dev o name HR) as (h & Ei & HR' & Hr'); try done.
    set (s1 := init_object h dev SK_OBJECT_DEVICE name o s) in *.
    set (s2 := upd_devices (<[dev := set_dev_flag flag d]>) s1).
    assert (ks_devices s2 !! dev = Some (set_dev_flag flag d)) as Hd2 by exact (lookup_insert_eq _ _ _).
    set (s' := upd_devices (<[dev := set_ref_cnt 0 (set_dev_flag flag d)]>) s2).
    assert (sk_device_find name s' = Done s' dev) as Hfind.
    { eapply find_first; [exact HR'|exact Hr'|done| | |exact Hlen].
      - by apply cstr_name_kept.
      - by apply cstr_name_copied. }
    exists s'. split_and!.
    + kstep Ef. change (negb (SK_NULL =? SK_NULL)) with false. kif. kstep Ei.
      kstep (upd_dev_ok dev s1 d (set_dev_flag flag) Hd). kstep (upd_dev_ok dev s2 _ (set_ref_cnt 0) Hd2). done.
    + exact (lookup_insert_eq _ _ _).
    + done.
    + intros dev' flag'. kstep Hfind. rewrite (proj2 (Z.eqb_neq dev SK_NULL) Hdev). done.
  - left. split.
    + destruct (decide (Exists (fun o => nm o = n) os)) as [He|Hne].
      * by apply Exists_exists in He as (x & ? & ?); exists x.
      * exfalso. apply Hr0, Hiff. intros x Hx Heq. apply Hne, Exists_exists. by exists x.
    + kstep Ef. rewrite (proj2 (Z.eqb_neq r SK_NULL) Hr0). done.
Qed.

(** The count of clients has 8 bits: the open of the 256th client returns SK_EOK
    and leaves the count at 0, so that reads return 0 and a close fails although
    256 clients hold the device. *)
Theorem device_count_wraps ops_at ops dev I n s fl :
  Driver ops dev I -> dev_inv ops_at ops dev I (S n) 255 s ->
  exists s', sk_device_open ops_at dev fl s = Done s' SK_EOK /\
    (forall pos buf size, sk_device_read ops_at dev pos buf size s' = Done s' 0) /\
    sk_device_close ops_at dev s' = Done s' SK_ERROR.
Proof.
  intros D H. destruct (device_open_any ops_at ops dev I n 255 s fl H) as (s' & d & E & _ & H' & _ & _).
  exists s'. split; [done|]. split; [intros pos buf size; unfold sk_device_read|unfold sk_device_close];
    rewrite (type_check ops_at ops dev I _ _ _ _ _ _ _ H');
    kstep (get_dev_ok dev s' d (da_dev _ _ _ _ _ _ _ _ _ H'));
    by rewrite (da_ref _ _ _ _ _ _ _ _ _ H').
Qed.

(** ** Concrete devices *)

(** The registry with the names of the devices in the list, on a fresh heap; the
    string at 3000 is a free name, the one at 3100 is taken by the device 1000. *)
Definition dev_lists : lists := <[NObjList SK_OBJECT_DEVICE := [NObj 1000]]> prio_lists.

Definition dev_state : kstate :=
  upd_heap (fun _ => heap16)
   (upd_mem (fun _ => list_to_map [(1000, 97); (1001, 0); (3000, 98); (3001, 0); (3100, 97); (3101, 0)])
    (upd_objs (fun _ => list_to_map [(1000, mk_object SK_OBJECT_DEVICE 0); (2000, mk_object 0 0)])
     (upd_devices (fun _ => list_to_map [(1000, mk_device 0 0 0 0 0 0 500 0); (2000, mk_device 0 0 0 0 0 0 500 0)])
      (upd_nodes (fun _ => <[NObj 2000 := mk_node NNull NNull]> (heap_of dev_lists)) kstate_zero)))).

Lemma dev_state_rep : Rep (ks_nodes dev_state) dev_lists.
Proof. apply rep_check_sound. by vm_compute. Qed.

Fixpoint kmallocs (n : nat) (size : Z) : M (list Z) :=
  match n with
  | O => mret []
  | S n => p ← kmalloc size; ps ← kmallocs n size; mret (p :: ps)
  end.

(** A device is created, registered and destroyed; then [n] blocks of its size
    are allocated. *)
Definition create_destroy (destroy : Z -> M unit) (name : Z) (n : nat) : M (list Z) :=
  dev ← sk_device_create SK_DEVICE_CHAR 0;
  sk_device_register dev name 0;;
  destroy dev;;
  kmallocs n sizeof_sk_device.

Definition res_value {A} (r : res A) : option A := if r is Done _ a then Some a else None.


(** A device that is created, registered and destroyed is released twice, by
    [sk_object_delete] and again by [sk_device_destroy]: on a fresh heap some
    two of the next 500 blocks of its size are the same block.  After
    [sk_device_unregister], which releases it once, they are distinct. *)
Theorem device_destroy_frees_twice :
  (exists ps, res_value (create_destroy sk_device_destroy 3000 500 dev_state) = Some ps /\ ~ NoDup ps) /\
  (exists ps, res_value (create_destroy (fun dev => sk_device_unregister dev;; mret tt) 3000 500 dev_state)
    = Some ps /\ NoDup ps).
Proof.
  split; eexists; (split; [by vm_compute|]); apply (bool_decide_unpack _); by vm_compute.
Qed.

(** A driver without functions: every call on the device succeeds at once. *)
Definition null_ops : sk_device_ops := mk_ops None None None None None.

#[export] Instance null_driver dev : Driver null_ops dev (fun _ _ _ => True).
Proof.
  split; intros; try done;
    (exists s; split_and!; done || apply driver_frame_refl) ||
    (exists s, 0; split_and!; try done; apply driver_frame_refl).
Qed.

(** A driver of zeros: a read clears the first byte of the buffer and returns
    the size it is given, a write returns 1. *)
Definition zero_ops : sk_device_ops :=
  mk_ops None None None
    (Some (fun _ _ buf size => modify (upd_mem (<[buf := 0]>));; mret size)) (Some (fun _ _ _ _ => mret 1)).

#[export] Instance zero_driver dev : Driver zero_ops dev (fun _ _ _ => True).
Proof.
  split; intros; try done; try (exists s; split_and!; done || apply driver_frame_refl).
  - exists (upd_mem (<[buf := 0]>) s), size. split_and!; try done. by apply driver_frame_same.
  - exists s, 1. split_and!; try done. apply driver_frame_refl.
Qed.

Definition zero_at (p : Z) : option sk_device_ops := if p =? 500 then Some zero_ops else None.

Lemma dev_state_inv ops n :
  dev_inv (fun p => if p =? 500 then Some ops else None) ops 1000 (fun _ _ _ => True) n 0 dev_state.
Proof.
  exists (mk_device 0 0 0 0 0 0 500 0). split; [split; try done|split; [done|split; [lia|lia]]].
  by exists 0.
Qed.

Definition a_dev_calls : list dev_call :=
  [DevClose; DevRead 0 100 4; DevOpen 3; DevRead 0 100 4; DevOpen 3; DevClose; DevWrite 0 100 4; DevClose;
   DevWrite 0 100 4].

Example a_dev_results :
  (fun r => if r is Done s rs then Some (rs, ks_mem s !! 100) else None) (run_calls zero_at 1000 a_dev_calls dev_state) =
  Some ([SK_ERROR; 0; SK_EOK; 4; SK_EOK; SK_EOK; 1; SK_EOK; 0], Some 0).
Proof. by vm_compute. Qed.

Lemma device_calls_follow_count_witness :
  exists s' rs, run_calls zero_at 1000 a_dev_calls dev_state = Done s' rs /\
    spec_calls zero_ops 1000 0 a_dev_calls dev_state = Done s' rs /\
    dev_inv zero_at zero_ops 1000 (fun _ _ _ => True) 5 0 s'.
Proof.
  apply (device_calls_follow_count zero_at zero_ops 1000 (fun _ _ _ => True) a_dev_calls 5 dev_state).
  - apply zero_driver.
  - apply dev_state_inv.
  - apply Nat.leb_le. by vm_compute.
Defined.

Lemma device_register_find_witness :
  ((exists o, o ∈ [1000] /\ [97] = [98]) /\ sk_device_register 2000 3000 7 dev_state = Done dev_state SK_ERROR) \/
  ((forall o : Z, o ∈ [1000] -> [97] <> [98]) /\
   exists s', sk_device_register 2000 3000 7 dev_state = Done s' SK_EOK /\
     ks_devices s' !! 2000 = Some (set_ref_cnt 0 (set_dev_flag 7 (mk_device 0 0 0 0 0 0 500 0))) /\
     sk_device_find 3000 s' = Done s' 2000 /\
     forall dev' flag', sk_device_register dev' 3000 flag' s' = Done s' SK_ERROR).
Proof.
  apply (device_register_find dev_lists dev_state [1000] (fun _ => [97]) 2000 (mk_object 0 0)).
  - apply dev_state_rep.
  - by vm_compute.
  - intros o ->%list_elem_of_singleton. rewrite cstr_cons, cstr_nil. vm_compute. intuition (congruence || lia).
  - done.
  - rewrite cstr_cons, cstr_nil. vm_compute. intuition congruence.
  - simpl. lia.
  - unfold name_apart, SK_NAME_MAX. lia.
  - done.
  - by vm_compute.
  - by vm_compute.
  - apply (bool_decide_unpack _). by vm_compute.
  - eexists. by vm_compute.
Defined.
