(* ===== verification/Console.v ===== *)
(** * Console output: [src/driver/serial/console.c]

    The conversion of numbers ([skip_atoi], [sk_itoa]), the formatter
    [sk_vsprintf] over the byte memory, and [sk_kprintf], which formats into a
    static buffer and writes it to the console device. *)

From S2P Require Import Prelude BaseDef KList Slab IoDef Kernel Sched KObj Device.

Local Open Scope c_scope.

(** ** Numbers *)

(** [while(SK_ISDIGIT( **s)) i = i * 10 + *(( *s)++) - '0';] returns [i] and the
    advanced pointer; the memory's size bounds the digits of a string. *)
Fixpoint skip_atoi_loop (fuel : nat) (i s : Z) (m : mem) : Z * Z :=
  match fuel with
  | O => (i, s)
  | S fuel => if SK_ISDIGIT m.[s] then skip_atoi_loop fuel (u64 (i * 10 + m.[s] - 48)) (s + 1) m
              else (i, s)
  end.

Definition skip_atoi (s : Z) (m : mem) : Z * Z := skip_atoi_loop (S (size m)) 0 s m.

(** [(rem > 9) ? (rem - 10) + 'a' : rem + '0'], stored in a [char]. *)
Definition digit_char (rem : Z) : Z := u8 (if 9 <? rem then u32 (rem - 10 + 97) else u32 (rem + 48)).

(** [while(num != 0)]: the remainder is truncated and kept in an unsigned word. *)
Fixpoint itoa_digits (fuel : nat) (num base i str : Z) (m : mem) : Z * mem :=
  match fuel with
  | O => (i, m)
  | S fuel =>
      if num =? 0 then (i, m)
      else let rem := u32 (Z.rem num base) in
           itoa_digits fuel (Z.quot num base) base (u32 (i + 1)) str (<[str + i := digit_char rem]> m)
  end.

(** [while(start < end)] *)
Fixpoint itoa_reverse (fuel : nat) (start end_ str : Z) (m : mem) : mem :=
  match fuel with
  | O => m
  | S fuel =>
      if start <? end_ then
        let temp := m.[str + start] in
        let m := <[str + start := m.[str + end_]]> m in
        let m := <[str + end_ := temp]> m in
        itoa_reverse fuel (u32 (start + 1)) (u32 (end_ - 1)) str m
      else m
  end.

(** An [int] has at most 32 digits in any base, and the reversal takes half as
    many rounds. *)
Definition itoa_fuel : nat := 33.

Definition sk_itoa (num str base : Z) (m : mem) : mem :=
  if num =? 0 then <[str + 1 := 0]> (<[str := 48]> m)
  else
    let is_negative := (num <? 0) && (base =? 10) in
    let num := if is_negative then s32 (- num) else num in
    let '(i, m) := itoa_digits itoa_fuel num base 0 str m in
    let '(i, m) := if is_negative then (u32 (i + 1), <[str + i := 45]> m) else (i, m) in
    let m := <[str + i := 0]> m in
    itoa_reverse itoa_fuel 0 (u32 (i - 1)) str m.

(** *** What a numeral is *)

Definition digit_value (c : Z) : Z := if c <? 97 then c - 48 else c - 97 + 10.

Definition is_digit (base c : Z) : Prop :=
  (48 <= c < 58 \/ 97 <= c < 123) /\ 0 <= digit_value c < base.

(** The value of a string of digits, the most significant first. *)
Definition numeral_value (base : Z) (cs : list Z) : Z :=
  foldl (fun v c => v * base + digit_value c) 0 cs.

(** [cs] is the numeral of [n]: digits only, no leading zero but in the numeral
    of zero, and its value is [n]. *)
Definition numeral (base : Z) (cs : list Z) (n : Z) : Prop :=
  Forall (is_digit base) cs /\ (cs = [48] \/ exists c l, cs = c :: l /\ c <> 48) /\
  numeral_value base cs = n.

(** The digits of [n], the least significant first. *)
Fixpoint le_digits (fuel : nat) (base n : Z) : list Z :=
  match fuel with
  | O => []
  | S fuel => if n =? 0 then [] else digit_char (n mod base) :: le_digits fuel base (n / base)
  end.

Definition show_num (base n : Z) : list Z :=
  if n =? 0 then [48]
  else (if n <? 0 then [45] else []) ++ reverse (le_digits itoa_fuel base (Z.abs n)).

Lemma digit_char_small r : 0 <= r < 36 -> digit_char r = if 9 <? r then r + 87 else r + 48.
Proof.
  intros. unfold digit_char. rewrite !(uint_small 32) by (case_bool; lia).
  rewrite uint_small by (case_bool; lia). case_bool; lia.
Qed.

Lemma digit_char_ok base r : base <= 36 -> 0 <= r < base -> is_digit base (digit_char r) /\
  digit_value (digit_char r) = r /\ (digit_char r = 48 -> r = 0).
Proof.
  intros. rewrite digit_char_small by lia. unfold is_digit, digit_value. case_bool; lia.
Qed.

Lemma numeral_value_snoc base cs c :
  numeral_value base (cs ++ [c]) = numeral_value base cs * base + digit_value c.
Proof. unfold numeral_value. by rewrite foldl_app. Qed.

Lemma le_digits_numeral base fuel n :
  2 <= base <= 36 -> 0 < n < 2 ^ Z.of_nat fuel -> numeral base (reverse (le_digits fuel base n)) n.
Proof.
  intros Hb. revert n. induction fuel as [|fuel IH]; intros n Hn; [simpl in Hn; lia|].
  simpl. destruct (Z.eqb_spec n 0); [lia|]. rewrite reverse_cons.
  pose proof (Z.mod_pos_bound n base ltac:(lia)) as Hr.
  destruct (digit_char_ok base (n mod base) ltac:(lia) Hr) as (Hd & Hv & H48).
  destruct (decide (n / base = 0)) as [E|E].
  - replace (le_digits fuel base (n / base)) with (@nil Z) by (rewrite E; by destruct fuel).
    simpl. pose proof (Z.div_mod n base ltac:(lia)). split; [by apply Forall_singleton|]. split.
    + right. eexists _, []. split; [done|]. intros Hx. apply H48 in Hx. lia.
    + unfold numeral_value. simpl. rewrite Hv. lia.
  - destruct (IH (n / base)) as (Hall & Hhd & Hval).
    { split; [pose proof (Z.div_pos n base); lia|]. apply Z.div_lt_upper_bound; [lia|].
      rewrite Nat2Z.inj_succ, Z.pow_succ_r in Hn by lia. nia. }
    split; [apply Forall_app; split; [done|by apply Forall_singleton]|]. split.
    + destruct Hhd as [Hz|(c & l & -> & Hc)]; [|right; by exists c, (l ++ [digit_char (n mod base)])].
      exfalso. rewrite Hz in Hval. unfold numeral_value, digit_value in Hval. simpl in Hval. lia.
    + rewrite numeral_value_snoc, Hval, Hv. pose proof (Z.div_mod n base ltac:(lia)). lia.
Qed.

Lemma length_le_digits base fuel k n :
  2 <= base -> 0 <= n < base ^ Z.of_nat k -> (length (le_digits fuel base n) <= k)%nat.
Proof.
  intros Hb. revert k n. induction fuel as [|fuel IH]; intros k n Hn; simpl; [lia|].
  destruct (Z.eqb_spec n 0); simpl; [lia|]. destruct k as [|k]; [simpl in Hn; lia|].
  apply le_n_S, IH. rewrite Nat2Z.inj_succ, Z.pow_succ_r in Hn by lia.
  split; [apply Z.div_pos; lia|apply Z.div_lt_upper_bound; lia].
Qed.

Lemma le_digits_nonempty fuel base n : n <> 0 -> (0 < length (le_digits (S fuel) base n))%nat.
Proof. intros Hn. simpl. destruct (Z.eqb_spec n 0); simpl; lia. Qed.

(** *** The conversion *)

(** Stores of [l] from [a] on change nothing else. *)
Definition same_outside (lo hi : Z) (m m' : mem) : Prop :=
  forall a, ~ (lo <= a < hi) -> m'.[a] = m.[a].

Lemma itoa_digits_spec base str fuel : 2 <= base <= 36 -> forall num i m,
  0 <= num < 2 ^ 31 -> 0 <= i -> i + Z.of_nat fuel < 2 ^ 32 ->
  let l := le_digits fuel base num in
  exists m', itoa_digits fuel num base i str m = (i + Z.of_nat (length l), m') /\
    (forall k c, l !! k = Some c -> m'.[str + i + Z.of_nat k] = c) /\
    same_outside (str + i) (str + i + Z.of_nat (length l)) m m'.
Proof.
  intros Hb. induction fuel as [|fuel IH]; intros num i m Hn Hi Hf l.
  { exists m. simpl. rewrite Z.add_0_r. done. }
  simpl in l. subst l. simpl itoa_digits.
  destruct (Z.eqb_spec num 0) as [->|Hne].
  { exists m. simpl. rewrite Z.add_0_r. done. }
  rewrite Z.rem_mod_nonneg, Z.quot_div_nonneg by lia.
  pose proof (Z.mod_pos_bound num base ltac:(lia)).
  rewrite (uint_small 32 (num mod base)), (uint_small 32 (i + 1)) by lia.
  destruct (IH (num / base) (i + 1) (<[str + i := digit_char (num mod base)]> m)) as (m' & E & Hl & Ho).
  { split; [apply Z.div_pos; lia|]. apply Z.div_lt_upper_bound; nia. }
  { lia. } { lia. }
  exists m'. rewrite E. split; [f_equal; simpl; lia|]. split.
  - intros [|k] c Hc; simpl in Hc.
    + simplify_eq. rewrite Ho by lia. rewrite mget_insert, decide_True by lia. done.
    + rewrite <- (Hl k c Hc). f_equal. lia.
  - intros a Ha. simpl in Ha. rewrite Ho by lia. by rewrite mget_insert, decide_False by lia.
Qed.

Lemma itoa_reverse_spec str fuel : forall start end_ m a,
  0 <= start -> end_ < 2 ^ 31 -> start <= end_ + 1 -> end_ - start <= 2 * Z.of_nat fuel ->
  (itoa_reverse fuel start end_ str m).[a] =
    if decide (str + start <= a <= str + end_) then m.[str + start + (str + end_ - a)] else m.[a].
Proof.
  induction fuel as [|fuel IH]; intros start end_ m a Hs He Hle Hf; simpl.
  - case_decide; [|done]. f_equal. lia.
  - destruct (Z.ltb_spec start end_).
    + rewrite !(uint_small 32) by lia. rewrite IH by lia. rewrite !mget_insert.
      repeat case_decide; try lia; try done; f_equal; lia.
    + case_decide; [|done]. f_equal. lia.
Qed.

Lemma le_digits_chars base fuel n :
  2 <= base <= 36 -> 0 <= n -> Forall (fun c => 0 < c < 256) (le_digits fuel base n).
Proof.
  intros Hb. revert n. induction fuel as [|fuel IH]; intros n Hn; simpl; [constructor|].
  destruct (Z.eqb_spec n 0); [constructor|]. constructor; [|by apply IH, Z.div_pos; lia].
  pose proof (Z.mod_pos_bound n base ltac:(lia)) as Hr.
  destruct (digit_char_ok base (n mod base) ltac:(lia) Hr) as ([Hd _] & _). lia.
Qed.

#[local] Arguments le_digits : simpl never.

(** A string stored backwards and terminated, after the reversal. *)
Lemma itoa_finish str l m :
  (0 < length l <= 33)%nat -> Forall (fun c => 0 < c < 256) l ->
  (forall k c, l !! k = Some c -> m.[str + Z.of_nat k] = c) ->
  let n := Z.of_nat (length l) in
  let m' := itoa_reverse itoa_fuel 0 (u32 (n - 1)) str (<[str + n := 0]> m) in
  cstr m' str (reverse l) /\ same_outside str (str + n + 1) m m'.
Proof.
  intros Hlen Hch Hl n m'.
  assert (forall a, m'.[a] = if decide (str <= a <= str + n - 1) then m.[str + (str + n - 1 - a)]
    else if decide (a = str + n) then 0 else m.[a]) as Hm.
  { intros a. unfold m'. rewrite (uint_small 32) by lia. rewrite itoa_reverse_spec by (unfold itoa_fuel; lia).
    rewrite !mget_insert. repeat case_decide; try lia; try done; f_equal; lia. }
  split; [split; [by apply Forall_reverse|split]|].
  - intros i c Hi. pose proof (lookup_lt_Some _ _ _ Hi) as Hlt. rewrite length_reverse in Hlt.
    rewrite reverse_lookup in Hi by lia. rewrite Hm, decide_True by lia.
    rewrite <- (Hl _ _ Hi). f_equal. lia.
  - rewrite length_reverse, Hm, decide_False, decide_True by lia. done.
  - intros a Ha. by rewrite Hm, !decide_False by lia.
Qed.

(** [sk_itoa] writes the numeral and its terminator, and nothing else. *)
Lemma itoa_spec num str base m :
  2 <= base <= 36 -> (0 <= num < 2 ^ 31 \/ base = 10 /\ - 2 ^ 31 < num < 0) ->
  let cs := show_num base num in let m' := sk_itoa num str base m in
  cstr m' str cs /\ same_outside str (str + Z.of_nat (length cs) + 1) m m'.
Proof.
  intros Hb Hn cs m'. unfold cs, m', show_num, sk_itoa. destruct (Z.eqb_spec num 0) as [->|Hne].
  { split.
    - rewrite cstr_cons, cstr_nil, !mget_insert. repeat case_decide; try lia; done.
    - intros a Ha. simpl in Ha. rewrite !mget_insert, !decide_False by lia. done. }
  assert (((num <? 0) && (base =? 10)) = (num <? 0)) as ->.
  { destruct (Z.ltb_spec num 0); [|done]. destruct Hn as [|[-> _]]; [lia|done]. }
  replace (if num <? 0 then s32 (- num) else num) with (Z.abs num)
    by (destruct (Z.ltb_spec num 0); rewrite ?sint_small by lia; lia).
  destruct (itoa_digits_spec base str itoa_fuel Hb (Z.abs num) 0 m) as (m1 & E & Hl & Ho);
    [lia|lia|unfold itoa_fuel; lia|].
  set (l := le_digits itoa_fuel base (Z.abs num)) in *. rewrite E. rewrite Z.add_0_l, !Z.add_0_r in *.
  assert (Forall (fun c => 0 < c < 256) l) as Hch by (apply le_digits_chars; lia).
  assert ((0 < length l <= 32)%nat) as Hlen.
  { split.
    - apply le_digits_nonempty. lia.
    - apply length_le_digits; [lia|]. split; [lia|]. apply (Z.lt_le_trans _ (2 ^ 32)); [lia|].
      apply Z.pow_le_mono_l. lia. }
  destruct (Z.ltb_spec num 0) as [Hneg|Hpos].
  - destruct (itoa_finish str (l ++ [45]) (<[str + Z.of_nat (length l) := 45]> m1)) as [Hc Hs].
    { rewrite length_app. simpl. lia. }
    { apply Forall_app. split; [done|]. apply Forall_singleton. lia. }
    { intros k c Hk. rewrite mget_insert. apply lookup_app_Some in Hk as [Hk|[Hge Hk]].
      - pose proof (lookup_lt_Some _ _ _ Hk). rewrite decide_False by lia. by apply Hl.
      - apply list_lookup_singleton_Some in Hk as [? <-]. by rewrite decide_True by lia. }
    rewrite length_app, Nat2Z.inj_add in Hc, Hs. simpl (Z.of_nat (length [45])) in Hc, Hs.
    rewrite reverse_snoc in Hc. rewrite (uint_small 32 (_ + 1)) by lia. split; [exact Hc|].
    intros a Ha. simpl in Ha. rewrite length_reverse in Ha. rewrite Hs by lia.
    rewrite mget_insert, decide_False by lia. apply Ho. lia.
  - destruct (itoa_finish str l m1) as [Hc Hs]; [lia|done|done|]. simpl app. split; [exact Hc|].
    intros a Ha. rewrite length_reverse in Ha. rewrite Hs by lia. apply Ho. lia.
Qed.

Lemma show_num_numeral base n :
  2 <= base <= 36 -> 0 <= n < 2 ^ 31 -> numeral base (show_num base n) n.
Proof.
  intros Hb Hn. unfold show_num. destruct (Z.eqb_spec n 0) as [->|Hne].
  { split; [apply Forall_singleton; unfold is_digit, digit_value; simpl; lia|].
    split; [by left|done]. }
  replace (n <? 0) with false by lia. rewrite Z.abs_eq by lia.
  apply le_digits_numeral; [lia|]. unfold itoa_fuel. lia.
Qed.

Lemma show_num_neg base n :
  - 2 ^ 31 < n < 0 -> show_num base n = 45 :: show_num base (- n).
Proof.
  intros Hn. unfold show_num. rewrite !(proj2 (Z.eqb_neq _ _)) by lia.
  replace (n <? 0) with true by lia. replace (- n <? 0) with false by lia. by rewrite Z.abs_opp.
Qed.

(** Sign and digits of an [int] are no more than 11 characters. *)
Lemma length_show_dec base n :
  10 <= base <= 36 -> - 2 ^ 31 < n < 2 ^ 31 -> (length (show_num base n) <= 11)%nat.
Proof.
  intros Hb Hn. unfold show_num. case_bool; simpl; [lia| |];
    rewrite length_reverse; (apply le_n_S || apply le_S); apply length_le_digits; try lia;
    (split; [lia|]; apply (Z.lt_le_trans _ (10 ^ 10)); [lia|]; apply Z.pow_le_mono_l; lia).
Qed.

(** *** Reading a number back *)

Lemma u64_step i c : u64 (u64 i * 10 + c - 48) = u64 (i * 10 + (c - 48)).
Proof.
  unfold sk_uint. rewrite <- Z.add_sub_assoc.
  rewrite Z.add_mod, Z.mul_mod_idemp_l, <- Z.add_mod by lia. done.
Qed.

Lemma skip_atoi_loop_spec m cs : forall fuel i s,
  Forall (is_digit 10) cs -> cstr m s cs -> (length cs < fuel)%nat ->
  skip_atoi_loop fuel (u64 i) s m =
    (u64 (foldl (fun v c => v * 10 + digit_value c) i cs), s + Z.of_nat (length cs)).
Proof.
  induction cs as [|c cs IH]; intros [|fuel] i s Hd Hc Hf; simpl in Hf; try lia; cstr_step; simpl.
  - rewrite Hc. change (SK_ISDIGIT 0) with false. f_equal. lia.
  - apply Forall_cons in Hd as [Hd Hds]. subst c.
    assert (48 <= m.[s] < 58 /\ digit_value m.[s] = m.[s] - 48) as [Hr Hv]
      by (unfold is_digit, digit_value in *; revert Hd; case_bool; lia).
    replace (SK_ISDIGIT m.[s]) with true
      by (unfold SK_ISDIGIT; rewrite uint_small by lia; lia).
    rewrite u64_step, IH by (done || lia). rewrite Hv. f_equal. lia.
Qed.

Lemma skip_atoi_spec m s cs n :
  numeral 10 cs n -> cstr m s cs -> 0 <= n < 2 ^ 64 -> skip_atoi s m = (n, s + Z.of_nat (length cs)).
Proof.
  intros (Hd & _ & Hv) Hc Hn. unfold skip_atoi. change 0 with (u64 0) at 1.
  rewrite (skip_atoi_loop_spec m cs) by (done || pose proof (cstr_fits _ _ _ Hc); lia).
  fold (numeral_value 10 cs). by rewrite Hv, uint_small.
Qed.

(** ** The formatter *)

(** One conversion of the loop body: [c] is the character after the percent
    sign.  Returns the end of the output, the arguments that remain and the
    memory; a conversion without an argument reads past the list, [None]. *)
Definition vsprintf_conv (temp c str : Z) (args : list Z) (m : mem) : option (Z * list Z * mem) :=
  let number base :=
    match args with
    | [] => None
    | v :: args =>
        let m := sk_itoa (s32 v) temp base m in
        let m := sk_strcpy str temp m in
        Some (str + sk_strlen temp m, args, m)
    end in
  if c =? 100 then number 10
  else if c =? 120 then number 16
  else if c =? 115 then
    match args with
    | [] => None
    | val :: args => let m := sk_strcpy str val m in Some (str + sk_strlen val m, args, m)
    end
  else if c =? 99 then
    match args with
    | [] => None
    | val :: args => Some (str + 1, args, <[str := u8 val]> m)
    end
  else Some (str + 2, args, <[str + 1 := c]> (<[str := 37]> m)).

Fixpoint vsprintf_loop (fuel : nat) (temp p str : Z) (args : list Z) (m : mem) : option (Z * mem) :=
  match fuel with
  | O => None
  | S fuel =>
      if m.[p] =? 0 then Some (str, <[str := 0]> m)
      else if (m.[p] =? 37) && negb (m.[p + 1] =? 0) then
        '(str, args, m) ← vsprintf_conv temp m.[p + 1] str args m;
        vsprintf_loop fuel temp (p + 1 + 1) str args m
      else vsprintf_loop fuel temp (p + 1) (str + 1) args (<[str := m.[p]]> m)
  end.

(** [temp] is the address of the local buffer of 32 bytes.  A round of the loop
    consumes a character of the format, so its length is fuel enough. *)
Definition sk_vsprintf (temp buf fmt : Z) (args : list Z) (m : mem) : option (Z * mem) :=
  '(str, m) ← vsprintf_loop (S (Z.to_nat (sk_strlen fmt m))) temp fmt buf args m;
  Some (u64 (str - buf), m).

(** *** What a format means *)

(** An argument: a number, or a pointer to a string with its characters. *)
Inductive fmt_arg := AInt (v : Z) | AStr (a : Z) (l : list Z).

Definition raw_arg (x : fmt_arg) : Z := match x with AInt v => v | AStr a _ => a end.

(** The numbers [sk_itoa] prints: not [INT_MIN], and no negative hexadecimals. *)
Definition printable (base v : Z) : bool :=
  if base =? 10 then - 2 ^ 31 <? s32 v else 0 <=? s32 v.

Definition render_conv (c : Z) (args : list fmt_arg) : option (list Z * list fmt_arg) :=
  let number base :=
    match args with
    | AInt v :: args => if printable base v then Some (show_num base (s32 v), args) else None
    | _ => None
    end in
  if c =? 100 then number 10
  else if c =? 120 then number 16
  else if c =? 115 then match args with AStr _ l :: args => Some (l, args) | _ => None end
  else if c =? 99 then match args with AInt v :: args => Some ([u8 v], args) | _ => None end
  else Some ([37; c], args).

(** The text of a format: conversions consume the arguments in order, a percent
    sign at the end and any other character stand for themselves. *)
Fixpoint render (fmt : list Z) (args : list fmt_arg) : option (list Z) :=
  match fmt with
  | [] => Some []
  | c :: rest =>
      if c =? 37 then
        match rest with
        | [] => Some [37]
        | d :: rest =>
            '(out, args) ← render_conv d args; tl ← render rest args; Some (out ++ tl)
        end
      else tl ← render rest args; Some (c :: tl)
  end.

Lemma cstr_ext m m' a l :
  cstr m a l -> (forall i, 0 <= i <= Z.of_nat (length l) -> m'.[a + i] = m.[a + i]) -> cstr m' a l.
Proof.
  intros (Hl & Hi & He) H. split; [done|]. split.
  - intros i c Hc. pose proof (lookup_lt_Some _ _ _ Hc). rewrite H by lia. by apply Hi.
  - by rewrite H by lia.
Qed.

Lemma strcpy_loop_spec l : forall fuel dest src m,
  cstr m src l -> (length l < fuel)%nat ->
  (dest + Z.of_nat (length l) < src \/ src + Z.of_nat (length l) < dest) ->
  let m' := strcpy_loop fuel dest src m in
  cstr m' dest l /\ same_outside dest (dest + Z.of_nat (length l) + 1) m m'.
Proof.
  induction l as [|c l IH]; intros [|fuel] dest src m Hc Hf Hd; simpl in Hf; try lia; cstr_step; simpl.
  - rewrite Hc. simpl. rewrite cstr_nil, mget_insert, decide_True by done. split; [done|].
    intros a Ha. by rewrite mget_insert, decide_False by lia.
  - simpl length in Hd. destruct (Z.eqb_spec m.[src] 0); [lia|].
    destruct (IH fuel (dest + 1) (src + 1) (<[dest := m.[src]]> m)) as [Hc' Ho]; [|lia|lia|].
    { eapply cstr_ext; [exact Hc|]. intros i Hi. by rewrite mget_insert, decide_False by lia. }
    split.
    + rewrite cstr_cons. split_and!; try done; try lia. rewrite Ho by lia.
      rewrite mget_insert, decide_True by done. done.
    + intros a Ha. rewrite Ho by lia. by rewrite mget_insert, decide_False by lia.
Qed.

Lemma strcpy_spec dest src l m :
  cstr m src l -> (dest + Z.of_nat (length l) < src \/ src + Z.of_nat (length l) < dest) ->
  let m' := sk_strcpy dest src m in
  cstr m' dest l /\ same_outside dest (dest + Z.of_nat (length l) + 1) m m'.
Proof.
  intros Hc Hd. apply strcpy_loop_spec; [done| |done]. pose proof (cstr_fits _ _ _ Hc). lia.
Qed.

(** *** The formatter writes the text

    [R] holds of the bytes the formatter reads, the format and the string
    arguments; they are apart from [temp] and from the output area. *)
Section formatter.
Context (R : Z -> Prop) (temp lo hi : Z).
Context (R_temp : forall a, R a -> ~ (temp <= a < temp + 32))
  (R_out : forall a, R a -> ~ (lo <= a <= hi))
  (temp_out : temp + 32 <= lo \/ hi < temp).

(** The string [l] at [a] is among the bytes read. *)
Definition rstr (m : mem) (a : Z) (l : list Z) : Prop :=
  cstr m a l /\ forall i, 0 <= i <= Z.of_nat (length l) -> R (a + i).

Definition arg_ok (m : mem) (x : fmt_arg) : Prop :=
  match x with AInt _ => True | AStr a l => rstr m a l end.

(** The formatter writes to [temp] and to the output up to [str + n]. *)
Definition out_frame (str n : Z) (m m' : mem) : Prop :=
  forall a, ~ (temp <= a < temp + 32) -> ~ (str <= a <= str + n) -> m'.[a] = m.[a].

Lemma rstr_frame str n m m' a l :
  lo <= str -> str + n <= hi -> out_frame str n m m' -> rstr m a l -> rstr m' a l.
Proof.
  intros Hlo Hhi Hf [Hc HR]. split; [|done]. eapply cstr_ext; [done|]. intros i Hi.
  pose proof (R_temp _ (HR i Hi)). pose proof (R_out _ (HR i Hi)). apply Hf; [done|lia].
Qed.

Lemma args_frame str n m m' args :
  lo <= str -> str + n <= hi -> out_frame str n m m' ->
  Forall (arg_ok m) args -> Forall (arg_ok m') args.
Proof.
  intros Hlo Hhi Hf Ha. apply (Forall_impl _ _ _ Ha). intros [v|a l]; [done|]. by eapply rstr_frame.
Qed.

Lemma cstr_bytes m a l : cstr m a l -> bytes m a (Z.of_nat (length l)) = l.
Proof.
  intros (_ & Hi & _). apply list_eq. intros i. destruct (decide (i < length l)%nat).
  - rewrite bytes_lookup by lia. destruct (lookup_lt_is_Some_2 l i) as [c Hc]; [done|].
    by rewrite Hc, (Hi i c Hc).
  - rewrite !lookup_ge_None_2; [done|lia|]. rewrite length_bytes. lia.
Qed.

(** A converted string [l] reaches the output through [sk_strcpy]. *)
Lemma copy_out str src l m m1 :
  cstr m1 src l -> lo <= str -> str + Z.of_nat (length l) <= hi ->
  (forall i, 0 <= i <= Z.of_nat (length l) -> ~ (lo <= src + i <= hi)) ->
  out_frame str 0 m m1 ->
  let m2 := sk_strcpy str src m1 in
  sk_strlen src m2 = Z.of_nat (length l) /\ bytes m2 str (Z.of_nat (length l)) = l /\
  out_frame str (Z.of_nat (length l)) m m2.
Proof.
  intros Hc Hlo Hhi Hap Hf m2.
  assert (str + Z.of_nat (length l) < src \/ src + Z.of_nat (length l) < str) as Hd.
  { destruct (decide (str + Z.of_nat (length l) < src)); [by left|].
    destruct (decide (src + Z.of_nat (length l) < str)); [by right|]. exfalso.
    destruct (decide (src < str)).
    - apply (Hap (str - src)); lia.
    - apply (Hap 0); lia. }
  destruct (strcpy_spec str src l m1 Hc Hd) as [Hc2 Ho]. fold m2 in Hc2, Ho. split_and!.
  - apply strlen_spec. eapply cstr_ext; [exact Hc|]. intros i Hi. apply Ho. lia.
  - by apply cstr_bytes.
  - intros a Ha Hb. rewrite Ho by lia. apply Hf; [done|lia].
Qed.

Lemma itoa_out_frame num base str m :
  (base = 10 \/ base = 16) -> (0 <= num < 2 ^ 31 \/ base = 10 /\ - 2 ^ 31 < num < 0) ->
  cstr (sk_itoa num temp base m) temp (show_num base num) /\ out_frame str 0 m (sk_itoa num temp base m) /\
  (length (show_num base num) <= 11)%nat.
Proof.
  intros Hb Hn. destruct (itoa_spec num temp base m ltac:(lia) Hn) as [Hc Hs].
  pose proof (length_show_dec base num ltac:(lia) ltac:(lia)) as Hlen.
  split_and!; [done| |done]. intros a Ha _. apply Hs. lia.
Qed.

(** One conversion. *)
Lemma conv_spec c str args out rest m :
  render_conv c args = Some (out, rest) -> Forall (arg_ok m) args ->
  lo <= str -> str + Z.of_nat (length out) <= hi ->
  exists m', vsprintf_conv temp c str (raw_arg <$> args) m =
      Some (str + Z.of_nat (length out), raw_arg <$> rest, m') /\
    bytes m' str (Z.of_nat (length out)) = out /\ Forall (arg_ok m') rest /\
    out_frame str (Z.of_nat (length out)) m m'.
Proof.
  intros Hr Hargs Hlo Hhi. unfold render_conv in Hr. unfold vsprintf_conv.
  assert (forall base, (base = 10 \/ base = 16) ->
    match args with
    | AInt v :: args => if printable base v then Some (show_num base (s32 v), args) else None
    | _ => None
    end = Some (out, rest) ->
    exists m', match raw_arg <$> args with
      | [] => None
      | v :: args => let m := sk_itoa (s32 v) temp base m in
          let m := sk_strcpy str temp m in Some (str + sk_strlen temp m, args, m)
      end = Some (str + Z.of_nat (length out), raw_arg <$> rest, m') /\
    bytes m' str (Z.of_nat (length out)) = out /\ Forall (arg_ok m') rest /\
    out_frame str (Z.of_nat (length out)) m m') as Hnum.
  { clear Hr. intros base Hb Hr. destruct args as [|[v|]args]; try done.
    destruct (printable base v) eqn:Hp; [|done]. simplify_eq. apply Forall_cons in Hargs as [_ Hargs].
    pose proof (s32_range v).
    destruct (itoa_out_frame (s32 v) base str m Hb) as (Hc & Hf & Hlen).
    { unfold printable in Hp. destruct Hb as [-> | ->]; simpl in Hp; lia. }
    destruct (copy_out str temp _ m _ Hc Hlo Hhi) as (Hsl & Hby & Hf'); [lia|done|].
    eexists. simpl. rewrite Hsl. split; [done|]. split_and!; [done| |done]. by eapply args_frame. }
  destruct (c =? 100); [by apply Hnum; auto|]. destruct (c =? 120); [by apply Hnum; auto|].
  destruct (c =? 115).
  - destruct args as [|[|a l]args]; try done. simplify_eq. apply Forall_cons in Hargs as [[Hc HR] Hargs].
    destruct (copy_out str a _ m m Hc Hlo Hhi) as (Hsl & Hby & Hf').
    { intros i Hi. by apply R_out, HR. } { by intros x _ _. }
    eexists. simpl. rewrite Hsl. split; [done|]. split_and!; [done| |done]. by eapply args_frame.
  - destruct (c =? 99).
    + destruct args as [|[v|]args]; try done. simplify_eq. apply Forall_cons in Hargs as [_ Hargs].
      assert (out_frame str 1 m (<[str := u8 v]> m)) as Hf
        by (intros a _ Ha; by rewrite mget_insert, decide_False by lia).
      eexists. split; [done|]. split; [|split; [by eapply args_frame|done]].
      unfold bytes. simpl. by rewrite Z.add_0_r, mget_insert, decide_True.
    + simplify_eq. assert (out_frame str 2 m (<[str + 1 := c]> (<[str := 37]> m))) as Hf
        by (intros a _ Ha; by rewrite !mget_insert, !decide_False by lia).
      eexists. split; [done|]. split; [|split; [by eapply args_frame|done]].
      unfold bytes. change (seqZ 0 _) with [0; 1]. simpl. rewrite !mget_insert.
      repeat case_decide; lia || done.
Qed.

Lemma bytes_split m str n l1 l2 :
  bytes m str (Z.of_nat (length l1)) = l1 ->
  bytes m (str + Z.of_nat (length l1)) (Z.of_nat (length l2)) = l2 ->
  n = Z.of_nat (length (l1 ++ l2)) -> bytes m str n = l1 ++ l2.
Proof. intros H1 H2 ->. rewrite length_app, Nat2Z.inj_add, bytes_app, H1, H2 by lia. done. Qed.

(** Later output leaves earlier output alone. *)
Lemma bytes_kept str n k m m' :
  lo <= str -> 0 <= k -> str + n + k <= hi -> out_frame (str + n) k m m' ->
  bytes m' str n = bytes m str n.
Proof. intros. apply bytes_ext. intros i Hi. apply H2; lia. Qed.

Lemma frame_trans str n k m m1 m2 :
  0 <= n -> 0 <= k -> out_frame str n m m1 -> out_frame (str + n) k m1 m2 -> out_frame str (n + k) m m2.
Proof. intros Hn Hk H1 H2 a Ha Hb. rewrite H2 by lia. apply H1; [done|lia]. Qed.

Lemma rstr_cons m p c l : rstr m p (c :: l) <-> 0 < c < 256 /\ m.[p] = c /\ R p /\ rstr m (p + 1) l.
Proof.
  unfold rstr. rewrite cstr_cons. simpl length. split.
  - intros ((Hc & Hp & Hl) & HR). split_and!; try done; try lia.
    + rewrite <- (Z.add_0_r p). apply HR. lia.
    + intros i Hi. replace (p + 1 + i) with (p + (i + 1)) by lia. apply HR. lia.
  - intros (Hc & Hp & HRp & Hl & HR). split; [done|]. intros i Hi.
    destruct (decide (i = 0)) as [->|]; [by rewrite Z.add_0_r|].
    replace (p + i) with (p + 1 + (i - 1)) by lia. apply HR. lia.
Qed.

Lemma vsprintf_loop_spec fuel : forall fmt args out p str m,
  (length fmt < fuel)%nat -> rstr m p fmt -> Forall (arg_ok m) args ->
  render fmt args = Some out -> lo <= str -> str + Z.of_nat (length out) <= hi ->
  exists m', vsprintf_loop fuel temp p str (raw_arg <$> args) m = Some (str + Z.of_nat (length out), m') /\
    bytes m' str (Z.of_nat (length out)) = out /\ m'.[str + Z.of_nat (length out)] = 0 /\
    out_frame str (Z.of_nat (length out)) m m'.
Proof.
  induction fuel as [|fuel IH]; intros fmt args out p str m Hf Hfmt Hargs Hr Hlo Hhi; [lia|].
  destruct fmt as [|c fmt].
  { simpl in Hr. simplify_eq. destruct Hfmt as [Hc _]. apply cstr_nil in Hc. exists (<[str := 0]> m).
    simpl. rewrite Hc. simpl. rewrite Z.add_0_r. split_and!; [done|done| |].
    - by rewrite mget_insert, decide_True.
    - intros a _ Ha. by rewrite mget_insert, decide_False by lia. }
  apply rstr_cons in Hfmt as (Hc & Hp & HRp & Hfmt). simpl vsprintf_loop.
  rewrite Hp. destruct (Z.eqb_spec c 0) as [|_]; [lia|].
  assert (forall tl, render fmt args = Some tl -> out = c :: tl ->
    exists m', vsprintf_loop fuel temp (p + 1) (str + 1) (raw_arg <$> args) (<[str := c]> m) =
        Some (str + Z.of_nat (length out), m') /\
      bytes m' str (Z.of_nat (length out)) = out /\ m'.[str + Z.of_nat (length out)] = 0 /\
      out_frame str (Z.of_nat (length out)) m m') as Hplain.
  { intros tl Htl ->. simpl length in *. rewrite Nat2Z.inj_succ in *.
    assert (out_frame str 0 m (<[str := c]> m)) as Hf1
      by (intros a _ Ha; by rewrite mget_insert, decide_False by lia).
    destruct (IH fmt args tl (p + 1) (str + 1) (<[str := c]> m)) as (m' & E & Hby & H0 & Hf2);
      [lia|by eapply (rstr_frame str 0); [lia..| |]|by eapply (args_frame str 0); [lia..| |]|done|lia|lia|].
    exists m'. replace (str + Z.succ (Z.of_nat (length tl))) with (str + 1 + Z.of_nat (length tl)) by lia.
    split_and!; [done| |done|].
    - apply (bytes_split m' str _ [c] tl); [|done|simpl; lia].
      simpl. unfold bytes. change (seqZ 0 _) with [0]. simpl. rewrite Z.add_0_r, Hf2 by lia.
      by rewrite mget_insert, decide_True.
    - intros a Ha Hb. rewrite Hf2 by lia. apply Hf1; [done|lia]. }
  destruct (Z.eqb_spec c 37) as [->|Hne]; simpl andb.
  2:{ simpl in Hr. rewrite (proj2 (Z.eqb_neq c 37) Hne) in Hr.
      destruct (render fmt args) as [tl|] eqn:Htl; [|done]. simpl in Hr. simplify_eq. by apply (Hplain tl). }
  destruct fmt as [|d fmt].
  { destruct Hfmt as [Hn _]. apply cstr_nil in Hn. rewrite Hn. simpl negb. cbv iota.
    simpl in Hr. simplify_eq. by apply (Hplain []). }
  apply rstr_cons in Hfmt as (Hd & Hpd & HRd & Hfmt). rewrite Hpd.
  destruct (Z.eqb_spec d 0) as [|_]; [lia|]. simpl negb. cbv iota. clear Hplain.
  change (render (37 :: d :: fmt) args) with
    ('(o, args) ← render_conv d args; tl ← render fmt args; Some (o ++ tl)) in Hr.
  destruct (render_conv d args) as [[o args']|] eqn:Hconv; [|done]. simpl in Hr.
  destruct (render fmt args') as [tl|] eqn:Htl; [|done]. simpl in Hr. injection Hr as <-.
  rewrite length_app, Nat2Z.inj_add in *.
  destruct (conv_spec d str args o args' m Hconv Hargs Hlo ltac:(lia)) as (m1 & E1 & Hb1 & Ha1 & Hf1).
  rewrite E1. simpl.
  destruct (IH fmt args' tl (p + 1 + 1) (str + Z.of_nat (length o)) m1) as (m2 & E2 & Hb2 & H02 & Hf2).
  { simpl in Hf. lia. } { eapply rstr_frame; [exact Hlo| |exact Hf1|exact Hfmt]. lia. }
  { done. } { done. } { lia. } { lia. }
  exists m2. rewrite Z.add_assoc. split_and!; [done| |done|].
  - apply (bytes_split _ _ _ o tl); [|done|rewrite length_app; lia].
    by rewrite (bytes_kept str _ (Z.of_nat (length tl)) m1 m2) by (done || lia).
  - apply (frame_trans _ _ _ m m1 m2); done || lia.
Qed.

End formatter.

(** The formatter on a whole format: the text, its terminator and nothing else. *)
Lemma vsprintf_spec R temp buf fmt f args out m :
  (forall a, R a -> ~ (temp <= a < temp + 32)) ->
  (forall a, R a -> ~ (buf <= a <= buf + Z.of_nat (length out))) ->
  temp + 32 <= buf \/ buf + Z.of_nat (length out) < temp ->
  rstr R m fmt f -> Forall (arg_ok R m) args -> render f args = Some out ->
  Z.of_nat (length out) < 2 ^ 64 ->
  exists m', sk_vsprintf temp buf fmt (raw_arg <$> args) m = Some (Z.of_nat (length out), m') /\
    bytes m' buf (Z.of_nat (length out)) = out /\ m'.[buf + Z.of_nat (length out)] = 0 /\
    out_frame temp buf (Z.of_nat (length out)) m m'.
Proof.
  intros HRt HRo Hto Hf Ha Hr Hlen. unfold sk_vsprintf. rewrite (strlen_spec m fmt f) by apply Hf.
  destruct (vsprintf_loop_spec R temp buf (buf + Z.of_nat (length out)) HRt HRo Hto
    (S (Z.to_nat (Z.of_nat (length f)))) f args out fmt buf m) as (m' & E & Hb & H0 & Hfr);
    [lia|done|done|done|lia|lia|].
  exists m'. rewrite E. simpl. rewrite uint_small by lia. split; [do 2 f_equal; lia|done].
Qed.

(** ** The console *)

Definition SK_CONSOLE_BUF_SIZE : Z := 128.

Definition console_device (s : kstate) : Z := io_console (ks_io s).

Section console.
Context (ops_at : Z -> option sk_device_ops).

Definition sk_console_set_device (name : Z) : M Z :=
  old_device ← gets console_device;
  new_device ← sk_device_find name;
  if new_device =? old_device then mret SK_NULL
  else
    when_ (negb (new_device =? SK_NULL))
     (console ← gets console_device;
      when_ (negb (console =? SK_NULL)) (sk_device_close ops_at console;; mret tt);;
      sk_device_open ops_at new_device SK_DEVICE_FLAG_RDWR;;
      modify (upd_io (set_io_console (fun _ => new_device))));;
    mret old_device.

Definition sk_console_get_device : M Z := gets console_device.

(** [sk_log_buf] is the static buffer, [temp] the local one of [sk_vsprintf]. *)
Definition sk_kprintf (sk_log_buf temp fmt : Z) (args : list Z) : M unit :=
  m ← gets ks_mem;
  '(length, m) ← lift_option (sk_vsprintf temp sk_log_buf fmt args m);
  modify (upd_mem (fun _ => m));;
  let length := if SK_CONSOLE_BUF_SIZE <? length then SK_CONSOLE_BUF_SIZE else length in
  console ← gets console_device;
  when_ (negb (console =? SK_NULL)) (sk_device_write ops_at console 0 sk_log_buf length;; mret tt).

(** What the console device is asked to write. *)
Lemma kprintf_calls_write R sk_log_buf temp fmt f args out s :
  (forall a, R a -> ~ (temp <= a < temp + 32)) ->
  (forall a, R a -> ~ (sk_log_buf <= a <= sk_log_buf + Z.of_nat (length out))) ->
  temp + 32 <= sk_log_buf \/ sk_log_buf + Z.of_nat (length out) < temp ->
  rstr R (ks_mem s) fmt f -> Forall (arg_ok R (ks_mem s)) args -> render f args = Some out ->
  Z.of_nat (length out) <= SK_CONSOLE_BUF_SIZE -> console_device s <> SK_NULL ->
  exists m', bytes m' sk_log_buf (Z.of_nat (length out)) = out /\
    out_frame temp sk_log_buf (Z.of_nat (length out)) (ks_mem s) m' /\
    sk_kprintf sk_log_buf temp fmt (raw_arg <$> args) s =
      (sk_device_write ops_at (console_device s) 0 sk_log_buf (Z.of_nat (length out));; mret tt)
        (upd_mem (fun _ => m') s).
Proof.
  intros HRt HRo Hto Hf Ha Hr Hlen Hc. unfold SK_CONSOLE_BUF_SIZE in Hlen.
  destruct (vsprintf_spec R temp sk_log_buf fmt f args out (ks_mem s)) as (m' & E & Hb & H0 & Hfr);
    [done..|lia|].
  exists m'. split; [done|]. split; [done|]. unfold sk_kprintf. erewrite bind_done by reflexivity.
  rewrite E. erewrite bind_done by reflexivity. cbv beta iota. erewrite bind_done by reflexivity.
  cbv zeta. replace (SK_CONSOLE_BUF_SIZE <? Z.of_nat (length out)) with false
    by (unfold SK_CONSOLE_BUF_SIZE; lia).
  erewrite bind_done by reflexivity. change (console_device (upd_mem _ s)) with (console_device s).
  by rewrite (proj2 (Z.eqb_neq _ _) Hc).
Qed.

End console.

(** ** Properties *)

(** [sk_itoa] in base 10 writes, for every [int] but the smallest, a minus
    sign if the number is negative, then the decimal numeral of its absolute
    value, then the terminator; nothing outside these at most 12 bytes changes,
    so that the 32 bytes of the caller are enough. *)
Theorem itoa_correct num str m :
  - 2 ^ 31 < num < 2 ^ 31 ->
  exists ds, numeral 10 ds (Z.abs num) /\
    cstr (sk_itoa num str 10 m) str ((if num <? 0 then [45] else []) ++ ds) /\
    (length ds <= 11)%nat /\
    forall a, ~ (str <= a < str + 12) -> (sk_itoa num str 10 m).[a] = m.[a].
Proof.
  intros Hn. exists (show_num 10 (Z.abs num)).
  destruct (itoa_spec num str 10 m ltac:(lia) ltac:(lia)) as [Hc Hs].
  pose proof (length_show_dec 10 num ltac:(lia) ltac:(lia)) as Hlen.
  split; [apply show_num_numeral; lia|]. split; [|split; [apply length_show_dec; lia|]].
  - destruct (Z.ltb_spec num 0).
    + rewrite show_num_neg in Hc by lia. by rewrite Z.abs_neq by lia.
    + by rewrite Z.abs_eq by lia.
  - intros a Ha. apply Hs. lia.
Qed.

(** [skip_atoi] reads back what [sk_itoa] wrote, and stops at its
    terminator. *)
Theorem atoi_itoa_roundtrip num str m :
  0 <= num < 2 ^ 31 ->
  let m' := sk_itoa num str 10 m in
  skip_atoi str m' = (num, str + sk_strlen str m') /\ m'.[str + sk_strlen str m'] = 0.
Proof.
  intros Hn m'. destruct (itoa_spec num str 10 m ltac:(lia) ltac:(lia)) as [Hc _]. fold m' in Hc.
  rewrite (strlen_spec _ _ _ Hc). split; [|by apply Hc].
  apply skip_atoi_spec; [apply show_num_numeral; lia|done|lia].
Qed.

(** C35: [sk_vsprintf] is equivalent to [render]: when the format and the string
    arguments are apart from the buffer and the local array, the buffer holds
    exactly the rendered text and its terminator, the length is returned, and
    nothing else but the local array changes. *)
Theorem vsprintf_correct R temp buf fmt f args out m :
  (forall a, R a -> ~ (temp <= a < temp + 32)) ->
  (forall a, R a -> ~ (buf <= a <= buf + Z.of_nat (length out))) ->
  temp + 32 <= buf \/ buf + Z.of_nat (length out) < temp ->
  rstr R m fmt f -> Forall (arg_ok R m) args -> render f args = Some out ->
  Z.of_nat (length out) < 2 ^ 64 ->
  exists m', sk_vsprintf temp buf fmt (raw_arg <$> args) m = Some (Z.of_nat (length out), m') /\
    bytes m' buf (Z.of_nat (length out)) = out /\ m'.[buf + Z.of_nat (length out)] = 0 /\
    forall a, ~ (temp <= a < temp + 32) -> ~ (buf <= a <= buf + Z.of_nat (length out)) ->
      m'.[a] = m.[a].
Proof. apply vsprintf_spec. Qed.

(** What [sk_itoa] makes of the smallest [int], whose negation is itself, and of
    a negative number in base 16: the remainders are negative and become other
    characters. *)
Theorem itoa_negative_remainders :
  bytes (sk_itoa (- 2 ^ 31) 0 10 ∅) 0 12 = [45; 85; 86; 83; 80; 83; 79; 84; 81; 83; 79; 0] /\
  bytes (sk_itoa (-1) 0 16 ∅) 0 2 = [86; 0].
Proof. by vm_compute. Qed.

(** ** A concrete format *)

Lemma itoa_correct_witness :
  exists ds, numeral 10 ds 4096 /\ cstr (sk_itoa (-4096) 700 10 ∅) 700 ([45] ++ ds) /\
    (length ds <= 11)%nat /\
    forall a, ~ (700 <= a < 700 + 12) -> (sk_itoa (-4096) 700 10 ∅).[a] = mget ∅ a.
Proof. apply (itoa_correct (-4096) 700 ∅). lia. Defined.

Lemma atoi_itoa_roundtrip_witness :
  let m' := sk_itoa 2147483647 700 10 ∅ in
  skip_atoi 700 m' = (2147483647, 700 + sk_strlen 700 m') /\ m'.[700 + sk_strlen 700 m'] = 0.
Proof. apply (atoi_itoa_roundtrip 2147483647 700 ∅). lia. Defined.

(** The format [a%d%s%%] with the arguments -7 and the string [bc] at 200. *)
Definition fmt_mem : mem :=
  list_to_map (zip (seqZ 100 8) [97; 37; 100; 37; 115; 37; 37; 0] ++ zip (seqZ 200 3) [98; 99; 0]).

Definition fmt_read (a : Z) : Prop := 100 <= a < 300.

Lemma fmt_str : rstr fmt_read fmt_mem 100 [97; 37; 100; 37; 115; 37; 37].
Proof.
  split; [rewrite !cstr_cons, cstr_nil; vm_compute; intuition congruence|].
  unfold fmt_read. simpl. intros. lia.
Qed.

Lemma fmt_args : Forall (arg_ok fmt_read fmt_mem) [AInt (-7); AStr 200 [98; 99]].
Proof.
  apply Forall_cons. split; [done|]. apply Forall_singleton.
  split; [rewrite !cstr_cons, cstr_nil; vm_compute; intuition congruence|].
  unfold fmt_read. simpl. intros. lia.
Qed.

Lemma vsprintf_correct_witness :
  exists m', sk_vsprintf 400 500 100 [-7; 200] fmt_mem = Some (7, m') /\
    bytes m' 500 7 = [97; 45; 55; 98; 99; 37; 37] /\ m'.[500 + 7] = 0 /\
    forall a, ~ (400 <= a < 400 + 32) -> ~ (500 <= a <= 500 + 7) -> m'.[a] = fmt_mem.[a].
Proof.
  apply (vsprintf_correct fmt_read 400 500 100 [97; 37; 100; 37; 115; 37; 37]
    [AInt (-7); AStr 200 [98; 99]] [97; 45; 55; 98; 99; 37; 37] fmt_mem).
  - unfold fmt_read. lia.
  - unfold fmt_read. simpl. lia.
  - lia.
  - apply fmt_str.
  - apply fmt_args.
  - by vm_compute.
  - simpl. lia.
Defined.
