(* ===== verification/Bus.v ===== *)
(** * Accesses to device and system registers

    [readl] and [writel] of [src/bsp/driver/drv_uart.c] and the macro [__REG32]
    of [src/include/kernel/hw.h] as accesses to the bus: every access is
    recorded, and a read is answered by the hardware. *)

From S2P Require Import Prelude BaseDef KList Slab IoDef Kernel.

Definition io_accesses (s : kstate) : list access := io_bus (ks_io s).
Definition upd_bus (g : list access -> list access) : kstate -> kstate := upd_io (set_io_bus g).

(** What happened on the bus, the oldest access first. *)
Definition record (x : access) : M unit := modify (upd_bus (fun b => b ++ [x])).

(** Loads and stores of 32 bits. *)
Definition readl (hw : hardware) (a : Z) : M Z := fun s =>
  let v := u32 (hw (io_accesses s) a) in Done (upd_bus (fun b => b ++ [BusRead a v]) s) v.

Definition writel (a data : Z) : M unit := record (BusWrite a (u32 data)).

(** The answers a piece of hardware gives to reads of system registers. *)
Definition mrs (r : sysreg) (v : Z) : M Z := record (Mrs r v);; mret v.
Definition msr (r : sysreg) (v : Z) : M unit := record (Msr r v).

Lemma upd_bus_twice g f s : upd_bus f (upd_bus g s) = upd_bus (fun b => f (g b)) s.
Proof. done. Qed.

(** Accesses in sequence are recorded in sequence. *)
Lemma upd_bus_app l l' s :
  upd_bus (fun b => b ++ l') (upd_bus (fun b => b ++ l) s) = upd_bus (fun b => b ++ l ++ l') s.
Proof.
  rewrite upd_bus_twice. unfold upd_bus, upd_io, set_io_bus. by rewrite app_assoc.
Qed.

Lemma upd_bus_nil s : upd_bus (fun b => b ++ []) s = s.
Proof.
  destruct s as [? ? ? ? ? ? ? ? ? ? ? ? ? ? ? ? ? ? ? []]. unfold upd_bus, upd_io, set_io_bus. simpl.
  by rewrite app_nil_r.
Qed.
