(* ===== verification/Serial.v ===== *)
(** * Serial devices: [src/driver/serial/serial.c]

    The framework between the device layer and a UART driver: a receive ring
    filled by the interrupt handler and read by threads, and a transmit path
    that passes the bytes through a ring to the driver.  The driver's functions
    are parameters; the class [SerialPort] states what the framework needs of
    them, and the instance [serial_driver] shows that a serial device satisfies
    the interface [Driver] of the device layer. *)

From S2P Require Import Prelude BaseDef RingBuffer KList Slab IoDef Kernel Sched KObj Device Bus.

Local Open Scope c_scope.

(** [struct sk_serial_ops]; [configure] is the only pointer that is checked, and
    [control] is called by no function of the source. *)
Record sk_serial_ops := mk_serial_ops {
  so_configure : option (Z -> M Z);
  so_putc : Z -> Z -> M Z;
  so_getc : Z -> M Z;
  so_transmit : Z -> Z -> Z -> M Z
}.

Definition ks_serials (s : kstate) : gmap Z sk_serial_device := io_serials (ks_io s).
Definition upd_serials (g : gmap Z sk_serial_device -> gmap Z sk_serial_device) : kstate -> kstate :=
  upd_io (set_io_serials g).
Definition ks_rxs (s : kstate) : gmap Z sk_serial_rx_fifo := io_rxs (ks_io s).
Definition upd_rxs (g : gmap Z sk_serial_rx_fifo -> gmap Z sk_serial_rx_fifo) : kstate -> kstate :=
  upd_io (set_io_rxs g).
Definition ks_txs (s : kstate) : gmap Z sk_serial_tx_fifo := io_txs (ks_io s).
Definition upd_txs (g : gmap Z sk_serial_tx_fifo -> gmap Z sk_serial_tx_fifo) : kstate -> kstate :=
  upd_io (set_io_txs g).

Definition get_serial (p : Z) : M sk_serial_device := read_at ks_serials p.
Definition upd_serial (p : Z) (g : sk_serial_device -> sk_serial_device) : M unit :=
  update_at ks_serials upd_serials p g.
Definition get_rx (p : Z) : M sk_serial_rx_fifo := read_at ks_rxs p.
Definition upd_rx (p : Z) (g : sk_serial_rx_fifo -> sk_serial_rx_fifo) : M unit :=
  update_at ks_rxs upd_rxs p g.
Definition get_tx (p : Z) : M sk_serial_tx_fifo := read_at ks_txs p.
Definition upd_tx (p : Z) (g : sk_serial_tx_fifo -> sk_serial_tx_fifo) : M unit :=
  update_at ks_txs upd_txs p g.

Definition set_serial_rx (p : Z) (x : sk_serial_device) : sk_serial_device :=
  mk_serial (serial_ops_ptr x) (serial_config x) p (serial_tx x).
Definition set_serial_tx (p : Z) (x : sk_serial_device) : sk_serial_device :=
  mk_serial (serial_ops_ptr x) (serial_config x) (serial_rx x) p.
Definition set_tx_rb (rb : sk_ring_buffer) (x : sk_serial_tx_fifo) : sk_serial_tx_fifo :=
  mk_tx rb (put_size x) (activated x).
Definition set_put_size (n : Z) (x : sk_serial_tx_fifo) : sk_serial_tx_fifo :=
  mk_tx (tx_rb x) n (activated x).
Definition set_activated (b : Z) (x : sk_serial_tx_fifo) : sk_serial_tx_fifo :=
  mk_tx (tx_rb x) (put_size x) b.

(** Sizes of the structures and offsets of their flexible arrays, on aarch64. *)
Definition sizeof_rx_fifo : Z := 48.
Definition rx_buffer_offset : Z := 42.
Definition sizeof_tx_fifo : Z := 56.
Definition tx_buffer_offset : Z := 56.

(** A ring operation on the memory and on the ring of a structure. *)
Definition rx_ring {A} (p : Z) (f : sk_ring_buffer -> mem -> A * sk_ring_buffer * mem) : M A :=
  x ← get_rx p;
  m ← gets ks_mem;
  let '(r, rb, m) := f (rx_rb x) m in
  upd_rx p (fun _ => mk_rx rb);;
  modify (upd_mem (fun _ => m));;
  mret r.

Definition tx_ring {A} (p : Z) (f : sk_ring_buffer -> mem -> A * sk_ring_buffer * mem) : M A :=
  x ← get_tx p;
  m ← gets ks_mem;
  let '(r, rb, m) := f (tx_rb x) m in
  upd_tx p (set_tx_rb rb);;
  modify (upd_mem (fun _ => m));;
  mret r.

(** The address of the first byte and the number of bytes that can be read
    without a wrap; [None] leaves the caller's pointer alone. *)
Definition sk_serial_get_linear_buf (rb : sk_ring_buffer) : option Z * Z :=
  let size := sk_ring_buffer_data_len rb in
  if size =? 0 then (None, 0)
  else
    let ptr := buffer rb + read_index rb in
    if size <? u64 (buffer_size rb - read_index rb) then (Some ptr, size)
    else (Some ptr, u64 (buffer_size rb - read_index rb)).

Definition sk_serial_get_ringbuf (rb : sk_ring_buffer) (ptr : Z) (m : mem) : Z * sk_ring_buffer * mem :=
  let size := sk_ring_buffer_data_len rb in
  if size =? 0 then (0, rb, m) else sk_ring_buffer_get rb ptr size m.

Definition sk_serial_close (dev : Z) : M Z := mret SK_EOK.

Definition sk_serial_control (dev cmd args : Z) : M Z := mret SK_EOK.

Section serial.
Context (sops_at : Z -> option sk_serial_ops).

(** [serial->ops] *)
Definition sops_of (serial : Z) : M sk_serial_ops :=
  x ← get_serial serial; lift_option (sops_at (serial_ops_ptr x)).

(** [while(size) { putc; ++putc_buf; --size; }] *)
Fixpoint poll_tx_loop (size : nat) (serial putc_buf : Z) : M unit :=
  match size with
  | O => mret tt
  | S size =>
      ops ← sops_of serial;
      c ← gets (fun s => mget (ks_mem s) putc_buf);
      so_putc ops serial c;;
      poll_tx_loop size serial (putc_buf + 1)
  end.

(** Returns [size], which is 0 after the loop. *)
Definition __serial_poll_tx (dev pos buf size : Z) : M Z :=
  poll_tx_loop (Z.to_nat size) dev buf;; mret 0.

Definition sk_serial_init (dev : Z) : M Z :=
  upd_serial dev (set_serial_rx SK_NULL);;
  upd_serial dev (set_serial_tx SK_NULL);;
  ops ← sops_of dev;
  match so_configure ops with None => mret SK_EOK | Some configure => configure dev end.

(** The result is missing in the source and unused by its caller. *)
Definition sk_serial_rx_enable (dev : Z) : M unit :=
  x ← get_serial dev;
  d ← get_dev dev;
  if (rx_buf_size (serial_config x) =? 0) && negb (dev_flag d & SK_SERIAL_RX_NON_BLOCK =? 0)
  then mret tt
  else
    let size := rx_buf_size (serial_config x) in
    rx_fifo ← kmalloc (sizeof_rx_fifo + size);
    (if rx_fifo =? SK_NULL then fault
     else modify (upd_rxs (<[rx_fifo := mk_rx (sk_ring_buffer_init (rx_fifo + rx_buffer_offset) size)]>)));;
    upd_serial dev (set_serial_rx rx_fifo).

(** [put_size] is left uninitialised by the source and written before it is
    read. *)
Definition sk_serial_tx_enable (dev : Z) : M unit :=
  x ← get_serial dev;
  if tx_buf_size (serial_config x) =? 0 then mret tt
  else
    let size := tx_buf_size (serial_config x) in
    tx_fifo ← kmalloc (sizeof_tx_fifo + size);
    (if tx_fifo =? SK_NULL then fault
     else modify (upd_txs (<[tx_fifo := mk_tx (sk_ring_buffer_init (tx_fifo + tx_buffer_offset) size) 0 0]>)));;
    upd_serial dev (set_serial_tx tx_fifo).

Definition sk_serial_open (dev flag : Z) : M Z :=
  d ← get_dev dev;
  if negb (dev_flag d & SK_DEVICE_FLAG_OPEN =? 0) then mret SK_EOK
  else
    upd_dev dev (fun d => set_dev_flag (dev_flag d ||| flag) d);;
    x ← get_serial dev;
    when_ (serial_rx x =? SK_NULL) (sk_serial_rx_enable dev);;
    x ← get_serial dev;
    when_ (serial_tx x =? SK_NULL) (sk_serial_tx_enable dev);;
    mret SK_EOK.

(** [while(size) { ch = getc; if(ch == -1) break; *getc_buffer = ch; ... }];
    returns the remaining size. *)
Fixpoint poll_rx_loop (size : nat) (serial getc_buffer : Z) : M Z :=
  match size with
  | O => mret 0
  | S size' =>
      ops ← sops_of serial;
      ch ← so_getc ops serial;
      if ch =? -1 then mret (Z.of_nat size)
      else modify (upd_mem (<[getc_buffer := u8 ch]>));; poll_rx_loop size' serial (getc_buffer + 1)
  end.

Definition sk_serial_read (dev pos buf size : Z) : M Z :=
  x ← get_serial dev;
  if negb (rx_buf_size (serial_config x) =? 0)
  then rx_ring (serial_rx x) (fun rb m => sk_ring_buffer_get rb buf size m)
  else rest ← poll_rx_loop (Z.to_nat size) dev buf; mret (size - rest).

(** [send_data] is the address of the local array of 64 bytes. *)
Definition sk_serial_write (send_data dev pos buf size : Z) : M Z :=
  if size =? 0 then mret 0
  else
    x ← get_serial dev;
    let tx_fifo := serial_tx x in
    if tx_buf_size (serial_config x) =? 0 then __serial_poll_tx dev pos buf size
    else
      upd_tx tx_fifo (set_activated 1);;
      length ← tx_ring tx_fifo (fun rb m => sk_ring_buffer_put rb buf size m);
      n ← tx_ring tx_fifo (fun rb m => sk_serial_get_ringbuf rb send_data m);
      upd_tx tx_fifo (set_put_size n);;
      ops ← sops_of dev;
      so_transmit ops dev send_data n;;
      mret length.

(** The table [serial_ops]. *)
Definition serial_ops (send_data : Z) : sk_device_ops :=
  mk_ops (Some sk_serial_init) (Some sk_serial_open) (Some sk_serial_close) (Some sk_serial_read)
    (Some (sk_serial_write send_data)).

(** [ops_ptr] is the address of [serial_ops]. *)
Definition sk_hw_serial_register (ops_ptr serial name flag data : Z) : M Z :=
  upd_dev serial (fun d => mk_device SK_DEVICE_CHAR (dev_flag d) (ref_cnt d) (device_id d)
    SK_NULL SK_NULL ops_ptr data);;
  sk_device_register serial name (u16 flag).

(** [while(1) { ch = getc; if(ch == -1) break; putchar }]: how long it runs is
    up to the hardware, the fuel is an argument. *)
Fixpoint isr_rx_loop (fuel : nat) (serial rx_fifo : Z) : M unit :=
  match fuel with
  | O => spin
  | S fuel =>
      ops ← sops_of serial;
      ch ← so_getc ops serial;
      if ch =? -1 then mret tt
      else
        rx_ring rx_fifo (fun rb m => sk_ring_buffer_putchar rb ch m);;
        isr_rx_loop fuel serial rx_fifo
  end.

(** [indicate] stands for the functions [rx_indicate] may point to. *)
Definition sk_hw_serial_isr (indicate : Z -> Z -> Z -> M Z) (fuel : nat) (serial event : Z) : M unit :=
  if (event =? SK_SERIAL_EVENT_RX_IND) || (event =? SK_SERIAL_EVENT_RX_DMADONE) then
    x ← get_serial serial;
    rx ← get_rx (serial_rx x);
    let rx_length := sk_ring_buffer_data_len (rx_rb rx) in
    if rx_length =? u64 (buffer_size (rx_rb rx)) then mret tt
    else
      isr_rx_loop fuel serial (serial_rx x);;
      d ← get_dev serial;
      when_ (negb (rx_indicate d =? SK_NULL)) (indicate (rx_indicate d) serial rx_length;; mret tt)
  else mret tt.

End serial.

(** ** UART drivers *)

(** What the framework needs of the functions of a UART driver: they touch the
    bus only.  [sp_getc b] is what a receive does to the bus and the character
    it returns, -1 if there is none; [sp_send l b] what a transmission of the
    bytes [l] does. *)
Class SerialPort (ops : sk_serial_ops) (serial data : Z) := {
  sp_getc : list access -> list access * Z;
  sp_send : list Z -> list access -> list access;
  sp_conf : list access -> list access;
  getc_port s d : ks_devices s !! serial = Some d -> dev_user_data d = data ->
    so_getc ops serial s = Done (upd_bus (fun b => fst (sp_getc b)) s) (snd (sp_getc (io_accesses s)));
  transmit_port s d buf n : ks_devices s !! serial = Some d -> dev_user_data d = data ->
    so_transmit ops serial buf n s = Done (upd_bus (sp_send (bytes (ks_mem s) buf n)) s) 0;
  configure_port s d : ks_devices s !! serial = Some d -> dev_user_data d = data ->
    match so_configure ops with None => mret SK_EOK | Some f => f serial end s =
      Done (upd_bus sp_conf s) SK_EOK
}.

(** Evaluate updates of a state given by its components, devices included. *)
Ltac io_eval :=
  unfold upd_bus, upd_rxs, upd_txs, upd_serials, ks_rxs, ks_txs, ks_serials, io_accesses in *;
  kstate_eval;
  cbv beta iota delta [set_io_bus set_io_rxs set_io_txs set_io_serials io_devices io_serials io_rxs
    io_txs io_console io_gic io_isr io_timer io_vfs io_bus].

(** Take a state apart. *)
Ltac split_state s := destruct s as [? ? ? ? ? ? ? ? ? ? ? ? ? ? ? ? ? ? ? []].

Section port.
Context (sops_at : Z -> option sk_serial_ops) (ops : sk_serial_ops) (serial data : Z)
  {P : SerialPort ops serial data}.

(** The device and its serial structure, with the driver [ops]. *)
Record serial_wf (x : sk_serial_device) (s : kstate) : Prop := {
  sw_dev : exists d, ks_devices s !! serial = Some d /\ dev_user_data d = data /\ rx_indicate d = SK_NULL;
  sw_ser : ks_serials s !! serial = Some x;
  sw_ops : sops_at (serial_ops_ptr x) = Some ops;
  sw_rx : 0 < rx_buf_size (serial_config x) < 2 ^ 15;
  sw_tx : 0 < tx_buf_size (serial_config x) < 2 ^ 15
}.

Lemma sops_of_ok x s : serial_wf x s -> sops_of sops_at serial s = Done s ops.
Proof.
  intros [_ Hx Ho _ _]. unfold sops_of, get_serial. erewrite bind_done by (by apply read_at_ok).
  by rewrite Ho.
Qed.

(** *** Receiving *)

(** The hardware delivers the bytes [bs] and then has no more. *)
Inductive stream : list access -> list Z -> list access -> Prop :=
  | stream_end b b' : sp_getc b = (b', -1) -> stream b [] b'
  | stream_more b b1 ch bs b' : sp_getc b = (b1, ch) -> ch <> -1 -> stream b1 bs b' ->
      stream b (u8 ch :: bs) b'.

(** A state with another bus, another memory and another receive ring. *)
Definition rx_state (p : Z) (b : list access) (m : mem) (rb : sk_ring_buffer) (s : kstate) : kstate :=
  upd_bus (fun _ => b) (upd_mem (fun _ => m) (upd_rxs (<[p := mk_rx rb]>) s)).

Lemma rx_state_id p rb s :
  ks_rxs s !! p = Some (mk_rx rb) -> rx_state p (io_accesses s) (ks_mem s) rb s = s.
Proof.
  intros H. split_state s. unfold rx_state. unfold ks_rxs in H. simpl in H. io_eval. by rewrite insert_id.
Qed.

Lemma rx_state_twice p b m rb b' m' rb' s :
  rx_state p b' m' rb' (rx_state p b m rb s) = rx_state p b' m' rb' s.
Proof.
  split_state s. unfold rx_state. io_eval. by rewrite insert_insert_eq.
Qed.

Lemma serial_wf_rx x p b m rb s : serial_wf x s -> serial_wf x (rx_state p b m rb s).
Proof. by intros []. Qed.

Lemma rx_ring_ok {A} p (f : sk_ring_buffer -> mem -> A * sk_ring_buffer * mem) b m rb s :
  let '(r, rb', m') := f rb m in
  rx_ring p f (rx_state p b m rb s) = Done (rx_state p b m' rb' s) r.
Proof.
  destruct (f rb m) as [[r rb'] m'] eqn:E. unfold rx_ring, get_rx.
  assert (ks_rxs (rx_state p b m rb s) !! p = Some (mk_rx rb)) as Hp by exact (lookup_insert_eq _ _ _).
  erewrite bind_done by (by apply read_at_ok). erewrite bind_done by reflexivity.
  cbv beta. change (f (rx_rb (mk_rx rb)) (ks_mem (rx_state p b m rb s))) with (f rb m). rewrite E.
  erewrite bind_done by (by apply (update_at_ok ks_rxs upd_rxs)). erewrite bind_done by reflexivity.
  rewrite <- (rx_state_twice p b m rb b m' rb' s). done.
Qed.

Lemma isr_rx_loop_spec x p s fuel b bs b' :
  serial_wf x s -> stream b bs b' -> forall m rb,
  (length bs < fuel)%nat -> rb_wf rb ->
  exists m' rb', isr_rx_loop sops_at fuel serial p (rx_state p b m rb s) = Done (rx_state p b' m' rb' s) tt /\
    rb_wf rb' /\ buffer rb' = buffer rb /\ buffer_size rb' = buffer_size rb /\
    contents m' rb' = take (Z.to_nat (buffer_size rb)) (contents m rb ++ bs) /\ only_buffer rb m m'.
Proof.
  intros Hwf Hst. revert fuel.
  induction Hst as [b b' E|b b1 ch bs b' E Hch Hst IH]; intros [|fuel] m rb Hf Hrb;
    simpl in Hf; try lia; simpl isr_rx_loop.
  all: pose proof (serial_wf_rx x p b m rb s Hwf) as Hwf'; kstep (sops_of_ok _ _ Hwf');
    destruct Hwf' as [(d & Hd & Hu & _) _ _ _ _];
    kstep (getc_port _ d Hd Hu); change (io_accesses (rx_state p b m rb s)) with b; rewrite E.
  - exists m, rb. split; [|split_and!; try done].
    + change (upd_bus _ _) with (rx_state p (fst (sp_getc b)) m rb s). by rewrite E.
    + rewrite app_nil_r, take_ge; [done|]. pose proof (length_contents rb Hrb m).
      pose proof (data_len_range rb Hrb). lia.
  - cbn [snd]. rewrite (proj2 (Z.eqb_neq ch (-1)) Hch).
    change (upd_bus _ _) with (rx_state p (fst (sp_getc b)) m rb s). rewrite E. cbn [fst].
    pose proof (rx_ring_ok p (fun rb m => sk_ring_buffer_putchar rb ch m) b1 m rb s) as Hr.
    pose proof (putchar_spec rb m Hrb ch) as Hp.
    destruct (sk_ring_buffer_putchar rb ch m) as [[n rb1] m1]. kstep Hr.
    destruct Hp as (Hn & Hrb1 & Hb1 & Hs1 & Hc1 & Ho1).
    destruct (IH fuel m1 rb1 ltac:(lia) Hrb1) as (m' & rb' & E' & Hwf1 & Hb' & Hs' & Hc' & Ho').
    exists m', rb'. split; [exact E'|]. split_and!; try done; try congruence.
    + rewrite Hc', Hc1, Hs1. pose proof (length_contents rb Hrb m) as Hlen.
      pose proof (space_len_eq rb Hrb) as Hsp. pose proof (data_len_range rb Hrb).
      destruct (Z.eqb_spec n 0) as [E0|].
      * rewrite app_nil_r, !take_app_le by lia. done.
      * by rewrite <- app_assoc.
    + intros a Ha. rewrite Ho' by (rewrite Hb1, Hs1; done). by apply Ho1.
Qed.

(** The receive queue of an open serial device holds [q]. *)
Definition rx_holds (x : sk_serial_device) (rb : sk_ring_buffer) (q : list Z) (s : kstate) : Prop :=
  serial_wf x s /\ ks_rxs s !! serial_rx x = Some (mk_rx rb) /\ rb_wf rb /\ contents (ks_mem s) rb = q.

Lemma rx_holds_state x b m rb q s :
  serial_wf x s -> rb_wf rb -> contents m rb = q ->
  rx_holds x rb q (rx_state (serial_rx x) b m rb s).
Proof.
  intros Hwf Hrb Hc. split; [by apply serial_wf_rx|]. split; [exact (lookup_insert_eq _ _ _)|done].
Qed.

(** *** Transmitting *)

Definition tx_state (p : Z) (b : list access) (m : mem) (t : sk_serial_tx_fifo) (s : kstate) : kstate :=
  upd_bus (fun _ => b) (upd_mem (fun _ => m) (upd_txs (<[p := t]>) s)).

Lemma tx_state_id p t s :
  ks_txs s !! p = Some t -> tx_state p (io_accesses s) (ks_mem s) t s = s.
Proof.
  intros H. split_state s. unfold tx_state. unfold ks_txs in H. simpl in H. io_eval. by rewrite insert_id.
Qed.

Lemma tx_state_twice p b m t b' m' t' s :
  tx_state p b' m' t' (tx_state p b m t s) = tx_state p b' m' t' s.
Proof.
  split_state s. unfold tx_state. io_eval. by rewrite insert_insert_eq.
Qed.

Lemma serial_wf_tx x p b m t s : serial_wf x s -> serial_wf x (tx_state p b m t s).
Proof. by intros []. Qed.

Lemma upd_tx_ok p b m t s g : upd_tx p g (tx_state p b m t s) = Done (tx_state p b m (g t) s) tt.
Proof.
  assert (ks_txs (tx_state p b m t s) !! p = Some t) as Hp by exact (lookup_insert_eq _ _ _).
  unfold upd_tx. rewrite (update_at_ok ks_txs upd_txs _ _ _ _ Hp).
  by rewrite <- (tx_state_twice p b m t b m (g t) s).
Qed.

Lemma tx_ring_ok {A} p (f : sk_ring_buffer -> mem -> A * sk_ring_buffer * mem) b m t s :
  let '(r, rb', m') := f (tx_rb t) m in
  tx_ring p f (tx_state p b m t s) = Done (tx_state p b m' (set_tx_rb rb' t) s) r.
Proof.
  destruct (f (tx_rb t) m) as [[r rb'] m'] eqn:E. unfold tx_ring, get_tx.
  assert (ks_txs (tx_state p b m t s) !! p = Some t) as Hp by exact (lookup_insert_eq _ _ _).
  erewrite bind_done by (by apply read_at_ok). erewrite bind_done by reflexivity.
  cbv beta. change (f (tx_rb t) (ks_mem (tx_state p b m t s))) with (f (tx_rb t) m). rewrite E. kstep (upd_tx_ok p b m t s (set_tx_rb rb')).
  erewrite bind_done by reflexivity. done.
Qed.

Definition tx_holds (x : sk_serial_device) (t : sk_serial_tx_fifo) (q : list Z) (s : kstate) : Prop :=
  serial_wf x s /\ ks_txs s !! serial_tx x = Some t /\ rb_wf (tx_rb t) /\ contents (ks_mem s) (tx_rb t) = q.

Lemma tx_holds_state x b m t q s :
  serial_wf x s -> rb_wf (tx_rb t) -> contents m (tx_rb t) = q ->
  tx_holds x t q (tx_state (serial_tx x) b m t s).
Proof.
  intros Hwf Hrb Hc. split; [by apply serial_wf_tx|]. split; [exact (lookup_insert_eq _ _ _)|done].
Qed.

(** *** The framework as a driver of the device layer *)

(** The heap has room for the two fifos [n] times over. *)
Fixpoint heap_serves (rx tx : Z) (n : nat) (h : slab_state) : Prop :=
  match n with
  | O => True
  | S n => exists p h1 q h2, sk_malloc rx h = Some (p, h1) /\ p <> SK_NULL /\
      sk_malloc tx h1 = Some (q, h2) /\ q <> SK_NULL /\ heap_serves rx tx n h2
  end.

Lemma heap_serves_less rx tx n : forall h, heap_serves rx tx (S n) h -> heap_serves rx tx n h.
Proof.
  induction n as [|n IH]; intros h; [done|].
  intros (p & h1 & q & h2 & E1 & Hp & E2 & Hq & Hn). exists p, h1, q, h2. split_and!; auto.
Qed.

(** Both fifos exist, as they do on an open device. *)
Definition fifos_present (x : sk_serial_device) (s : kstate) : Prop :=
  is_Some (ks_rxs s !! serial_rx x) /\ is_Some (ks_txs s !! serial_tx x) /\
  serial_rx x <> SK_NULL /\ serial_tx x <> SK_NULL.

Definition serial_inv (b : bool) (n : nat) (s : kstate) : Prop :=
  exists x, serial_wf x s /\
    (fifos_present x s \/ b = false /\ serial_rx x = SK_NULL /\ serial_tx x = SK_NULL) /\
    heap_serves (sizeof_rx_fifo + rx_buf_size (serial_config x))
      (sizeof_tx_fifo + tx_buf_size (serial_config x)) n (ks_heap s).

Lemma serial_wf_dev x d d' s :
  serial_wf x s -> ks_devices s !! serial = Some d -> dev_user_data d' = dev_user_data d ->
  rx_indicate d' = rx_indicate d -> serial_wf x (upd_devices (<[serial := d']>) s).
Proof.
  intros [(y & Hy & Hu & Hi) Hx Ho Hr Ht] Hd Hu' Hi'. rewrite Hd in Hy. injection Hy as <-.
  split; try done. exists d'. split; [exact (lookup_insert_eq _ _ _)|]. by rewrite Hu', Hi'.
Qed.

Lemma serial_wf_serial x x' s :
  serial_wf x s -> serial_ops_ptr x' = serial_ops_ptr x -> serial_config x' = serial_config x ->
  serial_wf x' (upd_serials (<[serial := x']>) s).
Proof.
  intros [Hd Hx Ho Hr Ht] Eo Ec. split; try done; rewrite ?Eo, ?Ec; try done.
  exact (lookup_insert_eq _ _ _).
Qed.

Lemma get_serial_ok x s : serial_wf x s -> get_serial serial s = Done s x.
Proof. intros H. by apply read_at_ok, (sw_ser _ _ H). Qed.

Lemma upd_serial_ok x s g :
  serial_wf x s -> upd_serial serial g s = Done (upd_serials (<[serial := g x]>) s) tt.
Proof. intros H. apply (update_at_ok ks_serials upd_serials), (sw_ser _ _ H). Qed.

(** A structure placed in a fresh block of the heap. *)
Definition rx_placed (x : sk_serial_device) (p : Z) (h : slab_state) (s : kstate) : kstate :=
  upd_serials (<[serial := set_serial_rx p x]>)
    (upd_rxs (<[p := mk_rx (sk_ring_buffer_init (p + rx_buffer_offset) (rx_buf_size (serial_config x)))]>)
      (upd_heap (fun _ => h) s)).

Lemma rx_enable_ok x p h s :
  serial_wf x s -> sk_malloc (sizeof_rx_fifo + rx_buf_size (serial_config x)) (ks_heap s) = Some (p, h) ->
  p <> SK_NULL -> sk_serial_rx_enable serial s = Done (rx_placed x p h s) tt /\
    serial_wf (set_serial_rx p x) (rx_placed x p h s).
Proof.
  intros H Hm Hp. pose proof H as [(d & Hd & _) Hx _ Hrx _]. split.
  - unfold sk_serial_rx_enable. kstep (get_serial_ok x s H).
    unfold get_dev. erewrite bind_done by (by apply read_at_ok). cbv beta.
    rewrite (proj2 (Z.eqb_neq (rx_buf_size _) 0)) by lia. cbv beta iota zeta delta [andb].
    unfold kmalloc. erewrite bind_done by (by rewrite Hm). cbv beta.
    rewrite (proj2 (Z.eqb_neq p SK_NULL) Hp). erewrite bind_done by reflexivity.
    by apply (update_at_ok ks_serials upd_serials).
  - apply (serial_wf_serial x); [by destruct H|done|done].
Qed.

Definition tx_placed (x : sk_serial_device) (p : Z) (h : slab_state) (s : kstate) : kstate :=
  upd_serials (<[serial := set_serial_tx p x]>)
    (upd_txs (<[p := mk_tx (sk_ring_buffer_init (p + tx_buffer_offset) (tx_buf_size (serial_config x))) 0 0]>)
      (upd_heap (fun _ => h) s)).

Lemma tx_enable_ok x p h s :
  serial_wf x s -> sk_malloc (sizeof_tx_fifo + tx_buf_size (serial_config x)) (ks_heap s) = Some (p, h) ->
  p <> SK_NULL -> sk_serial_tx_enable serial s = Done (tx_placed x p h s) tt /\
    serial_wf (set_serial_tx p x) (tx_placed x p h s).
Proof.
  intros H Hm Hp. pose proof H as [_ Hx _ _ Htx]. split.
  - unfold sk_serial_tx_enable. kstep (get_serial_ok x s H).
    rewrite (proj2 (Z.eqb_neq (tx_buf_size _) 0)) by lia. cbv zeta.
    unfold kmalloc. erewrite bind_done by (by rewrite Hm). cbv beta.
    rewrite (proj2 (Z.eqb_neq p SK_NULL) Hp). erewrite bind_done by reflexivity.
    by apply (update_at_ok ks_serials upd_serials).
  - apply (serial_wf_serial x); [by destruct H|done|done].
Qed.

(** The first open allocates both fifos, with empty rings. *)
Lemma serial_open_first x d fl p h1 q h2 s :
  serial_wf x s -> ks_devices s !! serial = Some d -> opened d = false ->
  serial_rx x = SK_NULL -> serial_tx x = SK_NULL ->
  sk_malloc (sizeof_rx_fifo + rx_buf_size (serial_config x)) (ks_heap s) = Some (p, h1) -> p <> SK_NULL ->
  sk_malloc (sizeof_tx_fifo + tx_buf_size (serial_config x)) h1 = Some (q, h2) -> q <> SK_NULL ->
  let x1 := set_serial_rx p x in let x2 := set_serial_tx q x1 in
  let s0 := upd_devices (<[serial := set_dev_flag (dev_flag d ||| fl) d]>) s in
  let s' := tx_placed x1 q h2 (rx_placed x p h1 s0) in
  sk_serial_open serial fl s = Done s' SK_EOK /\ serial_wf x2 s'.
Proof.
  intros H Hd Hop Hrx Htx Em Hp Em' Hq x1 x2 s0 s'.
  assert (serial_wf x s0) as H0 by (by apply (serial_wf_dev x d)).
  destruct (rx_enable_ok x p h1 s0 H0 Em Hp) as [E1 H1].
  destruct (tx_enable_ok x1 q h2 (rx_placed x p h1 s0) H1 Em' Hq) as [E2 H2]. split; [|exact H2].
  unfold sk_serial_open, get_dev. erewrite bind_done by (by apply read_at_ok). cbv beta.
  rewrite opened_bit, Hop. kif.
  kstep (upd_dev_ok serial s d (fun d => set_dev_flag (dev_flag d ||| fl) d) Hd).
  kstep (get_serial_ok x s0 H0). rewrite Hrx. kstep E1. kstep (get_serial_ok _ _ H1).
  change (serial_tx (set_serial_rx p x)) with (serial_tx x). rewrite Htx. kstep E2. done.
Qed.

Lemma serial_frame_dev x d s s' :
  serial_wf x s -> ks_objs s' = ks_objs s -> ks_devices s !! serial = Some d ->
  (exists d', ks_devices s' !! serial = Some d' /\ ref_cnt d' = ref_cnt d /\ dev_ops d' = dev_ops d /\
    (opened d = true -> opened d' = true) /\ (activated_bit d = true -> activated_bit d' = true)) ->
  driver_frame serial s s'.
Proof.
  intros H Ho Hd Hd'. split; [by rewrite Ho|]. intros y Hy. rewrite Hd in Hy. by injection Hy as <-.
Qed.

Lemma serial_init_total send_data n s :
  serial_inv false n s ->
  exists s', call_init (serial_ops sops_at send_data) serial s = Done s' SK_EOK /\ serial_inv false n s' /\
    driver_frame serial s s' /\ opened <$> ks_devices s' !! serial = opened <$> ks_devices s !! serial.
Proof.
  intros (x & H & _ & Hh). set (x1 := set_serial_rx SK_NULL x). set (x2 := set_serial_tx SK_NULL x1).
  assert (serial_wf x1 (upd_serials (<[serial := x1]>) s)) as H1 by (by apply (serial_wf_serial x)).
  set (s1 := upd_serials (<[serial := x1]>) s) in *.
  assert (serial_wf x2 (upd_serials (<[serial := x2]>) s1)) as H2 by (by apply (serial_wf_serial x1)).
  set (s2 := upd_serials (<[serial := x2]>) s1) in *. pose proof H2 as [(d & Hd & Hu & _) _ _ _ _].
  eexists. split.
  { change (call_init (serial_ops sops_at send_data) serial) with (sk_serial_init sops_at serial).
    unfold sk_serial_init. kstep (upd_serial_ok x s (set_serial_rx SK_NULL) H). fold x1 s1.
    kstep (upd_serial_ok x1 s1 (set_serial_tx SK_NULL) H1). fold x2 s2. kstep (sops_of_ok x2 s2 H2).
    exact (configure_port s2 d Hd Hu). }
  split; [exists x2; split; [by destruct H2|]; split; [by right|done]|]. split; [|done].
  by apply (serial_frame_dev x d); [..|exists d].
Qed.

Lemma serial_open_total send_data fl b n s d :
  serial_inv b (S n) s -> ks_devices s !! serial = Some d -> opened d = b ->
  exists s', call_open (serial_ops sops_at send_data) serial fl s = Done s' SK_EOK /\ serial_inv true n s' /\
    driver_frame serial s s'.
Proof.
  intros (x & H & Hf & Hh) Hd Hop.
  change (call_open (serial_ops sops_at send_data) serial fl) with (sk_serial_open serial fl).
  destruct b; [|destruct Hf as [(Hrx & Htx & Hrn & Htn)|(_ & Hrn & Htn)]].
  + exists s. split; [|split; [|apply driver_frame_refl]].
    * unfold sk_serial_open, get_dev. erewrite bind_done by (by apply read_at_ok). cbv beta.
      by rewrite opened_bit, Hop.
    * exists x. split; [done|]. split; [destruct Hf as [|[? _]]; [by left|done]|].
      by apply heap_serves_less.
  + set (d1 := set_dev_flag (dev_flag d ||| fl) d). set (s1 := upd_devices (<[serial := d1]>) s).
    assert (serial_wf x s1) as H1 by (by apply (serial_wf_dev x d)).
    exists s1. split; [|split].
    * unfold sk_serial_open, get_dev. erewrite bind_done by (by apply read_at_ok). cbv beta.
      rewrite opened_bit, Hop. kif.
      kstep (upd_dev_ok serial s d (fun d => set_dev_flag (dev_flag d ||| fl) d) Hd). fold d1 s1.
      kstep (get_serial_ok x s1 H1). rewrite (proj2 (Z.eqb_neq _ _) Hrn). erewrite bind_done by reflexivity.
      kstep (get_serial_ok x s1 H1). by rewrite (proj2 (Z.eqb_neq _ _) Htn).
    * exists x. split; [done|]. split; [by left|]. by apply heap_serves_less.
    * apply (serial_frame_dev x d); [done..|]. exists d1. split; [exact (lookup_insert_eq _ _ _)|].
      split; [done|]. split; [done|]. unfold d1. rewrite opened_set, activated_set, !Z.lor_spec.
      unfold opened, activated_bit. split; by intros ->.
  + destruct Hh as (p & h1 & q & h2 & Em & Hp & Em' & Hq & Hn).
    destruct (serial_open_first x d fl p h1 q h2 s H Hd Hop Hrn Htn Em Hp Em' Hq) as [E Hw].
    eexists. split; [exact E|]. split.
    * eexists. split; [exact Hw|]. split; [|exact Hn]. left. split_and!; try done.
      -- eexists. exact (lookup_insert_eq _ _ _).
      -- eexists. exact (lookup_insert_eq _ _ _).
    * apply (serial_frame_dev x d); [done..|]. exists (set_dev_flag (dev_flag d ||| fl) d).
      split; [exact (lookup_insert_eq _ _ _)|].
      split; [done|]. split; [done|]. rewrite opened_set, activated_set, !Z.lor_spec.
      unfold opened, activated_bit. split; by intros ->.
Qed.

(** Ring operations keep the fifos where they are. *)
Lemma fifos_rx x p b m rb s : fifos_present x s -> fifos_present x (rx_state p b m rb s).
Proof.
  intros (Hr & Ht & Hn). split; [|done]. change (is_Some (<[p := mk_rx rb]> (ks_rxs s) !! serial_rx x)).
  destruct (decide (p = serial_rx x)) as [->|]; [rewrite lookup_insert_eq; by eexists|by rewrite lookup_insert_ne].
Qed.

Lemma fifos_tx x p b m t s : fifos_present x s -> fifos_present x (tx_state p b m t s).
Proof.
  intros (Hr & Ht & Hn). split; [done|]. split; [|done].
  change (is_Some (<[p := t]> (ks_txs s) !! serial_tx x)).
  destruct (decide (p = serial_tx x)) as [->|]; [rewrite lookup_insert_eq; by eexists|by rewrite lookup_insert_ne].
Qed.

Lemma serial_read_total send_data pos buf size n s :
  serial_inv true n s ->
  exists s' r, call_read (serial_ops sops_at send_data) serial pos buf size s = Done s' r /\
    serial_inv true n s' /\ driver_frame serial s s'.
Proof.
  intros (x & H & [Hf|[? _]] & Hh); [|done]. pose proof Hf as ([[rb] Hrx] & _).
  change (call_read (serial_ops sops_at send_data) serial pos buf size)
    with (sk_serial_read sops_at serial pos buf size).
  unfold sk_serial_read. destruct (sw_rx x s H).
  pose proof (rx_ring_ok (serial_rx x) (fun rb m => sk_ring_buffer_get rb buf size m) (io_accesses s)
    (ks_mem s) rb s) as Hr. rewrite rx_state_id in Hr by done.
  destruct (sk_ring_buffer_get rb buf size (ks_mem s)) as [[r rb'] m'].
  eexists _, r. split.
  { kstep (get_serial_ok x s H). rewrite (proj2 (Z.eqb_neq _ 0)) by lia. exact Hr. }
  split; [|by apply driver_frame_same]. exists x. split; [by apply serial_wf_rx|].
  split; [left; by apply fifos_rx|done].
Qed.

Lemma serial_write_total send_data pos buf size n s :
  serial_inv true n s ->
  exists s' r, call_write (serial_ops sops_at send_data) serial pos buf size s = Done s' r /\
    serial_inv true n s' /\ driver_frame serial s s'.
Proof.
  intros (x & H & [Hf|[? _]] & Hh); [|done]. pose proof Hf as (_ & [t Htx] & _).
  change (call_write (serial_ops sops_at send_data) serial pos buf size)
    with (sk_serial_write sops_at send_data serial pos buf size).
  unfold sk_serial_write. destruct (Z.eqb_spec size 0).
  { exists s, 0. split; [done|]. split; [exists x; auto|apply driver_frame_refl]. }
  set (p := serial_tx x) in *. set (b := io_accesses s). set (m := ks_mem s).
  pose proof (upd_tx_ok p b m t s (set_activated 1)) as Hr0. unfold b, m in Hr0.
  rewrite (tx_state_id p t s Htx) in Hr0. fold b m in Hr0. set (t1 := set_activated 1 t) in *.
  pose proof (tx_ring_ok p (fun rb m => sk_ring_buffer_put rb buf size m) b m t1 s) as Hr1.
  destruct (sk_ring_buffer_put (tx_rb t1) buf size m) as [[r rb1] m1]. set (t2 := set_tx_rb rb1 t1) in *.
  pose proof (tx_ring_ok p (fun rb m => sk_serial_get_ringbuf rb send_data m) b m1 t2 s) as Hr2.
  destruct (sk_serial_get_ringbuf (tx_rb t2) send_data m1) as [[k rb2] m2].
  set (t3 := set_put_size k (set_tx_rb rb2 t2)).
  pose proof (serial_wf_tx x p b m2 t3 s H) as H3. pose proof H3 as [(d & Hd & Hu & _) _ _ _ _].
  destruct (sw_tx x s H). eexists _, r. split.
  { kstep (get_serial_ok x s H). rewrite (proj2 (Z.eqb_neq _ 0)) by lia. cbv zeta. fold p.
    kstep Hr0. kstep Hr1. kstep Hr2. kstep (upd_tx_ok p b m2 (set_tx_rb rb2 t2) s (set_put_size k)). fold t3.
    kstep (sops_of_ok x _ H3). kstep (transmit_port _ d send_data k Hd Hu). done. }
  change (upd_bus ?g (tx_state p b m2 t3 s)) with (tx_state p (g b) m2 t3 s).
  split; [|by apply driver_frame_same]. exists x. split; [by apply serial_wf_tx|].
  split; [left; by apply fifos_tx|done].
Qed.

(** A serial device is a driver in the sense of the device layer. *)
#[export] Instance serial_driver send_data : Driver (serial_ops sops_at send_data) serial serial_inv.
Proof.
  split; [apply serial_init_total|apply serial_open_total| |apply serial_read_total|apply serial_write_total| |].
  - intros n s (x & H & Hf & Hh). exists s. split; [done|]. split; [|apply driver_frame_refl].
    exists x. destruct Hf as [Hf|[? _]]; [|done]. auto.
  - intros fl b n s d (x & H & Hf & Hh) Hd. exists x. split; [by apply (serial_wf_dev x d)|done].
  - intros c b n s d (x & H & Hf & Hh) Hd. exists x. split; [by apply (serial_wf_dev x d)|done].
Qed.

End port.

(** A ring with no contents has the whole buffer as its space. *)
Lemma empty_ring rb m :
  rb_wf rb -> contents m rb = [] -> sk_ring_buffer_data_len rb = 0 /\ sk_ring_buffer_space_len rb = buffer_size rb.
Proof.
  intros Hwf Hc. pose proof (length_contents rb Hwf m) as Hl. rewrite Hc in Hl. simpl in Hl.
  pose proof (space_len_eq rb Hwf). lia.
Qed.

Lemma get_ringbuf_spec rb m ptr :
  rb_wf rb -> apart rb ptr (sk_ring_buffer_data_len rb) ->
  let n := sk_ring_buffer_data_len rb in
  let '(r, rb', m') := sk_serial_get_ringbuf rb ptr m in
  r = n /\ rb_wf rb' /\ buffer rb' = buffer rb /\ buffer_size rb' = buffer_size rb /\
  contents m' rb' = [] /\ bytes m' ptr n = contents m rb /\
  forall a, ~ (ptr <= a < ptr + n) -> m'.[a] = m.[a].
Proof.
  intros Hwf Hap n. unfold sk_serial_get_ringbuf. fold n.
  pose proof (data_len_range rb Hwf) as Hr. fold n in Hr. pose proof (length_contents rb Hwf m) as Hl.
  fold n in Hl. destruct Hwf as [Hs ? ? ? ? ?] eqn:Ew. clear Ew.
  destruct (Z.eqb_spec n 0) as [E|Hn].
  - assert (contents m rb = []) as Hc by (apply nil_length_inv; lia).
    rewrite E, Hc. split_and!; try done.
  - pose proof (get_spec rb m Hwf ptr n) as Hg. rewrite (uint_small 16) in Hg by lia. specialize (Hg Hap).
    destruct (sk_ring_buffer_get rb ptr n m) as [[r rb'] m'].
    destruct Hg as (-> & Hwf' & Hb & Hsz & Hby & Hc & Hf). fold n in Hf, Hc, Hby |- *.
    rewrite Z.min_id in *. rewrite take_ge in Hby by lia. rewrite drop_ge in Hc by lia.
    split_and!; done.
Qed.

Lemma serial_write_spec sops_at ops serial data (P : SerialPort ops serial data) x t s send_data pos buf size :
  tx_holds sops_at ops serial data x t [] s -> 0 < size < 2 ^ 16 ->
  let n := Z.min size (buffer_size (tx_rb t)) in
  apart (tx_rb t) buf size -> apart (tx_rb t) send_data n ->
  exists m' t',
    sk_serial_write sops_at send_data serial pos buf size s =
      Done (tx_state (serial_tx x) (sp_send (bytes (ks_mem s) buf n) (io_accesses s)) m' t' s) n /\
    tx_holds sops_at ops serial data x t' []
      (tx_state (serial_tx x) (sp_send (bytes (ks_mem s) buf n) (io_accesses s)) m' t' s) /\
    buffer (tx_rb t') = buffer (tx_rb t) /\ buffer_size (tx_rb t') = buffer_size (tx_rb t) /\
    bytes m' send_data n = bytes (ks_mem s) buf n /\
    forall a, ~ (buffer (tx_rb t) <= a < buffer (tx_rb t) + buffer_size (tx_rb t)) ->
      ~ (send_data <= a < send_data + n) -> m'.[a] = (ks_mem s).[a].
Proof.
  intros (Hwf & Htx & Hrb & Hc) Hsz n Hap Hap'. destruct (empty_ring _ _ Hrb Hc) as [Hdl Hsl].
  set (p := serial_tx x) in *. set (b := io_accesses s). set (m := ks_mem s) in *.
  unfold sk_serial_write. rewrite (proj2 (Z.eqb_neq size 0)) by lia.
  unfold get_serial. erewrite bind_done by (apply read_at_ok, Hwf). cbv beta zeta. fold p.
  destruct (sw_tx _ _ _ _ _ _ Hwf). rewrite (proj2 (Z.eqb_neq _ 0)) by lia.
  pose proof (upd_tx_ok p b m t s (set_activated 1)) as Hr0.
  unfold b, m in Hr0. rewrite (tx_state_id p t s Htx) in Hr0. fold b m in Hr0. kstep Hr0. set (t1 := set_activated 1 t).
  pose proof (tx_ring_ok p (fun rb m => sk_ring_buffer_put rb buf size m) b m t1 s) as Hr1.
  pose proof (put_spec (tx_rb t) m Hrb buf size) as Hp. rewrite (uint_small 16) in Hp by lia. specialize (Hp Hap).
  change (tx_rb t1) with (tx_rb t) in Hr1.
  rewrite Hsl, Hc in Hp. fold n in Hp.
  destruct (sk_ring_buffer_put (tx_rb t) buf size m) as [[n1 rb1] m1]. kstep Hr1.
  destruct Hp as (-> & Hrb1 & Hb1 & Hs1 & Hc1 & Ho1). rewrite app_nil_l in Hc1. set (t2 := set_tx_rb rb1 t1).
  pose proof (length_contents rb1 Hrb1 m1) as Hl1. rewrite Hc1, length_bytes in Hl1.
  assert (sk_ring_buffer_data_len rb1 = n) as Hn1 by (destruct Hrb; lia).
  pose proof (tx_ring_ok p (fun rb m => sk_serial_get_ringbuf rb send_data m) b m1 t2 s) as Hr2.
  pose proof (get_ringbuf_spec rb1 m1 send_data Hrb1) as Hg. rewrite Hn1 in Hg.
  change (tx_rb t2) with rb1 in Hr2.
  destruct (sk_serial_get_ringbuf rb1 send_data m1) as [[n2 rb2] m2]. kstep Hr2.
  destruct Hg as (-> & Hrb2 & Hb2 & Hs2 & Hc2 & Hby & Hf2).
  { unfold apart in *. rewrite Hb1, Hs1. done. }
  kstep (upd_tx_ok p b m2 (set_tx_rb rb2 t2) s (set_put_size n)).
  set (t3 := set_put_size n (set_tx_rb rb2 t2)).
  pose proof (serial_wf_tx sops_at ops serial data x p b m2 t3 s Hwf) as Hwf3.
  kstep (sops_of_ok sops_at ops serial data x _ Hwf3).
  destruct (sw_dev _ _ _ _ _ _ Hwf3) as (d & Hd & Hu & _).
  kstep (transmit_port _ d send_data n Hd Hu). rewrite Hc1 in Hby.
  change (ks_mem (tx_state p b m2 t3 s)) with m2. rewrite Hby.
  exists m2, t3. split; [done|]. split; [by apply tx_holds_state|].
  split; [simpl; congruence|]. split; [simpl; congruence|]. split; [done|].
  - intros a Ha Ha'. rewrite Hf2 by done. by apply Ho1.
Qed.

(** ** Properties *)

(** The receive interrupt.  When the ring is not full, the handler takes
    from the hardware all bytes it has, appends them to the receive queue as
    far as the ring has room and drops the rest; it writes nothing outside the
    ring.  When the ring is full it does not read the hardware at all. *)
Theorem serial_isr_queues sops_at ops serial data (P : SerialPort ops serial data) indicate fuel x rb q s bs b' :
  rx_holds sops_at ops serial data x rb q s -> stream ops serial data (io_accesses s) bs b' ->
  (length bs < fuel)%nat ->
  if decide (Z.of_nat (length q) = buffer_size rb)
  then sk_hw_serial_isr sops_at indicate fuel serial SK_SERIAL_EVENT_RX_IND s = Done s tt
  else exists m' rb',
    sk_hw_serial_isr sops_at indicate fuel serial SK_SERIAL_EVENT_RX_IND s =
      Done (rx_state (serial_rx x) b' m' rb' s) tt /\
    rx_holds sops_at ops serial data x rb' (take (Z.to_nat (buffer_size rb)) (q ++ bs))
      (rx_state (serial_rx x) b' m' rb' s) /\
    buffer rb' = buffer rb /\ buffer_size rb' = buffer_size rb /\ only_buffer rb (ks_mem s) m'.
Proof.
  intros (Hwf & Hrx & Hrb & Hc) Hst Hf.
  pose proof (length_contents rb Hrb (ks_mem s)) as Hl. rewrite Hc in Hl. pose proof (wf_size rb Hrb) as Hs.
  assert (forall r, (if Z.of_nat (length q) =? buffer_size rb then mret tt
    else isr_rx_loop sops_at fuel serial (serial_rx x);;
         d ← get_dev serial;
         when_ (negb (rx_indicate d =? SK_NULL))
           (indicate (rx_indicate d) serial (Z.of_nat (length q));; mret tt)) s = r ->
    sk_hw_serial_isr sops_at indicate fuel serial SK_SERIAL_EVENT_RX_IND s = r) as Hisr.
  { intros r <-. unfold sk_hw_serial_isr.
    change ((SK_SERIAL_EVENT_RX_IND =? SK_SERIAL_EVENT_RX_IND) || _) with true. cbv iota.
    unfold get_serial. erewrite bind_done by (apply read_at_ok, Hwf).
    unfold get_rx at 1. erewrite bind_done by (by apply read_at_ok). cbv beta zeta. cbn [rx_rb].
    rewrite (uint_small 64 (buffer_size rb)) by lia. by rewrite <- Hl. }
  case_decide as Hd; [apply Hisr; by rewrite (proj2 (Z.eqb_eq _ _) Hd)|].
  destruct (isr_rx_loop_spec sops_at ops serial data x (serial_rx x) s fuel _ bs b' Hwf Hst (ks_mem s) rb Hf Hrb)
    as (m' & rb' & E & Hwf' & Hb & Hsz & Hc' & Ho).
  rewrite rx_state_id in E by done. exists m', rb'. split; [|split; [|done]].
  - apply Hisr. rewrite (proj2 (Z.eqb_neq _ _) Hd). kstep E. pose proof (serial_wf_rx sops_at ops serial data x (serial_rx x) b' m' rb' s Hwf) as Hwf2.
    destruct (sw_dev _ _ _ _ _ _ Hwf2) as (d & Hd' & _ & Hi).
    unfold get_dev. erewrite bind_done by (by apply read_at_ok). by rewrite Hi.
  - apply rx_holds_state; [done|done|]. by rewrite Hc', Hc.
Qed.

(** Reading takes the oldest bytes, at most as many as asked for and as the
    queue has, puts them at the caller's address and returns their number; the
    rest stays queued. *)
Theorem serial_read_takes sops_at ops serial data (P : SerialPort ops serial data) x rb q s pos buf size :
  rx_holds sops_at ops serial data x rb q s -> 0 <= size < 2 ^ 16 -> apart rb buf size ->
  let n := Z.min size (Z.of_nat (length q)) in
  exists m' rb',
    sk_serial_read sops_at serial pos buf size s =
      Done (rx_state (serial_rx x) (io_accesses s) m' rb' s) n /\
    bytes m' buf n = take (Z.to_nat n) q /\
    rx_holds sops_at ops serial data x rb' (drop (Z.to_nat n) q)
      (rx_state (serial_rx x) (io_accesses s) m' rb' s) /\
    buffer rb' = buffer rb /\ buffer_size rb' = buffer_size rb /\
    forall a, ~ (buf <= a < buf + n) -> m'.[a] = (ks_mem s).[a].
Proof.
  intros (Hwf & Hrx & Hrb & Hc) Hsz Hap n. pose proof (length_contents rb Hrb (ks_mem s)) as Hl.
  rewrite Hc in Hl. unfold sk_serial_read, get_serial. erewrite bind_done by (apply read_at_ok, Hwf).
  cbv beta. destruct (sw_rx _ _ _ _ _ _ Hwf). rewrite (proj2 (Z.eqb_neq _ 0)) by lia. cbv iota delta [negb].
  pose proof (rx_ring_ok (serial_rx x) (fun rb m => sk_ring_buffer_get rb buf size m) (io_accesses s)
    (ks_mem s) rb s) as Hr. rewrite rx_state_id in Hr by done.
  pose proof (get_spec rb (ks_mem s) Hrb buf size) as Hg. rewrite (uint_small 16) in Hg by lia. specialize (Hg Hap).
  destruct (sk_ring_buffer_get rb buf size (ks_mem s)) as [[r rb'] m']. rewrite Hr.
  rewrite <- Hl, Hc in Hg. fold n in Hg. destruct Hg as (-> & Hwf' & Hb & Hsz' & Hby & Hc' & Hfr).
  exists m', rb'. split; [done|]. split; [done|]. split; [by apply rx_holds_state|done].
Qed.

(** Writing.  With an empty transmit ring, [sk_serial_write] passes the
    bytes to the driver in order, at most as many as the ring holds, returns
    their number and leaves the ring empty.  On the way they are copied to the
    local array [send_data], as many as they are: more than 64 overrun it. *)
Theorem serial_write_sends sops_at ops serial data (P : SerialPort ops serial data) x t s send_data pos buf size :
  tx_holds sops_at ops serial data x t [] s -> 0 < size < 2 ^ 16 ->
  let n := Z.min size (buffer_size (tx_rb t)) in
  apart (tx_rb t) buf size -> apart (tx_rb t) send_data n ->
  exists m' t',
    sk_serial_write sops_at send_data serial pos buf size s =
      Done (tx_state (serial_tx x) (sp_send (bytes (ks_mem s) buf n) (io_accesses s)) m' t' s) n /\
    tx_holds sops_at ops serial data x t' []
      (tx_state (serial_tx x) (sp_send (bytes (ks_mem s) buf n) (io_accesses s)) m' t' s) /\
    buffer (tx_rb t') = buffer (tx_rb t) /\ buffer_size (tx_rb t') = buffer_size (tx_rb t) /\
    bytes m' send_data n = bytes (ks_mem s) buf n /\
    forall a, ~ (buffer (tx_rb t) <= a < buffer (tx_rb t) + buffer_size (tx_rb t)) ->
      ~ (send_data <= a < send_data + n) -> m'.[a] = (ks_mem s).[a].
Proof. apply serial_write_spec. Qed.
