(* ===== verification/Intc.v ===== *)
(** * Interrupt controller and dispatch: [src/arch/aarch64/src/interrupt.c] and
      [src/arch/aarch64/src/trap.c]

    The GIC is reached through its registers; the table [isr_table] maps an
    interrupt to its handler, an address of code. *)

From S2P Require Import Prelude BaseDef KList Slab IoDef Kernel Bus.

Local Open Scope c_scope.

(** ** Registers *)

Definition GIC_CPU_CTRL (hw_base : Z) : Z := u64 (hw_base + 0x00).
Definition GIC_CPU_PRIMASK (hw_base : Z) : Z := u64 (hw_base + 0x04).
Definition GIC_CPU_BINPOINT (hw_base : Z) : Z := u64 (hw_base + 0x08).
Definition GIC_CPU_INTACK (hw_base : Z) : Z := u64 (hw_base + 0x0C).
Definition GIC_CPU_EOI (hw_base : Z) : Z := u64 (hw_base + 0x10).

(** [hw_base + first + ((n) / per) * 4U], with [n] taken as an unsigned word. *)
Definition gic_dist (first per hw_base n : Z) : Z := u64 (hw_base + first + u32 n / per * 4).

Definition GIC_DIST_CTRL (hw_base : Z) : Z := u64 (hw_base + 0x00).
Definition GIC_DIST_TYPE (hw_base : Z) : Z := u64 (hw_base + 0x04).
Definition GIC_DIST_IGROUP : Z -> Z -> Z := gic_dist 0x080 32.
Definition GIC_DIST_ENABLE_SET : Z -> Z -> Z := gic_dist 0x100 32.
Definition GIC_DIST_ENABLE_CLEAR : Z -> Z -> Z := gic_dist 0x180 32.
Definition GIC_DIST_PENDING_CLEAR : Z -> Z -> Z := gic_dist 0x280 32.
Definition GIC_DIST_PRI : Z -> Z -> Z := gic_dist 0x400 4.
Definition GIC_DIST_TARGET : Z -> Z -> Z := gic_dist 0x800 4.
Definition GIC_DIST_CONFIG : Z -> Z -> Z := gic_dist 0xC00 16.

Definition GIC_DIST_BASE : Z := 0x08000000.
Definition GIC_CPU_BASE : Z := 0x08010000.
Definition GIC_IRQ_START : Z := 0.

(** ** Operations *)

Definition gic_ctl (s : kstate) : gic_info := io_gic (ks_io s).
Definition upd_gic (g : gic_info -> gic_info) : M unit := modify (upd_io (set_io_gic g)).
Definition isr_table (s : kstate) : list sk_irq_desc := io_isr (ks_io s).

(** [1U << (vector % 32U)] *)
Definition irq_bit (vector : Z) : Z := u32 (Z.shiftl 1 (u32 vector mod 32)).

(** [vector - gic_ctl.offset], stored in an [sk_int32_t]. *)
Definition irq_of (vector : Z) (g : gic_info) : Z := s32 (u64 (vector - offset g)).

Definition sk_hw_interrupt_mask (vector : Z) : M unit :=
  g ← gets gic_ctl;
  writel (GIC_DIST_ENABLE_CLEAR (dist_base g) (irq_of vector g)) (irq_bit vector).

Definition sk_hw_interrupt_umask (vector : Z) : M unit :=
  g ← gets gic_ctl;
  writel (GIC_DIST_ENABLE_SET (dist_base g) (irq_of vector g)) (irq_bit vector).

Definition sk_hw_interrupt_get_irq (hw : hardware) : M Z :=
  g ← gets gic_ctl;
  v ← readl hw (GIC_CPU_INTACK (cpu_base g));
  mret (s32 (s32 v + offset g)).

Definition sk_hw_interrupt_ack (vector : Z) : M unit :=
  g ← gets gic_ctl;
  writel (GIC_DIST_PENDING_CLEAR (dist_base g) (irq_of vector g)) (irq_bit vector);;
  writel (GIC_CPU_EOI (cpu_base g)) (irq_of vector g).

(** [isr_table[i]]; an index outside the table faults. *)
Definition isr_read (i : Z) : M sk_irq_desc := fun s =>
  if 0 <=? i then lift_option (isr_table s !! Z.to_nat i) s else Fault.
Definition isr_write (i : Z) (d : sk_irq_desc) : M unit :=
  isr_read i;; modify (upd_io (set_io_isr (<[Z.to_nat i := d]>))).

Definition sk_hw_interrupt_install (vector hdl param : Z) : M Z :=
  if vector <? GIC_MAX_HANDLERS then
    d ← isr_read vector;
    when_ (negb (hdl =? SK_NULL)) (isr_write vector (mk_irq hdl param));;
    mret (handler d)
  else mret SK_NULL.

(** [for(; i < max; i += step) REG(base, i) = v;] *)
Fixpoint reg_loop (fuel : nat) (reg : Z -> Z) (i max step v : Z) : M unit :=
  match fuel with
  | O => spin
  | S fuel =>
      if i <? max then writel (reg i) v;; reg_loop fuel reg (u32 (i + step)) max step v
      else mret tt
  end.

Definition gic_dist_init (hw : hardware) (index base irq_start : Z) : M Z :=
  upd_gic (fun g => mk_gic (offset g) base (cpu_base g));;
  upd_gic (fun g => mk_gic irq_start (dist_base g) (cpu_base g));;
  gic_type ← readl hw (GIC_DIST_TYPE base);
  let gic_max_irq := u32 (((gic_type & 0x1F) + 1) * 32) in
  let gic_max_irq := if 1020 <? gic_max_irq then 1020 else gic_max_irq in
  let cpu_mask := 1 in
  let cpu_mask := u64 (cpu_mask ||| Z.shiftl cpu_mask 8) in
  let cpu_mask := u64 (cpu_mask ||| Z.shiftl cpu_mask 16) in
  let cpu_mask := u64 (cpu_mask ||| Z.shiftl cpu_mask 24) in
  let fuel := S (Z.to_nat gic_max_irq) in
  writel (GIC_DIST_CTRL base) 0x0;;
  reg_loop fuel (GIC_DIST_CONFIG base) 32 gic_max_irq 16 0x0;;
  reg_loop fuel (GIC_DIST_TARGET base) 32 gic_max_irq 4 cpu_mask;;
  reg_loop fuel (GIC_DIST_PRI base) 0 gic_max_irq 4 0xa0a0a0a0;;
  reg_loop fuel (GIC_DIST_ENABLE_CLEAR base) 0 gic_max_irq 32 0xffffffff;;
  reg_loop fuel (GIC_DIST_IGROUP base) 0 gic_max_irq 32 0x0;;
  writel (GIC_DIST_CTRL base) 0x01;;
  mret 0.

Definition gic_cpu_init (index base : Z) : M Z :=
  upd_gic (fun g => mk_gic (offset g) (dist_base g) base);;
  writel (GIC_CPU_PRIMASK base) 0xF0;;
  writel (GIC_CPU_BINPOINT base) 0x7;;
  writel (GIC_CPU_CTRL base) 0x01;;
  mret 0.

(** [system_vectors] is the address of the vector table. *)
Definition sk_hw_vector_init (system_vectors : Z) : M unit := msr VBAR_EL1 system_vectors.

Definition sk_hw_interrupt_init (hw : hardware) (system_vectors : Z) : M unit :=
  sk_hw_vector_init system_vectors;;
  gic_dist_init hw 0 GIC_DIST_BASE GIC_IRQ_START;;
  gic_cpu_init 0 GIC_CPU_BASE;;
  mret tt.

(** [isr_func] stands for the handlers, called with their address. *)
Definition sk_hw_trap_irq (hw : hardware) (isr_func : Z -> Z -> Z -> M unit) : M unit :=
  irq ← sk_hw_interrupt_get_irq hw;
  if irq =? 1023 then mret tt
  else
    d ← isr_read irq;
    when_ (negb (handler d =? SK_NULL)) (isr_func (handler d) irq (irq_param d));;
    sk_hw_interrupt_ack irq.

Definition sk_hw_trap_fiq (hw : hardware) (isr_func : Z -> Z -> Z -> M unit) : M unit :=
  sk_hw_trap_irq hw isr_func.

(** The handler of other exceptions ends in [while(1)] if interrupts were off. *)
Definition sk_hw_trap_error : M unit :=
  level ← hw_interrupt_disable;
  if u32 level =? 0 then mret tt else fun s => NoReturn s.

(** ** The loops over registers *)

Fixpoint steps (fuel : nat) (i max step : Z) : list Z :=
  match fuel with
  | O => []
  | S fuel => if i <? max then i :: steps fuel (i + step) max step else []
  end.

Lemma steps_spec max step fuel : forall i j,
  0 < step -> max - i <= Z.of_nat fuel ->
  j ∈ steps fuel i max step <-> i <= j < max /\ (j - i) mod step = 0.
Proof.
  induction fuel as [|fuel IH]; intros i j Hs Hf; simpl.
  { split; [by intros ?%not_elem_of_nil|intros [? _]; lia]. }
  destruct (Z.ltb_spec i max).
  - rewrite elem_of_cons, IH by lia. replace (j - i) with (j - (i + step) + 1 * step) by lia.
    rewrite Z.mod_add by lia. split.
    + intros [->|[? ?]]; [|lia]. split; [lia|]. replace (i - (i + step)) with (-1 * step) by lia.
      by apply Z.mod_mul; lia.
    + intros [Hj Hm]. destruct (decide (j = i)); [by left|]. right. split; [|done].
      apply Z.mod_divide in Hm as [q Hq]; [|lia].
      assert (0 < (q + 1) * step) as Hq1 by lia. apply Z.mul_pos_cancel_r in Hq1; [nia|lia].
  - split; [by intros ?%not_elem_of_nil|intros [? _]; lia].
Qed.

(** With fuel for every step, the loop makes its stores and returns. *)
Lemma reg_loop_spec reg max step v fuel : forall i s,
  0 < step -> 0 <= i -> max + step < 2 ^ 32 -> i < max + step -> max - i < Z.of_nat fuel -> (0 < fuel)%nat ->
  reg_loop fuel reg i max step v s =
    Done (upd_bus (fun b => b ++ ((fun j => BusWrite (reg j) (u32 v)) <$> steps fuel i max step)) s) tt.
Proof.
  induction fuel as [|fuel IH]; intros i s Hs Hi Hm Hlt Hf Hpos; [lia|].
  simpl reg_loop. simpl steps. destruct (Z.ltb_spec i max).
  - erewrite bind_done by reflexivity. rewrite uint_small by lia. rewrite IH by lia.
    by rewrite upd_bus_app.
  - simpl fmap. by rewrite upd_bus_nil.
Qed.

(** Interrupts of one register word give the same register. *)
Lemma gic_dist_word first per base i j :
  0 < per -> 0 <= i < 2 ^ 32 -> 0 <= j < 2 ^ 32 -> i / per = j / per ->
  gic_dist first per base i = gic_dist first per base j.
Proof. intros. unfold gic_dist. rewrite !(uint_small 32) by lia. congruence. Qed.

(** Every interrupt of the range has its register among the stores. *)
Lemma reg_covered first per base fuel lo max v irq :
  0 < per -> 0 <= lo -> lo mod per = 0 -> max < 2 ^ 32 -> max - lo <= Z.of_nat fuel -> lo <= irq < max ->
  BusWrite (gic_dist first per base irq) v ∈
    (fun j => BusWrite (gic_dist first per base j) v) <$> steps fuel lo max per.
Proof.
  intros Hp Hlo Hmod Hmax Hf Hirq. apply list_elem_of_fmap. exists (per * (irq / per)).
  apply Z.mod_divide in Hmod as [q ->]; [|lia].
  pose proof (Z.div_mod irq per ltac:(lia)). pose proof (Z.mod_pos_bound irq per Hp).
  assert (q <= irq / per) by (apply Z.div_le_lower_bound; lia). split.
  - f_equal. apply gic_dist_word; [done|lia|nia|]. rewrite Z.mul_comm, Z.div_mul; lia.
  - apply steps_spec; [done|done|]. split; [nia|].
    replace (per * (irq / per) - q * per) with ((irq / per - q) * per) by lia. apply Z.mod_mul. lia.
Qed.

(** The stores of a loop stay off the control register. *)
Lemma reg_not_ctrl first per base fuel lo max v a w :
  0 < per -> 0 <= lo -> max < 2 ^ 12 -> 0 <= base < 2 ^ 40 -> 0 < first < 2 ^ 12 ->
  max - lo <= Z.of_nat fuel ->
  BusWrite a w ∈ (fun j => BusWrite (gic_dist first per base j) v) <$> steps fuel lo max per ->
  a <> GIC_DIST_CTRL base.
Proof.
  intros Hp Hlo Hmax Hb Hfi Hf (j & [= -> ->] & Hj)%list_elem_of_fmap.
  apply steps_spec in Hj as [Hj _]; [|done|done].
  unfold gic_dist, GIC_DIST_CTRL. rewrite (uint_small 32) by lia.
  pose proof (Z.div_pos j per ltac:(lia) Hp). pose proof (Z.div_le_upper_bound j per j Hp ltac:(nia)).
  rewrite !uint_small by lia. lia.
Qed.

(** ** Properties *)

(** The number of interrupts the controller reports, at most 1020. *)
Definition gic_irqs (gic_type : Z) : Z := Z.min 1020 (((gic_type & 0x1F) + 1) * 32).

Lemma gic_irqs_eq t :
  0 <= t ->
  let n := u32 (((t & 0x1F) + 1) * 32) in (if 1020 <? n then 1020 else n) = gic_irqs t /\ 32 <= gic_irqs t <= 1020.
Proof.
  intros Ht. assert (0 <= (t & 0x1F) < 32) as Hr.
  { change 0x1F with (Z.ones 5). rewrite Z.land_ones by lia. apply Z.mod_pos_bound. lia. }
  unfold gic_irqs. rewrite uint_small by lia. cbv zeta. case_bool; lia.
Qed.

(** The accesses between turning forwarding off and on. *)
Definition dist_accesses (base n : Z) : list access :=
  let fuel := S (Z.to_nat n) in
  let loop reg lo step v := (fun j => BusWrite (reg base j) v) <$> steps fuel lo n step in
  loop GIC_DIST_CONFIG 32 16 0 ++ loop GIC_DIST_TARGET 32 4 0x01010101 ++
  loop GIC_DIST_PRI 0 4 0xa0a0a0a0 ++ loop GIC_DIST_ENABLE_CLEAR 0 32 0xffffffff ++
  loop GIC_DIST_IGROUP 0 32 0.

Lemma gic_dist_init_run hw index base start s :
  let t := u32 (hw (io_accesses s) (GIC_DIST_TYPE base)) in
  gic_dist_init hw index base start s =
    Done (upd_bus (fun b => b ++ BusRead (GIC_DIST_TYPE base) t :: BusWrite (GIC_DIST_CTRL base) 0 ::
        dist_accesses base (gic_irqs t) ++ [BusWrite (GIC_DIST_CTRL base) 1])
      (upd_io (set_io_gic (fun g => mk_gic start base (cpu_base g))) s)) 0.
Proof.
  intros t. pose proof (uint_range 32 (hw (io_accesses s) (GIC_DIST_TYPE base)) ltac:(lia)) as Ht. fold t in Ht.
  destruct (gic_irqs_eq t ltac:(lia)) as [Hn Hr].
  unfold gic_dist_init. do 2 (erewrite bind_done by reflexivity).
  erewrite bind_done by reflexivity. cbv beta zeta. change (u32 (hw _ (GIC_DIST_TYPE base))) with t.
  rewrite Hn. erewrite bind_done by reflexivity.
  do 5 (erewrite bind_done by (apply reg_loop_spec; lia)). erewrite bind_done by reflexivity.
  rewrite !upd_bus_app. unfold dist_accesses. cbv zeta. rewrite <- !app_assoc. reflexivity.
Qed.

(** Initialisation of the distributor.  It turns forwarding off, then gives
    every interrupt the controller reports its priority and group and disables
    it, makes every shared interrupt level triggered and targets it at the first
    processor, and turns forwarding on at the very end. *)
Theorem gic_dist_init_covers hw index base start s :
  0 <= base < 2 ^ 40 ->
  let t := u32 (hw (io_accesses s) (GIC_DIST_TYPE base)) in
  exists s' mid, gic_dist_init hw index base start s = Done s' 0 /\
    gic_ctl s' = mk_gic start base (cpu_base (gic_ctl s)) /\
    io_accesses s' = io_accesses s ++ BusRead (GIC_DIST_TYPE base) t :: BusWrite (GIC_DIST_CTRL base) 0 ::
      mid ++ [BusWrite (GIC_DIST_CTRL base) 1] /\
    (forall a v, BusWrite a v ∈ mid -> a <> GIC_DIST_CTRL base) /\
    (forall irq, 0 <= irq < gic_irqs t ->
      BusWrite (GIC_DIST_PRI base irq) 0xa0a0a0a0 ∈ mid /\
      BusWrite (GIC_DIST_ENABLE_CLEAR base irq) 0xffffffff ∈ mid /\
      BusWrite (GIC_DIST_IGROUP base irq) 0 ∈ mid) /\
    (forall irq, 32 <= irq < gic_irqs t ->
      BusWrite (GIC_DIST_CONFIG base irq) 0 ∈ mid /\
      BusWrite (GIC_DIST_TARGET base irq) 0x01010101 ∈ mid).
Proof.
  intros Hb t. pose proof (uint_range 32 (hw (io_accesses s) (GIC_DIST_TYPE base)) ltac:(lia)) as Ht. fold t in Ht.
  destruct (gic_irqs_eq t ltac:(lia)) as [Hn Hr]. set (n := gic_irqs t) in *. set (fuel := S (Z.to_nat n)).
  eexists _, (dist_accesses base n). unfold dist_accesses. fold fuel. cbv zeta. split_and!.
  - apply gic_dist_init_run.
  - done.
  - reflexivity.
  - intros a v. rewrite !elem_of_app.
    intros [H|[H|[H|[H|H]]]]; (eapply reg_not_ctrl; [..|exact H]; unfold fuel; lia).
  - intros irq Hirq. rewrite !elem_of_app.
    assert (forall first per v, 0 < per -> BusWrite (gic_dist first per base irq) v ∈
      (fun j => BusWrite (gic_dist first per base j) v) <$> steps fuel 0 n per) as H
      by (intros; apply reg_covered; unfold fuel; try lia; done).
    split_and!; [do 2 right; left|do 3 right; left|do 4 right]; apply H; lia.
  - intros irq Hirq. rewrite !elem_of_app.
    assert (forall first per v, 0 < per -> 32 mod per = 0 -> BusWrite (gic_dist first per base irq) v ∈
      (fun j => BusWrite (gic_dist first per base j) v) <$> steps fuel 32 n per) as H
      by (intros; apply reg_covered; unfold fuel; try lia; done).
    split; [left|right; left]; apply H; done || lia.
Qed.

Lemma irq_bit_eq v : 0 <= v < 2 ^ 31 -> irq_bit v = 2 ^ (v mod 32).
Proof.
  intros. unfold irq_bit. rewrite (uint_small 32 v), Z.shiftl_1_l by lia.
  pose proof (Z.mod_pos_bound v 32 ltac:(lia)). apply uint_small. split; [lia|].
  apply Z.pow_lt_mono_r; lia.
Qed.

Lemma irq_of_eq v g : offset g = 0 -> 0 <= v < 2 ^ 31 -> irq_of v g = v.
Proof.
  intros Hg Hv. unfold irq_of. rewrite Hg, Z.sub_0_r, uint_small by lia. apply sint_small; lia.
Qed.

(** The stores that end an interrupt. *)
Definition ack_writes (v : Z) (g : gic_info) : list access :=
  [BusWrite (u64 (dist_base g + 0x280 + v / 32 * 4)) (2 ^ (v mod 32)); BusWrite (u64 (cpu_base g + 0x10)) v].

Lemma ack_spec v s :
  offset (gic_ctl s) = 0 -> 0 <= v < 2 ^ 31 ->
  sk_hw_interrupt_ack v s = Done (upd_bus (fun b => b ++ ack_writes v (gic_ctl s)) s) tt.
Proof.
  intros Hg Hv. unfold sk_hw_interrupt_ack. erewrite bind_done by reflexivity.
  rewrite irq_of_eq, irq_bit_eq by done. erewrite bind_done by reflexivity.
  unfold writel, record, modify. rewrite upd_bus_app. unfold ack_writes, GIC_DIST_PENDING_CLEAR, gic_dist.
  rewrite (uint_small 32 v) by lia. pose proof (Z.mod_pos_bound v 32 ltac:(lia)).
  rewrite (uint_small 32 (2 ^ _)) by (split; [lia|apply Z.pow_lt_mono_r; lia]). done.
Qed.

Lemma get_irq_spec hw s :
  offset (gic_ctl s) = 0 ->
  let v := u32 (hw (io_accesses s) (GIC_CPU_INTACK (cpu_base (gic_ctl s)))) in
  v < 2 ^ 31 ->
  sk_hw_interrupt_get_irq hw s =
    Done (upd_bus (fun b => b ++ [BusRead (GIC_CPU_INTACK (cpu_base (gic_ctl s))) v]) s) v.
Proof.
  intros Hg v Hv. unfold sk_hw_interrupt_get_irq. erewrite bind_done by reflexivity.
  erewrite bind_done by reflexivity. fold v. rewrite Hg, Z.add_0_r.
  pose proof (uint_range 32 (hw (io_accesses s) (GIC_CPU_INTACK (cpu_base (gic_ctl s)))) ltac:(lia)) as Hr.
  fold v in Hr. rewrite (sint_small 32 v) by lia. by rewrite (sint_small 32 v) by lia.
Qed.

(** Dispatch of an interrupt.  The handler of the acknowledged interrupt
    runs with its parameter, if there is one, and then the interrupt is ended at
    the distributor and at the processor interface; the number 1023 (nothing
    pending) does neither.  A number from 96 on is not checked and reads past
    the table. *)
Theorem trap_irq_dispatches hw isr_func s :
  offset (gic_ctl s) = 0 -> length (isr_table s) = 96%nat ->
  let v := u32 (hw (io_accesses s) (GIC_CPU_INTACK (cpu_base (gic_ctl s)))) in
  let s1 := upd_bus (fun b => b ++ [BusRead (GIC_CPU_INTACK (cpu_base (gic_ctl s))) v]) s in
  let ended s := upd_bus (fun b => b ++ ack_writes v (gic_ctl s)) s in
  v < 2 ^ 31 ->
  (v = 1023 -> sk_hw_trap_irq hw isr_func s = Done s1 tt) /\
  (v <> 1023 -> GIC_MAX_HANDLERS <= v -> sk_hw_trap_irq hw isr_func s = Fault) /\
  (forall d, isr_table s !! Z.to_nat v = Some d -> v < GIC_MAX_HANDLERS ->
    (handler d = SK_NULL -> sk_hw_trap_irq hw isr_func s = Done (ended s1) tt) /\
    (handler d <> SK_NULL -> forall s2, isr_func (handler d) v (irq_param d) s1 = Done s2 tt ->
      offset (gic_ctl s2) = 0 -> sk_hw_trap_irq hw isr_func s = Done (ended s2) tt)).
Proof.
  intros Hg Hlen v s1 ended Hv. unfold GIC_MAX_HANDLERS.
  pose proof (uint_range 32 (hw (io_accesses s) (GIC_CPU_INTACK (cpu_base (gic_ctl s)))) ltac:(lia)) as Hr.
  fold v in Hr. pose proof (get_irq_spec hw s Hg Hv) as E. fold v s1 in E.
  assert (forall d, isr_table s !! Z.to_nat v = Some d -> isr_read v s1 = Done s1 d) as Hread.
  { intros d Hd. unfold isr_read. replace (0 <=? v) with true by lia.
    change (isr_table s1) with (isr_table s). by rewrite Hd. }
  unfold sk_hw_trap_irq. split; [|split].
  - intros E1. kstep E. by rewrite E1.
  - intros Hne Hge. kstep E. rewrite (proj2 (Z.eqb_neq v 1023) Hne). unfold mbind, M_bind, isr_read.
    replace (0 <=? v) with true by lia. change (isr_table s1) with (isr_table s).
    rewrite lookup_ge_None_2 by lia. done.
  - intros d Hd Hlt. split.
    + intros Hn. kstep E. rewrite (proj2 (Z.eqb_neq v 1023)) by lia. kstep (Hread d Hd). rewrite Hn.
      erewrite bind_done by reflexivity. apply ack_spec; [done|lia].
    + intros Hn s2 Hisr Hg2. kstep E. rewrite (proj2 (Z.eqb_neq v 1023)) by lia. kstep (Hread d Hd).
      rewrite (proj2 (Z.eqb_neq _ _) Hn). kstep Hisr. apply ack_spec; [done|lia].
Qed.

(** Installing a handler returns the handler that was there, replaces
    exactly the entry of the interrupt unless the new handler is NULL, and does
    nothing for a number from 96 on; a negative number is not checked and
    addresses a place before the table. *)
Theorem interrupt_install_correct vector hdl param s :
  length (isr_table s) = 96%nat ->
  (GIC_MAX_HANDLERS <= vector -> sk_hw_interrupt_install vector hdl param s = Done s SK_NULL) /\
  (vector < 0 -> sk_hw_interrupt_install vector hdl param s = Fault) /\
  (0 <= vector < GIC_MAX_HANDLERS -> exists d s', isr_table s !! Z.to_nat vector = Some d /\
    sk_hw_interrupt_install vector hdl param s = Done s' (handler d) /\
    isr_table s' = (if hdl =? SK_NULL then isr_table s
                    else <[Z.to_nat vector := mk_irq hdl param]> (isr_table s)) /\
    length (isr_table s') = 96%nat).
Proof.
  intros Hlen. unfold sk_hw_interrupt_install, GIC_MAX_HANDLERS. split; [|split].
  - intros Hv. by replace (vector <? 96) with false by lia.
  - intros Hv. replace (vector <? 96) with true by lia. unfold mbind, M_bind, isr_read.
    by replace (0 <=? vector) with false by lia.
  - intros Hv. replace (vector <? 96) with true by lia.
    destruct (lookup_lt_is_Some_2 (isr_table s) (Z.to_nat vector)) as [d Hd]; [lia|].
    assert (isr_read vector s = Done s d) as Hread.
    { unfold isr_read. replace (0 <=? vector) with true by lia. by rewrite Hd. }
    exists d. destruct (Z.eqb_spec hdl SK_NULL) as [->|Hne].
    + exists s. split; [done|]. split; [|done]. kstep Hread. done.
    + exists (upd_io (set_io_isr (<[Z.to_nat vector := mk_irq hdl param]>)) s).
      split; [done|]. split; [|split; [reflexivity|exact (eq_trans (length_insert _ _ _) Hlen)]].
      kstep Hread. unfold when_, isr_write. kif. erewrite bind_done; [reflexivity|].
      kstep Hread. reflexivity.
Qed.

(** Masking and unmasking an interrupt store into the word of the
    interrupt the one bit that is its own: from the register and the value the
    number can be told, so that no other interrupt is affected. *)
Theorem interrupt_mask_own_bit v s :
  offset (gic_ctl s) = 0 -> 0 <= v < 1020 -> 0 <= dist_base (gic_ctl s) < 2 ^ 40 ->
  let base := dist_base (gic_ctl s) in
  exists w k, 32 * w + k = v /\ 0 <= k < 32 /\
    sk_hw_interrupt_mask v s = Done (upd_bus (fun b => b ++ [BusWrite (base + 0x180 + 4 * w) (2 ^ k)]) s) tt /\
    sk_hw_interrupt_umask v s = Done (upd_bus (fun b => b ++ [BusWrite (base + 0x100 + 4 * w) (2 ^ k)]) s) tt.
Proof.
  intros Hg Hv Hb base. exists (v / 32), (v mod 32).
  pose proof (Z.div_mod v 32 ltac:(lia)). pose proof (Z.mod_pos_bound v 32 ltac:(lia)).
  pose proof (Z.div_pos v 32 ltac:(lia) ltac:(lia)).
  assert (2 ^ (v mod 32) < 2 ^ 32) by (apply Z.pow_lt_mono_r; lia).
  split; [lia|]. split; [lia|].
  split; [unfold sk_hw_interrupt_mask|unfold sk_hw_interrupt_umask]; erewrite bind_done by reflexivity;
    rewrite irq_of_eq, irq_bit_eq by (done || lia); unfold writel, record, modify;
    unfold GIC_DIST_ENABLE_CLEAR, GIC_DIST_ENABLE_SET, gic_dist; fold base;
    rewrite (uint_small 32 v), (uint_small 32 (2 ^ _)), uint_small by lia;
    by rewrite (Z.mul_comm _ 4).
Qed.
