(* ===== verification/Board.v ===== *)
(** * Board: [src/bsp/driver/drv_uart.c] and the timer hardware

    The PL011 driver as an instance of [SerialPort], its initialisation, and the
    generic timer of [src/init/sys_tick.c].  The theorems at the end follow a
    message from [sk_kprintf] through the device layer, the serial framework
    and the driver to the data register of the UART. *)

From S2P Require Import Prelude BaseDef RingBuffer KList Slab IoDef Kernel Sched KObj Timer.
From S2P Require Import Device Console Bus Serial Intc.

Local Open Scope c_scope.

(** ** The UART driver *)

Record sk_uart_device := mk_uart { hw_base : Z; irq_num : Z }.

Definition PL011_UART_DR : Z := 0x000.
Definition PL011_UART0_BASE : Z := 0x09000000.
Definition VIRTIO_SPI_IRQ_BASE : Z := 32.
Definition PL011_UART0_IRQ_NUM : Z := VIRTIO_SPI_IRQ_BASE + 1.

Definition __uart_device : sk_uart_device := mk_uart PL011_UART0_BASE PL011_UART0_IRQ_NUM.

Section uart.
Context (hw : hardware) (uart_at : Z -> option sk_uart_device).

(** [(struct sk_uart_device * )serial->parent.user_data] *)
Definition uart_of (serial : Z) : M sk_uart_device :=
  d ← get_dev serial; lift_option (uart_at (dev_user_data d)).

Definition uart_getc (serial : Z) : M Z :=
  uart ← uart_of serial;
  fr ← readl hw (hw_base uart + 0x18);
  if fr & Z.shiftl 1 4 =? 0 then ch ← readl hw (hw_base uart); mret (s32 ch)
  else mret (-1).

(** [c] is a [char], unsigned on aarch64. *)
Definition uart_putc (serial c : Z) : M Z :=
  uart ← uart_of serial;
  writel (hw_base uart + PL011_UART_DR) (u8 c);;
  mret 1.

(** [while(size--) uart_putc(serial, buf[index++]);] *)
Fixpoint uart_transmit_loop (size : nat) (serial buf index : Z) : M unit :=
  match size with
  | O => mret tt
  | S size =>
      c ← gets (fun s => mget (ks_mem s) (buf + index));
      uart_putc serial c;;
      uart_transmit_loop size serial buf (index + 1)
  end.

Definition uart_transmit (serial buf size : Z) : M Z :=
  uart_transmit_loop (Z.to_nat size) serial buf 0;; mret 0.

Definition uart_configure (serial : Z) : M Z :=
  uart ← uart_of serial;
  val ← readl hw (hw_base uart + 0x38);
  writel (hw_base uart + 0x38) (val ||| 0x10);;
  mret SK_EOK.

Definition uart_control (serial cmd arg : Z) : M Z := mret SK_EOK.

Definition __uart_ops : sk_serial_ops := mk_serial_ops (Some uart_configure) uart_putc uart_getc uart_transmit.

Definition sk_hw_uart_isr (sops_at : Z -> option sk_serial_ops) (indicate : Z -> Z -> Z -> M Z) (fuel : nat)
  (irqno param : Z) : M unit :=
  sk_hw_serial_isr sops_at indicate fuel param SK_SERIAL_EVENT_RX_IND.

End uart.

(** Addresses of the driver's static data and code: [__serial0],
    [__uart_device], [__uart_ops], [serial_ops], the string [uart0] and the
    function [sk_hw_uart_isr]. *)
Record uart_statics := mk_uart_statics {
  us_serial : Z;
  us_uart : Z;
  us_uart_ops : Z;
  us_serial_ops : Z;
  us_name : Z;
  us_isr : Z
}.

Definition sk_hw_uart_init (a : uart_statics) : M Z :=
  upd_serial (us_serial a) (fun x => mk_serial (us_uart_ops a) (serial_config x) (serial_rx x) (serial_tx x));;
  upd_serial (us_serial a) (fun x => mk_serial (serial_ops_ptr x) SK_DEFAULT_SERIAL_CONFIG (serial_rx x) (serial_tx x));;
  sk_hw_serial_register (us_serial_ops a) (us_serial a) (us_name a) 0 (us_uart a);;
  sk_hw_interrupt_install (irq_num __uart_device) (us_isr a) (us_serial a);;
  sk_hw_interrupt_umask (irq_num __uart_device);;
  mret 0.

(** ** The timer *)

Definition HW_TIMER_VECTOR_NUM : Z := 27.

Definition timer_regs (s : kstate) : timer_reg := io_timer (ks_io s).
Definition upd_timer_regs (g : timer_reg -> timer_reg) : M unit := modify (upd_io (set_io_timer g)).

Definition sk_hw_timer_isr (timeout : Z -> Z -> M unit) (fuel : nat) (vector param : Z) : M unit :=
  upd_timer_regs (fun t => mk_timer_reg (u64 (timer_val t + timer_step t)) (timer_step t));;
  t ← gets timer_regs;
  msr CNTV_CVAL_EL0 (timer_val t);;
  sk_tick_increase timeout fuel.

(** [frequency] is what the register [CNTFRQ_EL0] holds. *)
Definition sk_hw_timer_init (isr frequency : Z) : M Z :=
  sk_hw_interrupt_install HW_TIMER_VECTOR_NUM isr SK_NULL;;
  sk_hw_interrupt_umask HW_TIMER_VECTOR_NUM;;
  msr CNTV_CTL_EL0 0;;
  v ← mrs CNTFRQ_EL0 frequency;
  upd_timer_regs (fun t => mk_timer_reg (timer_val t) v);;
  upd_timer_regs (fun t => mk_timer_reg (timer_val t) (timer_step t / TICK_PER_SECOND));;
  upd_timer_regs (fun t => mk_timer_reg (timer_step t) (timer_step t));;
  t ← gets timer_regs;
  msr CNTV_CVAL_EL0 (timer_val t);;
  msr CNTV_CTL_EL0 1;;
  mret 0.

(** ** The driver is a serial port *)

Section uart_port.
Context (hw : hardware) (uart_at : Z -> option sk_uart_device) (serial data : Z) (uart : sk_uart_device).
Context (uart_is : uart_at data = Some uart).

Lemma uart_of_ok s d :
  ks_devices s !! serial = Some d -> dev_user_data d = data -> uart_of uart_at serial s = Done s uart.
Proof.
  intros Hd Hu. unfold uart_of, get_dev. erewrite bind_done by (by apply read_at_ok).
  by rewrite Hu, uart_is.
Qed.

(** A receive reads the flag register, and the data register only if it says
    that there is data. *)
Definition uart_receive (b : list access) : list access * Z :=
  let fr := u32 (hw b (hw_base uart + 0x18)) in
  let b := b ++ [BusRead (hw_base uart + 0x18) fr] in
  if fr & Z.shiftl 1 4 =? 0 then
    let v := u32 (hw b (hw_base uart)) in (b ++ [BusRead (hw_base uart) v], s32 v)
  else (b, -1).

(** A transmission stores the bytes into the data register, one by one. *)
Definition uart_send (l : list Z) (b : list access) : list access :=
  b ++ ((fun c => BusWrite (hw_base uart + PL011_UART_DR) (u8 c)) <$> l).

Definition uart_enable_rx (b : list access) : list access :=
  let v := u32 (hw b (hw_base uart + 0x38)) in
  b ++ [BusRead (hw_base uart + 0x38) v; BusWrite (hw_base uart + 0x38) (u32 (v ||| 0x10))].

Lemma uart_transmit_loop_spec buf n : forall index s d,
  ks_devices s !! serial = Some d -> dev_user_data d = data ->
  uart_transmit_loop uart_at n serial buf index s =
    Done (upd_bus (uart_send (bytes (ks_mem s) (buf + index) (Z.of_nat n))) s) tt.
Proof.
  induction n as [|n IH]; intros index s d Hd Hu.
  { simpl. unfold uart_send. simpl. by rewrite upd_bus_nil. }
  simpl uart_transmit_loop. erewrite bind_done by reflexivity. unfold uart_putc.
  set (c := (ks_mem s).[buf + index]).
  erewrite bind_done.
  2:{ erewrite bind_done by (by eapply uart_of_ok). erewrite bind_done by reflexivity. reflexivity. }
  rewrite (IH _ _ d) by done. unfold uart_send. rewrite upd_bus_app.
  rewrite Nat2Z.inj_succ, <- Z.add_1_l, bytes_app, fmap_app by lia.
  assert (u32 (u8 c) = u8 c) as Hc.
  { apply uint_small. pose proof (uint_range 8 c ltac:(lia)). lia. }
  rewrite Hc. replace (buf + (index + 1)) with (buf + index + 1) by lia.
  unfold bytes at 2. change (seqZ 0 1) with [0]. simpl. by rewrite (Z.add_0_r (buf + index)).
Qed.

#[export] Instance uart_port : SerialPort (__uart_ops hw uart_at) serial data.
Proof.
  refine {| sp_getc := uart_receive; sp_send := uart_send; sp_conf := uart_enable_rx |}.
  - intros s d Hd Hu. simpl. unfold uart_getc. erewrite bind_done by (by eapply uart_of_ok).
    erewrite bind_done by reflexivity. unfold uart_receive. cbv zeta.
    destruct (_ =? 0) eqn:E.
    + erewrite bind_done by reflexivity. rewrite upd_bus_twice. unfold mret, M_ret. f_equal.
      unfold upd_bus, upd_io, set_io_bus, io_accesses in *. simpl in *. by rewrite E.
    + unfold mret, M_ret. f_equal. unfold upd_bus, upd_io, set_io_bus, io_accesses in *. simpl in *.
      by rewrite E.
  - intros s d buf n Hd Hu. simpl. unfold uart_transmit.
    erewrite bind_done by (by eapply uart_transmit_loop_spec). rewrite Z.add_0_r. unfold bytes.
    destruct (Z.le_gt_cases 0 n); [by rewrite Z2Nat.id|].
    replace (seqZ 0 n) with (@nil Z) by (unfold seqZ; rewrite Z2Nat.nonpos by lia; done).
    by rewrite Z2Nat.nonpos by lia.
  - intros s d Hd Hu. simpl. unfold uart_configure. erewrite bind_done by (by eapply uart_of_ok).
    erewrite bind_done by reflexivity. erewrite bind_done by reflexivity. rewrite upd_bus_app. done.
Defined.

End uart_port.

(** ** A message on its way to the wire *)

(** [serial] is an open device of the registry whose driver is the serial
    framework. *)
Definition open_serial (ops_at : Z -> option sk_device_ops) (sops_at : Z -> option sk_serial_ops)
  (send_data serial : Z) (s : kstate) : Prop :=
  exists d fl, ks_objs s !! serial = Some (mk_object SK_OBJECT_DEVICE fl) /\
    ks_devices s !! serial = Some d /\ ref_cnt d <> 0 /\
    ops_at (dev_ops d) = Some (serial_ops sops_at send_data).

Lemma device_write_serial ops_at sops_at send_data serial pos buf size s :
  open_serial ops_at sops_at send_data serial s ->
  sk_device_write ops_at serial pos buf size s = sk_serial_write sops_at send_data serial pos buf size s.
Proof.
  intros (d & fl & Ho & Hd & Hr & Hops). unfold sk_device_write, get_obj.
  erewrite bind_done by (by apply read_at_ok). simpl. unfold get_dev at 1.
  erewrite bind_done by (by apply read_at_ok). rewrite (proj2 (Z.eqb_neq _ 0) Hr).
  by erewrite bind_done by (by eapply ops_of_ok).
Qed.

Section message.
Context (hw : hardware) (uart_at : Z -> option sk_uart_device) (ops_at : Z -> option sk_device_ops)
  (sops_at : Z -> option sk_serial_ops) (send_data serial data : Z) (uart : sk_uart_device).
Context (uart_is : uart_at data = Some uart).

(** The console is the serial device and its transmit ring is empty. *)
Definition console_ready (x : sk_serial_device) (t : sk_serial_tx_fifo) (s : kstate) : Prop :=
  console_device s = serial /\ serial <> SK_NULL /\ open_serial ops_at sops_at send_data serial s /\
  tx_holds sops_at (__uart_ops hw uart_at) serial data x t [] s.

(** Formatted output of any length up to the size of the console buffer. *)
Lemma kprintf_spec R sk_log_buf temp fmt f args out x t s :
  console_ready x t s ->
  (forall a, R a -> ~ (temp <= a < temp + 32)) ->
  (forall a, R a -> ~ (sk_log_buf <= a <= sk_log_buf + Z.of_nat (length out))) ->
  temp + 32 <= sk_log_buf \/ sk_log_buf + Z.of_nat (length out) < temp ->
  rstr R (ks_mem s) fmt f -> Forall (arg_ok R (ks_mem s)) args -> render f args = Some out ->
  0 < Z.of_nat (length out) <= SK_CONSOLE_BUF_SIZE -> Z.of_nat (length out) <= buffer_size (tx_rb t) ->
  apart (tx_rb t) sk_log_buf (Z.of_nat (length out)) -> apart (tx_rb t) send_data (Z.of_nat (length out)) ->
  exists s' t', sk_kprintf ops_at sk_log_buf temp fmt (raw_arg <$> args) s = Done s' tt /\
    io_accesses s' = io_accesses s ++ ((fun c => BusWrite (hw_base uart) (u8 c)) <$> out) /\
    console_ready x t' s' /\ buffer_size (tx_rb t') = buffer_size (tx_rb t) /\
    bytes (ks_mem s') send_data (Z.of_nat (length out)) = out.
Proof.
  intros (Hcon & Hnn & Hop & Htx) HRt HRo Hto Hf Ha Hr Hlen Hcap Hap Hap'.
  destruct (kprintf_calls_write ops_at R sk_log_buf temp fmt f args out s) as (m1 & Hb1 & _ & E1);
    try done; [lia|by rewrite Hcon|].
  set (s1 := upd_mem (fun _ => m1) s) in *. rewrite Hcon in E1.
  assert (tx_holds sops_at (__uart_ops hw uart_at) serial data x t [] s1) as Htx1.
  { destruct Htx as ([] & Ht & Hrb & Hc). split; [done|]. split; [done|]. split; [done|].
    destruct (empty_ring _ _ Hrb Hc) as [Hdl _]. unfold contents. by rewrite Hdl. }
  unfold SK_CONSOLE_BUF_SIZE in Hlen.
  destruct (serial_write_spec sops_at (__uart_ops hw uart_at) serial data
    (uart_port hw uart_at serial data uart uart_is) x t s1 send_data 0 sk_log_buf (Z.of_nat (length out)) Htx1)
    as (m2 & t' & E2 & Htx2 & Hb2 & Hs2 & Hby & _); [lia|done|by rewrite Z.min_l by lia|].
  rewrite Z.min_l in * by lia. change (ks_mem s1) with m1 in *. rewrite Hb1 in *.
  eexists _, t'. split.
  { rewrite E1. erewrite bind_done by (rewrite (device_write_serial ops_at sops_at send_data) by exact Hop; exact E2). done. }
  split.
  { change (io_accesses s ++ ((fun c => BusWrite (hw_base uart + PL011_UART_DR) (u8 c)) <$> out) =
      io_accesses s ++ ((fun c => BusWrite (hw_base uart) (u8 c)) <$> out)).
    unfold PL011_UART_DR. by rewrite Z.add_0_r. }
  split; [|split; [done|exact Hby]]. split; [done|]. split; [done|]. split; [exact Hop|exact Htx2].
Qed.

End message.

(** ** Properties *)

(** C34: a formatted message reaches the wire.  [sk_kprintf] on a console whose
    transmit ring is empty stores exactly the bytes of the rendered text, in
    order, into the data register of the UART and leaves the console ready for
    the next message: formatter, device layer, serial framework and driver
    together. *)
Theorem kprintf_reaches_uart hw uart_at ops_at sops_at send_data serial data uart R sk_log_buf temp fmt f args
    out x t s :
  uart_at data = Some uart -> console_ready hw uart_at ops_at sops_at send_data serial data x t s ->
  (forall a, R a -> ~ (temp <= a < temp + 32)) ->
  (forall a, R a -> ~ (sk_log_buf <= a <= sk_log_buf + Z.of_nat (length out))) ->
  temp + 32 <= sk_log_buf \/ sk_log_buf + Z.of_nat (length out) < temp ->
  rstr R (ks_mem s) fmt f -> Forall (arg_ok R (ks_mem s)) args -> render f args = Some out ->
  0 < Z.of_nat (length out) <= 64 -> 64 <= buffer_size (tx_rb t) ->
  apart (tx_rb t) sk_log_buf 64 -> apart (tx_rb t) send_data 64 ->
  exists s' t', sk_kprintf ops_at sk_log_buf temp fmt (raw_arg <$> args) s = Done s' tt /\
    io_accesses s' = io_accesses s ++ ((fun c => BusWrite (hw_base uart) (u8 c)) <$> out) /\
    console_ready hw uart_at ops_at sops_at send_data serial data x t' s'.
Proof.
  intros Hu Hc HRt HRo Hto Hf Ha Hr Hlen Hcap Hap Hap'. unfold apart in *.
  destruct (kprintf_spec hw uart_at ops_at sops_at send_data serial data uart Hu R sk_log_buf temp fmt f args out
    x t s) as (s' & t' & E & Hb & Hc' & _); try done; unfold SK_CONSOLE_BUF_SIZE, apart; try lia.
  by exists s', t'.
Qed.

(** A message of 65 to 128 bytes overruns the local array of 64 bytes in
    [sk_serial_write]: byte [i] of the message is stored at [send_data + i] also
    for [i] from 64 on. *)
Theorem long_message_overruns hw uart_at ops_at sops_at send_data serial data uart R sk_log_buf temp fmt f args
    out x t s :
  uart_at data = Some uart -> console_ready hw uart_at ops_at sops_at send_data serial data x t s ->
  (forall a, R a -> ~ (temp <= a < temp + 32)) ->
  (forall a, R a -> ~ (sk_log_buf <= a <= sk_log_buf + Z.of_nat (length out))) ->
  temp + 32 <= sk_log_buf \/ sk_log_buf + Z.of_nat (length out) < temp ->
  rstr R (ks_mem s) fmt f -> Forall (arg_ok R (ks_mem s)) args -> render f args = Some out ->
  64 < Z.of_nat (length out) <= SK_CONSOLE_BUF_SIZE -> SK_CONSOLE_BUF_SIZE <= buffer_size (tx_rb t) ->
  apart (tx_rb t) sk_log_buf SK_CONSOLE_BUF_SIZE -> apart (tx_rb t) send_data SK_CONSOLE_BUF_SIZE ->
  exists s', sk_kprintf ops_at sk_log_buf temp fmt (raw_arg <$> args) s = Done s' tt /\
    forall i c, (64 <= i)%nat -> out !! i = Some c -> (ks_mem s').[send_data + Z.of_nat i] = c.
Proof.
  unfold SK_CONSOLE_BUF_SIZE. intros Hu Hc HRt HRo Hto Hf Ha Hr Hlen Hcap Hap Hap'. unfold apart in *.
  destruct (kprintf_spec hw uart_at ops_at sops_at send_data serial data uart Hu R sk_log_buf temp fmt f args out
    x t s) as (s' & t' & E & _ & _ & _ & Hb); try done; unfold SK_CONSOLE_BUF_SIZE, apart; try lia.
  exists s'. split; [done|]. intros i c _ Hi. pose proof (lookup_lt_Some _ _ _ Hi).
  rewrite <- Hb, bytes_lookup in Hi by lia. by injection Hi.
Qed.

(** ** A concrete UART console *)

(** A UART that has received [input]: the flag register says whether a byte is
    left, a read of the data register takes one. *)
Definition dr_reads (b : list access) : nat :=
  length (filter (fun x => x.1 = true) ((fun x => if x is BusRead a _ then (a =? PL011_UART0_BASE, tt) else (false, tt)) <$> b)).

Definition demo_hw (input : list Z) : hardware := fun b a =>
  if a =? PL011_UART0_BASE then default 0 (input !! dr_reads b)
  else if a =? PL011_UART0_BASE + 0x18 then if decide (dr_reads b < length input)%nat then 0 else 16
  else 0.

Definition demo_uart (p : Z) : option sk_uart_device := if p =? 7200 then Some __uart_device else None.
Definition demo_sops (hw : hardware) (p : Z) : option sk_serial_ops :=
  if p =? 901 then Some (__uart_ops hw demo_uart) else None.
Definition demo_ops (hw : hardware) (p : Z) : option sk_device_ops :=
  if p =? 900 then Some (serial_ops (demo_sops hw) 8000) else None.

Definition demo_dev : sk_device := mk_device SK_DEVICE_CHAR 0x33 1 0 SK_NULL SK_NULL 900 7200.
Definition demo_serial : sk_serial_device := mk_serial 901 SK_DEFAULT_SERIAL_CONFIG 7300 7600.
Definition demo_rx : sk_ring_buffer := sk_ring_buffer_init (7300 + rx_buffer_offset) SK_SERIAL_RX_BUF_SIZE.
Definition demo_tx : sk_serial_tx_fifo :=
  mk_tx (sk_ring_buffer_init (7600 + tx_buffer_offset) SK_SERIAL_TX_BUF_SIZE) 0 0.

(** The long message is 70 times the letter a, at 9000. *)
Definition long_text : list Z := replicate 70 97.
Definition demo_mem : mem := fmt_mem ∪ list_to_map (zip (seqZ 9000 71) (long_text ++ [0])).

Definition demo_state : kstate :=
  upd_io (fun _ => mk_io {[7000 := demo_dev]} {[7000 := demo_serial]} {[7300 := mk_rx demo_rx]} {[7600 := demo_tx]}
    7000 (mk_gic 0 GIC_DIST_BASE GIC_CPU_BASE) (<[33%nat := mk_irq 77 7000]> (replicate 96 (mk_irq 0 0)))
    (mk_timer_reg 0 0) (io_vfs io_zero) [])
   (upd_mem (fun _ => demo_mem) (upd_objs (fun _ => {[7000 := mk_object SK_OBJECT_DEVICE 0]}) kstate_zero)).

Lemma demo_wf hw : serial_wf (demo_sops hw) (__uart_ops hw demo_uart) 7000 7200 demo_serial demo_state.
Proof. split; try done; simpl; unfold SK_SERIAL_RX_BUF_SIZE, SK_SERIAL_TX_BUF_SIZE; try lia. by exists demo_dev. Qed.

Lemma init_ring_wf buf size : 0 < size < 2 ^ 15 -> rb_wf (sk_ring_buffer_init buf size).
Proof.
  intros Hs. unfold sk_ring_buffer_init. rewrite uint_small, sint_small by (simpl; lia).
  split; simpl; lia.
Qed.

Lemma demo_rx_holds hw : rx_holds (demo_sops hw) (__uart_ops hw demo_uart) 7000 7200 demo_serial demo_rx [] demo_state.
Proof.
  split; [apply demo_wf|]. split; [done|]. split; [apply init_ring_wf; unfold SK_SERIAL_RX_BUF_SIZE; lia|done].
Qed.

Lemma demo_tx_holds hw : tx_holds (demo_sops hw) (__uart_ops hw demo_uart) 7000 7200 demo_serial demo_tx [] demo_state.
Proof.
  split; [apply demo_wf|]. split; [done|]. split; [apply init_ring_wf; unfold SK_SERIAL_TX_BUF_SIZE; lia|done].
Qed.

Lemma demo_ready hw : console_ready hw demo_uart (demo_ops hw) (demo_sops hw) 8000 7000 7200 demo_serial demo_tx demo_state.
Proof.
  split; [done|]. split; [done|]. split; [|apply demo_tx_holds]. by exists demo_dev, 0.
Qed.

Definition demo_port hw := uart_port hw demo_uart 7000 7200 __uart_device eq_refl.

(** The bytes 104 and 105 arrive. *)
Lemma demo_stream : exists b',
  stream (__uart_ops (demo_hw [104; 105]) demo_uart) 7000 7200 (P := demo_port (demo_hw [104; 105])) [] [104; 105] b'.
Proof.
  eexists. eapply (stream_more _ _ _ _ _ 104); [by vm_compute|done|].
  eapply (stream_more _ _ _ _ _ 105); [by vm_compute|done|]. apply stream_end. by vm_compute.
Qed.

Lemma serial_isr_queues_witness :
  exists b' m' rb',
    sk_hw_serial_isr (demo_sops (demo_hw [104; 105])) (fun _ _ _ => mret 0) 3 7000 SK_SERIAL_EVENT_RX_IND demo_state =
      Done (rx_state 7300 b' m' rb' demo_state) tt /\
    rx_holds (demo_sops (demo_hw [104; 105])) (__uart_ops (demo_hw [104; 105]) demo_uart) 7000 7200 demo_serial rb'
      [104; 105] (rx_state 7300 b' m' rb' demo_state) /\
    buffer rb' = buffer demo_rx /\ buffer_size rb' = buffer_size demo_rx /\ only_buffer demo_rx (ks_mem demo_state) m'.
Proof.
  destruct demo_stream as [b' Hst]. exists b'.
  apply (serial_isr_queues (demo_sops (demo_hw [104; 105])) (__uart_ops (demo_hw [104; 105]) demo_uart) 7000 7200
    (demo_port (demo_hw [104; 105])) (fun _ _ _ => mret 0) 3 demo_serial demo_rx [] demo_state [104; 105] b').
  - apply demo_rx_holds.
  - exact Hst.
  - simpl. lia.
Defined.

(** The state in which these two bytes are queued. *)
Definition demo_received : kstate :=
  match sk_hw_serial_isr (demo_sops (demo_hw [104; 105])) (fun _ _ _ => mret 0) 3 7000 SK_SERIAL_EVENT_RX_IND demo_state with
  | Done s _ => s
  | _ => demo_state
  end.

Definition demo_rx2 : sk_ring_buffer := set_write demo_rx 0 2.

Lemma demo_received_holds :
  rx_holds (demo_sops (demo_hw [104; 105])) (__uart_ops (demo_hw [104; 105]) demo_uart) 7000 7200 demo_serial demo_rx2
    [104; 105] demo_received.
Proof.
  split; [split|].
  - exists demo_dev. split; [by vm_compute|done].
  - by vm_compute.
  - reflexivity.
  - simpl. unfold SK_SERIAL_RX_BUF_SIZE. lia.
  - simpl. unfold SK_SERIAL_TX_BUF_SIZE. lia.
  - split; [by vm_compute|]. split; [split; vm_compute; intuition congruence|by vm_compute].
Qed.

Lemma serial_read_takes_witness :
  exists m' rb',
    sk_serial_read (demo_sops (demo_hw [104; 105])) 7000 0 9500 1 demo_received =
      Done (rx_state 7300 (io_accesses demo_received) m' rb' demo_received) 1 /\
    bytes m' 9500 1 = [104] /\
    rx_holds (demo_sops (demo_hw [104; 105])) (__uart_ops (demo_hw [104; 105]) demo_uart) 7000 7200 demo_serial rb'
      [105] (rx_state 7300 (io_accesses demo_received) m' rb' demo_received) /\
    buffer rb' = buffer demo_rx2 /\ buffer_size rb' = buffer_size demo_rx2 /\
    forall a, ~ (9500 <= a < 9500 + 1) -> m'.[a] = (ks_mem demo_received).[a].
Proof.
  apply (serial_read_takes _ _ 7000 7200 (demo_port (demo_hw [104; 105])) demo_serial demo_rx2 [104; 105]
    demo_received 0 9500 1).
  - apply demo_received_holds.
  - lia.
  - right. by vm_compute.
Defined.

Lemma serial_write_sends_witness :
  exists m' t',
    sk_serial_write (demo_sops (demo_hw [])) 8000 7000 0 200 2 demo_state =
      Done (tx_state 7600 [BusWrite PL011_UART0_BASE 98; BusWrite PL011_UART0_BASE 99] m' t' demo_state) 2 /\
    tx_holds (demo_sops (demo_hw [])) (__uart_ops (demo_hw []) demo_uart) 7000 7200 demo_serial t' []
      (tx_state 7600 [BusWrite PL011_UART0_BASE 98; BusWrite PL011_UART0_BASE 99] m' t' demo_state) /\
    buffer (tx_rb t') = buffer (tx_rb demo_tx) /\ buffer_size (tx_rb t') = buffer_size (tx_rb demo_tx) /\
    bytes m' 8000 2 = [98; 99] /\
    forall a, ~ (buffer (tx_rb demo_tx) <= a < buffer (tx_rb demo_tx) + buffer_size (tx_rb demo_tx)) ->
      ~ (8000 <= a < 8000 + 2) -> m'.[a] = (ks_mem demo_state).[a].
Proof.
  apply (serial_write_sends _ _ 7000 7200 (demo_port (demo_hw [])) demo_serial demo_tx demo_state 8000 0 200 2).
  - apply demo_tx_holds.
  - lia.
  - left. by vm_compute.
  - right. by vm_compute.
Defined.

Lemma kprintf_reaches_uart_witness :
  exists s' t', sk_kprintf (demo_ops (demo_hw [])) 500 400 100 [-7; 200] demo_state = Done s' tt /\
    io_accesses s' = [] ++ ((fun c => BusWrite PL011_UART0_BASE (u8 c)) <$> [97; 45; 55; 98; 99; 37; 37]) /\
    console_ready (demo_hw []) demo_uart (demo_ops (demo_hw [])) (demo_sops (demo_hw [])) 8000 7000 7200
      demo_serial t' s'.
Proof.
  apply (kprintf_reaches_uart (demo_hw []) demo_uart (demo_ops (demo_hw [])) (demo_sops (demo_hw [])) 8000 7000 7200
    __uart_device fmt_read 500 400 100 [97; 37; 100; 37; 115; 37; 37] [AInt (-7); AStr 200 [98; 99]]
    [97; 45; 55; 98; 99; 37; 37] demo_serial demo_tx demo_state).
  - reflexivity.
  - apply demo_ready.
  - unfold fmt_read. lia.
  - unfold fmt_read. simpl. lia.
  - lia.
  - split; [rewrite !cstr_cons, cstr_nil; vm_compute; intuition congruence|unfold fmt_read; simpl; intros; lia].
  - apply Forall_cons. split; [done|]. apply Forall_singleton.
    split; [rewrite !cstr_cons, cstr_nil; vm_compute; intuition congruence|unfold fmt_read; simpl; intros; lia].
  - by vm_compute.
  - simpl. lia.
  - by vm_compute.
  - left. by vm_compute.
  - right. by vm_compute.
Defined.

(** The format is the long message itself. *)
Lemma long_text_str : rstr (fun a => 9000 <= a < 9100) demo_mem 9000 long_text.
Proof.
  split; [|intros i Hi; change (Z.of_nat (length long_text)) with 70 in Hi; lia].
  split; [|split].
  - apply Forall_replicate. lia.
  - intros i c Hi. apply lookup_replicate in Hi as [-> Hi].
    assert (forallb (fun i => mget demo_mem (9000 + i) =? 97) (seqZ 0 70) = true) as Hall by (by vm_compute).
    rewrite forallb_forall in Hall. apply Z.eqb_eq, Hall. apply list_elem_of_In, elem_of_seqZ. lia.
  - by vm_compute.
Qed.

Lemma long_message_overruns_witness :
  exists s', sk_kprintf (demo_ops (demo_hw [])) 9200 400 9000 [] demo_state = Done s' tt /\
    forall i c, (64 <= i)%nat -> long_text !! i = Some c -> (ks_mem s').[8000 + Z.of_nat i] = c.
Proof.
  apply (long_message_overruns (demo_hw []) demo_uart (demo_ops (demo_hw [])) (demo_sops (demo_hw [])) 8000 7000 7200
    __uart_device (fun a => 9000 <= a < 9100) 9200 400 9000 long_text [] long_text demo_serial demo_tx demo_state).
  - reflexivity.
  - apply demo_ready.
  - lia.
  - change (Z.of_nat (length long_text)) with 70. lia.
  - lia.
  - apply long_text_str.
  - by apply Forall_nil.
  - by vm_compute.
  - change (Z.of_nat (length long_text)) with 70. unfold SK_CONSOLE_BUF_SIZE. lia.
  - by vm_compute.
  - right. by vm_compute.
  - right. by vm_compute.
Defined.

(** A controller with 64 interrupts. *)
Definition demo_gic : hardware := fun b a =>
  if a =? GIC_DIST_TYPE GIC_DIST_BASE then 1 else if a =? GIC_CPU_INTACK GIC_CPU_BASE then 33 else 0.

Lemma gic_dist_init_covers_witness :
  exists s' mid, gic_dist_init demo_gic 0 GIC_DIST_BASE 0 kstate_zero = Done s' 0 /\
    gic_ctl s' = mk_gic 0 GIC_DIST_BASE 0 /\
    io_accesses s' = [] ++ BusRead (GIC_DIST_TYPE GIC_DIST_BASE) 1 :: BusWrite (GIC_DIST_CTRL GIC_DIST_BASE) 0 ::
      mid ++ [BusWrite (GIC_DIST_CTRL GIC_DIST_BASE) 1] /\
    (forall a v, BusWrite a v ∈ mid -> a <> GIC_DIST_CTRL GIC_DIST_BASE) /\
    (forall irq, 0 <= irq < gic_irqs 1 ->
      BusWrite (GIC_DIST_PRI GIC_DIST_BASE irq) 0xa0a0a0a0 ∈ mid /\
      BusWrite (GIC_DIST_ENABLE_CLEAR GIC_DIST_BASE irq) 0xffffffff ∈ mid /\
      BusWrite (GIC_DIST_IGROUP GIC_DIST_BASE irq) 0 ∈ mid) /\
    (forall irq, 32 <= irq < gic_irqs 1 ->
      BusWrite (GIC_DIST_CONFIG GIC_DIST_BASE irq) 0 ∈ mid /\
      BusWrite (GIC_DIST_TARGET GIC_DIST_BASE irq) 0x01010101 ∈ mid).
Proof. apply (gic_dist_init_covers demo_gic 0 GIC_DIST_BASE 0 kstate_zero). unfold GIC_DIST_BASE. lia. Defined.

(** Interrupt 33 has the handler 77, which is run and ended. *)
Lemma trap_irq_dispatches_witness :
  sk_hw_trap_irq demo_gic (fun h v p => modify (upd_tick (fun _ => h + v + p))) demo_state =
    Done (upd_bus (fun b => b ++ ack_writes 33 (mk_gic 0 GIC_DIST_BASE GIC_CPU_BASE))
      (upd_tick (fun _ => 77 + 33 + 7000)
        (upd_bus (fun b => b ++ [BusRead (GIC_CPU_INTACK GIC_CPU_BASE) 33]) demo_state))) tt.
Proof.
  apply (trap_irq_dispatches demo_gic (fun h v p => modify (upd_tick (fun _ => h + v + p))) demo_state
    eq_refl eq_refl eq_refl) with (d := mk_irq 77 7000); done.
Defined.

Lemma interrupt_install_correct_witness :
  exists d s', isr_table demo_state !! 33%nat = Some d /\
    sk_hw_interrupt_install 33 88 7000 demo_state = Done s' (handler d) /\
    isr_table s' = <[33%nat := mk_irq 88 7000]> (isr_table demo_state) /\ length (isr_table s') = 96%nat.
Proof. apply (interrupt_install_correct 33 88 7000 demo_state eq_refl). by vm_compute. Defined.

Lemma interrupt_mask_own_bit_witness :
  exists w k, 32 * w + k = 33 /\ 0 <= k < 32 /\
    sk_hw_interrupt_mask 33 demo_state =
      Done (upd_bus (fun b => b ++ [BusWrite (GIC_DIST_BASE + 0x180 + 4 * w) (2 ^ k)]) demo_state) tt /\
    sk_hw_interrupt_umask 33 demo_state =
      Done (upd_bus (fun b => b ++ [BusWrite (GIC_DIST_BASE + 0x100 + 4 * w) (2 ^ k)]) demo_state) tt.
Proof.
  apply (interrupt_mask_own_bit 33 demo_state); [reflexivity|lia|]. simpl. unfold GIC_DIST_BASE. lia.
Defined.
