(* ===== verification/Shell.v ===== *)
(** * The shell: [src/common/shell.c]

    The line editor as a function of one received character on
    [struct shell_cmd], with the calls of [sk_kprintf] and of commands as a list
    of outputs in order.  Arrays are lists of their full length; an access
    outside an array is [None].  The abstract editor keeps a text, a cursor and
    a bounded history, and the theorems show that the code implements it. *)

From Stdlib Require Import String Ascii.
From S2P Require Import Prelude BaseDef.

Local Open Scope c_scope.
Local Open Scope list_scope.

(** The characters of a literal. *)
Definition zs (s : string) : list Z := (fun a => Z.of_nat (nat_of_ascii a)) <$> list_ascii_of_string s.

(** ** Data of [shell.h] *)

Definition SHELL_CMD_HISTORY_LINE : Z := 5.
Definition SHELL_CMD_SIZE : Z := 80.
Definition SHELL_PROMPT : list Z := zs "shell:> ".

(** [struct shell_syscall]: the name and the address of the function. *)
Record shell_syscall := mk_syscall { sc_name : list Z; sc_func : Z }.

Inductive input_stat := WAIT_NORMAL | WAIT_SPEC_KEY | WAIT_FUNC_KEY.

#[global] Instance input_stat_eq_dec : EqDecision input_stat.
Proof. solve_decision. Defined.

(** [struct shell_cmd] without [echo_mode] and [prompt_mode], which nothing reads,
    and [device], which is an argument of the functions that use it (file [Boot]). *)
Record shell_cmd := mk_shell {
  sh_stat : input_stat;
  current_history : Z;
  history_count : Z;
  cmd_history : list (list Z);
  line : list Z;
  line_position : Z;
  line_curpos : Z
}.

(** A call of [sk_kprintf], with the text it formats, or of a command. *)
Inductive sh_out := OText (t : list Z) | OExec (func : Z).

Definition set_stat_key (st : input_stat) (sh : shell_cmd) : shell_cmd :=
  mk_shell st (current_history sh) (history_count sh) (cmd_history sh) (line sh) (line_position sh) (line_curpos sh).
Definition set_current (i : Z) (sh : shell_cmd) : shell_cmd :=
  mk_shell (sh_stat sh) (u16 i) (history_count sh) (cmd_history sh) (line sh) (line_position sh) (line_curpos sh).
Definition set_history (h : list (list Z)) (n : Z) (sh : shell_cmd) : shell_cmd :=
  mk_shell (sh_stat sh) (current_history sh) (u16 n) h (line sh) (line_position sh) (line_curpos sh).
Definition set_line (l : list Z) (sh : shell_cmd) : shell_cmd :=
  mk_shell (sh_stat sh) (current_history sh) (history_count sh) (cmd_history sh) l (line_position sh) (line_curpos sh).
Definition set_pos (p c : Z) (sh : shell_cmd) : shell_cmd :=
  mk_shell (sh_stat sh) (current_history sh) (history_count sh) (cmd_history sh) (line sh) (u16 p) (u16 c).

(** ** Arrays of characters *)

(** [a[i] = c] *)
Definition store (i c : Z) (a : list Z) : option (list Z) :=
  if (0 <=? i) && (i <? Z.of_nat (length a)) then Some (<[Z.to_nat i := c]> a) else None.

(** [sk_memcpy(dst, src, n)] to the start of an array. *)
Definition copy (dst src : list Z) (n : Z) : option (list Z) :=
  if (n <=? Z.of_nat (length dst)) && (n <=? Z.of_nat (length src))
  then Some (take (Z.to_nat n) src ++ drop (Z.to_nat n) dst) else None.

(** [sk_strlen(a)]: an array without a terminator is read past its end. *)
Fixpoint str_len (a : list Z) : option Z :=
  match a with
  | [] => None
  | c :: a => if c =? 0 then Some 0 else n ← str_len a; Some (n + 1)
  end.

(** The string in an array. *)
Fixpoint str_of (a : list Z) : list Z :=
  match a with
  | [] => []
  | c :: a => if c =? 0 then [] else c :: str_of a
  end.

(** [sk_strncmp] of [BaseDef] on two strings given by their characters. *)
Fixpoint strncmp (n : nat) (cs ct : list Z) : Z :=
  match n with
  | O => 0
  | S n =>
      let c := default 0 (head cs) in
      let d := default 0 (head ct) in
      let ret := s8 (c - d) in
      if negb (ret =? 0) then ret
      else if (c =? 0) || (d =? 0) then ret
      else strncmp n (tail cs) (tail ct)
  end.

(** ** History *)

(** [&shell->cmd_history[i][0]] *)
Definition hist_at (i : Z) (sh : shell_cmd) : option (list Z) :=
  if 0 <=? i then cmd_history sh !! Z.to_nat i else None.

(** [sk_memset(&cmd_history[i][0], 0, 80); sk_memcpy(&cmd_history[i][0], line,
    line_position);] *)
Definition hist_fill (h : list (list Z)) (i : Z) (sh : shell_cmd) : option (list (list Z)) :=
  e ← copy (replicate 80 0) (line sh) (line_position sh);
  if (0 <=? i) && (i <? Z.of_nat (length h)) then Some (<[Z.to_nat i := e]> h) else None.

(** [sk_memcmp] of an entry with the line, 80 bytes. *)
Definition same_as_line (e : list Z) (sh : shell_cmd) : bool :=
  bool_decide (take 80 e = take 80 (line sh)).

Definition shell_push_history (sh : shell_cmd) : option shell_cmd :=
  sh ← (if negb (line_position sh =? 0) then
          if SHELL_CMD_HISTORY_LINE <=? history_count sh then
            last ← hist_at (SHELL_CMD_HISTORY_LINE - 1) sh;
            if negb (same_as_line last sh) then
              (* the entries move up by one, the last is filled *)
              h ← hist_fill (drop 1 (cmd_history sh) ++ [last]) (SHELL_CMD_HISTORY_LINE - 1) sh;
              Some (set_history h SHELL_CMD_HISTORY_LINE sh)
            else Some sh
          else
            same ← (if history_count sh =? 0 then Some false
                    else e ← hist_at (history_count sh - 1) sh; Some (same_as_line e sh));
            if negb same then
              let sh := set_current (history_count sh) sh in
              h ← hist_fill (cmd_history sh) (history_count sh) sh;
              Some (set_history h (history_count sh + 1) sh)
            else Some sh
        else Some sh);
  Some (set_current (history_count sh) sh).

(** ** Commands *)

(** [for(index = begin; index < end; index++) if(sk_strncmp(...) == 0) ...] *)
Fixpoint exec_search (tab : list shell_syscall) (cmd : list Z) (len : nat) : option Z :=
  match tab with
  | [] => None
  | index :: tab => if strncmp len (sc_name index) cmd =? 0 then Some (sc_func index)
                    else exec_search tab cmd len
  end.

(** [while((len > 0) && ( *cmd == ' ' || *cmd == '\t'))] *)
Fixpoint skip_blanks (len : nat) (cmd : list Z) : nat * list Z :=
  match len, cmd with
  | S n, c :: rest => if (c =? 32) || (c =? 9) then skip_blanks n rest else (len, cmd)
  | _, _ => (len, cmd)
  end.

Definition shell_exec (tab : list shell_syscall) (cmd : list Z) (len : Z) : list sh_out :=
  let '(n, cmd) := skip_blanks (Z.to_nat len) cmd in
  if decide (n = O) then []
  else match exec_search tab cmd n with
       | Some f => [OExec f]
       | None => [OText (str_of cmd ++ zs ": command not found." ++ [10])]
       end.

Definition shell_auto_complete (tab : list shell_syscall) (prefix : list Z) : option (list sh_out) :=
  n ← str_len prefix;
  Some ([OText [10]] ++
        ((fun index => OText (sc_name index ++ [10])) <$>
           filter (fun index => strncmp (Z.to_nat n) prefix (sc_name index) = 0) tab) ++
        [OText (SHELL_PROMPT ++ str_of prefix)]).

(** [\033[2K\r], then the prompt and the line. *)
Definition shell_handle_history (sh : shell_cmd) : list sh_out :=
  [OText ([27] ++ zs "[2K" ++ [13]); OText (SHELL_PROMPT ++ str_of (line sh))].

(** The entry the history points at becomes the line. *)
Definition show_history (sh : shell_cmd) : option (shell_cmd * list sh_out) :=
  e ← hist_at (current_history sh) sh;
  l ← copy (line sh) e SHELL_CMD_SIZE;
  n ← str_len l;
  let sh := set_pos n n (set_line l sh) in
  Some (sh, shell_handle_history sh).

(** ** One character *)

(** The part of the loop body after the escape sequences. *)
Definition shell_char (tab : list shell_syscall) (ch : Z) (sh : shell_cmd) : option (shell_cmd * list sh_out) :=
  if (ch =? 0) || (ch =? 0xff) then Some (sh, [])
  else if ch =? 9 then
    out ← shell_auto_complete tab (line sh);
    n ← str_len (line sh);
    Some (set_pos n n sh, replicate (Z.to_nat (line_curpos sh)) (OText [8]) ++ out)
  else if (ch =? 0x7f) || (ch =? 0x08) then
    if line_curpos sh =? 0 then Some (sh, [])
    else
      let sh := set_pos (line_position sh - 1) (line_curpos sh - 1) sh in
      l ← store (line_position sh) 0 (line sh);
      Some (set_line l sh, [OText [8; 32; 8]])
  else if (ch =? 13) || (ch =? 10) || (ch =? 0x03) then
    sh ← shell_push_history sh;
    let out := if negb (ch =? 0x03) then shell_exec tab (line sh) (line_position sh) else [] in
    Some (set_pos 0 0 (set_line (replicate 81 0) sh), [OText [10]] ++ out ++ [OText SHELL_PROMPT])
  else
    l ← store (line_position sh) (u8 ch) (line sh);
    let sh := set_line l sh in
    Some (set_pos (line_position sh + 1) (line_curpos sh + 1) sh, [OText [u8 ch]]).

(** The character [ch] that [shell_getchar] returned. *)
Definition shell_key (tab : list shell_syscall) (ch : Z) (sh : shell_cmd) : option (shell_cmd * list sh_out) :=
  if ch =? -1 then Some (sh, [])
  else if ch =? 0x1b then Some (set_stat_key WAIT_SPEC_KEY sh, [])
  else match sh_stat sh with
  | WAIT_SPEC_KEY =>
      if ch =? 0x5b then Some (set_stat_key WAIT_FUNC_KEY sh, [])
      else shell_char tab ch (set_stat_key WAIT_NORMAL sh)
  | WAIT_FUNC_KEY =>
      let sh := set_stat_key WAIT_NORMAL sh in
      if ch =? 0x41 then
        if 0 <? current_history sh then show_history (set_current (current_history sh - 1) sh)
        else Some (set_current 0 sh, [])
      else if ch =? 0x42 then
        if current_history sh <? history_count sh - 1
        then show_history (set_current (current_history sh + 1) sh)
        else if negb (history_count sh =? 0)
             then show_history (set_current (history_count sh - 1) sh)
             else Some (sh, [])
      else if ch =? 0x44 then
        if negb (line_curpos sh =? 0)
        then Some (set_pos (line_position sh) (line_curpos sh - 1) sh, [OText [8]])
        else Some (sh, [])
      else if ch =? 0x43 then
        if line_curpos sh <? line_position sh then
          c ← line sh !! Z.to_nat (line_curpos sh);
          Some (set_pos (line_position sh) (line_curpos sh + 1) sh, [OText [c]])
        else Some (sh, [])
      else shell_char tab ch sh
  | WAIT_NORMAL => shell_char tab ch sh
  end.

(** A zeroed structure, as [shell_system_init] leaves it. *)
Definition shell_zero : shell_cmd :=
  mk_shell WAIT_NORMAL 0 0 (replicate 5 (replicate 80 0)) (replicate 81 0) 0 0.

(** A sequence of characters. *)
Fixpoint shell_run (tab : list shell_syscall) (chs : list Z) (sh : shell_cmd) : option (shell_cmd * list sh_out) :=
  match chs with
  | [] => Some (sh, [])
  | ch :: chs =>
      '(sh, out) ← shell_key tab ch sh;
      '(sh, outs) ← shell_run tab chs sh;
      Some (sh, out ++ outs)
  end.

(** ** The abstract editor *)

Record editor := mk_editor {
  ed_mode : input_stat;
  ed_text : list Z;
  ed_cursor : nat;
  ed_hist : list (list Z);
  ed_idx : nat
}.

(** The history after a line: an empty line or a repetition of the last one is
    not kept, and at most five lines are. *)
Definition ed_push (text : list Z) (hist : list (list Z)) : list (list Z) :=
  if decide (text = [] \/ last hist = Some text) then hist
  else drop (length hist - 4) (hist ++ [text]).

Fixpoint strip (t : list Z) : list Z :=
  match t with
  | c :: r => if (c =? 32) || (c =? 9) then strip r else t
  | [] => []
  end.

(** The first command whose name begins with the text runs. *)
Definition ed_exec (tab : list shell_syscall) (text : list Z) : list sh_out :=
  let t := strip text in
  if decide (t = []) then []
  else match list_find (fun x => t `prefix_of` sc_name x) tab with
       | Some (_, x) => [OExec (sc_func x)]
       | None => [OText (t ++ zs ": command not found." ++ [10])]
       end.

Definition ed_show (i : nat) (ed : editor) : editor * list sh_out :=
  let t := default [] (ed_hist ed !! i) in
  (mk_editor (ed_mode ed) t (length t) (ed_hist ed) i,
   [OText ([27] ++ zs "[2K" ++ [13]); OText (SHELL_PROMPT ++ t)]).

Definition ed_char (tab : list shell_syscall) (ch : Z) (ed : editor) : editor * list sh_out :=
  let '(mk_editor mode text cursor hist idx) := ed in
  if (ch =? 0) || (ch =? 0xff) then (ed, [])
  else if ch =? 9 then
    (mk_editor mode text (length text) hist idx,
     replicate cursor (OText [8]) ++ [OText [10]] ++
     ((fun x => OText (sc_name x ++ [10])) <$> filter (fun x => text `prefix_of` sc_name x) tab) ++
     [OText (SHELL_PROMPT ++ text)])
  else if (ch =? 0x7f) || (ch =? 0x08) then
    if decide (cursor = O) then (ed, [])
    else (mk_editor mode (take (length text - 1) text) (cursor - 1) hist idx, [OText [8; 32; 8]])
  else if (ch =? 13) || (ch =? 10) || (ch =? 0x03) then
    let hist := ed_push text hist in
    (mk_editor mode [] 0 hist (length hist),
     [OText [10]] ++ (if ch =? 0x03 then [] else ed_exec tab text) ++ [OText SHELL_PROMPT])
  else (mk_editor mode (text ++ [ch]) (cursor + 1) hist idx, [OText [ch]]).

Definition ed_key (tab : list shell_syscall) (ch : Z) (ed : editor) : editor * list sh_out :=
  let '(mk_editor mode text cursor hist idx) := ed in
  let normal := mk_editor WAIT_NORMAL text cursor hist idx in
  if ch =? 0x1b then (mk_editor WAIT_SPEC_KEY text cursor hist idx, [])
  else match mode with
  | WAIT_SPEC_KEY =>
      if ch =? 0x5b then (mk_editor WAIT_FUNC_KEY text cursor hist idx, []) else ed_char tab ch normal
  | WAIT_FUNC_KEY =>
      if ch =? 0x41 then if decide (idx = O) then (normal, []) else ed_show (idx - 1) normal
      else if ch =? 0x42 then
        if decide (hist = []) then (normal, []) else ed_show (Nat.min (idx + 1) (length hist - 1)) normal
      else if ch =? 0x44 then
        if decide (cursor = O) then (normal, [])
        else (mk_editor WAIT_NORMAL text (cursor - 1) hist idx, [OText [8]])
      else if ch =? 0x43 then
        match text !! cursor with
        | Some c => (mk_editor WAIT_NORMAL text (cursor + 1) hist idx, [OText [c]])
        | None => (normal, [])
        end
      else ed_char tab ch normal
  | WAIT_NORMAL => ed_char tab ch ed
  end.

(** Lines and history entries hold characters, and fit. *)
Definition text_ok (t : list Z) : Prop := Forall (fun c => 0 < c < 256) t /\ (length t <= 80)%nat.

Record ed_wf (ed : editor) : Prop := {
  ew_text : text_ok (ed_text ed);
  ew_cursor : (ed_cursor ed <= length (ed_text ed))%nat;
  ew_hist : Forall (fun t => text_ok t /\ t <> []) (ed_hist ed);
  ew_count : (length (ed_hist ed) <= 5)%nat;
  ew_idx : (ed_idx ed <= length (ed_hist ed))%nat
}.

(** ** How the structure represents the editor *)

Definition pad (n : nat) (t : list Z) : list Z := t ++ replicate (n - length t) 0.

Definition concrete (ed : editor) : shell_cmd :=
  mk_shell (ed_mode ed) (Z.of_nat (ed_idx ed)) (Z.of_nat (length (ed_hist ed)))
    ((pad 80 <$> ed_hist ed) ++ replicate (5 - length (ed_hist ed)) (pad 80 []))
    (pad 81 (ed_text ed)) (Z.of_nat (length (ed_text ed))) (Z.of_nat (ed_cursor ed)).

Lemma length_pad n t : (length t <= n)%nat -> length (pad n t) = n.
Proof. intros. unfold pad. rewrite length_app, length_replicate. lia. Qed.

Lemma str_len_pad n t : text_ok t -> (length t < n)%nat -> str_len (pad n t) = Some (Z.of_nat (length t)).
Proof.
  intros [Ht _]. unfold pad. revert n. induction Ht as [|c t Hc Ht IH]; intros n Hn; simpl in *.
  { destruct (n - 0)%nat eqn:E; [lia|done]. }
  destruct (Z.eqb_spec c 0); [lia|]. destruct n as [|n]; [lia|]. simpl. rewrite IH by lia. simpl. f_equal. lia.
Qed.

Lemma str_of_pad n t : Forall (fun c => 0 < c < 256) t -> str_of (pad n t) = t.
Proof.
  intros Ht. unfold pad. generalize (n - length t)%nat. intros k.
  induction Ht as [|c t Hc Ht IH]; simpl; [by destruct k|].
  destruct (Z.eqb_spec c 0); [lia|]. by rewrite IH.
Qed.

Lemma pad_inj n t u : text_ok t -> text_ok u -> pad n t = pad n u -> t = u.
Proof. intros [Ht _] [Hu _] E. rewrite <- (str_of_pad n t), <- (str_of_pad n u) by done. by rewrite E. Qed.

Lemma pad_snoc t : (length t <= 80)%nat -> pad 81 t = pad 80 t ++ [0].
Proof.
  intros. unfold pad. rewrite <- app_assoc. f_equal. replace (81 - length t)%nat with (80 - length t + 1)%nat by lia.
  by rewrite replicate_add.
Qed.

Lemma take_pad t : (length t <= 80)%nat -> take 80 (pad 81 t) = pad 80 t.
Proof. intros. rewrite pad_snoc by done. rewrite take_app_length'; [done|]. by rewrite length_pad. Qed.

(** Appending and removing a character are stores into the array. *)
Lemma store_append t c :
  (length t < 81)%nat -> store (Z.of_nat (length t)) c (pad 81 t) = Some (pad 81 (t ++ [c])).
Proof.
  intros Ht. unfold store. rewrite length_pad by lia. case_bool; try lia. simpl. f_equal. rewrite Nat2Z.id. unfold pad.
  rewrite length_app. simpl. replace (81 - length t)%nat with (S (81 - (length t + 1))) by lia. simpl.
  rewrite insert_app_r_alt by lia. rewrite Nat.sub_diag. by rewrite <- app_assoc.
Qed.

Lemma store_remove t :
  (0 < length t <= 81)%nat ->
  store (Z.of_nat (length t) - 1) 0 (pad 81 t) = Some (pad 81 (take (length t - 1) t)).
Proof.
  destruct (list_snoc_cases t) as [->|(u & x & ->)]; simpl; [lia|]. rewrite length_app. simpl. intros Ht.
  unfold store. rewrite length_pad by (rewrite length_app; simpl; lia).
  case_bool; try lia. simpl. f_equal.
  replace (Z.to_nat (Z.of_nat (length u + 1) - 1)) with (length u) by lia.
  replace (length u + 1 - 1)%nat with (length u) by lia. rewrite take_app_length. unfold pad.
  rewrite length_app. simpl. rewrite <- app_assoc. rewrite insert_app_r_alt by lia. rewrite Nat.sub_diag. simpl.
  f_equal. replace (81 - length u)%nat with (S (81 - (length u + 1))) by lia. done.
Qed.

Lemma copy_entry e t :
  (length e <= 80)%nat -> (length t <= 80)%nat -> copy (pad 81 t) (pad 80 e) SHELL_CMD_SIZE = Some (pad 81 e).
Proof.
  intros He Ht. unfold copy, SHELL_CMD_SIZE. rewrite !length_pad by lia. simpl. f_equal.
  change (Z.to_nat 80) with 80%nat. rewrite take_ge by (rewrite length_pad; lia). rewrite pad_snoc by done.
  rewrite pad_snoc by done. f_equal. rewrite drop_app_length'; [done|]. by rewrite length_pad.
Qed.

Lemma copy_line t : (length t <= 80)%nat -> copy (replicate 80 0) (pad 81 t) (Z.of_nat (length t)) = Some (pad 80 t).
Proof.
  intros Ht. unfold copy. rewrite length_replicate, length_pad by lia.
  case_bool; try lia. cbv beta iota delta [andb]. f_equal. rewrite Nat2Z.id. unfold pad. rewrite take_app_length. by rewrite drop_replicate.
Qed.

#[local] Arguments pad : simpl never.

(** ** Comparison of names *)

Definition bytes_ok (l : list Z) : Prop := Forall (fun c => 0 <= c < 256) l.

Lemma strncmp_zero n : forall cs ct, bytes_ok cs -> bytes_ok ct ->
  strncmp n cs ct = 0 <-> take n (str_of cs) = take n (str_of ct).
Proof.
  induction n as [|n IH]; intros cs ct Hs Ht; [done|]. simpl strncmp.
  assert (forall l, bytes_ok l -> 0 <= default 0 (head l) < 256 /\ bytes_ok (tail l) /\
    str_of l = if default 0 (head l) =? 0 then [] else default 0 (head l) :: str_of (tail l)) as Hl.
  { intros [|c l] Hb; simpl; [split; [lia|]; split; [constructor|done]|].
    apply Forall_cons in Hb as [Hc Hb]. done. }
  destruct (Hl cs Hs) as (Hc & Hs' & ->), (Hl ct Ht) as (Hd & Ht' & ->). clear Hl.
  set (c := default 0 (head cs)) in *. set (d := default 0 (head ct)) in *.
  rewrite s8_diff_zero by done. destruct (Z.eqb_spec c d) as [->|Hne].
  - rewrite Z.sub_diag. simpl. destruct (Z.eqb_spec d 0); simpl; [done|]. rewrite IH by done.
    split; [by intros ->|by intros [= ->]].
  - simpl. rewrite <- Z.eqb_eq, s8_diff_zero by done. destruct (Z.eqb_spec c d); [done|].
    split; [done|]. destruct (Z.eqb_spec c 0), (Z.eqb_spec d 0); simpl; intros; simplify_eq; lia.
Qed.

Lemma str_of_id t : Forall (fun c => 0 < c < 256) t -> str_of t = t.
Proof. induction 1 as [|c t Hc Ht IH]; simpl; [done|]. destruct (Z.eqb_spec c 0); [lia|]. by rewrite IH. Qed.

Lemma text_bytes t : Forall (fun c => 0 < c < 256) t -> bytes_ok t.
Proof. intros Ht. apply (Forall_impl _ _ _ Ht). simpl. lia. Qed.

Lemma take_prefix (t l : list Z) : take (length t) l = t <-> t `prefix_of` l.
Proof.
  split.
  - intros E. exists (drop (length t) l). by rewrite <- E at 1; rewrite take_drop.
  - intros [k ->]. by rewrite take_app_length.
Qed.

(** The comparison of [shell_exec] and of [shell_auto_complete]. *)
Lemma strncmp_prefix t z name :
  Forall (fun c => 0 < c < 256) t -> Forall (fun c => 0 < c < 256) name ->
  (strncmp (length t) name (t ++ replicate z 0) = 0 <-> t `prefix_of` name) /\
  (strncmp (length t) (t ++ replicate z 0) name = 0 <-> t `prefix_of` name).
Proof.
  intros Ht Hn. assert (bytes_ok (t ++ replicate z 0)) as Hb.
  { apply Forall_app. split; [by apply text_bytes|]. apply Forall_replicate. lia. }
  assert (str_of (t ++ replicate z 0) = t) as Hs.
  { pose proof (str_of_pad (length t + z) t Ht) as E. unfold pad in E.
    by replace (length t + z - length t)%nat with z in E by lia. }
  rewrite !strncmp_zero by (done || by apply text_bytes). rewrite Hs, str_of_id by done.
  rewrite (take_ge t) by done. rewrite <- take_prefix. split; split; intros; congruence.
Qed.

Definition tab_ok (tab : list shell_syscall) : Prop :=
  Forall (fun x => Forall (fun c => 0 < c < 256) (sc_name x)) tab.

Lemma exec_search_find tab t z :
  tab_ok tab -> Forall (fun c => 0 < c < 256) t ->
  exec_search tab (t ++ replicate z 0) (length t) =
    (fun p => sc_func p.2) <$> list_find (fun x => t `prefix_of` sc_name x) tab.
Proof.
  intros Htab Ht. induction Htab as [|x tab Hx Htab IH]; simpl; [done|].
  destruct (strncmp_prefix t z (sc_name x) Ht Hx) as [Hp _].
  case_decide as Hd.
  - by rewrite (proj2 (Z.eqb_eq _ _) (proj2 Hp Hd)).
  - rewrite (proj2 (Z.eqb_neq _ _)) by (by rewrite Hp). rewrite IH.
    by destruct (list_find _ tab) as [[]|].
Qed.

Lemma skip_blanks_strip t z :
  skip_blanks (length t) (t ++ replicate z 0) = (length (strip t), strip t ++ replicate z 0).
Proof.
  induction t as [|c t IH]; simpl; [by destruct z|]. destruct ((c =? 32) || (c =? 9)); [done|done].
Qed.

Lemma strip_ok t : Forall (fun c => 0 < c < 256) t -> Forall (fun c => 0 < c < 256) (strip t).
Proof.
  induction 1 as [|c t Hc Ht IH]; simpl; [constructor|].
  destruct ((c =? 32) || (c =? 9)); [done|by constructor].
Qed.

Lemma exec_concrete tab t :
  tab_ok tab -> Forall (fun c => 0 < c < 256) t ->
  shell_exec tab (pad 81 t) (Z.of_nat (length t)) = ed_exec tab t.
Proof.
  intros Htab Ht. unfold shell_exec, ed_exec, pad. rewrite Nat2Z.id, skip_blanks_strip.
  destruct (strip t) as [|c u] eqn:E; [done|]. rewrite <- E. rewrite !decide_False by (by rewrite E).
  rewrite exec_search_find by (done || by apply strip_ok).
  destruct (list_find _ tab) as [[i x]|]; [done|]. simpl.
  pose proof (str_of_pad (length (strip t) + (81 - length t)) (strip t) (strip_ok t Ht)) as Hs. unfold pad in Hs.
  replace (length (strip t) + (81 - length t) - length (strip t))%nat with (81 - length t)%nat in Hs by lia.
  by rewrite Hs.
Qed.

Lemma complete_concrete tab t :
  tab_ok tab -> text_ok t ->
  shell_auto_complete tab (pad 81 t) = Some ([OText [10]] ++
    ((fun x => OText (sc_name x ++ [10])) <$> filter (fun x => t `prefix_of` sc_name x) tab) ++
    [OText (SHELL_PROMPT ++ t)]).
Proof.
  intros Htab Ht. pose proof Ht as [Hc Hl]. unfold shell_auto_complete. rewrite str_len_pad by (done || lia).
  rewrite str_of_pad by done. simpl. rewrite Nat2Z.id. do 4 f_equal.
  induction Htab as [|x tab Hx Htab IH]; [done|]. rewrite !filter_cons.
  destruct (strncmp_prefix t (81 - length t) (sc_name x) Hc Hx) as [_ Hp]. fold (pad 81 t) in Hp.
  repeat case_decide; rewrite ?IH; tauto.
Qed.

(** ** History *)

Lemma hist_lookup ed i :
  (i < length (ed_hist ed))%nat ->
  hist_at (Z.of_nat i) (concrete ed) = pad 80 <$> ed_hist ed !! i.
Proof.
  intros Hi. unfold hist_at. replace (0 <=? Z.of_nat i) with true by lia. rewrite Nat2Z.id. simpl.
  rewrite lookup_app_l by (by rewrite length_fmap). by rewrite list_lookup_fmap.
Qed.

Lemma same_line ed e :
  text_ok e -> text_ok (ed_text ed) ->
  same_as_line (pad 80 e) (concrete ed) = bool_decide (e = ed_text ed).
Proof.
  intros He Ht. unfold same_as_line. simpl line. destruct He as [He1 He2], Ht as [Ht1 Ht2].
  rewrite take_pad, take_ge by (rewrite ?length_pad; lia).
  apply bool_decide_ext. split; [by apply pad_inj|by intros ->].
Qed.

Lemma fill_entry ed h i :
  text_ok (ed_text ed) -> (i < length h)%nat ->
  hist_fill h (Z.of_nat i) (concrete ed) = Some (<[i := pad 80 (ed_text ed)]> h).
Proof.
  intros [_ Ht] Hi. unfold hist_fill. simpl line. simpl line_position. rewrite copy_line by done. simpl.
  rewrite (proj2 (Z.leb_le 0 (Z.of_nat i))) by lia. rewrite (proj2 (Z.ltb_lt _ _)) by lia. simpl.
  by rewrite Nat2Z.id.
Qed.

Definition with_hist (h : list (list Z)) (ed : editor) : editor :=
  mk_editor (ed_mode ed) (ed_text ed) (ed_cursor ed) h (length h).

(** The newest entry, where the code looks for it. *)
Lemma newest_entry ed :
  ed_hist ed <> [] ->
  exists e, last (ed_hist ed) = Some e /\ e ∈ ed_hist ed /\
    hist_at (Z.of_nat (length (ed_hist ed)) - 1) (concrete ed) = Some (pad 80 e).
Proof.
  intros Hne. destruct (list_snoc_cases (ed_hist ed)) as [|(l & e & E)]; [done|].
  exists e. rewrite E, last_snoc, length_app. simpl. split; [done|]. split; [set_solver|].
  replace (Z.of_nat (length l + 1) - 1) with (Z.of_nat (length l)) by lia.
  rewrite hist_lookup by (rewrite E, length_app; simpl; lia). rewrite E, lookup_app_r by lia.
  by rewrite Nat.sub_diag.
Qed.

Lemma set_current_count ed :
  (length (ed_hist ed) <= 5)%nat ->
  set_current (history_count (concrete ed)) (concrete ed) = concrete (with_hist (ed_hist ed) ed).
Proof.
  intros Hn. unfold set_current, concrete, with_hist. simpl. by rewrite (uint_small 16) by lia.
Qed.

Lemma push_full ed x h e :
  ed_wf ed -> ed_hist ed = x :: h -> length h = 4%nat ->
  hist_fill (drop 1 (cmd_history (concrete ed)) ++ [e]) 4 (concrete ed) =
    Some (pad 80 <$> (h ++ [ed_text ed])).
Proof.
  intros Hwf E Hn.
  assert (drop 1 (cmd_history (concrete ed)) = pad 80 <$> h) as Hc.
  { unfold concrete, cmd_history. rewrite E. cbn [length]. rewrite Hn. by rewrite app_nil_r. }
  rewrite Hc. change 4 with (Z.of_nat 4). rewrite fill_entry; [|apply Hwf|].
  - f_equal. rewrite fmap_app. replace 4%nat with (length (pad 80 <$> h) + 0)%nat at 1 by (rewrite length_fmap; lia).
    by rewrite insert_app_r.
  - rewrite length_app, length_fmap. simpl. lia.
Qed.

Lemma push_room ed :
  ed_wf ed -> (length (ed_hist ed) < 5)%nat ->
  hist_fill (cmd_history (concrete ed)) (Z.of_nat (length (ed_hist ed))) (concrete ed) =
    Some (cmd_history (concrete (with_hist (ed_hist ed ++ [ed_text ed]) ed))).
Proof.
  intros Hwf Hn. rewrite fill_entry; [|apply Hwf|].
  - f_equal. simpl. rewrite fmap_app, <- (length_fmap (pad 80)). set (h := pad 80 <$> ed_hist ed).
    rewrite length_app. simpl. rewrite insert_app_r_alt by lia. rewrite Nat.sub_diag.
    assert (length h < 5)%nat by (unfold h; by rewrite length_fmap).
    replace (5 - length h)%nat with (S (5 - (length (ed_hist ed) + 1)))
      by (unfold h; rewrite length_fmap; lia).
    simpl. by rewrite <- app_assoc.
  - simpl. rewrite length_app, length_fmap, length_replicate. lia.
Qed.

Lemma push_concrete ed :
  ed_wf ed -> shell_push_history (concrete ed) = Some (concrete (with_hist (ed_push (ed_text ed) (ed_hist ed)) ed)).
Proof.
  intros Hwf. pose proof Hwf as [Ht _ Hh Hn _]. unfold shell_push_history, ed_push.
  simpl line_position. simpl history_count. unfold SHELL_CMD_HISTORY_LINE.
  destruct (Z.eqb_spec (Z.of_nat (length (ed_text ed))) 0) as [E0|E0]; simpl negb; cbv iota.
  { rewrite decide_True by (left; apply nil_length_inv; lia). simpl.
    by rewrite <- (set_current_count ed). }
  assert (ed_text ed <> []) as Hne by (intros E; by rewrite E in E0).
  assert (forall e, e ∈ ed_hist ed -> text_ok e) as Hok by (intros e He; by apply (proj1 (Forall_forall _ _) Hh)).
  destruct (Z.leb_spec 5 (Z.of_nat (length (ed_hist ed)))) as [H5|H5].
  - destruct (newest_entry ed) as (e & Hl & He & Ha); [by intros E; rewrite E in H5|].
    replace (Z.of_nat (length (ed_hist ed)) - 1) with (5 - 1) in Ha by lia. rewrite Ha.
    cbn [mbind option_bind]. rewrite same_line by auto.
    destruct (bool_decide_reflect (e = ed_text ed)) as [->|Hd]; cbn [negb]; cbv iota; cbn [mbind option_bind].
    + rewrite decide_True by (by right). by rewrite <- (set_current_count ed).
    + rewrite decide_False by (intros [?|?]; congruence). destruct (ed_hist ed) as [|x h] eqn:Eh; [done|]. simpl in H5, Hn. change (5 - 1) with 4.
      rewrite (push_full ed x h) by (done || lia). cbn [mbind option_bind]. replace (length (x :: h) - 4)%nat with 1%nat by (simpl; lia).
      change (drop 1 ((x :: h) ++ [ed_text ed])) with (h ++ [ed_text ed]).
      unfold set_history, set_current, concrete, with_hist. cbn [ed_hist ed_idx ed_mode ed_text ed_cursor].
      assert (length (h ++ [ed_text ed]) = 5%nat) as Hl5 by (rewrite length_app; simpl; lia).
      rewrite Hl5. cbn. by rewrite app_nil_r.
  - assert (length (ed_hist ed) - 4 = 0)%nat as E4 by lia.
    assert ((same ← (if Z.of_nat (length (ed_hist ed)) =? 0 then Some false
        else e ← hist_at (Z.of_nat (length (ed_hist ed)) - 1) (concrete ed); Some (same_as_line e (concrete ed)));
      Some same) = Some (bool_decide (last (ed_hist ed) = Some (ed_text ed)))) as Hsame.
    { destruct (Z.eqb_spec (Z.of_nat (length (ed_hist ed))) 0) as [Ez|Ez].
      - replace (ed_hist ed) with (@nil (list Z)) by (symmetry; apply nil_length_inv; lia). done.
      - destruct (newest_entry ed) as (e & Hl & He & Ha); [by intros E; rewrite E in Ez|].
        rewrite Ha, Hl. simpl. rewrite same_line by auto. f_equal. apply bool_decide_ext. naive_solver. }
    destruct (if Z.of_nat (length (ed_hist ed)) =? 0 then _ else _) as [same|]; [|done].
    simpl in Hsame. injection Hsame as ->. cbn [mbind option_bind].
    destruct (bool_decide_reflect (last (ed_hist ed) = Some (ed_text ed))) as [Hd|Hd];
      cbn [negb]; cbv iota zeta; cbn [mbind option_bind].
    + rewrite decide_True by (by right). by rewrite <- (set_current_count ed).
    + rewrite decide_False by (intros [?|?]; congruence). rewrite E4, drop_0.
      change (history_count (set_current _ _)) with (Z.of_nat (length (ed_hist ed))).
      change (hist_fill ?h ?i (set_current _ (concrete ed))) with (hist_fill h i (concrete ed)).
      change (cmd_history (set_current _ (concrete ed))) with (cmd_history (concrete ed)).
      rewrite push_room by (done || lia). cbn [mbind option_bind].
      unfold set_history, set_current, concrete, with_hist. cbn [ed_hist ed_idx ed_mode ed_text ed_cursor]. simpl.
      repeat rewrite (uint_small 16 (Z.of_nat (length (ed_hist ed)) + 1)) by lia. rewrite length_app. simpl.
      by replace (Z.of_nat (length (ed_hist ed)) + 1) with (Z.of_nat (length (ed_hist ed) + 1)) by lia.
Qed.

Lemma push_wf t h :
  text_ok t -> Forall (fun t => text_ok t /\ t <> []) h -> (length h <= 5)%nat ->
  Forall (fun t => text_ok t /\ t <> []) (ed_push t h) /\ (length (ed_push t h) <= 5)%nat.
Proof.
  intros Ht Hh Hn. unfold ed_push. case_decide as Hd; [done|]. split.
  - apply Forall_drop, Forall_app. split; [done|]. apply Forall_singleton. split; [done|]. by intros ->; auto.
  - rewrite length_drop, length_app. simpl. lia.
Qed.

(** ** Keys *)

Lemma show_concrete ed i :
  ed_wf ed -> (i < length (ed_hist ed))%nat ->
  show_history (set_current (Z.of_nat i) (concrete ed)) =
    Some (concrete (fst (ed_show i ed)), snd (ed_show i ed)) /\ ed_wf (fst (ed_show i ed)).
Proof.
  intros Hwf Hi. pose proof Hwf as [[Ht1 Ht2] Hc Hh Hn Hx].
  destruct (lookup_lt_is_Some_2 (ed_hist ed) i Hi) as [e He].
  assert (text_ok e /\ e <> []) as [Hok Hne]
    by (eapply (proj1 (Forall_forall _ _) Hh), list_elem_of_lookup_2, He).
  unfold ed_show. rewrite He. cbn [default fst snd]. split.
  - unfold show_history.
    assert (current_history (set_current (Z.of_nat i) (concrete ed)) = Z.of_nat i) as Ec
      by (apply (uint_small 16); lia).
    rewrite Ec. change (hist_at (Z.of_nat i) (set_current _ (concrete ed))) with (hist_at (Z.of_nat i) (concrete ed)).
    rewrite hist_lookup, He by done. cbn [fmap option_fmap option_map mbind option_bind].
    change (line (set_current _ (concrete ed))) with (pad 81 (ed_text ed)).
    destruct Hok as [Hok1 Hok2]. rewrite copy_entry by done. cbn [mbind option_bind].
    rewrite str_len_pad by (done || lia). cbn [mbind option_bind]. cbv zeta. unfold shell_handle_history.
    change (line (set_pos _ _ (set_line (pad 81 e) _))) with (pad 81 e). rewrite str_of_pad by done.
    unfold set_pos, set_line, set_current, concrete. cbn [ed_hist ed_idx ed_mode ed_text ed_cursor].
    cbn [sh_stat current_history history_count cmd_history line line_position line_curpos].
    by rewrite !(uint_small 16) by lia.
  - split; simpl; try done; lia.
Qed.

Lemma char_concrete tab ch ed :
  tab_ok tab -> ed_wf ed -> 0 <= ch < 256 -> (length (ed_text (fst (ed_char tab ch ed))) <= 80)%nat ->
  shell_char tab ch (concrete ed) = Some (concrete (fst (ed_char tab ch ed)), snd (ed_char tab ch ed)) /\
  ed_wf (fst (ed_char tab ch ed)).
Proof.
  intros Htab Hwf Hch. pose proof Hwf as [Ht Hc Hh Hn Hx]. pose proof Ht as [Ht1 Ht2].
  unfold shell_char, ed_char. destruct ed as [mode text cursor hist idx] eqn:Eed. cbn [ed_text ed_cursor ed_hist ed_idx] in *.
  destruct (_ || (ch =? 255)) eqn:E1; [done|].
  destruct (Z.eqb_spec ch 9) as [->|E2].
  { intros _. cbn [fst snd]. split; [|split; done || simpl; lia].
    change (line (concrete (mk_editor mode text cursor hist idx))) with (pad 81 text).
    rewrite complete_concrete, str_len_pad by (done || lia). cbn [mbind option_bind].
    change (line_curpos (concrete _)) with (Z.of_nat cursor). rewrite Nat2Z.id.
    unfold set_pos, concrete. cbn. by rewrite !(uint_small 16) by lia. }
  destruct (_ || (ch =? 8)) eqn:E3.
  { intros _. change (line_curpos (concrete _)) with (Z.of_nat cursor).
    destruct (Z.eqb_spec (Z.of_nat cursor) 0) as [Ez|Ez].
    - rewrite decide_True by lia. done.
    - rewrite decide_False by lia. cbn [fst snd]. split.
      + cbv zeta. change (line (set_pos _ _ (concrete _))) with (pad 81 text).
        change (line_position (set_pos _ _ (concrete (mk_editor mode text cursor hist idx))))
          with (u16 (Z.of_nat (length text) - 1)).
        rewrite (uint_small 16) by lia. rewrite store_remove by lia. cbn [mbind option_bind].
        unfold set_pos, set_line, concrete. cbn. rewrite !(uint_small 16) by lia. rewrite length_take.
        replace (Z.of_nat (length text) - 1) with (Z.of_nat (Nat.min (length text - 1) (length text))) by lia.
        by replace (Z.of_nat cursor - 1) with (Z.of_nat (cursor - 1)) by lia.
      + split; simpl; try done; [split; [by apply Forall_take|]|]; rewrite length_take; lia. }
  destruct (_ || (ch =? 3)) eqn:E4.
  { intros _. rewrite push_concrete by done. cbn [mbind option_bind fst snd ed_text ed_hist]. split.
    - cbv zeta. change (line (concrete (with_hist _ _))) with (pad 81 text).
      change (line_position (concrete (with_hist _ _))) with (Z.of_nat (length text)).
      rewrite exec_concrete by done. by destruct (ch =? 3).
    - destruct (push_wf text hist) as [Hh' Hn']; [done..|]. split; simpl; try done; try lia. split; simpl; [done|lia]. }
  cbn [fst snd ed_text]. rewrite length_app. simpl length. intros Hroom. split.
  - change (line_position (concrete _)) with (Z.of_nat (length text)).
    change (line (concrete _)) with (pad 81 text). rewrite (uint_small 8) by lia.
    rewrite store_append by lia. cbn [mbind option_bind]. unfold set_pos, set_line, concrete. cbn.
    rewrite !(uint_small 16) by lia. rewrite length_app. simpl.
    replace (Z.of_nat (length text) + 1) with (Z.of_nat (length text + 1)) by lia.
    by replace (Z.of_nat cursor + 1) with (Z.of_nat (cursor + 1)) by lia.
  - apply orb_false_iff in E1 as [E1 _]. apply Z.eqb_neq in E1.
    split; simpl; try done; rewrite ?length_app; simpl; try lia.
    split; [|rewrite length_app; simpl; lia]. apply Forall_app. split; [done|]. apply Forall_singleton. lia.
Qed.

Lemma mode_concrete st ed :
  set_stat_key st (concrete ed) =
    concrete (mk_editor st (ed_text ed) (ed_cursor ed) (ed_hist ed) (ed_idx ed)).
Proof. done. Qed.

Lemma mode_wf st ed : ed_wf ed -> ed_wf (mk_editor st (ed_text ed) (ed_cursor ed) (ed_hist ed) (ed_idx ed)).
Proof. by intros []. Qed.

(** The keys of the escape sequences. *)
Lemma func_concrete tab ch ed :
  tab_ok tab -> ed_wf ed -> ed_mode ed = WAIT_FUNC_KEY -> 0 <= ch < 256 ->
  (length (ed_text (fst (ed_key tab ch ed))) <= 80)%nat ->
  shell_key tab ch (concrete ed) = Some (concrete (fst (ed_key tab ch ed)), snd (ed_key tab ch ed)) /\
  ed_wf (fst (ed_key tab ch ed)).
Proof.
  intros Htab Hwf Hm Hch. pose proof (mode_wf WAIT_NORMAL ed Hwf) as Hwf'. pose proof Hwf as [[_ Hl] Hc _ Hn Hx].
  destruct ed as [mode text cursor hist idx]. cbn [ed_mode ed_text ed_cursor ed_hist ed_idx] in *. subst mode.
  unfold shell_key, ed_key. rewrite (proj2 (Z.eqb_neq ch (-1))) by lia.
  destruct (ch =? 27); [intros _; split; [done|by apply (mode_wf _ _ Hwf)]|].
  cbn [sh_stat concrete ed_mode]. cbv zeta. rewrite mode_concrete. cbn [ed_text ed_cursor ed_hist ed_idx].
  set (nl := mk_editor WAIT_NORMAL text cursor hist idx) in *.
  change (current_history (concrete nl)) with (Z.of_nat idx).
  change (history_count (concrete nl)) with (Z.of_nat (length hist)).
  change (line_curpos (concrete nl)) with (Z.of_nat cursor).
  change (line_position (concrete nl)) with (Z.of_nat (length text)).
  destruct (ch =? 65).
  { intros _. case_decide as Hd.
    - subst idx. done.
    - replace (0 <? Z.of_nat idx) with true by lia.
      replace (Z.of_nat idx - 1) with (Z.of_nat (idx - 1)) by lia. apply show_concrete; [done|simpl; lia]. }
  destruct (ch =? 66).
  { intros _. case_decide as Hd.
    { subst hist. simpl in Hx. assert (idx = O) as -> by lia. done. }
    assert (length hist <> O) by (by destruct hist).
    destruct (Z.ltb_spec (Z.of_nat idx) (Z.of_nat (length hist) - 1)).
    - replace (Nat.min (idx + 1) (length hist - 1)) with (idx + 1)%nat by lia.
      replace (Z.of_nat idx + 1) with (Z.of_nat (idx + 1)) by lia. apply show_concrete; [done|simpl; lia].
    - replace (Nat.min (idx + 1) (length hist - 1)) with (length hist - 1)%nat by lia.
      rewrite (proj2 (Z.eqb_neq _ 0)) by lia. cbn [negb].
      replace (Z.of_nat (length hist) - 1) with (Z.of_nat (length hist - 1)) by lia.
      apply show_concrete; [done|simpl; lia]. }
  destruct (ch =? 68).
  { intros _. case_decide as Hd; [by subst cursor|]. rewrite (proj2 (Z.eqb_neq _ 0)) by lia. cbn [negb fst snd].
    split; [|destruct Hwf'; split; simpl in *; done || lia]. unfold set_pos, concrete. cbn.
    rewrite !(uint_small 16) by lia. by replace (Z.of_nat cursor - 1) with (Z.of_nat (cursor - 1)) by lia. }
  destruct (ch =? 67); [|intros Hroom; by apply char_concrete].
  intros _. destruct (text !! cursor) as [c|] eqn:Ec.
  - pose proof (lookup_lt_Some _ _ _ Ec). replace (_ <? _) with true by lia. rewrite Nat2Z.id.
    change (line (concrete nl)) with (pad 81 text). unfold pad at 1. rewrite lookup_app_l, Ec by lia. cbn [fst snd].
    split; [|destruct Hwf'; split; simpl in *; done || lia]. cbn [mbind option_bind]. unfold set_pos, concrete. cbn.
    rewrite !(uint_small 16) by lia. by replace (Z.of_nat cursor + 1) with (Z.of_nat (cursor + 1)) by lia.
  - apply lookup_ge_None_1 in Ec. by replace (_ <? _) with false by lia.
Qed.

Lemma key_concrete tab ch ed :
  tab_ok tab -> ed_wf ed -> 0 <= ch < 256 -> (length (ed_text (fst (ed_key tab ch ed))) <= 80)%nat ->
  shell_key tab ch (concrete ed) = Some (concrete (fst (ed_key tab ch ed)), snd (ed_key tab ch ed)) /\
  ed_wf (fst (ed_key tab ch ed)).
Proof.
  intros Htab Hwf Hch. destruct (ed_mode ed) eqn:Em; [| |by apply func_concrete];
    destruct ed as [mode text cursor hist idx]; cbn in Em; subst mode;
    unfold shell_key, ed_key; rewrite (proj2 (Z.eqb_neq ch (-1))) by lia;
    (destruct (ch =? 27); [intros _; split; [done|by apply (mode_wf _ _ Hwf)]|]); cbn [sh_stat concrete ed_mode].
  - by apply char_concrete.
  - destruct (ch =? 91); [intros _; split; [done|by apply (mode_wf _ _ Hwf)]|].
    apply (char_concrete tab ch (mk_editor WAIT_NORMAL text cursor hist idx)); [done| |done].
    by apply (mode_wf _ _ Hwf).
Qed.

(** ** Sequences of keys *)

Definition editor_zero : editor := mk_editor WAIT_NORMAL [] 0 [] 0.

Fixpoint ed_run (tab : list shell_syscall) (chs : list Z) (ed : editor) : editor * list sh_out :=
  match chs with
  | [] => (ed, [])
  | ch :: chs =>
      let '(ed, out) := ed_key tab ch ed in
      let '(ed, outs) := ed_run tab chs ed in (ed, out ++ outs)
  end.

(** No line grows beyond 80 characters. *)
Fixpoint lines_fit (tab : list shell_syscall) (chs : list Z) (ed : editor) : Prop :=
  match chs with
  | [] => True
  | ch :: chs => let ed := fst (ed_key tab ch ed) in (length (ed_text ed) <= 80)%nat /\ lines_fit tab chs ed
  end.

Lemma run_concrete tab chs : forall ed,
  tab_ok tab -> Forall (fun c => 0 <= c < 256) chs -> ed_wf ed -> lines_fit tab chs ed ->
  shell_run tab chs (concrete ed) = Some (concrete (fst (ed_run tab chs ed)), snd (ed_run tab chs ed)) /\
  ed_wf (fst (ed_run tab chs ed)).
Proof.
  induction chs as [|ch chs IH]; intros ed Htab Hchs Hwf Hfit; [done|].
  apply Forall_cons in Hchs as [Hch Hchs]. destruct Hfit as [Hf Hfit]. simpl.
  destruct (key_concrete tab ch ed Htab Hwf Hch Hf) as [-> Hwf']. cbn [mbind option_bind].
  destruct (ed_key tab ch ed) as [ed1 out]. cbn [fst snd] in *.
  destruct (IH ed1 Htab Hchs Hwf' Hfit) as [-> Hwf2]. cbn [mbind option_bind].
  by destruct (ed_run tab chs ed1) as [ed2 outs].
Qed.

Lemma zero_concrete : shell_zero = concrete editor_zero.
Proof. reflexivity. Qed.

Lemma zero_wf : ed_wf editor_zero.
Proof. split; simpl; try done; try lia. split; simpl; [done|lia]. Qed.

(** ** Properties *)

(** C31: the shell implements the line editor.  From the zeroed structure, every
    sequence of received characters in which no line grows beyond 80 characters
    is processed without an access outside the arrays; the structure then holds
    the text, the cursor and the history of the abstract editor (at most five
    lines, none empty, none repeated at once), and the calls to the console and
    to commands are those of the editor, in its order. *)
Theorem shell_refines_editor tab chs :
  tab_ok tab -> Forall (fun c => 0 <= c < 256) chs -> lines_fit tab chs editor_zero ->
  let '(ed, outs) := ed_run tab chs editor_zero in
  shell_run tab chs shell_zero = Some (concrete ed, outs) /\ ed_wf ed.
Proof.
  intros Htab Hchs Hfit. rewrite zero_concrete.
  pose proof (run_concrete tab chs editor_zero Htab Hchs zero_wf Hfit) as H.
  by destruct (ed_run tab chs editor_zero).
Qed.

(** A printable character is stored at the end of the line. *)
Lemma key_printable tab ch sh :
  32 <= ch < 127 -> sh_stat sh = WAIT_NORMAL ->
  shell_key tab ch sh =
    (l ← store (line_position sh) (u8 ch) (line sh);
     Some (set_pos (line_position sh + 1) (line_curpos sh + 1) (set_line l sh), [OText [u8 ch]])).
Proof.
  intros Hch Hst. unfold shell_key, shell_char. rewrite Hst.
  rewrite !(proj2 (Z.eqb_neq ch _)) by lia. done.
Qed.

Lemma type_past_end tab chs : forall sh,
  Forall (fun c => 32 <= c < 127) chs -> sh_stat sh = WAIT_NORMAL -> length (line sh) = 81%nat ->
  0 <= line_position sh <= 81 -> 82 <= line_position sh + Z.of_nat (length chs) ->
  shell_run tab chs sh = None.
Proof.
  induction chs as [|ch chs IH]; intros sh Hc Hst Hl Hp Hn; simpl in Hn; [lia|].
  apply Forall_cons in Hc as [Hch Hc]. simpl. rewrite key_printable by done.
  unfold store. rewrite Hl. destruct (Z.leb_spec 0 (line_position sh)); [|lia].
  destruct (Z.ltb_spec (line_position sh) (Z.of_nat 81)); [|done]. simpl.
  rewrite IH; try done.
  - simpl. by rewrite length_insert.
  - simpl. rewrite (uint_small 16) by lia. lia.
  - simpl. rewrite (uint_small 16) by lia. lia.
Qed.

(** The line buffer has no bound check: 82 printable characters without an
    end of line store outside the array [line]. *)
Theorem shell_line_overflows tab chs :
  Forall (fun c => 32 <= c < 127) chs -> length chs = 82%nat -> shell_run tab chs shell_zero = None.
Proof. intros Hc Hl. apply type_past_end; done || (simpl; lia). Qed.

(** ** A session *)

Definition demo_tab : list shell_syscall :=
  [mk_syscall (zs "clear") 1; mk_syscall (zs "version") 2; mk_syscall (zs "top") 3].

Lemma demo_tab_ok : tab_ok demo_tab.
Proof. apply (bool_decide_unpack _). by vm_compute. Qed.

(** A command and its repetition, a prefix of a command, an unknown one, and the
    first line again with the up key; the up key twice, Enter. *)
Definition demo_keys : list Z :=
  zs "top" ++ [13] ++ zs "top" ++ [13] ++ zs " ver" ++ [13] ++ zs "xy" ++ [127; 13] ++ [27; 91; 65; 27; 91; 65; 10].

Lemma shell_refines_editor_witness :
  shell_run demo_tab demo_keys shell_zero =
    Some (concrete (fst (ed_run demo_tab demo_keys editor_zero)), snd (ed_run demo_tab demo_keys editor_zero)) /\
  ed_wf (fst (ed_run demo_tab demo_keys editor_zero)).
Proof.
  assert (lines_fit demo_tab demo_keys editor_zero) as Hfit by (vm_compute; repeat (split; [lia|]); done).
  pose proof (shell_refines_editor demo_tab demo_keys demo_tab_ok) as H.
  destruct (ed_run demo_tab demo_keys editor_zero). apply H; [|exact Hfit].
  apply (bool_decide_unpack _). by vm_compute.
Defined.

Lemma shell_line_overflows_witness : shell_run demo_tab (replicate 82 97) shell_zero = None.
Proof.
  apply (shell_line_overflows demo_tab (replicate 82 97)); [apply Forall_replicate; lia|done].
Defined.
