(* ===== verification/Vfs.v ===== *)
(** * The virtual file system: [src/fs/vfs/vfs.c], [vfs_file.c], [vfs_fs.c]

    The table of descriptors with its reference counts, the table of mounted file
    systems, and the file operations that dispatch to a file system.  File
    systems are code outside these files: [fops_at] and [fsops_at] give the
    tables of functions at an address.  The descriptors are proved to be a table
    of counted slots, the search of a file system to be the first mount point
    that is a prefix of the path. *)

From S2P Require Import Prelude BaseDef KList Slab IoDef Kernel Sched KObj Timer Thread IpcBase Mutex.
From S2P Require Import Device Console.

Local Open Scope c_scope.

(** ** Data *)

Definition VFS_MAX_DIRENT_NAME : Z := 256.
Definition VFS_MAX_FD : Z := 16.
Definition VFS_FD_MAGIC : Z := 0x142431.
Definition FT_REGULAR : Z := 1.
Definition FT_DIRECTORY : Z := 4.
Definition VFS_F_OPEN : Z := 0x100.
Definition VFS_F_DIRECTORY : Z := 0x200.
Definition VFS_F_EOF : Z := 0x400.

(** [struct sk_vfs_file_ops]: a function pointer may be NULL. *)
Record sk_vfs_file_ops := mk_fops {
  fop_open : option (Z -> M Z);
  fop_close : option (Z -> M Z);
  fop_read : option (Z -> Z -> Z -> M Z);
  fop_write : option (Z -> Z -> Z -> M Z);
  fop_lseek : option (Z -> Z -> M Z)
}.

(** [struct sk_vfs_filesystem_ops]; [fs_fops] is the address of the file operations. *)
Record sk_vfs_filesystem_ops := mk_fsops {
  fs_name : Z;
  fs_flag : Z;
  fs_fops : Z;
  fs_mount : option (Z -> Z -> Z -> M Z);
  fs_unmount : option (Z -> M Z);
  fs_mkfs : option (Z -> M Z);
  fs_unlink : option (Z -> Z -> M Z);
  fs_rename : option (Z -> Z -> Z -> M Z)
}.

Definition ks_vfs (s : kstate) : vfs_state := io_vfs (ks_io s).
Definition upd_vfs (g : vfs_state -> vfs_state) : kstate -> kstate := upd_io (set_io_vfs g).

Definition ks_fds (s : kstate) : gmap Z sk_vfs_fd := fd_mem (ks_vfs s).
Definition upd_fds (g : gmap Z sk_vfs_fd -> gmap Z sk_vfs_fd) : kstate -> kstate :=
  upd_vfs (fun v => mk_vfs (file_system v) (max_fd v) (fds v) (g (fd_mem v))).
Definition load_fd (p : Z) : M sk_vfs_fd := read_at ks_fds p.
Definition upd_fd (p : Z) (g : sk_vfs_fd -> sk_vfs_fd) : M unit := update_at ks_fds upd_fds p g.

Definition fd_zero : sk_vfs_fd := mk_fd 0 0 SK_NULL 0 SK_NULL SK_NULL 0 0 0 SK_NULL.
Definition sizeof_sk_vfs_fd : Z := 72.
Definition sizeof_sk_vfs_filesystem : Z := 32.
Definition sizeof_sk_vfs_filesystem_ops : Z := 64.

Definition set_fd_magic (v : Z) (d : sk_vfs_fd) := mk_fd (u32 v) (fd_type d) (fd_path d) (ref_count d)
  (fd_fs d) (fd_fops d) (fd_flag d) (fd_size d) (fd_pos d) (fd_data d).
Definition set_ref_count (v : Z) (d : sk_vfs_fd) := mk_fd (fd_magic d) (fd_type d) (fd_path d) (u32 v)
  (fd_fs d) (fd_fops d) (fd_flag d) (fd_size d) (fd_pos d) (fd_data d).
Definition set_fd_path (v : Z) (d : sk_vfs_fd) := mk_fd (fd_magic d) (fd_type d) v (ref_count d)
  (fd_fs d) (fd_fops d) (fd_flag d) (fd_size d) (fd_pos d) (fd_data d).
Definition set_fd_flag (v : Z) (d : sk_vfs_fd) := mk_fd (fd_magic d) (fd_type d) (fd_path d) (ref_count d)
  (fd_fs d) (fd_fops d) (u32 v) (fd_size d) (fd_pos d) (fd_data d).
Definition set_fd_type (v : Z) (d : sk_vfs_fd) := mk_fd (fd_magic d) (u16 v) (fd_path d) (ref_count d)
  (fd_fs d) (fd_fops d) (fd_flag d) (fd_size d) (fd_pos d) (fd_data d).
Definition set_fd_pos (v : Z) (d : sk_vfs_fd) := mk_fd (fd_magic d) (fd_type d) (fd_path d) (ref_count d)
  (fd_fs d) (fd_fops d) (fd_flag d) (fd_size d) (u64 v) (fd_data d).

(** [fdt->fds[i]]: the array of pointers is in the memory of words; a pointer
    [fds] to no array faults. *)
Definition fds_slot (s : kstate) (i : Z) : Z := fds (ks_vfs s) + 8 * i.
Definition load_slot (i : Z) : M Z := fun s => read_at ks_words (fds_slot s i) s.
Definition store_slot (i p : Z) : M unit := fun s =>
  update_at ks_words upd_words (fds_slot s i) (fun _ => p) s.

(** ** [vfs.c] *)

Section vfs.
(** [fs_lock], [file_system], [file_system_opt] and [working_dir] are the
    addresses of the globals, [fslock_name] and [fail_msg] those of string
    literals, [sk_log_buf] and [temp] the buffers of [sk_kprintf]. *)
Context (fs_lock file_system_addr file_system_opt working_dir fslock_name : Z).
Context (ops_at : Z -> option sk_device_ops) (sk_log_buf temp fail_msg : Z).

(** [sk_memset(p, 0, sizeof(struct sk_vfs_fd))] *)
Definition fd_clear (p : Z) : M unit :=
  if p =? SK_NULL then fault else modify (upd_fds (<[p := fd_zero]>)).

Fixpoint fdt_init_loop (n : nat) (i : Z) : M unit :=
  match n with
  | O => mret tt
  | S n =>
      p ← kmalloc sizeof_sk_vfs_fd;
      store_slot i p;;
      p ← load_slot i;
      fd_clear p;;
      fdt_init_loop n (i + 1)
  end.

Definition sk_fdt_init : M Z :=
  modify (upd_vfs (fun v => mk_vfs (file_system v) VFS_MAX_FD (fds v) (fd_mem v)));;
  fdt_init_loop (Z.to_nat VFS_MAX_FD) 0;;
  mret SK_EOK.

(** The function ends without a return statement. *)
Definition sk_vfs_init : M unit :=
  kmemset file_system_opt 0 (VFS_MAX_FS_TYPE * sizeof_sk_vfs_filesystem_ops);;
  modify (upd_vfs (fun v => mk_vfs (replicate 3 (mk_fs 0 SK_NULL SK_NULL SK_NULL)) (max_fd v)
    (fds v) (fd_mem v)));;
  modify (upd_vfs (fun v => mk_vfs (file_system v) 0 SK_NULL (fd_mem v)));;
  sk_mutex_init fs_lock fslock_name SK_IPC_FLAG_FIFO;;
  sk_fdt_init;;
  kmemset working_dir 0 VFS_MAX_DIRENT_NAME;;
  modify (upd_mem (<[working_dir := 47]>)).

Definition sk_vfs_lock : M unit := sk_mutex_lock fs_lock 0;; mret tt.
Definition sk_vfs_unlock : M unit := sk_mutex_unlock fs_lock;; mret tt.

(** [for(idx = start_fd; idx < fdt->max_fd; idx++) ...] *)
Fixpoint fd_alloc_loop (fuel : nat) (idx : Z) : M Z :=
  match fuel with
  | O => spin
  | S fuel =>
      v ← gets ks_vfs;
      if idx <? max_fd v then
        p ← load_slot idx;
        d ← load_fd p;
        if ref_count d =? 0 then mret idx else fd_alloc_loop fuel (idx + 1)
      else mret idx
  end.

Definition sk_fd_alloc (start_fd : Z) : M Z :=
  v ← gets ks_vfs;
  idx ← fd_alloc_loop (S (Z.to_nat (max_fd v))) (u32 start_fd);
  if idx =? max_fd v then mret (-1) else mret (s32 idx).

Definition sk_fd_new : M Z :=
  sk_vfs_lock;;
  index ← sk_fd_alloc 0;
  if index =? -1 then
    sk_kprintf ops_at sk_log_buf temp fail_msg [];;
    sk_vfs_unlock;;
    mret (-1)
  else
    fd ← load_slot index;
    upd_fd fd (set_ref_count 1);;
    upd_fd fd (set_fd_magic VFS_FD_MAGIC);;
    sk_vfs_unlock;;
    mret index.

Definition sk_get_fd (fd : Z) : M Z :=
  v ← gets ks_vfs;
  if (fd <? 0) || (max_fd v <=? u32 fd) then mret SK_NULL
  else
    sk_vfs_lock;;
    p ← load_slot fd;
    d ← load_fd p;
    if negb (fd_magic d =? VFS_FD_MAGIC) then
      sk_vfs_unlock;;
      mret SK_NULL
    else
      upd_fd p (fun d => set_ref_count (ref_count d + 1) d);;
      sk_vfs_unlock;;
      mret p.

Definition sk_put_fd (fd : Z) : M unit :=
  d ← load_fd fd;
  when_ (0 <? ref_count d) (upd_fd fd (fun d => set_ref_count (ref_count d - 1) d)).

(** ** [vfs_fs.c] *)

(** The first entry of [file_system] from the index [i] on whose mount point
    agrees with [path] in all its characters. *)
Fixpoint fs_search (m : mem) (path i : Z) (l : list sk_vfs_filesystem) : Z :=
  match l with
  | [] => SK_NULL
  | f :: l =>
      if (fs_path f =? SK_NULL) || (fs_ops f =? SK_NULL) then fs_search m path (i + 1) l
      else if sk_strcmp (fs_path f) path (sk_strlen (fs_path f) m) m =? 0
      then file_system_addr + sizeof_sk_vfs_filesystem * i
      else fs_search m path (i + 1) l
  end.

Definition sk_vfs_filesystem_lookup (path : Z) : M Z :=
  sk_vfs_lock;;
  fs ← gets (fun s => fs_search (ks_mem s) path 0 (file_system (ks_vfs s)));
  sk_vfs_unlock;;
  mret fs.

(** [*fs] for a pointer into [file_system]. *)
Definition load_fs (fs : Z) : M sk_vfs_filesystem := fun s =>
  lift_option (if (fs <? file_system_addr) then None
    else file_system (ks_vfs s) !! Z.to_nat ((fs - file_system_addr) / sizeof_sk_vfs_filesystem)) s.

(** The loop of [sk_fd_is_open]: [true] at a descriptor of the same file system
    whose path compares as different from [path]. *)
Fixpoint is_open_loop (n : nat) (index fs path : Z) : M bool :=
  match n with
  | O => mret false
  | S n =>
      p ← load_slot index;
      fd ← load_fd p;
      if (fd_fops fd =? SK_NULL) || (fd_path fd =? SK_NULL) then is_open_loop n (index + 1) fs path
      else
        m ← gets ks_mem;
        if (fd_fs fd =? fs) && negb (sk_strcmp (fd_path fd) path (sk_strlen (fd_path fd) m) m =? 0)
        then mret true
        else is_open_loop n (index + 1) fs path
  end.

Definition sk_fd_is_open (path : Z) : M Z :=
  fs ← sk_vfs_filesystem_lookup path;
  if fs =? SK_NULL then mret (-1)
  else
    sk_vfs_lock;;
    v ← gets ks_vfs;
    found ← is_open_loop (Z.to_nat (max_fd v)) 0 fs path;
    if found : bool then
      sk_vfs_unlock;;
      mret 0
    else
      sk_vfs_unlock;;
      mret (-1).

(** ** [vfs_file.c] *)

Context (fops_at : Z -> option sk_vfs_file_ops) (fsops_at : Z -> option sk_vfs_filesystem_ops).

(** [fd->fops] *)
Definition fops_of (fd : Z) : M sk_vfs_file_ops :=
  d ← load_fd fd; lift_option (fops_at (fd_fops d)).

(** The stores of [sk_vfs_file_open] before the file system is called. *)
Definition fd_setup (fs fops path flag : Z) (d : sk_vfs_fd) : sk_vfs_fd :=
  mk_fd (fd_magic d) FT_REGULAR path (ref_count d) fs fops (u32 flag) 0 0 fs.

(** [sk_free(fd->path); fd->path = SK_NULL;] *)
Definition drop_path (fd : Z) : M unit :=
  d ← load_fd fd;
  kfree (fd_path d);;
  upd_fd fd (set_fd_path SK_NULL).

Definition sk_vfs_file_open (fd path flag : Z) : M Z :=
  if fd =? SK_NULL then mret SK_EINVAL
  else
    fs ← sk_vfs_filesystem_lookup path;
    if fs =? SK_NULL then mret SK_ERROR
    else
      f ← load_fs fs;
      ops ← lift_option (fsops_at (fs_ops f));
      upd_fd fd (fd_setup fs (fs_fops ops) path flag);;
      fops ← fops_of fd;
      match fop_open fops with
      | None => drop_path fd;; mret SK_ERROR
      | Some open =>
          ret ← open fd;
          if ret <? 0 then drop_path fd;; mret SK_ERROR
          else
            upd_fd fd (fun d => set_fd_flag (fd_flag d ||| VFS_F_OPEN) d);;
            when_ (negb (flag & VFS_F_DIRECTORY =? 0))
              (upd_fd fd (set_fd_type FT_DIRECTORY);;
               upd_fd fd (fun d => set_fd_flag (fd_flag d ||| VFS_F_DIRECTORY) d));;
            mret 0
      end.

Definition sk_vfs_file_close (fd : Z) : M Z :=
  if fd =? SK_NULL then mret SK_EINVAL
  else
    fops ← fops_of fd;
    ret ← match fop_close fops with None => mret 0 | Some close => close fd end;
    if ret <? 0 then mret ret
    else drop_path fd;; mret ret.

Definition sk_vfs_file_read (fd buf len : Z) : M Z :=
  if fd =? SK_NULL then mret SK_EINVAL
  else
    fops ← fops_of fd;
    match fop_read fops with
    | None => mret SK_ERROR
    | Some read =>
        ret ← read fd buf len;
        when_ (ret <? 0) (upd_fd fd (fun d => set_fd_flag (fd_flag d ||| VFS_F_EOF) d));;
        mret ret
    end.

Definition sk_vfs_file_write (fd buf len : Z) : M Z :=
  if fd =? SK_NULL then mret SK_EINVAL
  else
    fops ← fops_of fd;
    match fop_write fops with
    | None => mret SK_ERROR
    | Some write => write fd buf len
    end.

Definition sk_vfs_file_lseek (fd offset : Z) : M Z :=
  if fd =? SK_NULL then mret SK_EINVAL
  else
    fops ← fops_of fd;
    match fop_lseek fops with
    | None => mret SK_ERROR
    | Some lseek =>
        ret ← lseek fd offset;
        when_ (0 <=? ret) (upd_fd fd (set_fd_pos ret));;
        mret ret
    end.

(** [!fs->ops->unlink != SK_NULL] negates the pointer before it compares: the
    function is called when its pointer is NULL, which faults. *)
Definition sk_vfs_file_unlink (path : Z) : M Z :=
  fs ← sk_vfs_filesystem_lookup path;
  if fs =? SK_NULL then mret SK_EINVAL
  else
    open ← sk_fd_is_open path;
    if open =? 0 then mret SK_EBUSY
    else
      f ← load_fs fs;
      ops ← lift_option (fsops_at (fs_ops f));
      match fs_unlink ops with
      | None => fault
      | Some unlink => mret SK_ERROR
      end.

End vfs.

(** ** The lock *)

(** The mutex when nobody has it, and when the thread [t] has it once. *)
Definition lock_free : sk_mutex := mk_mutex 1 0xFF 0 SK_NULL.
Definition lock_held (t p : Z) : sk_mutex := mk_mutex 0 p 1 t.

(** The current thread can take the lock [fs_lock] that nobody waits for. *)
Record lockable (fs_lock : Z) (L : lists) (s : kstate) : Prop := {
  lk_sched : sched_inv L s;
  lk_wait : waiting L (NSuspend fs_lock) [];
  lk_free : ks_mutexes s !! fs_lock = Some lock_free;
  lk_thread : is_Some (ks_threads s !! ks_current s);
  lk_current : ks_current s <> SK_NULL
}.

(** What the lock depends on is the same in both states. *)
Definition kernel_frame (s s' : kstate) : Prop :=
  ks_nodes s' = ks_nodes s /\ ks_threads s' = ks_threads s /\ ks_group s' = ks_group s /\
  ks_daif s' = ks_daif s /\ ks_current s' = ks_current s /\ ks_mutexes s' = ks_mutexes s /\
  ks_words s' = ks_words s.

Section lock.
Context (fs_lock : Z) (L : lists).
Implicit Types (s : kstate).

Lemma sched_inv_frame s s' :
  sched_inv L s -> ks_nodes s' = ks_nodes s -> ks_threads s' = ks_threads s ->
  ks_group s' = ks_group s -> ks_daif s' = ks_daif s -> sched_inv L s'.
Proof.
  intros HI En Et Eg Ed. eapply sched_inv_ext; [exact HI|rewrite En; apply HI| |done..].
  unfold irq_wf. rewrite Ed. apply HI.
Qed.

Lemma lockable_frame s s' : lockable fs_lock L s -> kernel_frame s s' -> lockable fs_lock L s'.
Proof.
  intros [] (En & Et & Eg & Ed & Ec & Em & _). split; rewrite ?Et, ?Ec, ?Em; try done.
  by eapply sched_inv_frame.
Qed.

Lemma vfs_lock_ok s :
  lockable fs_lock L s -> exists p,
    sk_vfs_lock fs_lock s = Done (upd_mutexes (<[fs_lock := lock_held (ks_current s) p]>) s) tt.
Proof.
  intros [HI Hw Hm [th Hth] Hc]. exists (current_pri th). unfold sk_vfs_lock.
  erewrite bind_done; [reflexivity|]. rewrite (mutex_lock_run s fs_lock _ th 0 (si_irq _ _ HI) Hm Hth).
  simpl owner. rewrite (proj2 (Z.eqb_neq _ _)) by congruence. done.
Qed.

(** Unlocking after changes that leave the lock alone gives those changes of the
    unlocked state. *)
Lemma vfs_unlock_ok s1 s2 p :
  lockable fs_lock L s1 -> ks_current s2 = ks_current s1 -> ks_nodes s2 = ks_nodes s1 ->
  ks_threads s2 = ks_threads s1 -> ks_group s2 = ks_group s1 -> ks_daif s2 = ks_daif s1 ->
  ks_mutexes s2 = <[fs_lock := lock_held (ks_current s1) p]> (ks_mutexes s1) ->
  sk_vfs_unlock fs_lock s2 = Done (upd_mutexes (fun _ => ks_mutexes s1) s2) tt.
Proof.
  intros [HI Hw Hm [th Hth] Hc] Ec En Et Eg Ed Em. unfold sk_vfs_unlock. erewrite bind_done; [reflexivity|].
  rewrite (mutex_unlock_run L s2 fs_lock (lock_held (ks_current s1) p) []);
    [|by eapply sched_inv_frame|by rewrite Em, lookup_insert_eq|done].
  simpl owner. rewrite Ec, Z.eqb_refl. kif. simpl hold. change (u8 (1 - 1) =? 0) with true. kif.
  f_equal. destruct s2; simpl in *. unfold upd_mutexes; simpl. rewrite Em, insert_insert_eq.
  f_equal. by apply insert_id.
Qed.

End lock.

(** ** The table of descriptors *)

(** A slot was never used, or is referenced [n] times; a slot that was used stays
    so when its last reference is put. *)
Inductive slot := Fresh | Used (n : Z).

Definition slot_refs (x : slot) : Z := match x with Fresh => 0 | Used n => n end.

Definition slot_rep (x : slot) (d : sk_vfs_fd) : Prop :=
  ref_count d = slot_refs x /\ (fd_magic d =? VFS_FD_MAGIC) = (if x is Used _ then true else false).

(** The first slot without a reference. *)
Fixpoint first_free (tab : list slot) : option nat :=
  match tab with
  | [] => None
  | x :: tab => if slot_refs x =? 0 then Some O else S <$> first_free tab
  end.

Inductive fd_call := FdNew | FdGet (fd : Z) | FdPut (i : nat).

(** The abstract table after a call, and the result of the call: an index, a
    pointer of [ps], or nothing. *)
Definition tab_after (tab : list slot) (c : fd_call) : list slot :=
  match c with
  | FdNew => match first_free tab with Some i => <[i := Used 1]> tab | None => tab end
  | FdGet fd =>
      if s32 fd <? 0 then tab
      else match tab !! Z.to_nat (s32 fd) with
           | Some (Used n) => <[Z.to_nat (s32 fd) := Used (u32 (n + 1))]> tab
           | _ => tab
           end
  | FdPut i =>
      match tab !! i with
      | Some (Used n) => if 0 <? n then <[i := Used (u32 (n - 1))]> tab else tab
      | _ => tab
      end
  end.

Definition tab_result (ps : list Z) (tab : list slot) (c : fd_call) : Z :=
  match c with
  | FdNew => match first_free tab with Some i => Z.of_nat i | None => -1 end
  | FdGet fd =>
      if s32 fd <? 0 then SK_NULL
      else match tab !! Z.to_nat (s32 fd) with
           | Some (Used n) => default SK_NULL (ps !! Z.to_nat (s32 fd))
           | _ => SK_NULL
           end
  | FdPut i => 0
  end.

Fixpoint tab_results (ps : list Z) (tab : list slot) (cs : list fd_call) : list Z :=
  match cs with
  | [] => []
  | c :: cs => tab_result ps tab c :: tab_results ps (tab_after tab c) cs
  end.

(** What [sk_fd_new] needs of the console: in a state with [Q] the message is
    printed, and neither the kernel's lists and locks nor the descriptors change. *)
Class Logger (log : M unit) (Q : kstate -> Prop) : Prop := {
  log_ok s : Q s -> exists s', log s = Done s' tt /\ Q s' /\ kernel_frame s s' /\ ks_vfs s' = ks_vfs s;
  log_mutexes g s : Q s -> Q (upd_mutexes g s);
  log_fds g s : Q s -> Q (upd_fds g s)
}.

Section table.
Context (fs_lock : Z) (ops_at : Z -> option sk_device_ops) (sk_log_buf temp fail_msg : Z).
Context (Q : kstate -> Prop) {LG : Logger (sk_kprintf ops_at sk_log_buf temp fail_msg []) Q}.
Context (L : lists) (ps : list Z).
Implicit Types (s : kstate).

Notation sk_fd_new := (sk_fd_new fs_lock ops_at sk_log_buf temp fail_msg).

(** Calls with their C arguments: an [int], the pointer of a slot. *)
Definition run_fd_call (c : fd_call) : M Z :=
  match c with
  | FdNew => sk_fd_new
  | FdGet fd => sk_get_fd fs_lock (s32 fd)
  | FdPut i => sk_put_fd (default SK_NULL (ps !! i));; mret 0
  end.

Fixpoint run_fd_calls (cs : list fd_call) : M (list Z) :=
  match cs with
  | [] => mret []
  | c :: cs => r ← run_fd_call c; rs ← run_fd_calls cs; mret (r :: rs)
  end.

(** The descriptors at [ps] represent the table. *)
Record tab_rep (tab : list slot) (s : kstate) : Prop := {
  tr_max : max_fd (ks_vfs s) = Z.of_nat (length tab);
  tr_len : length ps = length tab;
  tr_slot i p : ps !! i = Some p -> ks_words s !! fds_slot s (Z.of_nat i) = Some p;
  tr_fd i p x : ps !! i = Some p -> tab !! i = Some x ->
    exists d, ks_fds s !! p = Some d /\ slot_rep x d
}.

Record vfs_rep (tab : list slot) (s : kstate) : Prop := {
  vr_lock : lockable fs_lock L s;
  vr_tab : tab_rep tab s;
  vr_log : Q s;
  vr_bound : Z.of_nat (length tab) < 2 ^ 31;
  vr_nodup : NoDup ps
}.

Lemma tab_rep_frame tab s s' :
  tab_rep tab s -> ks_vfs s' = ks_vfs s -> ks_words s' = ks_words s -> tab_rep tab s'.
Proof.
  intros [] Ev Ew. unfold ks_fds, fds_slot in *.
  split; unfold ks_fds, fds_slot; rewrite ?Ev, ?Ew; done.
Qed.

(** The slot of an index. *)
Lemma tab_slot tab s i x :
  tab_rep tab s -> tab !! i = Some x ->
  exists p d, ps !! i = Some p /\ load_slot (Z.of_nat i) s = Done s p /\ load_fd p s = Done s d /\
    ks_fds s !! p = Some d /\ slot_rep x d.
Proof.
  intros [_ Hl Hs Hf] Hx. destruct (lookup_lt_is_Some_2 ps i) as [p Hp].
  { rewrite Hl. by eapply lookup_lt_Some. }
  destruct (Hf i p x Hp Hx) as (d & Hd & Hr). exists p, d. split; [done|].
  split; [by apply read_at_ok, Hs|]. split; [by apply read_at_ok|done].
Qed.

(** A new value of one slot. *)
Lemma tab_rep_insert tab s i p d x :
  tab_rep tab s -> NoDup ps -> ps !! i = Some p -> slot_rep x d ->
  tab_rep (<[i := x]> tab) (upd_fds (<[p := d]>) s).
Proof.
  intros [Hm Hl Hs Hf] Hnd Hp Hd. split; rewrite ?length_insert; try done. intros j q y Hq Hy.
  change (ks_fds (upd_fds (<[p := d]>) s)) with (<[p := d]> (ks_fds s)).
  destruct (decide (i = j)) as [<-|Hij].
  - rewrite Hp in Hq. injection Hq as <-. exists d. split; [by rewrite lookup_insert_eq|].
    rewrite list_lookup_insert_eq in Hy; [by injection Hy as <-|].
    rewrite <- Hl. by eapply lookup_lt_Some.
  - rewrite list_lookup_insert_ne in Hy by done. rewrite lookup_insert_ne; [by eapply Hf|].
    intros ->. apply Hij. by eapply NoDup_lookup.
Qed.

(** The changes of the descriptors under the lock, after it is released. *)
Lemma unlock_fds s g p :
  lockable fs_lock L s ->
  sk_vfs_unlock fs_lock (upd_fds g (upd_mutexes (<[fs_lock := lock_held (ks_current s) p]>) s)) =
    Done (upd_fds g s) tt.
Proof. intros Hl. by rewrite (vfs_unlock_ok fs_lock L s _ p); destruct s. Qed.

Lemma unlock_same s p :
  lockable fs_lock L s ->
  sk_vfs_unlock fs_lock (upd_mutexes (<[fs_lock := lock_held (ks_current s) p]>) s) = Done s tt.
Proof. intros Hl. by rewrite (vfs_unlock_ok fs_lock L s _ p); destruct s. Qed.

Lemma vfs_rep_insert tab s i p d x :
  vfs_rep tab s -> ps !! i = Some p -> slot_rep x d ->
  vfs_rep (<[i := x]> tab) (upd_fds (<[p := d]>) s).
Proof.
  intros [Hl Ht HQ Hb Hnd] Hp Hd. split; rewrite ?length_insert; try done.
  - by eapply lockable_frame.
  - by apply tab_rep_insert.
  - by apply log_fds.
Qed.

Lemma fd_alloc_loop_spec tab s fuel i :
  tab_rep tab s -> (length (drop i tab) < fuel)%nat -> (i <= length tab)%nat ->
  fd_alloc_loop fuel (Z.of_nat i) s =
    Done s (Z.of_nat (match first_free (drop i tab) with Some j => i + j | None => length tab end)).
Proof.
  intros Ht. revert i. induction fuel as [|fuel IH]; intros i Hf Hi; [lia|]. simpl fd_alloc_loop.
  erewrite bind_done by reflexivity. cbv beta. rewrite (tr_max _ _ Ht).
  destruct (Z.ltb_spec (Z.of_nat i) (Z.of_nat (length tab))) as [Hlt|Hge].
  - destruct (lookup_lt_is_Some_2 tab i) as [x Hx]; [lia|].
    destruct (tab_slot tab s i x Ht Hx) as (p & d & Hp & E1 & E2 & Hd & Hr).
    kstep E1. kstep E2. rewrite (proj1 Hr). rewrite (drop_S _ _ _ Hx) in Hf |- *. simpl in Hf. cbn [first_free].
    destruct (slot_refs x =? 0).
    + unfold mret, M_ret. do 2 f_equal. lia.
    + replace (Z.of_nat i + 1) with (Z.of_nat (S i)) by lia. rewrite IH by (done || lia).
      do 2 f_equal. destruct (first_free (drop (S i) tab)); simpl; lia.
  - rewrite drop_ge by lia. simpl. unfold mret, M_ret. do 2 f_equal. lia.
Qed.

Lemma first_free_lt tab i : first_free tab = Some i -> (i < length tab)%nat.
Proof.
  revert i. induction tab as [|x tab IH]; intros i; simpl; [done|]. destruct (slot_refs x =? 0).
  - intros [= <-]. lia.
  - destruct (first_free tab); intros [= <-]. specialize (IH _ eq_refl). lia.
Qed.

Lemma fd_alloc_spec tab s :
  tab_rep tab s -> Z.of_nat (length tab) < 2 ^ 31 ->
  sk_fd_alloc 0 s = Done s (match first_free tab with Some i => Z.of_nat i | None => -1 end).
Proof.
  intros Ht Hb. unfold sk_fd_alloc. erewrite bind_done by reflexivity. cbv beta. rewrite (tr_max _ _ Ht).
  change (u32 0) with (Z.of_nat 0).
  erewrite bind_done by (apply (fd_alloc_loop_spec tab); [done|rewrite drop_0; lia|lia]).
  rewrite drop_0. unfold mret, M_ret. destruct (first_free tab) as [i|] eqn:E.
  - apply first_free_lt in E. rewrite (proj2 (Z.eqb_neq _ _)) by lia. by rewrite sint_small by lia.
  - by rewrite Z.eqb_refl.
Qed.

(** The table under the lock. *)
Lemma tab_rep_locked tab s g : tab_rep tab s -> tab_rep tab (upd_mutexes g s).
Proof. intros H. by eapply tab_rep_frame. Qed.

Lemma fd_new_spec tab s :
  vfs_rep tab s ->
  exists s', sk_fd_new s = Done s' (tab_result ps tab FdNew) /\ vfs_rep (tab_after tab FdNew) s'.
Proof.
  intros HV. pose proof HV as [Hl Ht HQ Hb Hnd]. unfold Vfs.sk_fd_new.
  destruct (vfs_lock_ok fs_lock L s Hl) as [pr E]. kstep E.
  set (s1 := upd_mutexes _ s). pose proof (tab_rep_locked tab s (<[fs_lock := lock_held (ks_current s) pr]>) Ht) as Ht1.
  fold s1 in Ht1. erewrite bind_done by (by apply (fd_alloc_spec tab)). simpl tab_after. simpl tab_result.
  destruct (first_free tab) as [i|] eqn:Ei.
  - rewrite (proj2 (Z.eqb_neq _ _)) by lia. destruct (lookup_lt_is_Some_2 tab i) as [x Hx]; [by apply first_free_lt|].
    destruct (tab_slot tab s1 i x Ht1 Hx) as (p & d & Hp & E1 & E2 & Hd & Hr). kstep E1. unfold upd_fd.
    erewrite bind_done by (apply update_at_ok; exact Hd).
    erewrite bind_done by (apply update_at_ok; exact (lookup_insert_eq _ _ _)).
    exists (upd_fds (<[p := set_fd_magic VFS_FD_MAGIC (set_ref_count 1 d)]>) s).
    split; [|by apply vfs_rep_insert].
    erewrite bind_done; [reflexivity|].
    rewrite <- (unlock_fds s (<[p := set_fd_magic VFS_FD_MAGIC (set_ref_count 1 d)]>) pr Hl). f_equal.
    unfold upd_fds, upd_vfs, upd_io, set_io_vfs; simpl. by rewrite insert_insert_eq.
  - kif. destruct (log_ok s1) as (s2 & E2 & HQ2 & Hf2 & Hv2); [by apply log_mutexes|].
    change (-1 =? -1) with true. kif. kstep E2. destruct Hf2 as (F1 & F2 & F3 & F4 & F5 & F6 & F7).
    erewrite bind_done by (by apply (vfs_unlock_ok fs_lock L s s2 pr)).
    eexists. split; [reflexivity|]. split; try done.
    + eapply lockable_frame; [exact Hl|]. by split_and!.
    + by eapply tab_rep_frame; [exact Ht|..].
    + by apply log_mutexes.
Qed.

Lemma get_fd_spec tab s fd :
  vfs_rep tab s ->
  exists s', sk_get_fd fs_lock (s32 fd) s = Done s' (tab_result ps tab (FdGet fd)) /\
    vfs_rep (tab_after tab (FdGet fd)) s'.
Proof.
  intros HV. pose proof HV as [Hl Ht HQ Hb Hnd]. unfold sk_get_fd. erewrite bind_done by reflexivity.
  cbv beta. rewrite (tr_max _ _ Ht). simpl tab_after. simpl tab_result.
  assert (- 2 ^ 31 <= s32 fd < 2 ^ 31) as Hr.
  { unfold sk_sint. pose proof (Z.mod_pos_bound (fd + 2 ^ (32 - 1)) (2 ^ 32) ltac:(lia)). lia. }
  destruct (Z.ltb_spec (s32 fd) 0); [by exists s|]. rewrite orb_false_l.
  rewrite (uint_small 32) by lia. destruct (tab !! Z.to_nat (s32 fd)) as [x|] eqn:Hx.
  2: { apply lookup_ge_None in Hx. rewrite (proj2 (Z.leb_le _ _)) by lia. by exists s. }
  pose proof (lookup_lt_Some _ _ _ Hx). rewrite (proj2 (Z.leb_gt _ _)) by lia.
  destruct (vfs_lock_ok fs_lock L s Hl) as [pr E]. kstep E.
  pose proof (tab_rep_locked tab s (<[fs_lock := lock_held (ks_current s) pr]>) Ht) as Ht1.
  destruct (tab_slot tab _ _ x Ht1 Hx) as (p & d & Hp & E1 & E2 & Hd & Hrep).
  rewrite Z2Nat.id in E1 by lia. kstep E1. kstep E2. rewrite (proj2 Hrep). destruct x as [|n]; kif.
  - erewrite bind_done by (by apply unlock_same). by exists s.
  - unfold upd_fd. erewrite bind_done by (apply update_at_ok; exact Hd).
    erewrite bind_done by (by apply unlock_fds). eexists. rewrite Hp. split; [reflexivity|].
    apply vfs_rep_insert; [done|done|]. split; [by simpl; rewrite (proj1 Hrep)|apply Hrep].
Qed.

Lemma put_fd_spec tab s i :
  vfs_rep tab s -> (i < length tab)%nat ->
  exists s', run_fd_call (FdPut i) s = Done s' 0 /\ vfs_rep (tab_after tab (FdPut i)) s'.
Proof.
  intros HV Hi. pose proof HV as [Hl Ht HQ Hb Hnd]. destruct (lookup_lt_is_Some_2 tab i Hi) as [x Hx].
  destruct (tab_slot tab s i x Ht Hx) as (p & d & Hp & _ & E2 & Hd & Hrep). simpl run_fd_call. simpl tab_after.
  rewrite Hp, Hx. simpl. unfold sk_put_fd. destruct Hrep as [Hn Hm].
  destruct x as [|n]; simpl in Hn; [|destruct (Z.ltb_spec 0 n) as [H0|H0]];
    (eexists; split; [erewrite bind_done; [reflexivity|]; kstep E2; rewrite Hn|]).
  - reflexivity.
  - done.
  - rewrite (proj2 (Z.ltb_lt _ _) H0). by apply update_at_ok.
  - apply vfs_rep_insert; [done|done|]. split; [by simpl; rewrite Hn|done].
  - by rewrite (proj2 (Z.ltb_ge _ _) H0).
  - done.
Qed.

(** Only slots of the table are put. *)
Definition puts_in_table (n : nat) (c : fd_call) : Prop := if c is FdPut i then (i < n)%nat else True.

Lemma length_tab_after tab c : length (tab_after tab c) = length tab.
Proof.
  destruct c as [|fd|i]; simpl.
  - destruct (first_free tab); [by rewrite length_insert|done].
  - destruct (s32 fd <? 0); [done|]. destruct (tab !! _) as [[]|]; [done|by rewrite length_insert|done].
  - destruct (tab !! i) as [[|n]|]; [done| |done]. destruct (0 <? n); [by rewrite length_insert|done].
Qed.

(** C32: any sequence of [sk_fd_new], [sk_get_fd] and [sk_put_fd] returns what a
    table of counted slots returns: a new descriptor is the first one without a
    reference or, after the message on the console, -1; a descriptor that was
    ever allocated can be got, which counts one reference more in 32 bits, any
    other index gives NULL; a put takes one reference away.  The lock is free
    again after every call. *)
Theorem fd_calls_follow_table cs tab s :
  vfs_rep tab s -> Forall (puts_in_table (length tab)) cs ->
  exists s', run_fd_calls cs s = Done s' (tab_results ps tab cs) /\
    vfs_rep (foldl tab_after tab cs) s'.
Proof.
  revert tab s. induction cs as [|c cs IH]; intros tab s HV Hc; [by exists s|].
  apply Forall_cons in Hc as [Hp Hc].
  assert (exists s1, run_fd_call c s = Done s1 (tab_result ps tab c) /\ vfs_rep (tab_after tab c) s1)
    as (s1 & E & HV1).
  { destruct c as [|fd|i]; [by apply fd_new_spec|by apply get_fd_spec|by apply put_fd_spec]. }
  destruct (IH (tab_after tab c) s1 HV1) as (s2 & E2 & HV2); [by rewrite length_tab_after|].
  exists s2. split; [|done]. simpl run_fd_calls. kstep E. kstep E2. done.
Qed.

End table.

(** ** Without a console device the message is only formatted *)

Section quiet.
Context (ops_at : Z -> option sk_device_ops) (sk_log_buf temp msg : Z) (f : list Z).
Context (apart1 : temp + 32 <= msg \/ msg + Z.of_nat (length f) < temp)
  (apart2 : sk_log_buf + Z.of_nat (length f) < msg \/ msg + Z.of_nat (length f) < sk_log_buf)
  (apart3 : temp + 32 <= sk_log_buf \/ sk_log_buf + Z.of_nat (length f) < temp)
  (plain : render f [] = Some f) (short : Z.of_nat (length f) < 2 ^ 64).

Definition quiet (s : kstate) : Prop := console_device s = SK_NULL /\ cstr (ks_mem s) msg f.

#[global] Instance quiet_logger : Logger (sk_kprintf ops_at sk_log_buf temp msg []) quiet.
Proof using apart1 apart2 apart3 plain short.
  split; [|done..]. intros s [Hc Hm].
  destruct (vsprintf_spec (fun a => msg <= a <= msg + Z.of_nat (length f)) temp sk_log_buf msg f [] f
    (ks_mem s)) as (m' & E & _ & _ & Hf); try done; [intros a ?; lia|intros a ?; lia|split; [done|lia]|].
  simpl in E. exists (upd_mem (fun _ => m') s). split.
  - unfold sk_kprintf. erewrite bind_done by reflexivity. rewrite E. erewrite bind_done by reflexivity.
    cbv beta iota. erewrite bind_done by reflexivity. cbv zeta. erewrite bind_done by reflexivity.
    change (console_device (upd_mem (fun _ => m') s)) with (console_device s). by rewrite Hc.
  - split; [|done]. split; [done|]. simpl. eapply cstr_ext; [done|]. intros i Hi. apply Hf; lia.
Qed.

End quiet.

(** ** Finding a file system *)

(** The mount points of the table with the addresses of their entries: [None]
    for an entry that is not in use. *)
Definition mounts (m : mem) (l : list sk_vfs_filesystem) (ms : list (option (list Z))) : Prop :=
  Forall2 (fun f o => match o with
    | None => fs_path f = SK_NULL \/ fs_ops f = SK_NULL
    | Some name => fs_path f <> SK_NULL /\ fs_ops f <> SK_NULL /\ cstr m (fs_path f) name
    end) l ms.

(** The index of the first mount point that the path starts with. *)
Fixpoint mount_of (path : list Z) (ms : list (option (list Z))) : option nat :=
  match ms with
  | [] => None
  | o :: ms =>
      if (if o is Some name then bool_decide (name `prefix_of` path) else false) then Some O
      else S <$> mount_of path ms
  end.

Section lookup.
Context (fs_lock file_system_addr : Z) (L : lists).
Implicit Types (s : kstate).

(** Comparing in the characters of the mount point is the test for a prefix. *)
Lemma strcmp_prefix m p q a b :
  cstr m p a -> cstr m q b ->
  (sk_strcmp p q (sk_strlen p m) m =? 0) = bool_decide (a `prefix_of` b).
Proof.
  intros Ha Hb. rewrite (strlen_spec m p a Ha). unfold sk_strcmp. rewrite Nat2Z.id.
  pose proof (strcmp_loop_zero m (length a) p q a b Ha Hb) as H. rewrite firstn_all in H.
  destruct (Z.eqb_spec (strcmp_loop (length a) p q m 0) 0) as [E|E]; symmetry.
  - apply bool_decide_eq_true_2. exists (drop (length a) b). apply H in E. rewrite E at 1. by rewrite take_drop.
  - apply bool_decide_eq_false_2. intros [c ->]. apply E, H. by rewrite take_app_length.
Qed.

Definition entry_addr (o : option nat) (i : Z) : Z :=
  match o with
  | Some j => file_system_addr + sizeof_sk_vfs_filesystem * (i + Z.of_nat j)
  | None => SK_NULL
  end.

Lemma fs_search_spec m q path l ms i :
  mounts m l ms -> cstr m q path ->
  fs_search file_system_addr m q i l = entry_addr (mount_of path ms) i.
Proof.
  intros Hm Hq. revert i. induction Hm as [|f o l ms Hf Hm IH]; intros i; [done|]. simpl.
  destruct o as [name|].
  - destruct Hf as (Hp & Ho & Hn). rewrite (proj2 (Z.eqb_neq _ _) Hp), (proj2 (Z.eqb_neq _ _) Ho). simpl.
    rewrite (strcmp_prefix m (fs_path f) q name path) by done.
    case_bool_decide; simpl; [by rewrite Z.add_0_r|]. rewrite IH.
    destruct (mount_of path ms); simpl; [|done]. do 2 f_equal. lia.
  - assert ((fs_path f =? SK_NULL) || (fs_ops f =? SK_NULL) = true) as ->.
    { destruct Hf as [-> | ->]; [done|]. by rewrite orb_true_r. }
    rewrite IH. destruct (mount_of path ms); simpl; [|done]. do 2 f_equal. lia.
Qed.

Lemma lookup_spec s q path ms :
  lockable fs_lock L s -> mounts (ks_mem s) (file_system (ks_vfs s)) ms -> cstr (ks_mem s) q path ->
  sk_vfs_filesystem_lookup fs_lock file_system_addr q s = Done s (entry_addr (mount_of path ms) 0).
Proof.
  intros Hl Hm Hq. unfold sk_vfs_filesystem_lookup. destruct (vfs_lock_ok fs_lock L s Hl) as [pr E]. kstep E.
  erewrite bind_done by reflexivity. erewrite bind_done by (by eapply unlock_same).
  unfold mret, M_ret. f_equal. by apply fs_search_spec.
Qed.

(** [sk_vfs_filesystem_lookup] returns the first entry of the table, in the
    order of the table, that is in use and whose mount point is a prefix of the
    path, NULL if there is none, and changes nothing; a longer mount point in a
    later entry never wins. *)
Theorem vfs_lookup_first_prefix s q path ms :
  lockable fs_lock L s -> mounts (ks_mem s) (file_system (ks_vfs s)) ms -> cstr (ks_mem s) q path ->
  sk_vfs_filesystem_lookup fs_lock file_system_addr q s = Done s (entry_addr (mount_of path ms) 0) /\
  forall i, mount_of path ms = Some i -> (exists name, ms !! i = Some (Some name) /\ name `prefix_of` path) /\
    forall j name, (j < i)%nat -> ms !! j = Some (Some name) -> ~ name `prefix_of` path.
Proof.
  intros Hl Hm Hq. split; [by apply lookup_spec|]. clear Hm. intros i. revert i.
  induction ms as [|o ms IH]; intros i; simpl; [done|].
  destruct o as [name|]; [case_bool_decide as Hp|]; simpl.
  - intros [= <-]. split; [by exists name|]. lia.
  - destruct (mount_of path ms) as [k|]; intros [= <-]. destruct (IH k eq_refl) as [H1 H2]. split; [done|].
    intros [|j] nm Hj; simpl; [by intros [= <-]|]. apply H2. lia.
  - destruct (mount_of path ms) as [k|]; intros [= <-]. destruct (IH k eq_refl) as [H1 H2]. split; [done|].
    intros [|j] nm Hj; simpl; [done|]. apply H2. lia.
Qed.

End lookup.

(** ** Open files and their removal *)

(** The table of descriptors, record by record. *)
Record descriptors (ps : list Z) (ds : list sk_vfs_fd) (s : kstate) : Prop := {
  ds_max : max_fd (ks_vfs s) = Z.of_nat (length ds);
  ds_slot i d : ds !! i = Some d -> exists p, ps !! i = Some p /\
    ks_words s !! fds_slot s (Z.of_nat i) = Some p /\ ks_fds s !! p = Some d
}.

(** The names of the files of the descriptors; [None] for one without a file. *)
Definition open_names (m : mem) (ds : list sk_vfs_fd) (ns : list (option (list Z))) : Prop :=
  Forall2 (fun d o => match o with
    | None => fd_fops d = SK_NULL \/ fd_path d = SK_NULL
    | Some name => fd_fops d <> SK_NULL /\ fd_path d <> SK_NULL /\ cstr m (fd_path d) name
    end) ds ns.

(** A file of the file system [fs] is open whose name is no prefix of [path]. *)
Fixpoint other_open (fs : Z) (path : list Z) (ds : list sk_vfs_fd) (ns : list (option (list Z))) : bool :=
  match ds, ns with
  | d :: ds, o :: ns =>
      (if o is Some name then (fd_fs d =? fs) && negb (bool_decide (name `prefix_of` path)) else false) ||
      other_open fs path ds ns
  | _, _ => false
  end.

Section removal.
Context (fs_lock file_system_addr : Z) (L : lists) (ps : list Z).
Context (fsops_at : Z -> option sk_vfs_filesystem_ops).
Implicit Types (s : kstate).

Lemma is_open_loop_spec all ds ns s fs q path i :
  descriptors ps all s -> drop i all = ds -> open_names (ks_mem s) ds ns -> cstr (ks_mem s) q path ->
  is_open_loop (length ds) (Z.of_nat i) fs q s = Done s (other_open fs path ds ns).
Proof.
  intros HD Hi Hn Hq. revert i Hi. induction Hn as [|d o ds ns Hd Hn IH]; intros i Hi; [done|].
  assert (all !! i = Some d) as Hx by (by rewrite <- (Nat.add_0_r i), <- lookup_drop, Hi).
  assert (drop (S i) all = ds) as Hi' by (rewrite (drop_S _ _ _ Hx) in Hi; by injection Hi).
  destruct (ds_slot _ _ _ HD i d Hx) as (p & Hp & Hw & Hf). simpl is_open_loop.
  unfold load_slot, load_fd. erewrite bind_done by (by apply read_at_ok).
  erewrite bind_done by (by apply read_at_ok). specialize (IH (S i) Hi').
  replace (Z.of_nat (S i)) with (Z.of_nat i + 1) in IH by lia. destruct o as [name|]; simpl other_open.
  - destruct Hd as (H1 & H2 & H3). rewrite (proj2 (Z.eqb_neq _ _) H1), (proj2 (Z.eqb_neq _ _) H2).
    cbn [orb]. erewrite bind_done by reflexivity. cbv beta. rewrite (strcmp_prefix _ _ _ name path) by done.
    destruct ((fd_fs d =? fs) && negb (bool_decide (name `prefix_of` path))); [done|exact IH].
  - assert ((fd_fops d =? SK_NULL) || (fd_path d =? SK_NULL) = true) as ->; [|exact IH].
    destruct Hd as [-> | ->]; [done|]. by rewrite orb_true_r.
Qed.

(** [sk_fd_is_open] answers 0, "open", exactly when some file of the same
    file system is open whose name is not a prefix of the path: the comparison
    is used the wrong way round, so the descriptor of the file itself counts for
    nothing.  It changes nothing. *)
Lemma is_open_spec s q path ms ds ns :
  lockable fs_lock L s -> mounts (ks_mem s) (file_system (ks_vfs s)) ms ->
  descriptors ps ds s -> open_names (ks_mem s) ds ns -> cstr (ks_mem s) q path ->
  let fs := entry_addr file_system_addr (mount_of path ms) 0 in
  sk_fd_is_open fs_lock file_system_addr q s =
    Done s (if negb (fs =? SK_NULL) && other_open fs path ds ns then 0 else -1).
Proof.
  intros Hl Hm HD Hn Hq fs. unfold sk_fd_is_open. erewrite bind_done by (by eapply lookup_spec). fold fs.
  destruct (fs =? SK_NULL); [done|]. destruct (vfs_lock_ok fs_lock L s Hl) as [pr E]. kstep E.
  erewrite bind_done by reflexivity. cbv beta.
  change (ks_vfs (upd_mutexes _ s)) with (ks_vfs s). rewrite (ds_max _ _ _ HD), Nat2Z.id.
  erewrite bind_done by (apply (is_open_loop_spec ds ds ns _ fs q path 0); [by destruct HD|done..]).
  destruct (other_open fs path ds ns); erewrite bind_done by (by eapply unlock_same); done.
Qed.

Lemma load_fs_entry s i f :
  file_system (ks_vfs s) !! i = Some f ->
  load_fs file_system_addr (entry_addr file_system_addr (Some i) 0) s = Done s f.
Proof.
  intros Hf. unfold load_fs, entry_addr, sizeof_sk_vfs_filesystem.
  rewrite (proj2 (Z.ltb_ge _ _)) by lia. rewrite Z.add_0_l, Z.add_simpl_l, Z.mul_comm, Z.div_mul by lia.
  by rewrite Nat2Z.id, Hf.
Qed.

(** [sk_vfs_file_unlink] never removes a file: it returns [SK_EINVAL] for a
    path on no file system, [SK_EBUSY] when some other file of the file system is
    open, and otherwise [SK_ERROR] when the file system has a function to unlink,
    which is not called, and faults at a NULL pointer when it has none. *)
Theorem unlink_never_removes s q path ms ds ns :
  lockable fs_lock L s -> mounts (ks_mem s) (file_system (ks_vfs s)) ms ->
  descriptors ps ds s -> open_names (ks_mem s) ds ns -> cstr (ks_mem s) q path ->
  0 < file_system_addr ->
  sk_vfs_file_unlink fs_lock file_system_addr fsops_at q s =
    match mount_of path ms with
    | None => Done s SK_EINVAL
    | Some i =>
        if other_open (entry_addr file_system_addr (Some i) 0) path ds ns then Done s SK_EBUSY
        else match f ← file_system (ks_vfs s) !! i; ops ← fsops_at (fs_ops f); fs_unlink ops with
             | Some _ => Done s SK_ERROR
             | None => Fault
             end
    end.
Proof.
  intros Hl Hm HD Hn Hq H0. unfold sk_vfs_file_unlink. erewrite bind_done by (by eapply lookup_spec).
  pose proof (is_open_spec s q path ms ds ns Hl Hm HD Hn Hq) as Eo. cbv zeta in Eo.
  destruct (mount_of path ms) as [i|] eqn:Ei; [|done].
  assert (entry_addr file_system_addr (Some i) 0 =? SK_NULL = false) as Ez
    by (apply Z.eqb_neq; unfold entry_addr, sizeof_sk_vfs_filesystem, SK_NULL; lia).
  rewrite Ez in Eo |- *. cbn [negb andb] in Eo. kstep Eo.
  destruct (other_open _ path ds ns); [done|]. change (-1 =? 0) with false. cbv iota.
  assert (is_Some (file_system (ks_vfs s) !! i)) as [f Hf].
  { apply lookup_lt_is_Some. rewrite (Forall2_length _ _ _ Hm). clear -Ei. revert i Ei.
    induction ms as [|o ms IH]; intros i; simpl; [done|].
    destruct (if o is Some name then _ else false); [intros [= <-]; lia|].
    destruct (mount_of path ms) as [j|]; intros [= <-]. specialize (IH j eq_refl). lia. }
  erewrite bind_done by (by apply load_fs_entry). rewrite Hf. simpl.
  destruct (fsops_at (fs_ops f)) as [ops|]; [|done]. erewrite bind_done by reflexivity. simpl.
  by destruct (fs_unlink ops).
Qed.

End removal.

(** ** Initialisation *)

(** A run that keeps [P] as long as it goes on, and does not give the processor
    away. *)
Definition keeps {A} (P : kstate -> Prop) (m : M A) : Prop :=
  forall s, P s -> match m s with Done s' _ => P s' | Fault | Spin => True | _ => False end.

Section keeps.
Context (P : kstate -> Prop).

Lemma keeps_bind {A B} (m : M A) (f : A -> M B) :
  keeps P m -> (forall a, keeps P (f a)) -> keeps P (m ≫= f).
Proof.
  intros Hm Hf s Hs. unfold mbind, M_bind. specialize (Hm s Hs). destruct (m s); simpl; try done.
  by apply Hf.
Qed.

Lemma keeps_ret {A} (a : A) : keeps P (mret a).
Proof. by intros s. Qed.

Lemma keeps_gets {A} (f : kstate -> A) : keeps P (gets f).
Proof. by intros s. Qed.

Lemma keeps_option {A} (o : option A) : keeps P (lift_option o).
Proof. intros s Hs. by destruct o. Qed.

Lemma keeps_modify f : (forall s, P s -> P (f s)) -> keeps P (modify f).
Proof. intros H s Hs. by apply H. Qed.

Lemma keeps_update {A} (f : kstate -> gmap Z A) u p g :
  (forall h s, P s -> P (u h s)) -> keeps P (update_at f u p g).
Proof. intros H s Hs. unfold update_at. destruct (f s !! p); [by apply H|done]. Qed.

Lemma keeps_nodes f : (forall h s, P s -> P (upd_nodes h s)) -> keeps P (on_nodes f).
Proof. intros H s Hs. unfold on_nodes. destruct (f (ks_nodes s)); [by apply H|done]. Qed.

Lemma keeps_next n : keeps P (node_next n).
Proof. intros s Hs. unfold node_next. by destruct (load_next n (ks_nodes s)). Qed.

Lemma keeps_walk fuel hd pos f : keeps P (object_walk fuel hd pos f).
Proof.
  revert pos. induction fuel as [|fuel IH]; intros pos; [by intros s|]. simpl.
  destruct (bool_decide (pos = hd)); [apply keeps_ret|]. apply keeps_bind; [by intros s Hs; destruct pos|].
  intros obj. apply keeps_bind; [apply keeps_gets|]. intros b. destruct b; [apply keeps_ret|].
  apply keeps_bind; [apply keeps_next|done].
Qed.

End keeps.

(** The descriptor table has no array, and nothing is stored at NULL. *)
Definition no_array (s : kstate) : Prop := fds (ks_vfs s) = SK_NULL /\ ks_words s !! SK_NULL = None.

#[export] Hint Resolve keeps_ret keeps_gets keeps_option keeps_next keeps_walk : skernel.

Lemma mutex_init_keeps mx name flag : keeps no_array (sk_mutex_init mx name flag).
Proof.
  unfold sk_mutex_init, sk_object_init, __ipc_object_init, upd_mutex, upd_obj, list_init, list_add, kmemcpy.
  repeat (apply keeps_bind; [|intros ?]); auto with skernel;
    try (by apply keeps_update); try (by apply keeps_nodes).
  case_match; auto with skernel.
  repeat (apply keeps_bind; [|intros ?]); [by apply keeps_update|by apply keeps_modify|by apply keeps_nodes].
Qed.

(** A sequence returns only if its first part does. *)
Lemma bind_done_inv {A B} (m : M A) (f : A -> M B) s s' b :
  (m ≫= f) s = Done s' b -> exists s1 a, m s = Done s1 a /\ f a s1 = Done s' b.
Proof. unfold mbind, M_bind. destruct (m s) as [s1 a| | | |]; try done. intros H. by exists s1, a. Qed.

(** [sk_vfs_init] never returns: it clears the table of descriptors, with the
    pointer to its array, and stores the first descriptor through this pointer. *)
Theorem vfs_init_faults fs_lock file_system_opt working_dir fslock_name s s' :
  ks_words s !! SK_NULL = None ->
  sk_vfs_init fs_lock file_system_opt working_dir fslock_name s <> Done s' tt.
Proof.
  intros H0. unfold sk_vfs_init. do 3 (erewrite bind_done by reflexivity).
  set (s1 := upd_vfs _ _). assert (no_array s1) as Hs1 by done. clearbody s1.
  pose proof (mutex_init_keeps fs_lock fslock_name SK_IPC_FLAG_FIFO s1 Hs1) as Hk.
  intros (s2 & r & E & H)%bind_done_inv. rewrite E in Hk. destruct Hk as [Hf Hw].
  apply bind_done_inv in H as (s3 & r3 & H & _). unfold sk_fdt_init in H.
  apply bind_done_inv in H as (s2' & r2 & [= <- <-] & H). apply bind_done_inv in H as (s4 & r4 & H & _).
  apply bind_done_inv in H as (s5 & p & Em & H). apply bind_done_inv in H as (s6 & r6 & H & _).
  assert (no_array s5) as [Hf5 Hw5].
  { unfold kmalloc in Em. destruct (sk_malloc _ _) as [[q h]|]; [|done]. by injection Em as <- _. }
  unfold store_slot, update_at, fds_slot in H. rewrite Hf5 in H.
  change (SK_NULL + 8 * 0) with SK_NULL in H. by rewrite Hw5 in H.
Qed.

(** ** The lock does not exclude *)

(** With the lock held by another thread, [sk_vfs_lock] and [sk_vfs_unlock] fail
    at once, which nobody looks at: the calls run as if they had it. *)
Theorem vfs_lock_excludes_nobody fs_lock L s t p :
  sched_inv L s -> waiting L (NSuspend fs_lock) [] -> is_Some (ks_threads s !! ks_current s) ->
  ks_mutexes s !! fs_lock = Some (lock_held t p) -> t <> ks_current s ->
  sk_vfs_lock fs_lock s = Done s tt /\ sk_vfs_unlock fs_lock s = Done s tt.
Proof.
  intros HI Hw [th Hth] Hm Ht. unfold sk_vfs_lock, sk_vfs_unlock. split; (erewrite bind_done; [reflexivity|]).
  - rewrite (mutex_lock_run s fs_lock _ th 0 (si_irq _ _ HI) Hm Hth). simpl owner.
    by rewrite (proj2 (Z.eqb_neq _ _) Ht).
  - rewrite (mutex_unlock_run L s fs_lock _ [] HI Hm Hw). simpl owner.
    by rewrite Z.eqb_sym, (proj2 (Z.eqb_neq _ _) Ht).
Qed.

(** ** Opening a file *)

(** The descriptor of a file that was opened with [flag]. *)
Definition fd_opened (flag : Z) (d : sk_vfs_fd) : sk_vfs_fd :=
  let d := set_fd_flag (fd_flag d ||| VFS_F_OPEN) d in
  if flag & VFS_F_DIRECTORY =? 0 then d
  else set_fd_flag (fd_flag d ||| VFS_F_DIRECTORY) (set_fd_type FT_DIRECTORY d).

Section opening.
Context (fs_lock file_system_addr : Z) (L : lists).
Context (fops_at : Z -> option sk_vfs_file_ops) (fsops_at : Z -> option sk_vfs_filesystem_ops).
Implicit Types (s : kstate).

Notation sk_vfs_file_open := (sk_vfs_file_open fs_lock file_system_addr fops_at fsops_at).

(** The run up to the call of the file system. *)
Lemma file_open_run s fd q path ms i f ops fops d flag :
  lockable fs_lock L s -> mounts (ks_mem s) (file_system (ks_vfs s)) ms -> cstr (ks_mem s) q path ->
  0 < file_system_addr -> mount_of path ms = Some i -> file_system (ks_vfs s) !! i = Some f ->
  fsops_at (fs_ops f) = Some ops -> fops_at (fs_fops ops) = Some fops ->
  fd <> SK_NULL -> ks_fds s !! fd = Some d ->
  let fs := entry_addr file_system_addr (Some i) 0 in
  let s1 := upd_fds (<[fd := fd_setup fs (fs_fops ops) q flag d]>) s in
  sk_vfs_file_open fd q flag s =
    match fop_open fops with
    | None => (drop_path fd;; mret SK_ERROR) s1
    | Some open =>
        (ret ← open fd;
         if ret <? 0 then drop_path fd;; mret SK_ERROR
         else
           upd_fd fd (fun d => set_fd_flag (fd_flag d ||| VFS_F_OPEN) d);;
           when_ (negb (flag & VFS_F_DIRECTORY =? 0))
             (upd_fd fd (set_fd_type FT_DIRECTORY);;
              upd_fd fd (fun d => set_fd_flag (fd_flag d ||| VFS_F_DIRECTORY) d));;
           mret 0) s1
    end.
Proof.
  intros Hl Hm Hq H0 Hi Hf Hops Hfops Hfd Hd fs s1. unfold Vfs.sk_vfs_file_open.
  rewrite (proj2 (Z.eqb_neq _ _) Hfd). erewrite bind_done by (by eapply lookup_spec). rewrite Hi.
  rewrite (proj2 (Z.eqb_neq (entry_addr _ _ _) _))
    by (unfold entry_addr, sizeof_sk_vfs_filesystem, SK_NULL; lia).
  erewrite bind_done by (by apply load_fs_entry). rewrite Hops. erewrite bind_done by reflexivity.
  unfold upd_fd at 1. erewrite bind_done by (by apply update_at_ok).
  assert (fops_of fops_at fd s1 = Done s1 fops) as E.
  { unfold fops_of, load_fd. erewrite bind_done by (apply read_at_ok; exact (lookup_insert_eq _ _ _)).
    simpl fd_fops. by rewrite Hfops. }
  kstep E. by destruct (fop_open fops).
Qed.

Lemma upd_fds_twice p d d' s : upd_fds (<[p := d']>) (upd_fds (<[p := d]>) s) = upd_fds (<[p := d']>) s.
Proof. unfold upd_fds, upd_vfs, upd_io, set_io_vfs; simpl. by rewrite insert_insert_eq. Qed.

(** [sk_vfs_file_open] on every branch.  A NULL descriptor or a path on no
    file system is refused without a change.  Otherwise the descriptor is set up
    for the path, and the file system decides: when it accepts, the descriptor is
    marked open, as a directory if the flag asks for one; when it fails or cannot
    open, the memory of the caller's path is given to [sk_free] and the call
    fails. *)
Theorem file_open_correct s fd q path ms flag :
  lockable fs_lock L s -> mounts (ks_mem s) (file_system (ks_vfs s)) ms -> cstr (ks_mem s) q path ->
  0 < file_system_addr ->
  sk_vfs_file_open SK_NULL q flag s = Done s SK_EINVAL /\
  (fd <> SK_NULL -> mount_of path ms = None -> sk_vfs_file_open fd q flag s = Done s SK_ERROR) /\
  forall i f ops fops d, mount_of path ms = Some i -> file_system (ks_vfs s) !! i = Some f ->
    fsops_at (fs_ops f) = Some ops -> fops_at (fs_fops ops) = Some fops ->
    fd <> SK_NULL -> ks_fds s !! fd = Some d ->
    let fs := entry_addr file_system_addr (Some i) 0 in
    let s1 := upd_fds (<[fd := fd_setup fs (fs_fops ops) q flag d]>) s in
    (fop_open fops = None -> forall h, sk_free q (ks_heap s) = Some h ->
       sk_vfs_file_open fd q flag s =
         Done (upd_fds (<[fd := set_fd_path SK_NULL (fd_setup fs (fs_fops ops) q flag d)]>)
                (upd_heap (fun _ => h) s)) SK_ERROR) /\
    (forall open s2 ret d2, fop_open fops = Some open -> open fd s1 = Done s2 ret -> ks_fds s2 !! fd = Some d2 ->
       (0 <= ret -> sk_vfs_file_open fd q flag s = Done (upd_fds (<[fd := fd_opened flag d2]>) s2) 0) /\
       (ret < 0 -> forall h, sk_free (fd_path d2) (ks_heap s2) = Some h ->
          sk_vfs_file_open fd q flag s =
            Done (upd_fds (<[fd := set_fd_path SK_NULL d2]>) (upd_heap (fun _ => h) s2)) SK_ERROR)).
Proof.
  intros Hl Hm Hq H0. split; [done|]. split.
  { intros Hfd Hi. unfold Vfs.sk_vfs_file_open. rewrite (proj2 (Z.eqb_neq _ _) Hfd).
    erewrite bind_done by (by eapply lookup_spec). by rewrite Hi. }
  intros i f ops fops d Hi Hf Hops Hfops Hfd Hd fs s1. subst fs.
  rewrite (file_open_run s fd q path ms i f ops fops d flag) by done. fold s1.
  assert (forall s' d' h, ks_fds s' !! fd = Some d' -> sk_free (fd_path d') (ks_heap s') = Some h ->
    (drop_path fd;; mret SK_ERROR) s' =
      Done (upd_fds (<[fd := set_fd_path SK_NULL d']>) (upd_heap (fun _ => h) s')) SK_ERROR) as Hdrop.
  { intros s' d' h Hd' Hh. erewrite bind_done; [reflexivity|]. unfold drop_path, load_fd, upd_fd.
    erewrite bind_done by (by apply read_at_ok).
    erewrite bind_done by (by unfold kfree; rewrite Hh). by apply update_at_ok. }
  split.
  - intros -> h Hh. rewrite (Hdrop s1 _ h (lookup_insert_eq _ _ _) Hh). unfold s1.
    change (upd_heap (fun _ => h) (upd_fds ?g s)) with (upd_fds g (upd_heap (fun _ => h) s)).
    by rewrite upd_fds_twice.
  - intros open s2 ret d2 -> E Hd2. kstep E. split.
    + intros Hr. rewrite (proj2 (Z.ltb_ge _ _) Hr). unfold upd_fd at 1.
      erewrite bind_done by (by apply update_at_ok). unfold fd_opened.
      destruct (flag & VFS_F_DIRECTORY =? 0); [done|]. cbn [negb when_]. erewrite bind_done; [reflexivity|].
      unfold upd_fd. erewrite bind_done by (apply update_at_ok; exact (lookup_insert_eq _ _ _)).
      rewrite upd_fds_twice. erewrite update_at_ok by exact (lookup_insert_eq _ _ _). by rewrite upd_fds_twice.
    + intros Hr h Hh. rewrite (proj2 (Z.ltb_lt _ _) Hr). by apply Hdrop.
Qed.

End opening.

(** ** A concrete file system *)

(** Thread 100 runs, the lock is the mutex 900.  The array at 4000 has three
    descriptors, the first one [d0].  The second entry of the table at 3000 is a
    file system mounted at "/r"; "/r/a" stands at 9100, "/r/b" at 9200 and the
    message of [sk_fd_new] at 6000. *)
Definition demo_mem : mem :=
  list_to_map (zip (seqZ 9000 3) [47; 114; 0] ++ zip (seqZ 9100 5) [47; 114; 47; 97; 0] ++
    zip (seqZ 9200 5) [47; 114; 47; 98; 0] ++ zip (seqZ 6000 5) [102; 117; 108; 108; 0]).

Definition demo_fs_table : list sk_vfs_filesystem :=
  [mk_fs 0 SK_NULL SK_NULL SK_NULL; mk_fs 0 9000 1 SK_NULL; mk_fs 0 SK_NULL SK_NULL SK_NULL].

Definition vfs_lists : lists := <[NSuspend 900 := []]> (<[NTlist 100 := []]> prio_lists).

Definition vfs_demo (d0 : sk_vfs_fd) : kstate :=
  upd_vfs (fun _ => mk_vfs demo_fs_table 3 4000 (list_to_map [(5000, d0); (5100, fd_zero); (5200, fd_zero)]))
    (upd_words (fun _ => list_to_map [(4000, 5000); (4008, 5100); (4016, 5200)])
      (upd_mutexes (fun _ => {[900 := lock_free]}) (upd_mem (fun _ => demo_mem)
        (demo vfs_lists {[100 := a_thread SK_THREAD_RUNNING 10 5]} 0)))).

Definition demo_slots : list Z := [5000; 5100; 5200].

Lemma vfs_demo_lockable d0 : lockable 900 vfs_lists (vfs_demo d0).
Proof.
  split; [|by vm_compute|by vm_compute|by eexists; vm_compute|done].
  apply (sched_inv_frame vfs_lists (demo vfs_lists {[100 := a_thread SK_THREAD_RUNNING 10 5]} 0)); try done.
  apply sched_check_sound. by vm_compute.
Qed.

Ltac demo_cstr := rewrite !cstr_cons, cstr_nil; vm_compute; intuition congruence.

Lemma vfs_demo_mounts d0 :
  mounts (ks_mem (vfs_demo d0)) (file_system (ks_vfs (vfs_demo d0))) [None; Some [47; 114]; None].
Proof.
  constructor; [by left|]. constructor; [|constructor; [by left|constructor]].
  split; [done|]. split; [done|]. change (ks_mem (vfs_demo d0)) with demo_mem. demo_cstr.
Qed.

Lemma vfs_demo_path d0 : cstr (ks_mem (vfs_demo d0)) 9100 [47; 114; 47; 97].
Proof. change (ks_mem (vfs_demo d0)) with demo_mem. demo_cstr. Qed.

(** The first descriptor is the open file "/r/b". *)
Definition demo_open : sk_vfs_fd := mk_fd VFS_FD_MAGIC FT_REGULAR 9200 1 3032 2 VFS_F_OPEN 0 0 3032.

Lemma vfs_demo_rep :
  vfs_rep 900 (quiet 6000 [102; 117; 108; 108]) vfs_lists demo_slots [Fresh; Fresh; Fresh] (vfs_demo fd_zero).
Proof.
  split; [apply vfs_demo_lockable| | |done|].
  - split; [done|done| |].
    + intros [|[|[|i]]] p [= <-]; by vm_compute.
    + intros [|[|[|i]]] p x [= <-] [= <-]; (eexists; split; [by vm_compute|done]).
  - split; [done|]. change (ks_mem (vfs_demo fd_zero)) with demo_mem. demo_cstr.
  - by apply (bool_decide_unpack _).
Qed.

Lemma fd_calls_follow_table_witness :
  exists s', run_fd_calls 900 (fun _ => None) 7000 8000 6000 demo_slots
      [FdNew; FdNew; FdNew; FdNew; FdPut 1; FdGet 1; FdNew; FdGet (-1)] (vfs_demo fd_zero) =
    Done s' [0; 1; 2; -1; 0; 5100; -1; 0] /\
    vfs_rep 900 (quiet 6000 [102; 117; 108; 108]) vfs_lists demo_slots [Used 1; Used 1; Used 1] s'.
Proof.
  assert (Logger (sk_kprintf (fun _ => None) 7000 8000 6000 []) (quiet 6000 [102; 117; 108; 108])) as LG
    by (apply quiet_logger; simpl; (lia || done)).
  apply (fd_calls_follow_table 900 (fun _ => None) 7000 8000 6000 (quiet 6000 [102; 117; 108; 108])
    vfs_lists demo_slots [FdNew; FdNew; FdNew; FdNew; FdPut 1; FdGet 1; FdNew; FdGet (-1)]
    [Fresh; Fresh; Fresh] (vfs_demo fd_zero) vfs_demo_rep).
  repeat constructor; simpl; lia.
Defined.

Lemma vfs_lookup_first_prefix_witness :
  sk_vfs_filesystem_lookup 900 3000 9100 (vfs_demo fd_zero) = Done (vfs_demo fd_zero) 3032.
Proof.
  exact (proj1 (vfs_lookup_first_prefix 900 3000 vfs_lists (vfs_demo fd_zero) 9100 [47; 114; 47; 97]
    [None; Some [47; 114]; None] (vfs_demo_lockable _) (vfs_demo_mounts _) (vfs_demo_path _))).
Defined.

Lemma unlink_never_removes_witness :
  sk_vfs_file_unlink 900 3000 (fun _ => None) 9100 (vfs_demo demo_open) = Done (vfs_demo demo_open) SK_EBUSY.
Proof.
  refine (unlink_never_removes 900 3000 vfs_lists demo_slots (fun _ => None) (vfs_demo demo_open) 9100
    [47; 114; 47; 97] [None; Some [47; 114]; None] [demo_open; fd_zero; fd_zero]
    [Some [47; 114; 47; 98]; None; None] (vfs_demo_lockable _) (vfs_demo_mounts _) _ _ (vfs_demo_path _) _);
    [split; [done|]|constructor; [|constructor; [by left|constructor; [by left|constructor]]]|lia].
  - intros [|[|[|i]]] d [= <-]; (eexists; split_and!; by vm_compute).
  - split; [done|]. split; [done|]. change (ks_mem (vfs_demo demo_open)) with demo_mem. demo_cstr.
Defined.

(** A file system that opens everything. *)
Definition demo_fops (a : Z) : option sk_vfs_file_ops :=
  if a =? 2 then Some (mk_fops (Some (fun _ => mret 0)) None None None None) else None.
Definition demo_fsops (a : Z) : option sk_vfs_filesystem_ops :=
  if a =? 1 then Some (mk_fsops SK_NULL 0 2 None None None None None) else None.

Lemma file_open_correct_witness :
  sk_vfs_file_open 900 3000 demo_fops demo_fsops 5000 9100 VFS_F_DIRECTORY (vfs_demo fd_zero) =
  Done (upd_fds (<[5000 := mk_fd 0 FT_DIRECTORY 9100 0 3032 2 0x300 0 0 3032]>) (vfs_demo fd_zero)) 0.
Proof.
  destruct (file_open_correct 900 3000 vfs_lists demo_fops demo_fsops (vfs_demo fd_zero) 5000 9100
    [47; 114; 47; 97] [None; Some [47; 114]; None] VFS_F_DIRECTORY (vfs_demo_lockable _) (vfs_demo_mounts _)
    (vfs_demo_path _) ltac:(lia)) as (_ & _ & H).
  destruct (H 1%nat (mk_fs 0 9000 1 SK_NULL) (mk_fsops SK_NULL 0 2 None None None None None)
    (mk_fops (Some (fun _ => mret 0)) None None None None) fd_zero) as [_ H2];
    [done|done|done|done|done|by vm_compute|].
  destruct (H2 (fun _ => mret 0) _ 0 _ eq_refl eq_refl (lookup_insert_eq _ _ _)) as [H3 _].
  rewrite (H3 ltac:(lia)). rewrite upd_fds_twice. reflexivity.
Defined.
