(* ===== verification/Boot.v ===== *)
(** * Start-up and commands: [src/init/startup.c], [src/bsp/driver/board.c], [src/common/cmd.c]

    The boot sequence [skernel_startup] as the composition of the initialisation
    functions of the other files, the interrupt entry of
    [src/arch/aarch64/src/vector.S], the commands of the shell and the functions
    of [src/common/shell.c] that touch devices and threads.  The boot is run on
    the static data of the kernel; [System] follows the booted system from there. *)

From Stdlib Require Import String Ascii.
From S2P Require Import Prelude BaseDef RingBuffer KList Slab IoDef Kernel Sched KObj Timer Thread.
From S2P Require Import Device Console Bus Serial Intc Board Shell.

Local Open Scope c_scope.
Local Open Scope list_scope.

Definition SK_VERSION : Z := 1.
Definition SK_SUBVERSION : Z := 0.
Definition SK_REVISION : Z := 0.
Definition SK_MAIN_THREAD_STATCK_SIZE : Z := 2048.
Definition SK_MAIN_THREAD_PRIORITY : Z := SK_THREAD_PRIORITY_MAX / 3.
Definition SHELL_THREAD_STACK_SIZE : Z := 4096.
Definition SHELL_THREAD_PRIORITY : Z := 20.
Definition sizeof_shell_cmd : Z := 504.

(** Addresses of string literals, of the buffers of [sk_kprintf], of code, of the
    vector table and of [__bss_end]. *)
Record boot_statics := mk_statics {
  st_uart : uart_statics;
  st_log_buf : Z;
  st_temp : Z;
  st_vectors : Z;
  st_bss_end : Z;
  st_timer_isr : Z;
  st_main : Z;
  st_shell_entry : Z;
  st_console_name : Z;
  st_main_name : Z;
  st_idle_name : Z;
  st_shell_name : Z;
  st_no_memory : Z;
  st_version : nat -> Z;
  st_date : Z;
  st_time : Z
}.

Section boot.
Context (hw : hardware) (ops_at : Z -> option sk_device_ops) (a : boot_statics).

Definition kprintf (fmt : Z) (args : list Z) : M unit :=
  sk_kprintf ops_at (st_log_buf a) (st_temp a) fmt args.

(** ** [board.c] *)

(** [st_version a i] is the [i]-th format of the function. *)
Definition sk_show_version : M unit :=
  kprintf (st_version a 0) [];;
  kprintf (st_version a 1) [];;
  kprintf (st_version a 2) [];;
  kprintf (st_version a 3) [];;
  kprintf (st_version a 4) [];;
  kprintf (st_version a 5) [];;
  kprintf (st_version a 6) [SK_VERSION; SK_SUBVERSION; SK_REVISION];;
  kprintf (st_version a 7) [st_date a; st_time a];;
  kprintf (st_version a 8) [];;
  kprintf (st_version a 9) [].

Definition sk_board_init_start : M Z := mret 0.
Definition sk_board_init_end : M Z := mret 0.

(** [for(fn_ptr = begin; fn_ptr < end; fn_ptr++) ( *fn_ptr)();] over a table the
    linker collects. *)
Fixpoint call_all (fns : list (M Z)) : M unit :=
  match fns with
  | [] => mret tt
  | fn :: fns => fn;; call_all fns
  end.

Definition sk_board_component_init (board_fns : list (M Z)) : M unit :=
  call_all (sk_board_init_start :: board_fns).

Definition sk_hw_board_drv_init (board_fns : list (M Z)) : M unit :=
  sk_hw_uart_init (st_uart a);;
  sk_console_set_device ops_at (st_console_name a);;
  sk_show_version;;
  sk_board_component_init board_fns.

(** ** [startup.c] *)

Definition SK_HEAP_BEGIN : Z := st_bss_end a.
Definition SK_HEAP_END : Z := SK_HEAP_BEGIN + 1 * 1024 * 1024.

Definition system_mem_init (begin_addr end_addr : Z) : M Z := fun s =>
  match sk_system_mem_init begin_addr end_addr (ks_heap s) with
  | Some (r, h) => Done (upd_heap (fun _ => h) s) r
  | None => Fault
  end.

(** [frequency] is what the register [CNTFRQ_EL0] holds. *)
Definition sk_hw_board_init (frequency : Z) : M unit :=
  hw_interrupt_disable;;
  sk_hw_interrupt_init hw (st_vectors a);;
  sk_hw_timer_init (st_timer_isr a) frequency;;
  system_mem_init SK_HEAP_BEGIN SK_HEAP_END;;
  mret tt.

Definition sk_system_component_init (system_fns : list (M Z)) : M unit :=
  call_all (sk_board_init_end :: system_fns).

Definition sk_application_init : M unit :=
  thread ← sk_thread_create (st_main_name a) (st_main a) SK_NULL SK_MAIN_THREAD_STATCK_SIZE
    SK_MAIN_THREAD_PRIORITY 20;
  sk_thread_startup thread;;
  mret tt.

(** ** The start of the shell *)

(** The result stands for the global [shell]; the source returns -1 without
    memory and nothing at the end, and the caller does not look. *)
Definition shell_system_init : M Z :=
  shell ← kmalloc sizeof_shell_cmd;
  if shell =? SK_NULL then
    kprintf (st_no_memory a) [];;
    mret shell
  else
    kmemset shell 0 sizeof_shell_cmd;;
    thread ← sk_thread_create (st_shell_name a) (st_shell_entry a) SK_NULL SHELL_THREAD_STACK_SIZE
      SHELL_THREAD_PRIORITY 10;
    sk_thread_startup thread;;
    mret shell.

Definition skernel_startup (frequency : Z) (board_fns system_fns : list (M Z)) : M Z :=
  sk_hw_board_init frequency;;
  sk_hw_board_drv_init board_fns;;
  sk_system_timer_init;;
  sk_system_scheduler_init;;
  sk_system_component_init system_fns;;
  sk_application_init;;
  sk_thread_idle_init (st_idle_name a);;
  shell_system_init;;
  sk_system_scheduler_start;;
  mret 0.

(** ** The interrupt entry of [vector.S] *)

(** The processor masks interrupts on entry and restores the mask from the saved
    state on return.  After the handler the vector performs the switch that was
    recorded: the run goes on in the thread that is current now, and the rest of
    this one when it is switched back to. *)
Definition vector_irq (isr_func : Z -> Z -> Z -> M unit) : M unit :=
  spsr ← gets ks_daif;
  modify (upd_daif (fun d => d ||| 0xC0));;
  sk_interrupt_enter;;
  sk_hw_trap_irq hw isr_func;;
  sk_interrupt_leave;;
  w ← gets ks_switch;
  (if negb (sw_flag w =? 1) then mret tt
   else
     modify (upd_switch (fun w => mk_switch 0 (sw_from w) (sw_to w)));;
     hw_context_switch (sw_from w) (sw_to w));;
  modify (upd_daif (fun _ => spsr)).

(** ** Commands of the shell: [cmd.c] *)

(** [lit i] is the address of the [i]-th literal of the file. *)
Context (lit : nat -> Z).

Definition clear : M Z := kprintf (lit 0) [];; mret 0.

Definition version : M Z := sk_show_version;; mret 0.

(** The line of one thread; its name is at the address of the object. *)
Definition top_line (thread : Z) : M unit :=
  t ← get_thread thread;
  kprintf (lit 3) [thread; current_pri t];;
  (if stat t =? SK_THREAD_READY then kprintf (lit 4) []
   else if stat t =? SK_THREAD_RUNNING then kprintf (lit 5) []
   else if stat t =? SK_THREAD_SUSPEND then kprintf (lit 6) []
   else if stat t =? SK_THREAD_INIT then kprintf (lit 7) []
   else if stat t =? SK_THREAD_CLOSE then kprintf (lit 8) []
   else mret tt);;
  t ← get_thread thread;
  kprintf (lit 9) [sp t; stack_size t; 10; remain_tick t].

(** [sk_list_for_each(entry, &info->obj_list)] *)
Fixpoint top_loop (fuel : nat) (entry head : node) : M unit :=
  match fuel with
  | O => spin
  | S fuel =>
      if bool_decide (entry = head) then mret tt
      else
        thread ← entry_object entry;
        top_line thread;;
        n ← node_next entry;
        top_loop fuel n head
  end.

Definition top : M Z :=
  kprintf (lit 1) [];;
  kprintf (lit 2) [];;
  info ← lift_option (sk_object_get_info SK_OBJECT_THREAD);
  fuel ← gets node_fuel;
  entry ← node_next (NObjList (info_type info));
  top_loop fuel entry (NObjList (info_type info));;
  mret 0.

(** ** The device of the shell *)

(** [device] is [shell->device]; the results are the new device and the new line. *)
Definition shell_set_device (not_found device_name device : Z) (sh : shell_cmd) : M (Z * shell_cmd) :=
  dev ← sk_device_find device_name;
  if dev =? SK_NULL then
    kprintf not_found [device_name];;
    mret (device, sh)
  else if dev =? device then mret (device, sh)
  else
    ret ← sk_device_open ops_at device SK_DEVICE_FLAG_RDWR;
    when_ (ret =? SK_EOK)
      (when_ (negb (device =? SK_NULL)) (sk_device_close ops_at device;; mret tt));;
    mret (dev, set_pos 0 0 (set_line (replicate 81 0) sh)).

(** [ch] is the address of the local variable. *)
Definition shell_getchar (device ch : Z) : M Z :=
  modify (upd_mem (<[ch := 0]>));;
  if device =? SK_NULL then mret (-1)
  else
    n ← sk_device_read ops_at device 0 ch 1;
    if n =? 0 then mret (-1)
    else gets (fun s => (ks_mem s).[ch]).

(** ** The thread of the shell *)

(** [print t] is the call of [sk_kprintf] that prints the text, [call f] the call
    of the command at the address. *)
Context (print : list Z -> M unit) (call : Z -> M unit).

Fixpoint emit (outs : list sh_out) : M unit :=
  match outs with
  | [] => mret tt
  | OText t :: outs => print t;; emit outs
  | OExec f :: outs => call f;; emit outs
  end.

(** [while(1)] of [shell_thread_entry]; the fuel is an argument.  An access
    outside an array of the structure faults. *)
Fixpoint shell_loop (fuel : nat) (tab : list shell_syscall) (device ch : Z) (sh : shell_cmd) : M unit :=
  match fuel with
  | O => spin
  | S fuel =>
      c ← shell_getchar device ch;
      '(sh, outs) ← lift_option (shell_key tab c sh);
      emit outs;;
      shell_loop fuel tab device ch sh
  end.

(** The name of the console is at the address of its object. *)
Definition shell_thread_entry (fuel : nat) (tab : list shell_syscall) (not_found ch : Z) (device : Z)
  (sh : shell_cmd) : M unit :=
  '(device, sh) ← (if device =? SK_NULL then
                     console ← sk_console_get_device;
                     if negb (console =? SK_NULL) then shell_set_device not_found console device sh
                     else mret (device, sh)
                   else mret (device, sh));
  print SHELL_PROMPT;;
  shell_loop fuel tab device ch sh.

End boot.

(** ** From the UART to the line editor *)

(** The reads of the loop of [shell_thread_entry]. *)
Fixpoint shell_reads (ops_at : Z -> option sk_device_ops) (device ch : Z) (n : nat) : M (list Z) :=
  match n with
  | O => mret []
  | S n => c ← shell_getchar ops_at device ch; cs ← shell_reads ops_at device ch n; mret (c :: cs)
  end.

(** A byte stored outside the ring. *)
Lemma contents_poke m rb a v :
  rb_wf rb -> apart rb a 1 -> contents (<[a := v]> m) rb = contents m rb.
Proof.
  intros Hwf Ha. unfold contents. apply list_fmap_ext. intros i x Hx. apply lookup_seqZ in Hx as [-> Hi].
  pose proof (data_len_range rb Hwf). pose proof (cell_in_buffer rb Hwf (0 + Z.of_nat i) ltac:(lia)) as Hc.
  rewrite mget_insert. case_decide; [|done]. unfold apart in Ha. lia.
Qed.

Section input.
Context (hw : hardware) (uart_at : Z -> option sk_uart_device) (ops_at : Z -> option sk_device_ops)
  (sops_at : Z -> option sk_serial_ops) (send_data serial data : Z) (uart : sk_uart_device).
Context (uart_is : uart_at data = Some uart) (serial_nonnull : serial <> SK_NULL).

Notation ops := (__uart_ops hw uart_at).
Notation holds := (rx_holds sops_at ops serial data).
Notation open_dev := (open_serial ops_at sops_at send_data serial).

Lemma open_serial_rx p b m rb s : open_dev s -> open_dev (rx_state p b m rb s).
Proof. by intros (d & fl & ? & ? & ? & ?); exists d, fl. Qed.

Lemma device_read_serial pos buf size s :
  open_dev s ->
  sk_device_read ops_at serial pos buf size s = sk_serial_read sops_at serial pos buf size s.
Proof.
  intros (d & fl & Ho & Hd & Hr & Hops). unfold sk_device_read, get_obj.
  erewrite bind_done by (by apply read_at_ok). simpl. unfold get_dev at 1.
  erewrite bind_done by (by apply read_at_ok). rewrite (proj2 (Z.eqb_neq _ 0) Hr).
  by erewrite bind_done by (by eapply ops_of_ok).
Qed.

(** One read takes the oldest byte of the queue, or returns -1. *)
Lemma shell_getchar_spec x rb q s ch :
  open_dev s -> holds x rb q s -> apart rb ch 1 ->
  exists s' rb', shell_getchar ops_at serial ch s = Done s' (default (-1) (head q)) /\
    open_dev s' /\ holds x rb' (tail q) s' /\ buffer rb' = buffer rb /\ buffer_size rb' = buffer_size rb.
Proof.
  intros Ho (Hwf & Hrx & Hrb & Hc) Ha. unfold shell_getchar. erewrite bind_done by reflexivity.
  rewrite (proj2 (Z.eqb_neq _ _) serial_nonnull). set (s1 := upd_mem (<[ch := 0]>) s).
  assert (holds x rb q s1) as H1.
  { split; [by destruct Hwf|]. split; [done|]. split; [done|]. simpl. by rewrite contents_poke. }
  destruct (serial_read_takes sops_at ops serial data (uart_port hw uart_at serial data uart uart_is) x rb q s1
    0 ch 1 H1 ltac:(lia) Ha) as (m' & rb' & E & Hby & Hh & Hb & Hs & _).
  erewrite bind_done by (by rewrite device_read_serial by exact Ho; exact E).
  exists (rx_state (serial_rx x) (io_accesses s1) m' rb' s1), rb'. split; [|split; [by apply (open_serial_rx _ _ _ _ s1)|]].
  - destruct q as [|c q]; [done|]. replace (Z.min 1 _) with 1 in * by (simpl length; lia).
    change (1 =? 0) with false. cbv iota. unfold gets. f_equal. simpl in Hby |- *.
    unfold bytes in Hby. simpl in Hby. injection Hby as Hby. by rewrite Z.add_0_r in Hby.
  - split; [|done]. destruct q as [|c q]; [done|].
    replace (Z.min 1 _) with 1 in * by (simpl length; lia). done.
Qed.

Lemma reads_spec x q : forall rb s ch,
  open_dev s -> holds x rb q s -> apart rb ch 1 ->
  exists s' rb', shell_reads ops_at serial ch (S (length q)) s = Done s' (q ++ [-1]) /\
    open_dev s' /\ holds x rb' [] s' /\ buffer rb' = buffer rb /\ buffer_size rb' = buffer_size rb.
Proof.
  induction q as [|c q IH]; intros rb s ch Ho Hh Ha.
  - destruct (shell_getchar_spec x rb [] s ch Ho Hh Ha) as (s' & rb' & E & Ho' & Hh' & Hb & Hs).
    exists s', rb'. split; [|done]. simpl. by kstep E.
  - destruct (shell_getchar_spec x rb (c :: q) s ch Ho Hh Ha) as (s1 & rb1 & E & Ho1 & Hh1 & Hb1 & Hs1).
    destruct (IH rb1 s1 ch Ho1 Hh1) as (s' & rb' & E' & Ho' & Hh' & Hb & Hs).
    { unfold apart. by rewrite Hb1, Hs1. }
    exists s', rb'. split; [|split_and!; congruence || done].
    change (shell_reads ops_at serial ch (S (length (c :: q)))) with
      (c ← shell_getchar ops_at serial ch; cs ← shell_reads ops_at serial ch (S (length q)); mret (c :: cs)).
    kstep E. kstep E'. done.
Qed.

End input.

(** Nothing received is nothing to the editor. *)
Lemma shell_run_app tab chs chs' sh :
  shell_run tab (chs ++ chs') sh =
    ('(sh1, out) ← shell_run tab chs sh; '(sh2, outs) ← shell_run tab chs' sh1; Some (sh2, out ++ outs)).
Proof.
  revert sh. induction chs as [|c chs IH]; intros sh; simpl.
  - by destruct (shell_run tab chs' sh) as [[]|].
  - destruct (shell_key tab c sh) as [[sh1 o]|]; [|done]. simpl. rewrite IH.
    destruct (shell_run tab chs sh1) as [[sh2 o2]|]; [|done]. simpl.
    destruct (shell_run tab chs' sh2) as [[sh3 o3]|]; [|done]. simpl. by rewrite app_assoc.
Qed.

(** C33: what is typed reaches the line editor.  The receive interrupt takes the
    bytes the UART has, at most as many as the empty ring holds, and the reads of
    the shell return exactly these bytes in order and then -1, after which the
    ring is empty again; the editor does with this what it does with the bytes. *)
Theorem typed_input_reaches_editor hw uart_at ops_at sops_at send_data serial data uart indicate fuel
    irqno x rb s bs b' ch :
  forall uart_is : uart_at data = Some uart, serial <> SK_NULL ->
  open_serial ops_at sops_at send_data serial s ->
  rx_holds sops_at (__uart_ops hw uart_at) serial data x rb [] s ->
  stream (__uart_ops hw uart_at) serial data (P := uart_port hw uart_at serial data uart uart_is)
    (io_accesses s) bs b' ->
  (length bs < fuel)%nat -> 0 < Z.of_nat (length bs) <= buffer_size rb -> apart rb ch 1 ->
  exists s1 s2 rb',
    sk_hw_uart_isr sops_at indicate fuel irqno serial s = Done s1 tt /\
    shell_reads ops_at serial ch (S (length bs)) s1 = Done s2 (bs ++ [-1]) /\
    rx_holds sops_at (__uart_ops hw uart_at) serial data x rb' [] s2 /\
    forall tab sh, shell_run tab (bs ++ [-1]) sh = shell_run tab bs sh.
Proof.
  intros uart_is Hnn Ho Hh Hst Hf Hlen Ha.
  pose proof (serial_isr_queues sops_at (__uart_ops hw uart_at) serial data
    (uart_port hw uart_at serial data uart uart_is) indicate fuel x rb [] s bs b' Hh Hst Hf) as Hisr.
  rewrite decide_False in Hisr by (simpl; lia). destruct Hisr as (m1 & rb1 & E1 & Hh1 & Hb1 & Hs1 & _).
  rewrite app_nil_l, take_ge in Hh1 by lia.
  destruct (reads_spec hw uart_at ops_at sops_at send_data serial data uart uart_is Hnn x bs rb1 _ ch
    (open_serial_rx ops_at sops_at send_data serial _ _ _ _ _ Ho) Hh1) as (s2 & rb2 & E2 & _ & Hh2 & _).
  { unfold apart. by rewrite Hb1, Hs1. }
  eexists _, s2, rb2. split; [exact E1|]. split; [exact E2|]. split; [exact Hh2|].
  intros tab sh. rewrite shell_run_app. destruct (shell_run tab bs sh) as [[sh1 out]|]; [|done]. simpl.
  by rewrite app_nil_r.
Qed.

(** ** The boot *)

Definition nl (t : string) : list Z := zs t ++ [10].

(** The formats of [sk_show_version]. *)
Definition version_lines : list (list Z) :=
  [nl "      .-'`'-.        "; nl "    /        \      "; nl "   | s-kernel |     ";
   nl "   | Operation|     "; nl "   | System   |     "; nl "    \________/      ";
   nl "      V %d.%d.%d      "; nl "   Build: %s %s"; nl "   Copyright 2024-2025";
   nl "   Powered by yinwg"].

(** A string with its terminator at an address. *)
Definition place (a : Z) (t : list Z) : list (Z * Z) := zip (seqZ a (Z.of_nat (length t) + 1)) (t ++ [0]).

Definition boot_mem : mem :=
  list_to_map (place 100 (zs "uart0") ++ place 120 (zs "main") ++ place 140 (zs "kidle") ++
    place 160 (zs "shell") ++ place 200 (nl "no memory for shell!") ++
    place 300 (zs "Jan  1 2025") ++ place 320 (zs "00:00:00") ++
    concat (imap (fun i t => place (1000 + 50 * Z.of_nat i) t) version_lines)).

Definition the_statics : boot_statics := {|
  st_uart := mk_uart_statics 2000 7200 901 900 100 50;
  st_log_buf := 3000; st_temp := 3200; st_vectors := 4096; st_bss_end := 0x40200000;
  st_timer_isr := 51; st_main := 70; st_shell_entry := 71;
  st_console_name := 100; st_main_name := 120; st_idle_name := 140; st_shell_name := 160;
  st_no_memory := 200; st_version i := 1000 + 50 * Z.of_nat i; st_date := 300; st_time := 320
|}.

(** The static data: the empty lists of [_object_container], the structures
    [__serial0], [sk_thread_prio_table] and [__timer_list] zeroed by the loader. *)
Definition boot_lists : lists := list_to_map ((fun ty => (NObjList ty, [])) <$> seqZ 0 8).

Definition boot_state : kstate :=
  let raw := mk_node NNull NNull in
  upd_nodes (fun _ => list_to_map ((NObj 2000, raw) :: (NTimerList, raw) ::
      ((fun i => (NPrio i, raw)) <$> seqZ 0 32)) ∪ heap_of boot_lists)
    (upd_objs (fun _ => {[2000 := mk_object 0 0]}) (upd_mem (fun _ => boot_mem)
      (upd_io (fun i => set_io_devices (fun _ => {[2000 := device_zero]})
        (set_io_serials (fun _ => {[2000 := mk_serial SK_NULL (mk_config 0 0 0 0 0 0 0 0) SK_NULL SK_NULL]}) i))
      kstate_zero))).

(** The boot from a state [s] after the initialisation of the interrupt
    controller, which made the accesses [b]. *)
Definition boot_rest (hw : hardware) (frequency : Z) (b : list access) (s : kstate) : res Z :=
  (sk_hw_timer_init (st_timer_isr the_statics) frequency;;
   system_mem_init (SK_HEAP_BEGIN the_statics) (SK_HEAP_END the_statics);;
   sk_hw_board_drv_init (demo_ops hw) the_statics [];;
   sk_system_timer_init;;
   sk_system_scheduler_init;;
   sk_system_component_init [];;
   sk_application_init the_statics;;
   sk_thread_idle_init (st_idle_name the_statics);;
   shell_system_init (demo_ops hw) the_statics;;
   sk_system_scheduler_start;;
   mret 0) (upd_bus (fun _ => b) (upd_io (set_io_gic (fun _ => mk_gic GIC_IRQ_START GIC_DIST_BASE GIC_CPU_BASE))
     (masked s))).

Lemma timer_init_returns isr frequency s :
  is_Some (isr_table s !! Z.to_nat HW_TIMER_VECTOR_NUM) ->
  exists s' r, sk_hw_timer_init isr frequency s = Done s' r.
Proof.
  intros [d Hd]. unfold sk_hw_timer_init.
  assert (exists s1 r, sk_hw_interrupt_install HW_TIMER_VECTOR_NUM isr SK_NULL s = Done s1 r) as (s1 & r & E1).
  { unfold sk_hw_interrupt_install. change (HW_TIMER_VECTOR_NUM <? GIC_MAX_HANDLERS) with true. cbv iota.
    assert (isr_read HW_TIMER_VECTOR_NUM s = Done s d) as E by (unfold isr_read; by rewrite Hd).
    kstep E. destruct (negb (isr =? SK_NULL)); cbn [when_].
    - eexists _, _. unfold isr_write. erewrite bind_done; [reflexivity|]. by kstep E.
    - by eexists _, _. }
  kstep E1. by eexists _, _.
Qed.

Lemma startup_rest hw frequency s :
  irq_wf s -> is_Some (isr_table s !! Z.to_nat HW_TIMER_VECTOR_NUM) ->
  exists b, skernel_startup hw (demo_ops hw) the_statics frequency [] [] s = boot_rest hw frequency b s.
Proof.
  intros Hirq Hisr.
  assert (exists b, sk_hw_interrupt_init hw (st_vectors the_statics) (masked s) =
    Done (upd_bus (fun _ => b) (upd_io (set_io_gic (fun _ => mk_gic GIC_IRQ_START GIC_DIST_BASE GIC_CPU_BASE))
      (masked s))) tt) as [b E].
  { eexists. unfold sk_hw_interrupt_init. erewrite bind_done by reflexivity.
    erewrite bind_done by apply gic_dist_init_run. erewrite bind_done by reflexivity. reflexivity. }
  exists b. unfold skernel_startup, sk_hw_board_init, boot_rest.
  unfold mbind, M_bind. rewrite (disable_ok s Hirq). cbn [bind_res]. rewrite E. cbn [bind_res].
  set (s1 := upd_bus _ _).
  destruct (timer_init_returns (st_timer_isr the_statics) frequency s1) as (s2 & r & E2); [done|].
  rewrite E2. cbn [bind_res]. unfold system_mem_init. by destruct (sk_system_mem_init _ _ _) as [[]|].
Qed.

Definition boot_final (hw : hardware) (frequency : Z) (b : list access) : kstate :=
  match boot_rest hw frequency b boot_state with NoReturn s => s | _ => boot_state end.

Lemma boot_rest_ends hw frequency b :
  boot_rest hw frequency b boot_state = NoReturn (boot_final hw frequency b).
Proof.
  unfold boot_final.
  assert (match boot_rest hw frequency b boot_state with NoReturn _ => true | _ => false end = true) as H
    by (vm_compute; reflexivity).
  by destruct (boot_rest hw frequency b boot_state).
Qed.

(** The threads of the booted system. *)
Definition main_thread : Z := 1075908664.
Definition idle_thread : Z := 1075908888.
Definition shell_thread : Z := 1075909112.

Definition booted_lists : lists :=
  <[NPrio 20 := [NTlist shell_thread]]> (<[NPrio 31 := [NTlist idle_thread]]>
  (<[NTlist main_thread := []]> (<[NTimerList := []]>
  (<[NTimer (thread_timer main_thread) := []]> (<[NTimer (thread_timer idle_thread) := []]>
  (<[NTimer (thread_timer shell_thread) := []]>
  (<[NObjList SK_OBJECT_THREAD := NObj <$> [shell_thread; idle_thread; main_thread]]>
  (<[NObjList SK_OBJECT_TIMER := NObj <$> (thread_timer <$> [shell_thread; idle_thread; main_thread])]>
  (<[NObjList SK_OBJECT_DEVICE := [NObj 2000]]> (boot_lists ∪ prio_lists)))))))))).

Lemma boot_sched hw frequency b : sched_inv booted_lists (boot_final hw frequency b).
Proof. apply sched_check_sound. vm_compute. reflexivity. Qed.

(** The serial device and its rings after the version was printed. *)
Definition booted_serial : sk_serial_device := mk_serial 901 SK_DEFAULT_SERIAL_CONFIG 1075843128 1075875896.
Definition booted_rx : sk_ring_buffer := sk_ring_buffer_init 1075843170 SK_SERIAL_RX_BUF_SIZE.
Definition booted_tx : sk_serial_tx_fifo := mk_tx (mk_rb 1075875952 1 93 1 93 128) 20 1.

(** The thread [t] has the name, the entry function and the priority. *)
Definition thread_is (s : kstate) (t : Z) (name : string) (fn pri st : Z) : Prop :=
  bytes (ks_mem s) t (Z.of_nat (String.length name) + 1) = zs name ++ [0] /\
  (fun th => (entry th, current_pri th, stat th)) <$> ks_threads s !! t = Some (fn, pri, st).

Lemma boot_serial_wf hw frequency b :
  serial_wf (demo_sops hw) (__uart_ops hw demo_uart) 2000 7200 booted_serial (boot_final hw frequency b).
Proof.
  split; [|vm_compute; reflexivity|done|simpl; unfold SK_SERIAL_RX_BUF_SIZE; lia|simpl; unfold SK_SERIAL_TX_BUF_SIZE; lia].
  exists (mk_device SK_DEVICE_CHAR 51 1 0 SK_NULL SK_NULL 900 7200). split; [vm_compute; reflexivity|done].
Qed.

Lemma boot_console hw frequency b :
  console_ready hw demo_uart (demo_ops hw) (demo_sops hw) 8000 2000 7200 booted_serial booted_tx
    (boot_final hw frequency b).
Proof.
  split; [vm_compute; reflexivity|]. split; [done|]. split.
  - exists (mk_device SK_DEVICE_CHAR 51 1 0 SK_NULL SK_NULL 900 7200), 0.
    split; [vm_compute; reflexivity|]. split; [vm_compute; reflexivity|done].
  - split; [apply boot_serial_wf|]. split; [vm_compute; reflexivity|].
    split; [split; vm_compute; intuition congruence|vm_compute; reflexivity].
Qed.

(** C8: the kernel boots.  Whatever the interrupt controller and the UART answer
    and whatever the frequency of the counter is, [skernel_startup] run on the
    static data ends by giving the processor to the thread "main" with interrupts
    still off; then the invariant of the scheduler holds, "shell" and "kidle" wait
    in the queues of priority 20 and 31 and all other queues are empty, the
    handlers of the timer and of the UART are installed, and the console is open,
    ready to print and with nothing received.  The two waiting threads are marked
    SUSPEND, not READY. *)
Theorem kernel_boots hw frequency :
  exists s, skernel_startup hw (demo_ops hw) the_statics frequency [] [] boot_state = NoReturn s /\
    sched_inv booted_lists s /\
    ks_current s = main_thread /\ ks_daif s = 0xC0 /\
    thread_is s main_thread "main" (st_main the_statics) 10 SK_THREAD_RUNNING /\
    thread_is s shell_thread "shell" (st_shell_entry the_statics) 20 SK_THREAD_SUSPEND /\
    thread_is s idle_thread "kidle" FN_sk_idle_entry 31 SK_THREAD_SUSPEND /\
    isr_table s !! 27%nat = Some (mk_irq (st_timer_isr the_statics) SK_NULL) /\
    isr_table s !! 33%nat = Some (mk_irq (us_isr (st_uart the_statics)) 2000) /\
    console_ready hw demo_uart (demo_ops hw) (demo_sops hw) 8000 2000 7200 booted_serial booted_tx s /\
    rx_holds (demo_sops hw) (__uart_ops hw demo_uart) 2000 7200 booted_serial booted_rx [] s.
Proof.
  destruct (startup_rest hw frequency boot_state) as [b E]; [by left|by eexists|].
  exists (boot_final hw frequency b). split; [rewrite E; exact (boot_rest_ends hw frequency b)|].
  split; [apply boot_sched|]. do 2 (split; [vm_compute; reflexivity|]).
  do 3 (split; [split; vm_compute; reflexivity|]). do 2 (split; [vm_compute; reflexivity|]).
  split; [apply boot_console|]. split; [apply boot_serial_wf|]. split; [vm_compute; reflexivity|].
  split; [split; vm_compute; intuition congruence|vm_compute; reflexivity].
Qed.

(** ** Interrupts of the booted system *)

(** The interrupt controller always reports the timer. *)
Definition timer_hw : hardware := fun b a => if a =? GIC_CPU_INTACK GIC_CPU_BASE then HW_TIMER_VECTOR_NUM else 0.

(** The handler at an address; no application timer is running. *)
Definition the_isr (f vector param : Z) : M unit :=
  if f =? st_timer_isr the_statics
  then sk_hw_timer_isr (timer_call (fun _ _ => mret tt)) 100 vector param
  else mret tt.

(** A thread that runs for the first time has interrupts on: [INITIAL_SPSR_EL1]. *)
Definition first_run (s : kstate) : kstate := upd_daif (fun _ => 0) s.

(** ** Other theorems and witnesses *)

(** [shell_set_device] opens the old device of the shell instead of the new one:
    at the first call, when there is none, it reads a structure at NULL. *)
Theorem shell_first_device_faults ops_at a not_found name dev sh s :
  sk_device_find name s = Done s dev -> dev <> SK_NULL -> ks_objs s !! SK_NULL = None ->
  shell_set_device ops_at a not_found name SK_NULL sh s = Fault.
Proof.
  intros E Hd H0. unfold shell_set_device. kstep E. rewrite (proj2 (Z.eqb_neq _ _) Hd).
  unfold sk_device_open. unfold mbind, M_bind, get_obj, read_at. by rewrite H0.
Qed.

Lemma typed_input_reaches_editor_witness :
  exists s1 s2 rb',
    sk_hw_uart_isr (demo_sops (demo_hw [104; 105])) (fun _ _ _ => mret 0) 3 33 7000 demo_state = Done s1 tt /\
    shell_reads (demo_ops (demo_hw [104; 105])) 7000 9500 3 s1 = Done s2 [104; 105; -1] /\
    rx_holds (demo_sops (demo_hw [104; 105])) (__uart_ops (demo_hw [104; 105]) demo_uart) 7000 7200 demo_serial
      rb' [] s2 /\
    forall tab sh, shell_run tab [104; 105; -1] sh = shell_run tab [104; 105] sh.
Proof.
  destruct demo_stream as [b' Hst].
  refine (typed_input_reaches_editor (demo_hw [104; 105]) demo_uart (demo_ops (demo_hw [104; 105]))
    (demo_sops (demo_hw [104; 105])) 8000 7000 7200 __uart_device (fun _ _ _ => mret 0) 3 33 demo_serial demo_rx
    demo_state [104; 105] b' 9500 eq_refl _ _ (demo_rx_holds _) Hst _ _ _).
  - done.
  - by exists demo_dev, 0.
  - simpl. lia.
  - simpl. unfold SK_SERIAL_RX_BUF_SIZE. vm_compute. intuition congruence.
  - right. by vm_compute.
Defined.
