(* ===== verification/Cpu.v ===== *)
(** * The processor: AArch64 as the assembly sources use it

    The instructions of [src/arch/aarch64/src/*.S], as data, and an executable
    semantics for them.  A source file is a list of labels and instructions; it is
    placed at the address [base] of the environment, which also gives the
    addresses of other symbols, the effect of calls of C functions and the answers
    of the identification registers.  The memory consists of aligned 64-bit words;
    a load from a word that does not exist, or an unaligned access, stops the run. *)

From Stdlib Require Import String.
From S2P Require Import Prelude.

Local Open Scope c_scope.

(** ** Instructions *)

Inductive reg := X (n : Z) | W (n : Z) | XZR | SP.

Inductive operand := R (r : reg) | I (v : Z) | Lsr (r : reg) (sh : Z).

Inductive sysreg :=
  | CurrentEL | SPSR_EL1 | ELR_EL1 | VBAR_EL1 | CPACR_EL1 | SCTLR_EL1 | CSSELR_EL1
  | CCSIDR_EL1 | CLIDR_EL1 | CTR_EL0 | DAIF.

#[global] Instance sysreg_eq_dec : EqDecision sysreg.
Proof. solve_decision. Defined.

Inductive cond := EQ | NE | GE | LT | GT | LO.

(** Cache maintenance and barriers. *)
Inductive cache_op := DcIsw (v : Z) | DcCisw (v : Z) | DcCivac (v : Z) | IcIalluis | Dsb | Isb.

Inductive dc_op := ISW | CISW | CIVAC.

Inductive instr :=
  | stp (a b : reg) (off : Z)          (** [stp a, b, [sp, #off]!] *)
  | ldp (a b : reg) (off : Z)          (** [ldp a, b, [sp], #off] *)
  | ldr (d n : reg)                    (** [ldr d, [n]] *)
  | str (d n : reg)                    (** [str d, [n]] *)
  | str_post (d n : reg) (off : Z)     (** [str d, [n], #off] *)
  | ldr_eq (d : reg) (l : string)      (** [ldr d, =l] *)
  | ldr_num (d : reg) (v : Z)          (** [ldr d, =v] *)
  | adr (d : reg) (l : string)
  | mov (d : reg) (o : operand)
  | add (d n : reg) (o : operand)
  | sub (d n : reg) (o : operand)
  | subs (d n : reg) (o : operand)
  | cmp (n : reg) (o : operand)
  | and_ (d n : reg) (o : operand)
  | ands (d n : reg) (o : operand)
  | orr (d n : reg) (o : operand)
  | bic (d n : reg) (o : operand)
  | lsl (d n : reg) (o : operand)
  | lsr (d n : reg) (o : operand)
  | mrs (d : reg) (s : sysreg)
  | msr (s : sysreg) (n : reg)
  | msr_spsel (v : Z)
  | msr_daifset (v : Z)
  | msr_daifclr (v : Z)
  | dc (op : dc_op) (n : reg)
  | ic_ialluis | dsb | isb | wfe | nop
  | b (l : string)
  | b_ (c : cond) (l : string)
  | cbz (n : reg) (l : string)
  | cbnz (n : reg) (l : string)
  | tbz (n : reg) (bit : Z) (l : string)
  | bl (l : string)
  | ret
  | eret.

(** A source file: [Align n] is [.align n], [Org n] is [.org] relative to the
    start of the section. *)
Inductive item := L (l : string) | Ins (i : instr) | Align (n : Z) | Org (n : Z).

(** Offsets of labels and instructions. *)
Fixpoint layout (off : Z) (p : list item) : list (Z * (string + instr)) :=
  match p with
  | [] => []
  | L l :: p => (off, inl l) :: layout off p
  | Ins i :: p => (off, inr i) :: layout (off + 4) p
  | Align n :: p => layout (- (- off / 2 ^ n) * 2 ^ n) p
  | Org n :: p => layout n p
  end.

Fixpoint find_label (l : string) (q : list (Z * (string + instr))) : option Z :=
  match q with
  | [] => None
  | (off, inl m) :: q => if String.eqb l m then Some off else find_label l q
  | (_, inr _) :: q => find_label l q
  end.

Fixpoint find_instr (off : Z) (q : list (Z * (string + instr))) : option instr :=
  match q with
  | [] => None
  | (o, inr i) :: q => if off =? o then Some i else find_instr off q
  | (_, inl _) :: q => find_instr off q
  end.

(** ** State *)

Record flags := mk_flags { fN : bool; fZ : bool; fC : bool; fV : bool }.

Record cpu := mk_cpu {
  pc : Z;
  xr : Z -> Z;
  sp_el0 : Z;
  sp_el1 : Z;
  spsel : Z;
  nzcv : flags;
  daif : Z;
  sys : sysreg -> Z;
  vregs : Z -> Z;
  words : gmap Z Z;
  ops : list cache_op
}.

Definition set_pc (v : Z) (c : cpu) : cpu :=
  mk_cpu v (xr c) (sp_el0 c) (sp_el1 c) (spsel c) (nzcv c) (daif c) (sys c) (vregs c) (words c) (ops c).
Definition set_xr (f : Z -> Z) (c : cpu) : cpu :=
  mk_cpu (pc c) f (sp_el0 c) (sp_el1 c) (spsel c) (nzcv c) (daif c) (sys c) (vregs c) (words c) (ops c).
Definition set_sps (s0 s1 sel : Z) (c : cpu) : cpu :=
  mk_cpu (pc c) (xr c) s0 s1 sel (nzcv c) (daif c) (sys c) (vregs c) (words c) (ops c).
Definition set_nzcv (f : flags) (c : cpu) : cpu :=
  mk_cpu (pc c) (xr c) (sp_el0 c) (sp_el1 c) (spsel c) f (daif c) (sys c) (vregs c) (words c) (ops c).
Definition set_daif (v : Z) (c : cpu) : cpu :=
  mk_cpu (pc c) (xr c) (sp_el0 c) (sp_el1 c) (spsel c) (nzcv c) v (sys c) (vregs c) (words c) (ops c).
Definition set_sys (f : sysreg -> Z) (c : cpu) : cpu :=
  mk_cpu (pc c) (xr c) (sp_el0 c) (sp_el1 c) (spsel c) (nzcv c) (daif c) f (vregs c) (words c) (ops c).
Definition set_words (w : gmap Z Z) (c : cpu) : cpu :=
  mk_cpu (pc c) (xr c) (sp_el0 c) (sp_el1 c) (spsel c) (nzcv c) (daif c) (sys c) (vregs c) w (ops c).
Definition add_op (o : cache_op) (c : cpu) : cpu :=
  mk_cpu (pc c) (xr c) (sp_el0 c) (sp_el1 c) (spsel c) (nzcv c) (daif c) (sys c) (vregs c) (words c)
    (ops c ++ [o]).

Definition upd {A} `{EqDecision A} (f : A -> Z) (i : A) (v : Z) : A -> Z :=
  fun j => if decide (j = i) then v else f j.

Lemma upd_eq {A} `{EqDecision A} (f : A -> Z) i v : upd f i v i = v.
Proof. unfold upd. by rewrite decide_True. Qed.

Lemma upd_ne {A} `{EqDecision A} (f : A -> Z) i j v : j <> i -> upd f i v j = f j.
Proof. intros. unfold upd. by rewrite decide_False. Qed.

(** The stack pointer in use. *)
Definition sp_get (c : cpu) : Z := if spsel c =? 0 then sp_el0 c else sp_el1 c.
Definition sp_set (v : Z) (c : cpu) : cpu :=
  if spsel c =? 0 then set_sps v (sp_el1 c) (spsel c) c else set_sps (sp_el0 c) v (spsel c) c.

Definition get (r : reg) (c : cpu) : Z :=
  match r with X n => xr c n | W n => u32 (xr c n) | XZR => 0 | SP => sp_get c end.
Definition put (r : reg) (v : Z) (c : cpu) : cpu :=
  match r with
  | X n => set_xr (upd (xr c) n (u64 v)) c
  | W n => set_xr (upd (xr c) n (u32 v)) c
  | XZR => c
  | SP => sp_set (u64 v) c
  end.

Definition load (a : Z) (c : cpu) : option Z := if a mod 8 =? 0 then words c !! a else None.
Definition store (a v : Z) (c : cpu) : option cpu :=
  if a mod 8 =? 0 then Some (set_words (<[a := v]> (words c)) c) else None.

Definition opval (o : operand) (c : cpu) : Z :=
  match o with R r => get r c | I v => v | Lsr r sh => Z.shiftr (get r c) sh end.

(** The flags of a subtraction and of a logical operation on 64 bits. *)
Definition sub_flags (a v : Z) : flags :=
  mk_flags (Z.testbit (u64 (a - v)) 63) (u64 (a - v) =? 0) (v <=? a)
    (negb (s64 a - s64 v =? s64 (a - v))).
Definition and_flags (v : Z) : flags := mk_flags (Z.testbit v 63) (v =? 0) false false.

Definition holds (c : cond) (f : flags) : bool :=
  match c with
  | EQ => fZ f
  | NE => negb (fZ f)
  | GE => eqb (fN f) (fV f)
  | LT => negb (eqb (fN f) (fV f))
  | GT => negb (fZ f) && eqb (fN f) (fV f)
  | LO => negb (fC f)
  end.

(** What surrounds the file: where it is placed, the addresses of the symbols it
    does not define, the C functions it calls, up to their return, and the
    identification registers, which may depend on the selected cache. *)
Record env := mk_env {
  base : Z;
  sym : string -> Z;
  ccall : string -> cpu -> option cpu;
  idreg : sysreg -> Z -> Z
}.

(** Program status: [SPSR_EL1] holds the flags in bits 31 to 28, the masks in 9 to
    6, the exception level in 3 to 2 and the choice of the stack in 0. *)
Definition pstate (c : cpu) : Z :=
  Z.shiftl (Z.b2z (fN (nzcv c))) 31 + Z.shiftl (Z.b2z (fZ (nzcv c))) 30 +
  Z.shiftl (Z.b2z (fC (nzcv c))) 29 + Z.shiftl (Z.b2z (fV (nzcv c))) 28 +
  daif c + sys c CurrentEL + spsel c.

Definition restore_pstate (v : Z) (c : cpu) : cpu :=
  set_nzcv (mk_flags (Z.testbit v 31) (Z.testbit v 30) (Z.testbit v 29) (Z.testbit v 28))
    (set_daif (v & 0x3C0) (set_sys (upd (sys c) CurrentEL (v & 0xC))
      (set_sps (sp_el0 c) (sp_el1 c) (v & 1) c))).

Section semantics.
Context (e : env) (p : list item).

Definition fetch (a : Z) : option instr := find_instr (a - base e) (layout 0 p).

(** The address of a symbol: of a label of the file, or of another one. *)
Definition address (l : string) : Z :=
  match find_label l (layout 0 p) with Some off => base e + off | None => sym e l end.

Definition read_sys (s : sysreg) (c : cpu) : Z :=
  match s with
  | DAIF => daif c
  | CCSIDR_EL1 | CLIDR_EL1 | CTR_EL0 => idreg e s (sys c CSSELR_EL1)
  | _ => sys c s
  end.

(** Instructions that continue with the next one. *)
Definition data (i : instr) (c : cpu) : option cpu :=
  match i with
  | stp r1 r2 off =>
      let s := u64 (sp_get c + off) in
      c1 ← store s (get r1 c) c;
      c2 ← store (u64 (s + 8)) (get r2 c) c1;
      Some (sp_set s c2)
  | ldp r1 r2 off =>
      v1 ← load (sp_get c) c;
      v2 ← load (u64 (sp_get c + 8)) c;
      Some (sp_set (u64 (sp_get c + off)) (put r2 v2 (put r1 v1 c)))
  | ldr d n => v ← load (get n c) c; Some (put d v c)
  | str d n => store (get n c) (get d c) c
  | str_post d n off => c1 ← store (get n c) (get d c) c; Some (put n (get n c + off) c1)
  | ldr_eq d l => Some (put d (address l) c)
  | ldr_num d v => Some (put d v c)
  | adr d l => Some (put d (address l) c)
  | mov d o => Some (put d (opval o c) c)
  | add d n o => Some (put d (get n c + opval o c) c)
  | sub d n o => Some (put d (get n c - opval o c) c)
  | subs d n o => Some (set_nzcv (sub_flags (get n c) (opval o c)) (put d (get n c - opval o c) c))
  | cmp n o => Some (set_nzcv (sub_flags (get n c) (opval o c)) c)
  | and_ d n o => Some (put d (get n c & opval o c) c)
  | ands d n o =>
      Some (set_nzcv (and_flags (get n c & opval o c)) (put d (get n c & opval o c) c))
  | orr d n o => Some (put d (get n c ||| opval o c) c)
  | bic d n o => Some (put d (Z.ldiff (get n c) (opval o c)) c)
  | lsl d n o => Some (put d (Z.shiftl (get n c) (opval o c mod 64)) c)
  | lsr d n o => Some (put d (Z.shiftr (get n c) (opval o c mod 64)) c)
  | mrs d s => Some (put d (read_sys s c) c)
  | msr s n => Some (set_sys (upd (sys c) s (get n c)) c)
  | msr_spsel v => Some (set_sps (sp_el0 c) (sp_el1 c) v c)
  | msr_daifset v => Some (set_daif (daif c ||| Z.shiftl v 6) c)
  | msr_daifclr v => Some (set_daif (Z.ldiff (daif c) (Z.shiftl v 6)) c)
  | dc op n =>
      Some (add_op (match op with ISW => DcIsw | CISW => DcCisw | CIVAC => DcCivac end (get n c)) c)
  | ic_ialluis => Some (add_op IcIalluis c)
  | dsb => Some (add_op Dsb c)
  | isb => Some (add_op Isb c)
  | wfe | nop => Some c
  | _ => None
  end.

Definition jump (taken : bool) (l : string) (c : cpu) : cpu :=
  set_pc (if taken then address l else pc c + 4) c.

(** [Go]: the processor continues at [pc].  [Exit]: it left by [eret]. *)
Inductive next := Go (c : cpu) | Exit (c : cpu).

Definition exec (i : instr) (c : cpu) : option next :=
  match i with
  | b l => Some (Go (jump true l c))
  | b_ cd l => Some (Go (jump (holds cd (nzcv c)) l c))
  | cbz n l => Some (Go (jump (get n c =? 0) l c))
  | cbnz n l => Some (Go (jump (negb (get n c =? 0)) l c))
  | tbz n k l => Some (Go (jump (negb (Z.testbit (get n c) k)) l c))
  | bl l =>
      let c1 := put (X 30) (pc c + 4) c in
      match find_label l (layout 0 p) with
      | Some _ => Some (Go (jump true l c1))
      | None => c2 ← ccall e l c1; Some (Go (set_pc (pc c + 4) c2))
      end
  | ret => Some (Go (set_pc (xr c 30) c))
  | eret => Some (Exit (set_pc (sys c ELR_EL1) (restore_pstate (sys c SPSR_EL1) c)))
  | _ => c' ← data i c; Some (Go (set_pc (pc c + 4) c'))
  end.

(** Run until the processor leaves the file, by [eret] or to an address at which
    the file has no instruction. *)
Fixpoint run (fuel : nat) (c : cpu) : option cpu :=
  match fetch (pc c) with
  | None => Some c
  | Some i =>
      match fuel with
      | O => None
      | S fuel =>
          match exec i c with
          | Some (Go c') => run fuel c'
          | Some (Exit c') => Some c'
          | None => None
          end
      end
  end.

(** The state after exactly [n] instructions within the file. *)
Fixpoint step_n (n : nat) (c : cpu) : option cpu :=
  match n with
  | O => Some c
  | S n =>
      i ← fetch (pc c);
      match exec i c with
      | Some (Go c') => step_n n c'
      | _ => None
      end
  end.

Lemma step_n_run n m c c' : step_n n c = Some c' -> run (n + m) c = run m c'.
Proof.
  revert c. induction n as [|n IH]; intros c; simpl; [by intros [= ->]|].
  destruct (fetch (pc c)); simpl; [|done]. destruct (exec _ c) as [[]|]; [apply IH|done..].
Qed.

Lemma step_n_app n m c c' : step_n n c = Some c' -> step_n (n + m) c = step_n m c'.
Proof.
  revert c. induction n as [|n IH]; intros c; simpl; [by intros [= ->]|].
  destruct (fetch (pc c)); simpl; [|done]. destruct (exec _ c) as [[]|]; [apply IH|done..].
Qed.

(** Blocks of instructions without jumps. *)
Fixpoint block (code : list instr) (c : cpu) : option cpu :=
  match code with
  | [] => Some c
  | i :: code => c' ← data i c; block code c'
  end.

(** The instructions [code] are found at the offset [off]. *)
Fixpoint code_at (off : Z) (code : list instr) : Prop :=
  match code with
  | [] => True
  | i :: code => find_instr off (layout 0 p) = Some i /\ code_at (off + 4) code
  end.

Lemma fetch_base off : fetch (base e + off) = find_instr off (layout 0 p).
Proof. unfold fetch. f_equal. lia. Qed.

Lemma exec_data i c c' : data i c = Some c' -> exec i c = Some (Go (set_pc (pc c + 4) c')).
Proof. intros E. destruct i; try discriminate E; unfold exec; by rewrite E. Qed.

(** No instruction without a jump depends on the program counter or changes it. *)
Lemma sp_set_pc v w c : sp_set v (set_pc w c) = set_pc w (sp_set v c).
Proof. unfold sp_set. simpl. by destruct (spsel c =? 0). Qed.

Lemma put_pc r v w c : put r v (set_pc w c) = set_pc w (put r v c).
Proof. destruct r; try done. apply sp_set_pc. Qed.

Lemma get_pc r w c : get r (set_pc w c) = get r c.
Proof. by destruct r. Qed.

Lemma opval_pc o w c : opval o (set_pc w c) = opval o c.
Proof. destruct o; simpl; by rewrite ?get_pc. Qed.

Lemma store_pc a v w c : store a v (set_pc w c) = set_pc w <$> store a v c.
Proof. unfold store. by destruct (a mod 8 =? 0). Qed.

Lemma load_pc a w c : load a (set_pc w c) = load a c.
Proof. done. Qed.

Lemma sp_get_pc w c : sp_get (set_pc w c) = sp_get c.
Proof. done. Qed.

Lemma data_pc i c w : data i (set_pc w c) = set_pc w <$> data i c.
Proof.
  destruct i; unfold data; rewrite ?get_pc, ?opval_pc, ?load_pc, ?put_pc, ?sp_get_pc; try done.
  - rewrite store_pc. destruct (store _ (get _ c) c) as [c1|]; simpl; [|done].
    rewrite ?get_pc, store_pc. destruct (store _ _ c1) as [c2|]; simpl; [|done]. by rewrite sp_set_pc.
  - destruct (load (sp_get c) c); simpl; [|done]. destruct (load _ c); simpl; [|done].
    by rewrite !put_pc, sp_set_pc.
  - destruct (load _ c); simpl; [|done]. by rewrite put_pc.
  - apply store_pc.
  - rewrite store_pc. destruct (store _ _ c) as [c1|]; simpl; [|done]. by rewrite put_pc.
Qed.

Lemma data_keeps_pc i c c' : data i c = Some c' -> pc c' = pc c.
Proof.
  intros E. pose proof (data_pc i c (pc c)) as H. replace (set_pc (pc c) c) with c in H by (by destruct c).
  rewrite E in H. injection H as H. by rewrite H.
Qed.

Lemma block_pc cs : forall c w, block cs (set_pc w c) = set_pc w <$> block cs c.
Proof.
  induction cs as [|i cs IH]; intros c w; cbn [block]; [done|]. rewrite data_pc.
  destruct (data i c) as [c1|]; simpl; [|done]. apply IH.
Qed.

(** A block is executed at once. *)
Lemma step_n_block cs : forall off c c',
  pc c = base e + off -> code_at off cs -> block cs c = Some c' ->
  step_n (length cs) c = Some (set_pc (base e + (off + 4 * Z.of_nat (length cs))) c').
Proof.
  induction cs as [|i cs IH]; intros off c c' Hpc Hat Hb.
  - injection Hb as <-. simpl. f_equal. replace (base e + _) with (pc c) by lia. by destruct c.
  - destruct Hat as [Hi Hat]. cbn [length step_n]. rewrite Hpc, fetch_base, Hi. simpl.
    cbn [block] in Hb. destruct (data i c) as [c1|] eqn:E; [|done]. rewrite (exec_data _ _ _ E).
    rewrite (IH (off + 4) _ (set_pc (base e + (off + 4)) c')); [|simpl; lia|done|].
    + unfold set_pc at 1. simpl. f_equal. unfold set_pc. simpl. f_equal. lia.
    + rewrite block_pc, Hpc, <- Z.add_assoc. simpl in Hb. by rewrite Hb.
Qed.

Lemma run_block cs off c c' n :
  pc c = base e + off -> code_at off cs -> block cs c = Some c' ->
  run (length cs + n) c = run n (set_pc (base e + (off + 4 * Z.of_nat (length cs))) c').
Proof. intros. by apply step_n_run, step_n_block. Qed.

Lemma block_app cs ds c : block (cs ++ ds) c = block cs c ≫= block ds.
Proof.
  revert c. induction cs as [|i cs IH]; intros c; cbn [block app]; [done|].
  destruct (data i c); simpl; [apply IH|done].
Qed.

End semantics.

(** ** Running one instruction *)

Section steps.
Context (e : env) (p : list item).
Implicit Types c : cpu.

Lemma run_go off i c c' n :
  pc c = base e + off -> find_instr off (layout 0 p) = Some i -> exec e p i c = Some (Go c') ->
  run e p (S n) c = run e p n c'.
Proof. intros Hpc Hi Hx. cbn [run]. by rewrite Hpc, fetch_base, Hi, Hx. Qed.

Lemma step_n_go off i c c' n :
  pc c = base e + off -> find_instr off (layout 0 p) = Some i -> exec e p i c = Some (Go c') ->
  step_n e p (S n) c = step_n e p n c'.
Proof. intros Hpc Hi Hx. cbn [step_n]. rewrite Hpc, fetch_base, Hi. simpl. by rewrite Hx. Qed.

(** A branch within the file. *)
Lemma jump_to (t : bool) l c off tgt :
  pc c = base e + off -> find_label l (layout 0 p) = Some tgt ->
  jump e p t l c = set_pc (base e + (if t then tgt else off + 4)) c.
Proof. intros Hpc Hl. unfold jump, address. rewrite Hl, Hpc. f_equal. destruct t; lia. Qed.

(** Outside the file the run ends. *)
Lemma run_out n c : fetch e p (pc c) = None -> run e p n c = Some c.
Proof. intros Hf. destruct n; cbn [run]; by rewrite Hf. Qed.

(** The return from a function. *)
Lemma run_ret off c n :
  pc c = base e + off -> find_instr off (layout 0 p) = Some ret -> fetch e p (xr c 30) = None ->
  run e p (S n) c = Some (set_pc (xr c 30) c).
Proof. intros Hpc Hi Ho. rewrite (run_go off ret c _ n Hpc Hi eq_refl). by apply run_out. Qed.

End steps.

(** Comparison of 64-bit values. *)
Lemma sub_flags_zero a v : 0 <= a < 2 ^ 64 -> 0 <= v < 2 ^ 64 -> fZ (sub_flags a v) = (a =? v).
Proof.
  intros Ha Hv. simpl. unfold sk_uint. destruct (Z.eqb_spec a v) as [->|Hne].
  - by rewrite Z.sub_diag.
  - apply Z.eqb_neq. intros E. apply Z.mod_divide in E as [q E]; [|done]. nia.
Qed.

(** [a >= v] for values that are not negative as signed numbers. *)
Lemma s64_small x : 0 <= x < 2 ^ 63 -> s64 x = x.
Proof. intros. apply sint_small; lia. Qed.

Lemma sub_flags_ge a v :
  0 <= a < 2 ^ 63 -> 0 <= v < 2 ^ 63 -> eqb (fN (sub_flags a v)) (fV (sub_flags a v)) = (v <=? a).
Proof.
  intros Ha Hv. unfold sub_flags. cbn [fN fV]. rewrite (s64_small a), (s64_small v) by lia.
  assert (s64 (a - v) = a - v) as -> by (apply sint_small; lia). rewrite Z.eqb_refl. cbn [negb].
  destruct (Z.leb_spec v a).
  - rewrite (uint_small 64) by lia.
    assert (Z.testbit (a - v) 63 = false) as -> by (by rewrite Z.testbit_false, Z.div_small by lia). done.
  - assert (u64 (a - v) = a - v + 2 ^ 64) as ->.
    { unfold sk_uint. rewrite <- (Z.mod_add _ 1) by done. apply Z.mod_small. lia. }
    assert (Z.testbit (a - v + 2 ^ 64) 63 = true) as ->; [|done]. rewrite Z.testbit_true by lia.
    replace ((a - v + 2 ^ 64) / 2 ^ 63) with 1; [done|]. apply Z.div_unique with (a - v + 2 ^ 63); lia.
Qed.

(** ** Reaching a state *)

Section reach.
Context (e : env) (p : list item).
Implicit Types c : cpu.

(** After some number of instructions, within the file, the state is [c']. *)
Definition reaches c c' : Prop := exists k, forall n, run e p (k + n) c = run e p n c'.

Lemma reaches_refl c : reaches c c.
Proof. by exists O. Qed.

Lemma reaches_trans c c1 c2 : reaches c c1 -> reaches c1 c2 -> reaches c c2.
Proof. intros [k H] [k1 H1]. exists (k + k1)%nat. intros n. rewrite <- Nat.add_assoc, H. apply H1. Qed.

Lemma reaches_go off i c c' :
  pc c = base e + off -> find_instr off (layout 0 p) = Some i -> exec e p i c = Some (Go c') -> reaches c c'.
Proof. intros Hpc Hi Hx. exists 1%nat. intros n. by apply (run_go e p off i). Qed.

Lemma reaches_block cs off c c' :
  pc c = base e + off -> code_at p off cs -> block e p cs c = Some c' ->
  reaches c (set_pc (base e + (off + 4 * Z.of_nat (length cs))) c').
Proof. intros Hpc Hat Hb. exists (length cs). intros n. by apply run_block. Qed.

(** The function returns to its caller in the state [c']. *)
Definition returns_with c c' : Prop := exists k, forall n, run e p (k + n) c = Some c'.

Lemma returns_reaches c c1 c' : reaches c c1 -> returns_with c1 c' -> returns_with c c'.
Proof. intros [k H] [k1 H1]. exists (k + k1)%nat. intros n. rewrite <- Nat.add_assoc, H. apply H1. Qed.

Lemma returns_ret off c :
  pc c = base e + off -> find_instr off (layout 0 p) = Some ret -> fetch e p (xr c 30) = None ->
  returns_with c (set_pc (xr c 30) c).
Proof. intros Hpc Hi Ho. exists 1%nat. intros n. by apply (run_ret e p off). Qed.

End reach.

(** Evaluate reads of registers that were written. *)
Ltac regs := repeat first [rewrite upd_eq | rewrite upd_ne by done].
