(* ===== verification/Context.v ===== *)
(** * Context switches

    The assembly of [src/arch/aarch64/include/context_macro.h] and
    [src/arch/aarch64/src/context.S] on the machine of [Cpu]: the register frame a
    switch saves, the switches and the masking of interrupts.  The theorems relate
    the code to a machine whose state is the running context and the contexts
    saved for the other threads, to the functions of the same names in [Kernel],
    and to the initial stack [Thread] builds for a new thread. *)

From Stdlib Require Import String.
From S2P Require Import Prelude KList Slab Kernel Sched Thread Cpu.

Local Open Scope string_scope.
Local Open Scope list_scope.
Local Open Scope Z_scope.
Local Open Scope c_scope.

(** ** [context_macro.h] *)

Definition save_context : list instr :=
  [ msr_spsel 0;
    stp (X 0) (X 1) (-0x10); stp (X 2) (X 3) (-0x10); stp (X 4) (X 5) (-0x10);
    stp (X 6) (X 7) (-0x10); stp (X 8) (X 9) (-0x10); stp (X 10) (X 11) (-0x10);
    stp (X 12) (X 13) (-0x10); stp (X 14) (X 15) (-0x10); stp (X 16) (X 17) (-0x10);
    stp (X 18) (X 19) (-0x10); stp (X 20) (X 21) (-0x10); stp (X 22) (X 23) (-0x10);
    stp (X 24) (X 25) (-0x10); stp (X 26) (X 27) (-0x10); stp (X 28) (X 29) (-0x10);
    stp (X 30) XZR (-0x10);
    mrs (X 3) SPSR_EL1;
    mrs (X 2) ELR_EL1;
    stp (X 2) (X 3) (-0x10);
    mov (X 0) (R SP);
    msr_spsel 1 ].

Definition save_context_t : list instr :=
  [ msr_spsel 0;
    stp (X 0) (X 1) (-0x10); stp (X 2) (X 3) (-0x10); stp (X 4) (X 5) (-0x10);
    stp (X 6) (X 7) (-0x10); stp (X 8) (X 9) (-0x10); stp (X 10) (X 11) (-0x10);
    stp (X 12) (X 13) (-0x10); stp (X 14) (X 15) (-0x10); stp (X 16) (X 17) (-0x10);
    stp (X 18) (X 19) (-0x10); stp (X 20) (X 21) (-0x10); stp (X 22) (X 23) (-0x10);
    stp (X 24) (X 25) (-0x10); stp (X 26) (X 27) (-0x10); stp (X 28) (X 29) (-0x10);
    stp (X 30) XZR (-0x10);
    mrs (X 3) SPSR_EL1;
    mov (X 2) (R (X 30));
    stp (X 2) (X 3) (-0x10);
    mov (X 0) (R SP);
    msr_spsel 1 ].

Definition restore_context : list instr :=
  [ msr_spsel 0;
    mov SP (R (X 0));
    ldp (X 2) (X 3) 0x10;
    msr SPSR_EL1 (X 3);
    msr ELR_EL1 (X 2);
    ldp (X 30) XZR 0x10;
    ldp (X 28) (X 29) 0x10; ldp (X 26) (X 27) 0x10; ldp (X 24) (X 25) 0x10;
    ldp (X 22) (X 23) 0x10; ldp (X 20) (X 21) 0x10; ldp (X 18) (X 19) 0x10;
    ldp (X 16) (X 17) 0x10; ldp (X 14) (X 15) 0x10; ldp (X 12) (X 13) 0x10;
    ldp (X 10) (X 11) 0x10; ldp (X 8) (X 9) 0x10; ldp (X 6) (X 7) 0x10;
    ldp (X 4) (X 5) 0x10; ldp (X 2) (X 3) 0x10; ldp (X 0) (X 1) 0x10;
    msr_spsel 1;
    eret ].

(** ** [context.S] *)

Definition hw_get_current_el : list item :=
  [ L "hw_get_current_el";
    Ins (mrs (X 0) CurrentEL);
    Ins (cmp (X 0) (I 0xc));
    Ins (b_ EQ "3");
    Ins (cmp (X 0) (I 0x8));
    Ins (b_ EQ "2");
    Ins (cmp (X 0) (I 0x4));
    Ins (b_ EQ "1");
    Ins (ldr_num (X 0) 0);
    Ins (b "0");
    L "3"; Ins (ldr_num (X 0) 3); Ins (b "0");
    L "2"; Ins (ldr_num (X 0) 2); Ins (b "0");
    L "1"; Ins (ldr_num (X 0) 1); Ins (b "0");
    L "0"; Ins ret ].

Definition hw_interrupt_disable_S : list item :=
  [ L "hw_interrupt_disable";
    Ins (mrs (X 0) DAIF);
    Ins (msr_daifset 3);
    Ins dsb;
    Ins ret ].

Definition hw_interrupt_enable_S : list item :=
  [ L "hw_interrupt_enable";
    Ins dsb;
    Ins (mov (X 1) (I 0xC0));
    Ins (ands (X 0) (X 0) (R (X 1)));
    Ins (b_ NE "interrupt_enable_exit");
    Ins (msr_daifclr 3);
    L "interrupt_enable_exit";
    Ins ret ].

Definition hw_context_switch_to_S : list item :=
  [ L "hw_context_switch_to"; Ins (ldr (X 0) (X 0)) ] ++ (Ins <$> restore_context).

Definition hw_context_switch_S : list item :=
  [ L "hw_context_switch"; Ins (mov (X 8) (R (X 0))); Ins (mov (X 9) (R (X 1))) ] ++
  (Ins <$> save_context_t) ++
  [ Ins (str (X 0) (X 8)); Ins (ldr (X 0) (X 9)) ] ++
  (Ins <$> restore_context).

Definition hw_context_switch_interrupt_S : list item :=
  [ L "hw_context_switch_interrupt";
    Ins (adr (X 2) "thread_switch_interrupt_flag");
    Ins (ldr (X 3) (X 2));
    Ins (cmp (X 3) (I 1));
    Ins (b_ EQ "_reswitch");
    Ins (adr (X 4) "interrupt_from_thread");
    Ins (mov (X 3) (I 1));
    Ins (str (X 0) (X 4));
    Ins (str (X 3) (X 2));
    L "_reswitch";
    Ins (adr (X 2) "interrupt_to_thread");
    Ins (str (X 1) (X 2));
    Ins ret ].

Definition context_S : list item :=
  hw_get_current_el ++ hw_interrupt_disable_S ++ hw_interrupt_enable_S ++
  hw_context_switch_to_S ++ hw_context_switch_S ++ hw_context_switch_interrupt_S.

(** ** The frame *)

(** [struct sk_hw_exp_stack] of [armv8.h], from the lowest address up. *)
Definition sk_hw_exp_stack (pc_ spsr : Z) (x : Z -> Z) : list Z :=
  [ pc_; spsr; x 30; 0; x 28; x 29; x 26; x 27; x 24; x 25; x 22; x 23; x 20; x 21; x 18; x 19;
    x 16; x 17; x 14; x 15; x 12; x 13; x 10; x 11; x 8; x 9; x 6; x 7; x 4; x 5; x 2; x 3; x 0; x 1 ].

(** The words [us] from the address [s] up. *)
Definition words_at (w : gmap Z Z) (s : Z) (us : list Z) : Prop :=
  forall i v, us !! i = Some v -> w !! (s + 8 * Z.of_nat i) = Some v.

(** ** Pushing and popping pairs of registers *)

Definition push (pr : reg * reg) : instr := stp pr.1 pr.2 (-0x10).
Definition pop (pr : reg * reg) : instr := ldp pr.1 pr.2 0x10.

(** The pairs in the order of [save_context]. *)
Definition ctx_pairs : list (reg * reg) :=
  [ (X 0, X 1); (X 2, X 3); (X 4, X 5); (X 6, X 7); (X 8, X 9); (X 10, X 11); (X 12, X 13);
    (X 14, X 15); (X 16, X 17); (X 18, X 19); (X 20, X 21); (X 22, X 23); (X 24, X 25);
    (X 26, X 27); (X 28, X 29); (X 30, XZR) ].

Definition plain (r : reg) : Prop := match r with X _ | XZR => True | _ => False end.

Definition pair_words (c : cpu) (prs : list (reg * reg)) : list Z :=
  concat ((fun pr => [get pr.1 c; get pr.2 c]) <$> prs).

(** Registers hold 64-bit values. *)
Record wf64 (c : cpu) : Prop := {
  wf_xr : forall n, 0 <= xr c n < 2 ^ 64;
  wf_sys : forall r, 0 <= sys c r < 2 ^ 64;
}.

(** The stack pointer [s] is aligned and has [n] bytes below it. *)
Definition stack_ok (s n : Z) : Prop := s mod 8 = 0 /\ n <= s < 2 ^ 64 /\ 0 <= n.

Lemma words_at_app w s us vs :
  words_at w s (us ++ vs) <-> words_at w s us /\ words_at w (s + 8 * Z.of_nat (length us)) vs.
Proof.
  unfold words_at. split.
  - intros H. split; intros i v Hi.
    + apply H. by rewrite lookup_app_l by (by eapply lookup_lt_Some).
    + replace (s + _ + _) with (s + 8 * Z.of_nat (length us + i)) by lia. apply H.
      by rewrite lookup_app_r, Nat.add_comm, Nat.add_sub by lia.
  - intros [H1 H2] i v. rewrite lookup_app_Some. intros [Hi|[Hle Hi]]; [by apply H1|].
    specialize (H2 _ _ Hi). rewrite <- H2. f_equal. lia.
Qed.

Lemma words_at_ext w w' s us :
  words_at w s us -> (forall a, s <= a < s + 8 * Z.of_nat (length us) -> w' !! a = w !! a) -> words_at w' s us.
Proof.
  intros H Hw i v Hi. rewrite Hw; [by apply H|]. apply lookup_lt_Some in Hi. lia.
Qed.

Lemma mod8_sub s : s mod 8 = 0 -> (s - 16) mod 8 = 0.
Proof. intros. rewrite Zminus_mod, H. done. Qed.
Lemma mod8_add s k : s mod 8 = 0 -> (s + 8 * k) mod 8 = 0.
Proof. intros. rewrite Z.mul_comm, Z.mod_add; done. Qed.

Lemma length_pair_words c prs : length (pair_words c prs) = (2 * length prs)%nat.
Proof.
  induction prs as [|pr prs IH]; [done|]. unfold pair_words in *. cbn [fmap list_fmap concat app length] in *.
  rewrite IH. lia.
Qed.

Section frames.
Context (e : env) (p : list item).
Implicit Types c : cpu.

Lemma get_plain r w s c : plain r -> get r (set_words w (set_sps s (sp_el1 c) 0 c)) = get r c.
Proof. by destruct r. Qed.

(** One push on the stack [SP_EL0]. *)
Lemma push_one pr c :
  spsel c = 0 -> stack_ok (sp_el0 c) 16 -> plain pr.1 -> plain pr.2 ->
  data e p (push pr) c = Some (set_words
    (<[sp_el0 c - 8 := get pr.2 c]> (<[sp_el0 c - 16 := get pr.1 c]> (words c)))
    (set_sps (sp_el0 c - 16) (sp_el1 c) 0 c)).
Proof.
  intros Hs (Ha & Hb & _) H1 H2. unfold push, data. cbv zeta.
  assert (sp_get c = sp_el0 c) as -> by (unfold sp_get; by rewrite Hs).
  replace (sp_el0 c + -16) with (sp_el0 c - 16) by lia.
  rewrite (uint_small 64 (sp_el0 c - 16)) by lia. replace (sp_el0 c - 16 + 8) with (sp_el0 c - 8) by lia.
  rewrite (uint_small 64 (sp_el0 c - 8)) by lia. unfold store. rewrite mod8_sub by done.
  assert ((sp_el0 c - 8) mod 8 = 0) as -> by (by rewrite Zminus_mod, Ha).
  simpl. unfold sp_set. simpl. rewrite Hs. simpl. destruct pr as [[] []]; try done; simpl; by rewrite ?Hs.
Qed.

Lemma push_pairs prs : forall c,
  spsel c = 0 -> stack_ok (sp_el0 c) (16 * Z.of_nat (length prs)) ->
  Forall (fun pr => plain pr.1 /\ plain pr.2) prs ->
  exists w, block e p (push <$> prs) c =
      Some (set_words w (set_sps (sp_el0 c - 16 * Z.of_nat (length prs)) (sp_el1 c) 0 c)) /\
    words_at w (sp_el0 c - 16 * Z.of_nat (length prs)) (pair_words c (rev prs)) /\
    forall a, a < sp_el0 c - 16 * Z.of_nat (length prs) \/ sp_el0 c <= a -> w !! a = words c !! a.
Proof.
  induction prs as [|pr prs IH]; intros c Hs (Ha & Hb & Hn) Hp.
  - exists (words c). split; [|done]. simpl. f_equal. rewrite Z.sub_0_r. destruct c; simpl in *. by subst.
  - apply Forall_cons in Hp as [[H1 H2] Hp]. simpl length in *. cbn [fmap list_fmap block].
    rewrite (push_one pr c Hs) by (done || split; lia).
    set (c1 := set_words _ _). destruct (IH c1) as (w & Hrun & Hat & Hfr); [done| |done|].
    { split; [by apply mod8_sub|]. simpl. lia. }
    exists w. simpl in Hrun |- *. rewrite Hrun.
    assert (pair_words c1 (rev prs) = pair_words c (rev prs)) as Epw.
    { unfold pair_words. f_equal. apply list_fmap_ext. intros i [r1 r2] Hi.
      assert (plain r1 /\ plain r2) as [Hr1 Hr2].
      { exact (Forall_lookup_1 _ _ _ _ (List.Forall_rev Hp) Hi). }
      cbn [fst snd]. unfold c1. by rewrite !get_plain. }
    rewrite Epw in Hat. simpl in Hat, Hfr.
    assert (length (pair_words c (rev prs)) = (2 * length prs)%nat) as Elen.
    { by rewrite length_pair_words, length_rev. }
    split; [|split].
    + f_equal. unfold c1. unfold set_words, set_sps. simpl. f_equal. lia.
    + replace (sp_el0 c - 16 * Z.of_nat (S (length prs))) with (sp_el0 c - 16 - 16 * Z.of_nat (length prs)) by lia.
      simpl rev. unfold pair_words. rewrite fmap_app, concat_app. apply words_at_app. split; [done|].
      fold (pair_words c (rev prs)). rewrite Elen. simpl.
      intros [|[|i]] v; simpl; [intros [= <-]|intros [= <-]|by intros ?]; rewrite Hfr by lia.
      * rewrite lookup_insert_ne by lia. rewrite <- (lookup_insert_eq (words c) (sp_el0 c - 16)). f_equal. lia.
      * rewrite <- (lookup_insert_eq (<[sp_el0 c - 16 := get pr.1 c]> (words c)) (sp_el0 c - 8)). f_equal. lia.
    + intros a Hout. rewrite Hfr by lia. by rewrite !lookup_insert_ne by lia.
Qed.

(** Registers loaded in pairs from the words [us]. *)
Fixpoint load_pairs (prs : list (reg * reg)) (us : list Z) c : cpu :=
  match prs, us with
  | pr :: prs, va :: vb :: us => load_pairs prs us (put pr.2 vb (put pr.1 va c))
  | _, _ => c
  end.

Lemma put_plain r v s0 s1 sel c : plain r -> put r v (set_sps s0 s1 sel c) = set_sps s0 s1 sel (put r v c).
Proof. by destruct r. Qed.

Lemma put_words r v c : words (put r v c) = words c.
Proof. destruct r; try done. simpl. unfold sp_set. by destruct (_ =? _). Qed.

Lemma load_pairs_sps prs : forall us s0 s1 sel c, Forall (fun pr => plain pr.1 /\ plain pr.2) prs ->
  load_pairs prs us (set_sps s0 s1 sel c) = set_sps s0 s1 sel (load_pairs prs us c).
Proof.
  induction prs as [|pr prs IH]; intros us s0 s1 sel c Hp; [done|].
  apply Forall_cons in Hp as [[H1 H2] Hp]. destruct us as [|va [|vb us]]; try done.
  cbn [load_pairs]. by rewrite !put_plain, IH.
Qed.

Lemma pop_one pr va vb c :
  spsel c = 0 -> stack_ok (sp_el0 c) 0 -> sp_el0 c + 16 < 2 ^ 64 -> plain pr.1 -> plain pr.2 ->
  words c !! sp_el0 c = Some va -> words c !! (sp_el0 c + 8) = Some vb ->
  data e p (pop pr) c =
    Some (set_sps (sp_el0 c + 16) (sp_el1 c) 0 (put pr.2 vb (put pr.1 va c))).
Proof.
  intros Hs (Ha & Hb & _) Hlt H1 H2 Hva Hvb. unfold pop, data.
  assert (sp_get c = sp_el0 c) as -> by (unfold sp_get; by rewrite Hs).
  rewrite !(uint_small 64) by lia. unfold load. rewrite Ha. simpl (0 =? 0). cbv iota. rewrite Hva. simpl.
  rewrite (mod8_add _ 1) by done. simpl. rewrite Hvb. simpl. f_equal. unfold sp_set.
  destruct pr as [[] []]; simpl in *; try done; by rewrite Hs.
Qed.

Lemma pop_pairs prs : forall us c,
  spsel c = 0 -> stack_ok (sp_el0 c) 0 -> sp_el0 c + 16 * Z.of_nat (length prs) < 2 ^ 64 ->
  Forall (fun pr => plain pr.1 /\ plain pr.2) prs ->
  length us = (2 * length prs)%nat -> words_at (words c) (sp_el0 c) us ->
  block e p (pop <$> prs) c =
    Some (set_sps (sp_el0 c + 16 * Z.of_nat (length prs)) (sp_el1 c) 0 (load_pairs prs us c)).
Proof.
  induction prs as [|pr prs IH]; intros us c Hs (Ha & Hb & _) Hlt Hp Hlen Hat.
  - simpl. rewrite Z.add_0_r. f_equal. destruct c; simpl in *. by subst.
  - apply Forall_cons in Hp as [[H1 H2] Hp]. simpl length in *. destruct us as [|va [|vb us]]; try (simpl in Hlen; lia).
    assert (words c !! sp_el0 c = Some va) as Hva by (rewrite <- (Hat 0%nat va) by done; f_equal; lia).
    assert (words c !! (sp_el0 c + 8) = Some vb) as Hvb by (rewrite <- (Hat 1%nat vb) by done; f_equal; lia).
    cbn [fmap list_fmap block]. rewrite (pop_one pr va vb c Hs);
      [|split; [done|lia]|lia|done..].
    cbn [mbind option_bind load_pairs]. set (c0 := put pr.2 vb (put pr.1 va c)).
    rewrite (IH us); try done.
    + simpl sp_el0. simpl sp_el1. rewrite load_pairs_sps by done. f_equal. unfold set_sps at 1. simpl.
      unfold set_sps. f_equal. lia.
    + split; [by apply (mod8_add _ 2)|]. simpl. lia.
    + simpl. lia.
    + simpl in *. lia.
    + simpl words. unfold c0. rewrite !put_words. apply (words_at_app _ _ [va; vb]) in Hat as [_ Hat]. exact Hat.
Qed.

(** Both macros that save the context: [i] puts the return address into x2. *)
Definition save_with (i : instr) : list instr :=
  msr_spsel 0 :: (push <$> ctx_pairs) ++ [mrs (X 3) SPSR_EL1; i; push (X 2, X 3); mov (X 0) (R SP); msr_spsel 1].

Lemma ctx_pairs_plain : Forall (fun pr => plain pr.1 /\ plain pr.2) ctx_pairs.
Proof. by repeat constructor. Qed.

Definition saved_cpu (w : gmap Z Z) (ret : Z) c : cpu :=
  set_words w (set_sps (sp_el0 c - 272) (sp_el1 c) 1
    (set_xr (upd (upd (upd (xr c) 3 (sys c SPSR_EL1)) 2 ret) 0 (sp_el0 c - 272)) c)).

Lemma save_spec i ret_ c :
  wf64 c -> stack_ok (sp_el0 c) 272 -> 0 <= ret_ < 2 ^ 64 ->
  (forall c1, xr c1 30 = xr c 30 -> sys c1 = sys c -> data e p i c1 = Some (put (X 2) ret_ c1)) ->
  exists w, block e p (save_with i) c = Some (saved_cpu w ret_ c) /\
    words_at w (sp_el0 c - 272) (sk_hw_exp_stack ret_ (sys c SPSR_EL1) (xr c)) /\
    forall a, a < sp_el0 c - 272 \/ sp_el0 c <= a -> w !! a = words c !! a.
Proof.
  intros Hwf (Ha & Hb & _) Hret Hi. unfold save_with. cbn [block].
  set (c0 := set_sps (sp_el0 c) (sp_el1 c) 0 c). change (data e p (msr_spsel 0) c) with (Some c0).
  cbn [mbind option_bind]. rewrite block_app.
  destruct (push_pairs ctx_pairs c0) as (w1 & Hrun & Hat & Hfr); [done| |apply ctx_pairs_plain|].
  { split; [done|]. simpl. lia. }
  rewrite Hrun. cbn [mbind option_bind block]. set (c1 := set_words _ _).
  change (data e p (mrs (X 3) SPSR_EL1) c1) with (Some (put (X 3) (sys c SPSR_EL1) c1)).
  cbn [mbind option_bind]. rewrite Hi by done. cbn [mbind option_bind].
  set (c2 := put (X 2) ret_ (put (X 3) (sys c SPSR_EL1) c1)).
  assert (sp_el0 c2 = sp_el0 c - 256) as Esp by done.
  rewrite (push_one (X 2, X 3) c2); [|done| |done|done].
  2: { rewrite Esp. split; [|lia]. rewrite Zminus_mod, Ha. done. }
  exists (<[sp_el0 c - 264 := sys c SPSR_EL1]> (<[sp_el0 c - 272 := ret_]> w1)). pose proof (wf_sys _ Hwf SPSR_EL1).
  change (sp_el0 c0 - 16 * Z.of_nat (length ctx_pairs)) with (sp_el0 c - 256) in Hat, Hfr.
  change (sp_el0 c0) with (sp_el0 c) in Hfr.
  split; [|split].
  - cbn. change (16 * Z.of_nat 16) with 256. rewrite !(uint_small 64) by lia.
    replace (sp_el0 c - 256 - 8) with (sp_el0 c - 264) by lia.
    by replace (sp_el0 c - 256 - 16) with (sp_el0 c - 272) by lia.
  - change (sk_hw_exp_stack ret_ (sys c SPSR_EL1) (xr c)) with
      ([ret_; sys c SPSR_EL1] ++ pair_words c0 (rev ctx_pairs)).
    apply words_at_app. replace (sp_el0 c - 272 + _) with (sp_el0 c - 256) by (simpl; lia). split.
    + intros [|[|k]] v; simpl; [intros [= <-]|intros [= <-]|by intros ?].
      * replace (sp_el0 c - 272 + _) with (sp_el0 c - 272) by lia.
        rewrite lookup_insert_ne by lia. by rewrite lookup_insert_eq.
      * replace (sp_el0 c - 272 + _) with (sp_el0 c - 264) by lia. by rewrite lookup_insert_eq.
    + eapply words_at_ext; [exact Hat|]. intros a Hin. by rewrite !lookup_insert_ne by lia.
  - intros a Hout. rewrite !lookup_insert_ne by lia. by rewrite Hfr by lia.
Qed.

(** ** Contexts *)

(** What a thread needs to continue: x0 to x30, its stack pointer, the address of
    the next instruction and its program status. *)
Record context := mk_context { cx : Z -> Z; csp : Z; cpc : Z; cspsr : Z }.

Record context_ok (k : context) : Prop := {
  ck_stack : stack_ok (csp k) 272;
  ck_xr : forall n, 0 <= cx k n < 2 ^ 64;
  ck_pc : 0 <= cpc k < 2 ^ 64;
  ck_spsr : 0 <= cspsr k < 2 ^ 64
}.

(** The frame of the context is in memory, below the stack pointer. *)
Definition stored (w : gmap Z Z) (k : context) : Prop :=
  words_at w (csp k - 272) (sk_hw_exp_stack (cpc k) (cspsr k) (cx k)).

(** The processor [c'], coming from [c], continues the context [k]. *)
Record resumes (k : context) c c' : Prop := {
  rs_xr : forall n, 0 <= n <= 30 -> xr c' n = cx k n;
  rs_sp : sp_el0 c' = csp k;
  rs_pc : pc c' = cpc k;
  rs_flags : nzcv c' = mk_flags (Z.testbit (cspsr k) 31) (Z.testbit (cspsr k) 30)
               (Z.testbit (cspsr k) 29) (Z.testbit (cspsr k) 28);
  rs_daif : daif c' = cspsr k & 0x3C0;
  rs_sel : spsel c' = cspsr k & 1;
  rs_el : sys c' CurrentEL = cspsr k & 0xC;
  rs_sp1 : sp_el1 c' = sp_el1 c
}.

Definition restore_block : list instr :=
  [msr_spsel 0; mov SP (R (X 0)); pop (X 2, X 3); msr SPSR_EL1 (X 3); msr ELR_EL1 (X 2)] ++
  (pop <$> rev ctx_pairs) ++ [msr_spsel 1].

Lemma upto30 n : 0 <= n <= 30 -> exists m, n = Z.of_nat m /\ (m < 31)%nat.
Proof. intros. exists (Z.to_nat n). lia. Qed.

Lemma restore_block_spec k c :
  context_ok k -> stored (words c) k -> xr c 0 = csp k - 272 ->
  exists c1, block e p restore_block c = Some c1 /\
    (forall n, 0 <= n <= 30 -> xr c1 n = cx k n) /\ sp_el0 c1 = csp k /\ sp_el1 c1 = sp_el1 c /\
    sys c1 = upd (upd (sys c) SPSR_EL1 (cspsr k)) ELR_EL1 (cpc k) /\
    words c1 = words c /\ vregs c1 = vregs c.
Proof.
  intros [(Ha & Hb & _) Hx Hpc Hspsr] Hst H0. unfold restore_block. cbn [app block].
  set (c0 := set_sps (sp_el0 c) (sp_el1 c) 0 c). change (data e p (msr_spsel 0) c) with (Some c0).
  cbn [mbind option_bind].
  assert (data e p (mov SP (R (X 0))) c0 = Some (set_sps (csp k - 272) (sp_el1 c) 0 c0)) as ->.
  { simpl. rewrite H0, (uint_small 64) by lia. done. }
  cbn [mbind option_bind]. set (c2 := set_sps (csp k - 272) (sp_el1 c) 0 c0).
  pose proof Hst as Hst'. unfold stored in Hst'.
  change (sk_hw_exp_stack (cpc k) (cspsr k) (cx k)) with
    ([cpc k; cspsr k] ++ drop 2 (sk_hw_exp_stack (cpc k) (cspsr k) (cx k))) in Hst'.
  apply words_at_app in Hst' as [_ Hrest]. simpl length in Hrest.
  assert (stack_ok (csp k - 272) 0) as Hok0.
  { split; [|lia]. rewrite Zminus_mod, Ha. done. }
  rewrite (pop_one (X 2, X 3) (cpc k) (cspsr k) c2); [|done|done|simpl; lia|done|done| |].
  2: { simpl. rewrite <- (Hst 0%nat (cpc k)) by done. f_equal. lia. }
  2: { simpl. rewrite <- (Hst 1%nat (cspsr k)) by done. f_equal. }
  cbn [mbind option_bind]. set (c3 := set_sps _ _ _ _).
  assert (data e p (msr SPSR_EL1 (X 3)) c3 = Some (set_sys (upd (sys c) SPSR_EL1 (cspsr k)) c3)) as ->.
  { simpl. by rewrite upd_eq, (uint_small 64) by lia. }
  cbn [mbind option_bind]. set (c4 := set_sys _ c3).
  assert (data e p (msr ELR_EL1 (X 2)) c4 = Some (set_sys (upd (upd (sys c) SPSR_EL1 (cspsr k)) ELR_EL1 (cpc k)) c4)) as ->.
  { simpl. by rewrite upd_ne, upd_eq, (uint_small 64) by (done || lia). }
  cbn [mbind option_bind]. set (c5 := set_sys _ c4). rewrite block_app.
  rewrite (pop_pairs (rev ctx_pairs) (drop 2 (sk_hw_exp_stack (cpc k) (cspsr k) (cx k))) c5); try done.
  2: { split; [|simpl; lia]. simpl. replace (csp k - 272 + 16) with (csp k + 8 * (-32)) by lia. by apply mod8_add. }
  2: { simpl. lia. }
  2: { apply List.Forall_rev, ctx_pairs_plain. }
  eexists. split; [reflexivity|]. split_and!; try done.
  - intros n (m & -> & Hm)%upto30. cbn -[Z.pow].
    do 31 (destruct m as [|m]; [cbn -[Z.pow]; unfold upd; simpl; by rewrite (uint_small 64)|]). lia.
  - simpl. lia.
Qed.

(** The end of a switch: [restore_context] at the offset [off]. *)
Lemma restore_run k c off n :
  context_ok k -> stored (words c) k -> xr c 0 = csp k - 272 ->
  pc c = base e + off -> code_at p off restore_block -> find_instr (off + 88) (layout 0 p) = Some eret ->
  exists c', run e p (23 + n) c = Some c' /\ resumes k c c' /\ words c' = words c /\ vregs c' = vregs c.
Proof.
  intros Hk Hst H0 Hpc Hat Hlast.
  destruct (restore_block_spec k c Hk Hst H0) as (c1 & Hb & Hx & Hs0 & Hs1 & Hsys & Hw & Hv).
  change (23 + n)%nat with (length restore_block + S n)%nat. rewrite (run_block e p restore_block off c c1 (S n) Hpc Hat Hb).
  cbn [run]. change (4 * Z.of_nat (length restore_block)) with 88.
  simpl pc. rewrite fetch_base, Hlast. simpl. eexists. split; [reflexivity|].
  split; [|done]. split; simpl; rewrite ?Hsys; try done.
Qed.

End frames.

(** ** The contexts of all threads *)

(** The address [a] is not in the frame below [s]. *)
Definition apart (a s : Z) : Prop := a < s - 272 \/ s <= a.

(** Two threads, with the addresses [a], [a'] of their saved stack pointers and
    their stacks at [s], [s'], do not overlap. *)
Definition separate (a s a' s' : Z) : Prop :=
  a <> a' /\ apart a s' /\ apart a' s /\ (s <= s' - 272 \/ s' <= s - 272).

(** [T] gives the context of each thread that does not run, by the address of the
    member [sp] of its structure. *)
Record contexts_rep (w : gmap Z Z) (T : gmap Z context) : Prop := {
  cr_ok : forall a k, T !! a = Some k -> context_ok k /\ a mod 8 = 0 /\ apart a (csp k);
  cr_sp : forall a k, T !! a = Some k -> w !! a = Some (csp k - 272);
  cr_stored : forall a k, T !! a = Some k -> stored w k;
  cr_separate : forall a k a' k', T !! a = Some k -> T !! a' = Some k' -> a <> a' ->
    separate a (csp k) a' (csp k')
}.

(** The running thread [a] with the stack pointer [s] has room for a frame that
    overlaps no other thread. *)
Record runs_apart (a s : Z) (T : gmap Z context) : Prop := {
  ra_align : a mod 8 = 0;
  ra_own : apart a s;
  ra_stack : stack_ok s 272;
  ra_others : forall a' k', T !! a' = Some k' -> separate a s a' (csp k')
}.

Lemma separate_sym a s a' s' : separate a s a' s' -> separate a' s' a s.
Proof. unfold separate. intros (? & ? & ? & ?). split_and!; try done. lia. Qed.

Lemma stored_ext w w' k :
  stored w k -> (forall a, csp k - 272 <= a < csp k -> w' !! a = w !! a) -> stored w' k.
Proof. intros H Hw. eapply words_at_ext; [exact H|]. simpl length. intros a Ha. apply Hw. lia. Qed.

(** Saving the running context and taking another one out. *)
Lemma contexts_switch w w' T a me b_ k :
  contexts_rep w T -> runs_apart a (csp me) T -> context_ok me -> T !! b_ = Some k ->
  w' !! a = Some (csp me - 272) -> stored w' me ->
  (forall x, x <> a -> apart x (csp me) -> w' !! x = w !! x) ->
  contexts_rep w' (<[a := me]> (delete b_ T)) /\ runs_apart b_ (csp k) (<[a := me]> (delete b_ T)).
Proof.
  intros HT HA Hme Hb Hsp Hst Hfr.
  assert (forall a' k', T !! a' = Some k' -> w' !! a' = w !! a' /\ stored w' k') as Hkeep.
  { intros a' k' Ha'. destruct (ra_others _ _ _ HA a' k' Ha') as (Hne & H1 & H2 & H3). split.
    - by apply Hfr; [intros ->|].
    - eapply stored_ext; [by eapply cr_stored|]. intros x Hx. unfold apart in *. apply Hfr; lia. }
  assert (forall a' k', <[a := me]> (delete b_ T) !! a' = Some k' ->
    (a' = a /\ k' = me) \/ (a' <> a /\ a' <> b_ /\ T !! a' = Some k')) as Hcase.
  { intros a' k'. rewrite lookup_insert_Some, lookup_delete_Some. naive_solver. }
  split; split.
  - intros a' k' [[-> ->]|(_ & _ & H)]%Hcase; [|by eapply cr_ok]. split_and!; [done|apply HA|apply HA].
  - intros a' k' [[-> ->]|(_ & _ & H)]%Hcase; [done|]. destruct (Hkeep _ _ H) as [-> _]. by eapply cr_sp.
  - intros a' k' [[-> ->]|(_ & _ & H)]%Hcase; [done|]. by apply (Hkeep _ _ H).
  - intros a1 k1 a2 k2 [[-> ->]|(_ & _ & H1)]%Hcase [[-> ->]|(_ & _ & H2)]%Hcase Hne; [done|..].
    + by apply HA.
    + apply separate_sym. by apply HA.
    + by eapply cr_separate.
  - by apply (cr_ok _ _ HT b_ k).
  - by apply (cr_ok _ _ HT b_ k).
  - by apply (cr_ok _ _ HT b_ k).
  - intros a' k' [[-> ->]|(_ & Hnb & H)]%Hcase; [apply separate_sym; by apply HA|]. by eapply cr_separate.
Qed.

(** ** The switch of threads *)

Section switch.
Context (e : env).
Implicit Types c : cpu.

(** The context a thread that calls [hw_context_switch] leaves: it returns to its
    caller, with the program status of the last exception. *)
Definition caller_context c : context :=
  mk_context (upd (upd (xr c) 8 (xr c 0)) 9 (xr c 1)) (sp_el0 c) (xr c 30) (sys c SPSR_EL1).

Definition switch_block : list instr :=
  [mov (X 8) (R (X 0)); mov (X 9) (R (X 1))] ++ save_context_t ++ [str (X 0) (X 8); ldr (X 0) (X 9)].

Lemma caller_context_ok c : wf64 c -> stack_ok (sp_el0 c) 272 -> context_ok (caller_context c).
Proof.
  intros Hwf Hs. split; simpl; [done| |apply Hwf|apply Hwf].
  intros n. unfold upd. repeat case_decide; apply Hwf.
Qed.

Lemma switch_block_spec c k T :
  wf64 c -> contexts_rep (words c) T -> runs_apart (xr c 0) (sp_el0 c) T -> T !! xr c 1 = Some k ->
  exists c1, block e context_S switch_block c = Some c1 /\ xr c1 0 = csp k - 272 /\
    words c1 !! xr c 0 = Some (sp_el0 c - 272) /\ stored (words c1) (caller_context c) /\
    (forall x, x <> xr c 0 -> apart x (sp_el0 c) -> words c1 !! x = words c !! x) /\
    sp_el1 c1 = sp_el1 c /\ vregs c1 = vregs c.
Proof.
  intros Hwf HT HA Hk. unfold switch_block. rewrite block_app.
  set (c0 := set_xr (upd (upd (xr c) 8 (xr c 0)) 9 (xr c 1)) c).
  assert (block e context_S [mov (X 8) (R (X 0)); mov (X 9) (R (X 1))] c = Some c0) as ->.
  { cbn. rewrite (upd_ne _ _ 1) by done. by rewrite !(uint_small 64) by apply Hwf. }
  cbn [mbind option_bind]. rewrite block_app.
  assert (wf64 c0) as Hwf0.
  { split; [|apply Hwf]. intros n. simpl. unfold upd. repeat case_decide; apply Hwf. }
  destruct (save_spec e context_S (mov (X 2) (R (X 30))) (xr c 30) c0 Hwf0 (ra_stack _ _ _ HA) (wf_xr _ Hwf 30))
    as (w & Hsave & Hat & Hfr); [by intros c1 E _; simpl; rewrite E|].
  change save_context_t with (save_with (mov (X 2) (R (X 30)))). rewrite Hsave. cbn [mbind option_bind block].
  set (c1 := saved_cpu w (xr c 30) c0).
  destruct (ra_others _ _ _ HA _ _ Hk) as (Hne & Ha1 & Ha2 & Ha3).
  assert (data e context_S (str (X 0) (X 8)) c1 = Some (set_words (<[xr c 0 := sp_el0 c - 272]> w) c1)) as ->.
  { change (data e context_S (str (X 0) (X 8)) c1) with (store (xr c 0) (sp_el0 c - 272) c1).
    unfold store. by rewrite (ra_align _ _ _ HA). }
  cbn [mbind option_bind]. set (c2 := set_words _ c1).
  assert (w !! xr c 1 = Some (csp k - 272)) as Hw1.
  { rewrite Hfr by exact Ha2. simpl. by eapply cr_sp. }
  assert (data e context_S (ldr (X 0) (X 9)) c2 = Some (put (X 0) (csp k - 272) c2)) as ->.
  { change (data e context_S (ldr (X 0) (X 9)) c2) with (v ← load (xr c 1) c2; Some (put (X 0) v c2)).
    unfold load. destruct (cr_ok _ _ HT _ _ Hk) as (_ & -> & _). simpl.
    rewrite lookup_insert_ne by done. by rewrite Hw1. }
  destruct (cr_ok _ _ HT _ _ Hk) as ([(_ & Hs & _) _ _ _] & _ & _).
  eexists. split; [reflexivity|]. split_and!; try done.
  - simpl. rewrite upd_eq. apply uint_small. lia.
  - simpl. by rewrite lookup_insert_eq.
  - simpl. eapply stored_ext; [exact Hat|]. intros x Hx. simpl in Hx. rewrite lookup_insert_ne; [done|].
    pose proof (ra_own _ _ _ HA). unfold apart in *. lia.
  - intros x Hx Hap. simpl. rewrite lookup_insert_ne by done. rewrite Hfr by exact Hap. done.
Qed.

End switch.

Lemma context_switch_run e c k T :
  wf64 c -> pc c = address e context_S "hw_context_switch" ->
  contexts_rep (words c) T -> runs_apart (xr c 0) (sp_el0 c) T -> T !! xr c 1 = Some k ->
  exists c', run e context_S 49 c = Some c' /\ resumes k c c' /\ vregs c' = vregs c /\
    contexts_rep (words c') (<[xr c 0 := caller_context c]> (delete (xr c 1) T)) /\
    runs_apart (xr c 1) (sp_el0 c') (<[xr c 0 := caller_context c]> (delete (xr c 1) T)).
Proof.
  intros Hwf Hpc HT HA Hk.
  destruct (switch_block_spec e c k T Hwf HT HA Hk) as (c1 & Hb & H0 & Hsp & Hst & Hfr & Hs1 & Hv).
  destruct (contexts_switch (words c) (words c1) T (xr c 0) (caller_context c) (xr c 1) k HT HA) as [HT' HA'];
    try done; [by apply caller_context_ok; [|apply HA]|].
  change 49%nat with (length switch_block + 23)%nat.
  rewrite (run_block e context_S switch_block 200 c c1 23); [|exact Hpc|vm_compute; repeat split|done].
  set (c2 := set_pc _ c1).
  destruct (restore_run e context_S k c2 304 0) as (c' & Hrun & Hres & Hw & Hv'); try done.
  - by apply (cr_ok _ _ HT (xr c 1)).
  - simpl. eapply stored_ext; [exact (cr_stored _ _ HT _ _ Hk)|]. intros x Hx.
    destruct (ra_others _ _ _ HA _ _ Hk) as (? & ? & ? & ?). unfold apart in *. apply Hfr; unfold apart; lia.
  - exists c'. split; [done|]. destruct Hres. simpl in *. split; [split; try done; congruence|].
    split; [congruence|]. rewrite Hw, rs_sp0. done.
Qed.

(** C6: the assembly of [hw_context_switch] implements the exchange of contexts.
    Called by the running thread with the addresses of its own saved stack pointer
    and of that of another thread, it leaves at the other thread's next
    instruction with all its registers, stack pointer and program status, has
    added to the saved contexts the caller's, which continues after the call, and
    has changed no other.  The floating-point registers are those of the caller. *)
Theorem context_switch_refines e c k T :
  wf64 c -> pc c = address e context_S "hw_context_switch" ->
  contexts_rep (words c) T -> runs_apart (xr c 0) (sp_el0 c) T -> T !! xr c 1 = Some k ->
  exists c', run e context_S 49 c = Some c' /\ resumes k c c' /\ vregs c' = vregs c /\
    contexts_rep (words c') (<[xr c 0 := caller_context c]> (delete (xr c 1) T)) /\
    runs_apart (xr c 1) (sp_el0 c') (<[xr c 0 := caller_context c]> (delete (xr c 1) T)).
Proof. exact (context_switch_run e c k T). Qed.

(** ** The first start of a thread *)

Lemma initial_frame entry_ param_ exit :
  rev (stack_frame entry_ param_ exit) = sk_hw_exp_stack entry_ INITIAL_SPSR_EL1
    (fun n => znth [param_; 11; 22; 33; 44; 55; 66; 77; 88; 99; 10; 11; 12; 13; 14; 15; 16; 17; 18; 19; 20; 21;
                    22; 23; 24; 25; 26; 27; 28; 29; exit] n).
Proof. done. Qed.

Lemma znth_range hi l n : 0 < hi -> Forall (fun v => 0 <= v < hi) l -> 0 <= znth l n < hi.
Proof.
  intros Hhi Hl. unfold znth. destruct (l !! Z.to_nat n) as [v|] eqn:E; simpl; [|lia].
  exact (Forall_lookup_1 _ _ _ _ Hl E).
Qed.

(** C9: the frame [__thread_stack_init] builds is the one a switch restores.
    [hw_context_switch_to] on a thread that has just been initialised starts it at
    its entry with its parameter in x0, the exit function as return address, an
    empty stack, [SP_EL0] selected and interrupts enabled. *)
Theorem new_thread_starts e c s s1 entry_ param_ stack exit sp_ :
  0 <= entry_ < 2 ^ 64 -> 0 <= param_ < 2 ^ 64 -> 0 <= exit < 2 ^ 64 -> stack_ok stack 272 ->
  __thread_stack_init entry_ param_ stack exit s = Done s1 sp_ ->
  pc c = address e context_S "hw_context_switch_to" -> xr c 0 mod 8 = 0 ->
  words c !! xr c 0 = Some sp_ ->
  (forall a, stack - 272 <= a < stack -> words c !! a = ks_words s1 !! a) ->
  exists c', run e context_S 24 c = Some c' /\ pc c' = entry_ /\ xr c' 0 = param_ /\ xr c' 30 = exit /\
    sp_el0 c' = stack /\ spsel c' = 0 /\ daif c' = 0 /\ words c' = words c.
Proof.
  intros He Hp Hx Hs Hini Hpc Hal Hto Hmem.
  destruct (stack_init_correct entry_ param_ stack exit s) as (s1' & Hini' & Hfr & _).
  rewrite Hini in Hini'. injection Hini' as <- ->.
  set (k := mk_context (fun n => znth [param_; 11; 22; 33; 44; 55; 66; 77; 88; 99; 10; 11; 12; 13; 14; 15; 16; 17;
    18; 19; 20; 21; 22; 23; 24; 25; 26; 27; 28; 29; exit] n) stack entry_ INITIAL_SPSR_EL1).
  assert (context_ok k) as Hk.
  { split; [done| |done|by vm_compute]. intros n. apply znth_range; [lia|]. repeat constructor; lia. }
  assert (forall v, v ∈ stack_frame entry_ param_ exit -> u64 v = v) as Hrange.
  { intros v Hv. apply uint_small. unfold stack_frame, INITIAL_SPSR_EL1 in Hv.
    repeat (apply elem_of_cons in Hv as [->|Hv]; [lia|]). by apply elem_of_nil in Hv. }
  assert (stored (words c) k) as Hst.
  { intros i v. simpl. rewrite <- initial_frame. intros Hi. pose proof (lookup_lt_Some _ _ _ Hi) as Hlt.
    simpl in Hlt. rewrite Hmem by lia.
    assert (stack_frame entry_ param_ exit !! (33 - i)%nat = Some v) as Hi'.
    { clear -Hi Hlt. do 34 (destruct i as [|i]; [exact Hi|]). lia. }
    rewrite <- (Hrange v) by (by eapply list_elem_of_lookup_2). rewrite <- (Hfr _ _ Hi'). f_equal. lia. }
  set (c1 := set_pc (base e + 108) (put (X 0) (stack - 272) c)).
  assert (run e context_S 24 c = run e context_S 23 c1) as ->.
  { apply (run_go e context_S 104 (ldr (X 0) (X 0))); [done|by vm_compute|].
    unfold exec, data, load. simpl get. rewrite Hal. simpl. rewrite Hto. simpl. rewrite Hpc. do 3 f_equal.
    change (address e context_S "hw_context_switch_to") with (base e + 104). lia. }
  destruct Hs as (_ & Hs & _).
  destruct (restore_run e context_S k c1 108 0) as (c' & Hrun & Hres & Hw & _); try done.
  { simpl. rewrite upd_eq. apply uint_small. lia. }
  exists c'. split; [done|]. destruct Hres. simpl in *. split_and!; try done; by rewrite ?rs_xr0 by lia.
Qed.

(** ** Returning from a switch *)

(** A call of [hw_context_switch] returns.  When, later, whichever thread
    runs switches to the caller, while its context is still among the saved ones,
    the processor continues after the call with the caller's stack pointer and
    registers; only x8 and x9 are lost.  The interrupt mask is not the caller's:
    it is that of the last exception before the call. *)
Theorem context_switch_returns e c c2 T2 :
  wf64 c2 -> pc c2 = address e context_S "hw_context_switch" ->
  contexts_rep (words c2) T2 -> runs_apart (xr c2 0) (sp_el0 c2) T2 ->
  xr c2 1 = xr c 0 -> T2 !! xr c 0 = Some (caller_context c) ->
  exists c3, run e context_S 49 c2 = Some c3 /\ pc c3 = xr c 30 /\ sp_el0 c3 = sp_el0 c /\
    (forall n, 0 <= n <= 30 -> n <> 8 -> n <> 9 -> xr c3 n = xr c n) /\
    daif c3 = sys c SPSR_EL1 & 0x3C0.
Proof.
  intros Hwf Hpc HT HA Hto Hk. rewrite <- Hto in Hk.
  destruct (context_switch_run e c2 _ T2 Hwf Hpc HT HA Hk) as (c3 & Hrun & Hres & _).
  exists c3. destruct Hres. split_and!; try done. intros n Hn H8 H9. rewrite rs_xr0 by done. simpl.
  by rewrite !upd_ne by done.
Qed.

(** ** Masking interrupts *)

(** What the small functions leave alone. *)
Record leaf_frame c c' : Prop := {
  lf_pc : pc c' = xr c 30;
  lf_sp : sp_get c' = sp_get c;
  lf_words : words c' = words c
}.

(** The assembly of [hw_interrupt_disable] and [hw_interrupt_enable] is what
    [Kernel] says of them: on a processor with the mask of the kernel's state both
    return to the caller with the mask of the state after the call, the first with
    the old mask in x0; only x0 and x1 change. *)
Theorem interrupt_mask_refines e c s :
  wf64 c -> fetch e context_S (xr c 30) = None -> 0 <= ks_daif s < 2 ^ 64 -> daif c = ks_daif s ->
  (pc c = address e context_S "hw_interrupt_disable" ->
     exists c' s' v, run e context_S 4 c = Some c' /\ hw_interrupt_disable s = Done s' v /\
       xr c' 0 = v /\ daif c' = ks_daif s' /\ leaf_frame c c' /\ forall n, n <> 0 -> xr c' n = xr c n) /\
  (pc c = address e context_S "hw_interrupt_enable" ->
     exists c' s', run e context_S 6 c = Some c' /\ hw_interrupt_enable (xr c 0) s = Done s' tt /\
       daif c' = ks_daif s' /\ leaf_frame c c' /\ forall n, n <> 0 -> n <> 1 -> xr c' n = xr c n).
Proof.
  intros Hwf Hout Hd E. split; intros Hpc.
  - change 4%nat with (length [mrs (X 0) DAIF; msr_daifset 3; dsb] + 1)%nat.
    rewrite (run_block e context_S [mrs (X 0) DAIF; msr_daifset 3; dsb] 64 c
      (add_op Dsb (set_daif (daif c ||| 0xC0) (set_xr (upd (xr c) 0 (daif c)) c)))); [|done|by vm_compute|].
    2: { cbn. by rewrite (uint_small 64) by (rewrite E; done). }
    rewrite (run_ret e context_S 76); [|done|by vm_compute|done]. eexists _, _, _.
    split; [reflexivity|]. split; [reflexivity|]. simpl. rewrite upd_eq, E. split_and!; try done.
    intros n Hn. by rewrite upd_ne.
  - set (v := xr c 0 & 0xC0).
    assert (0 <= v < 2 ^ 64) as Hv.
    { apply bits_range; [lia|]. intros i Hi. unfold v.
      by rewrite Z.land_spec, (range_bits 64 0xC0 i), andb_false_r by lia. }
    set (c1 := set_nzcv (and_flags v) (set_xr (upd (upd (xr c) 1 0xC0) 0 v) (add_op Dsb c))).
    change 6%nat with (length [dsb; mov (X 1) (I 0xC0); ands (X 0) (X 0) (R (X 1))] + 3)%nat.
    rewrite (run_block e context_S [dsb; mov (X 1) (I 0xC0); ands (X 0) (X 0) (R (X 1))] 80 c c1);
      [|done|by vm_compute|].
    2: { cbn. rewrite (upd_ne _ _ 0), (upd_eq _ 1) by done. change (u64 192) with 0xC0. fold v.
         by rewrite (uint_small 64 v). }
    set (c2 := set_pc _ c1).
    assert (run e context_S 3 c2 = run e context_S 2 (set_pc (base e + (if v =? 0 then 96 else 100)) c1)) as ->.
    { rewrite (run_go e context_S 92 (b_ NE "interrupt_enable_exit") c2 _ 2 eq_refl eq_refl eq_refl).
      rewrite (jump_to e context_S _ _ c2 92 100) by done. simpl. by destruct (v =? 0). }
    unfold hw_interrupt_enable, modify. fold v. destruct (v =? 0) eqn:Ev.
    + set (c3 := set_daif (Z.ldiff (daif c) 0xC0) c1).
      assert (run e context_S 2 (set_pc (base e + 96) c1) = run e context_S 1 (set_pc (base e + 100) c3)) as ->.
      { apply (run_go e context_S 96 (msr_daifclr 3)); [done|by vm_compute|]. simpl.
        by replace (base e + 96 + 4) with (base e + 100) by lia. }
      rewrite (run_ret e context_S 100); [|done|by vm_compute|done]. eexists _, _.
      split; [reflexivity|]. split; [reflexivity|]. simpl. rewrite E, Z.ldiff_land. split_and!; try done.
      intros n H0 H1. by rewrite !upd_ne.
    + rewrite (run_ret e context_S 100); [|done|by vm_compute|done]. eexists _, _.
      split; [reflexivity|]. split; [reflexivity|]. simpl. split_and!; try done.
      intros n H0 H1. by rewrite !upd_ne.
Qed.

(** ** Requests of a switch from an interrupt *)

(** The three words of the data section of [context.S]. *)
Definition FLAG e : Z := sym e "thread_switch_interrupt_flag".
Definition FROM e : Z := sym e "interrupt_from_thread".
Definition TO e : Z := sym e "interrupt_to_thread".

Record request_words e : Prop := {
  rw_align : FLAG e mod 8 = 0 /\ FROM e mod 8 = 0 /\ TO e mod 8 = 0;
  rw_range : 0 <= FLAG e < 2 ^ 64 /\ 0 <= FROM e < 2 ^ 64 /\ 0 <= TO e < 2 ^ 64;
  rw_apart : FLAG e <> FROM e /\ FLAG e <> TO e /\ FROM e <> TO e
}.

Definition request_rep e (w : gmap Z Z) (sw : switch_request) : Prop :=
  w !! FLAG e = Some (sw_flag sw) /\ w !! FROM e = Some (sw_from sw) /\ w !! TO e = Some (sw_to sw).

Section request.
Context (e : env) (Hrw : request_words e).
Implicit Types c : cpu.

(** The beginning of [hw_context_switch_interrupt], up to the branch. *)
Definition request_flag : list instr :=
  [adr (X 2) "thread_switch_interrupt_flag"; ldr (X 3) (X 2); cmp (X 3) (I 1)].
Definition request_from : list instr :=
  [adr (X 4) "interrupt_from_thread"; mov (X 3) (I 1); str (X 0) (X 4); str (X 3) (X 2)].
Definition request_to : list instr := [adr (X 2) "interrupt_to_thread"; str (X 1) (X 2)].

Lemma request_flag_run c f :
  0 <= f < 2 ^ 64 -> words c !! FLAG e = Some f -> 
  block e context_S request_flag c = Some (set_nzcv (sub_flags f 1)
    (set_xr (upd (upd (xr c) 2 (FLAG e)) 3 f) c)).
Proof.
  intros Hf Hw. unfold request_flag, block, data, load. cbn -[Z.pow sub_flags].
  fold (FLAG e). destruct Hrw as [(A & _) (B & _) _]. rewrite upd_eq, (uint_small 64 (FLAG e)) by lia. rewrite A. simpl.
  rewrite Hw. simpl. by rewrite upd_eq, (uint_small 64 f).
Qed.

Lemma request_from_run c :
  xr c 2 = FLAG e ->
  exists c', block e context_S request_from c = Some c' /\ (forall n, n <> 3 -> n <> 4 -> xr c' n = xr c n) /\
    words c' = <[FLAG e := 1]> (<[FROM e := xr c 0]> (words c)) /\ pc c' = pc c /\ sp_get c' = sp_get c.
Proof.
  intros H2. destruct Hrw as [(A1 & A2 & _) (B1 & B2 & _) _].
  unfold request_from, block, data, store. cbn -[Z.pow]. fold (FROM e).
  rewrite (uint_small 64 (FROM e)) by lia. rewrite (upd_ne _ _ 4), upd_eq by done. rewrite A2. simpl.
  rewrite (upd_ne _ _ 2), (upd_ne _ _ 2), H2 by done. rewrite A1. simpl.
  eexists. split; [reflexivity|]. simpl. rewrite upd_eq, !upd_ne by done. split_and!; try done.
  intros n H3 H4. by rewrite !upd_ne.
Qed.

Lemma request_to_run c :
  block e context_S request_to c =
    Some (set_words (<[TO e := xr c 1]> (words c)) (set_xr (upd (xr c) 2 (TO e)) c)).
Proof.
  destruct Hrw as [(_ & _ & A) (_ & _ & B) _]. unfold request_to, block, data, store. cbn -[Z.pow]. fold (TO e).
  rewrite (uint_small 64 (TO e)) by lia. rewrite upd_eq, A. simpl. by rewrite upd_ne.
Qed.

End request.

(** The assembly of [hw_context_switch_interrupt] is what [Kernel] says of it:
    with the request of the kernel's state in memory, it returns to the caller
    with the request of the state after the call, and writes nothing else. *)
Theorem switch_request_refines e c s :
  request_words e -> wf64 c -> fetch e context_S (xr c 30) = None ->
  pc c = address e context_S "hw_context_switch_interrupt" ->
  request_rep e (words c) (ks_switch s) -> 0 <= sw_flag (ks_switch s) < 2 ^ 64 ->
  exists c' s', run e context_S 12 c = Some c' /\ hw_context_switch_interrupt (xr c 0) (xr c 1) s = Done s' tt /\
    request_rep e (words c') (ks_switch s') /\ pc c' = xr c 30 /\ sp_get c' = sp_get c /\
    forall a, a <> FLAG e -> a <> FROM e -> a <> TO e -> words c' !! a = words c !! a.
Proof.
  intros Hrw Hwf Hout Hpc (Hf & Hfr & Hto) Hrg. set (f := sw_flag (ks_switch s)) in *.
  destruct (rw_apart _ Hrw) as (N1 & N2 & N3).
  change 12%nat with (length request_flag + 9)%nat.
  erewrite (run_block e context_S request_flag 396 c _ 9 Hpc); [|by vm_compute|by apply request_flag_run].
  set (c1 := set_nzcv _ _). set (c1' := set_pc _ c1).
  assert (run e context_S 9 c1' = run e context_S 8 (set_pc (base e + (if f =? 1 then 428 else 412)) c1)) as ->.
  { rewrite (run_go e context_S 408 (b_ EQ "_reswitch") c1' _ 8 eq_refl eq_refl eq_refl).
    rewrite (jump_to e context_S _ _ c1' 408 428) by done. unfold c1' at 1. simpl nzcv.
    change (holds EQ (sub_flags f 1)) with (fZ (sub_flags f 1)). by rewrite sub_flags_zero by lia. }
  assert (exists c2 n, run e context_S 8 (set_pc (base e + (if f =? 1 then 428 else 412)) c1) =
      run e context_S (3 + n) (set_pc (base e + 428) c2) /\ xr c2 0 = xr c 0 /\ xr c2 1 = xr c 1 /\
      xr c2 30 = xr c 30 /\ sp_get c2 = sp_get c /\
      words c2 = if f =? 1 then words c else <[FLAG e := 1]> (<[FROM e := xr c 0]> (words c)))
    as (c2 & n & -> & H0 & H1 & H30 & Hsp & Hw).
  { destruct (f =? 1).
    - exists c1, 5%nat. simpl. by rewrite !upd_ne.
    - destruct (request_from_run e Hrw (set_pc (base e + 412) c1)) as (c2 & Hb & Hx & Hw & _ & Hsp);
        [simpl; by rewrite upd_ne, upd_eq|].
      exists c2, 1%nat. split_and!; try (rewrite Hx by done; simpl; by rewrite !upd_ne).
      + by apply (run_block e context_S request_from 412 _ c2 4).
      + done.
      + rewrite Hw. simpl. by rewrite !upd_ne. }
  change (3 + n)%nat with (length request_to + S n)%nat.
  erewrite (run_block e context_S request_to 428 (set_pc (base e + 428) c2) _ (S n) eq_refl); [|by vm_compute|by apply request_to_run].
  rewrite (run_ret e context_S 436); [|done|by vm_compute|simpl; rewrite upd_ne by done; by rewrite H30].
  eexists _, _. split; [reflexivity|]. split; [reflexivity|]. simpl. rewrite (upd_ne _ _ 30) by done.
  rewrite H1, H30, Hw. unfold request_rep. fold f. split_and!; try done.
  - rewrite lookup_insert_ne by done. destruct (f =? 1); [done|by rewrite lookup_insert_eq].
  - rewrite lookup_insert_ne by done. destruct (f =? 1); [done|].
    rewrite lookup_insert_ne by done. by rewrite lookup_insert_eq.
  - rewrite lookup_insert_eq. by destruct (f =? 1).
  - intros a Ha1 Ha2 Ha3. rewrite lookup_insert_ne by done. destruct (f =? 1); [done|].
    by rewrite !lookup_insert_ne by done.
Qed.

(** ** The exception level *)

Lemma cmp_beq e p off v l tgt c n :
  pc c = base e + off -> find_instr off (layout 0 p) = Some (cmp (X 0) (I v)) ->
  find_instr (off + 4) (layout 0 p) = Some (b_ EQ l) -> find_label l (layout 0 p) = Some tgt ->
  0 <= xr c 0 < 2 ^ 64 -> 0 <= v < 2 ^ 64 ->
  exists f, run e p (S (S n)) c = run e p n (set_pc (base e + if xr c 0 =? v then tgt else off + 8) (set_nzcv f c)).
Proof.
  intros Hpc H1 H2 Hl Hx Hv. exists (sub_flags (xr c 0) v).
  rewrite (run_go e p off _ c _ (S n) Hpc H1 eq_refl). set (c1 := set_pc _ _).
  assert (pc c1 = base e + (off + 4)) as Hpc1 by (simpl; lia).
  rewrite (run_go e p (off + 4) _ c1 _ n Hpc1 H2 eq_refl), (jump_to e p _ l c1 (off + 4) tgt Hpc1 Hl).
  change (holds EQ (nzcv c1)) with (fZ (sub_flags (xr c 0) v)). rewrite sub_flags_zero by done.
  f_equal. unfold set_pc, c1. simpl. f_equal. destruct (_ =? _); lia.
Qed.

(** One way out of [hw_get_current_el]: load the number and go to the return. *)
Lemma el_exit e v off c n :
  0 <= v < 2 ^ 64 -> pc c = base e + off -> fetch e context_S (xr c 30) = None ->
  find_instr off (layout 0 context_S) = Some (ldr_num (X 0) v) ->
  find_instr (off + 4) (layout 0 context_S) = Some (b "0") ->
  exists c', run e context_S (3 + n) c = Some c' /\ xr c' 0 = v /\ pc c' = xr c 30.
Proof.
  intros Hv Hpc Hout H1 H2. change (3 + n)%nat with (S (S (S n))).
  rewrite (run_go e context_S off _ c _ (S (S n)) Hpc H1 eq_refl).
  set (c1 := set_pc _ _). assert (pc c1 = base e + (off + 4)) as Hpc1 by (simpl; lia).
  rewrite (run_go e context_S (off + 4) _ c1 _ (S n) Hpc1 H2 eq_refl).
  rewrite (jump_to e context_S true "0" c1 (off + 4) 60 Hpc1 eq_refl).
  rewrite (run_ret e context_S 60 (set_pc (base e + 60) c1) n eq_refl eq_refl); [|by simpl; rewrite upd_ne].
  eexists. split; [reflexivity|]. simpl. rewrite upd_eq, upd_ne by done. by rewrite uint_small.
Qed.

(** [hw_get_current_el] returns the exception level of the processor. *)
Theorem get_current_el_correct e c el :
  wf64 c -> fetch e context_S (xr c 30) = None -> pc c = address e context_S "hw_get_current_el" ->
  0 <= el <= 3 -> sys c CurrentEL = 4 * el ->
  exists c', run e context_S 16 c = Some c' /\ xr c' 0 = el /\ pc c' = xr c 30.
Proof.
  intros Hwf Hout Hpc Hel Hs.
  rewrite (run_go e context_S 0 (mrs (X 0) CurrentEL) c _ 15 Hpc eq_refl eq_refl). simpl read_sys. rewrite Hs.
  set (c1 := set_pc _ _). assert (pc c1 = base e + 4) as P1
    by (simpl; rewrite Hpc; change (address e context_S "hw_get_current_el") with (base e + 0); lia).
  assert (xr c1 0 = 4 * el) as X1 by (simpl; rewrite upd_eq; apply uint_small; lia).
  assert (xr c1 30 = xr c 30) as R1 by (simpl; by rewrite upd_ne).
  clearbody c1.
  destruct (cmp_beq e context_S 4 0xc "3" 36 c1 13 P1) as (f1 & ->); [done..|lia|lia|]. rewrite X1.
  destruct (Z.eqb_spec (4 * el) 0xc) as [E3|N3].
  { destruct (el_exit e 3 36 (set_pc (base e + 36) (set_nzcv f1 c1)) 10)
      as (c' & Hr & H0 & Hp); [lia|done|simpl; by rewrite R1|done|done|].
    exists c'. split_and!; [done|lia|by rewrite <- R1]. }
  change (4 + 8) with 12.
  destruct (cmp_beq e context_S 12 8 "2" 44 (set_pc (base e + 12) (set_nzcv f1 c1)) 11) as (f2 & ->);
    [done..|simpl; lia|lia|]. simpl xr. rewrite X1.
  destruct (Z.eqb_spec (4 * el) 8) as [E2|N2].
  { destruct (el_exit e 2 44 (set_pc (base e + 44) (set_nzcv f2 (set_pc (base e + 12) (set_nzcv f1 c1)))) 8)
      as (c' & Hr & H0 & Hp); [lia|done|simpl; by rewrite R1|done|done|].
    exists c'. split_and!; [done|lia|by rewrite <- R1]. }
  change (12 + 8) with 20.
  destruct (cmp_beq e context_S 20 4 "1" 52 (set_pc (base e + 20) (set_nzcv f2 (set_pc (base e + 12) (set_nzcv f1 c1)))) 9) as (f3 & ->);
    [done..|simpl; lia|lia|]. simpl xr. rewrite X1.
  destruct (Z.eqb_spec (4 * el) 4) as [E1|N1].
  - destruct (el_exit e 1 52 (set_pc (base e + 52) (set_nzcv f3 c1)) 6)
      as (c' & Hr & H0 & Hp); [lia|done|simpl; by rewrite R1|done|done|].
    exists c'. split_and!; [done|lia|by rewrite <- R1].
  - destruct (el_exit e 0 28 (set_pc (base e + 28) (set_nzcv f3 c1)) 6)
      as (c' & Hr & H0 & Hp); [lia|done|simpl; by rewrite R1|done|done|].
    exists c'. split_and!; [done|lia|by rewrite <- R1].
Qed.

(** ** Instances *)

(** A processor on which the thread whose saved stack pointer is at 0x43000100
    runs and one other, at 0x43000000, is saved. *)
Definition demo_env : env :=
  mk_env 0x40080000
    (fun l => if String.eqb l "thread_switch_interrupt_flag" then 0x41000000
              else if String.eqb l "interrupt_from_thread" then 0x41000008
              else if String.eqb l "interrupt_to_thread" then 0x41000010 else 0x40000000)
    (fun _ c => Some c) (fun _ _ => 0).

Definition demo_context : context := mk_context (fun n => Z.abs n mod 31) 0x42001000 0x40090000 4.

Definition demo_words : gmap Z Z :=
  <[0x43000000 := 0x42001000 - 272]> (<[0x41000000 := 0]> (<[0x41000008 := 0]> (<[0x41000010 := 0]>
    (list_to_map (zip (fmap (fun i => 0x42001000 - 272 + 8 * Z.of_nat i) (seq 0 34))
      (sk_hw_exp_stack 0x40090000 4 (fun n => Z.abs n mod 31))))))).

Definition demo_contexts : gmap Z context := {[0x43000000 := demo_context]}.

Definition demo_cpu (start x0 x1 : Z) : cpu :=
  mk_cpu start (upd (upd (upd (fun _ => 5) 0 x0) 1 x1) 30 0x40000040) 0x42002000 0x42003000 0
    (mk_flags false true false false) 0 (fun r => if decide (r = CurrentEL) then 4 else 0) (fun _ => 0) demo_words [].

Lemma demo_cpu_wf start x0 x1 : 0 <= x0 < 2 ^ 64 -> 0 <= x1 < 2 ^ 64 -> wf64 (demo_cpu start x0 x1).
Proof.
  intros H0 H1. split.
  - intros n. simpl. unfold upd. repeat case_decide; lia.
  - intros r. simpl. case_decide; lia.
Qed.

Lemma demo_stored : stored demo_words demo_context.
Proof. intros i v. do 34 (destruct i as [|i]; [intros [= <-]; by vm_compute|]). done. Qed.

Lemma demo_rep : contexts_rep demo_words demo_contexts.
Proof.
  split; unfold demo_contexts.
  - intros a k [<- <-]%lookup_singleton_Some. split; [split; simpl|split; [done|right; simpl; lia]].
    + split; [done|]. lia.
    + intros n. pose proof (Z.mod_pos_bound (Z.abs n) 31). lia.
    + lia.
    + lia.
  - intros a k [<- <-]%lookup_singleton_Some. by vm_compute.
  - intros a k [<- <-]%lookup_singleton_Some. apply demo_stored.
  - intros a k a' k' [<- <-]%lookup_singleton_Some [<- <-]%lookup_singleton_Some. done.
Qed.

Lemma demo_apart start x0 x1 : runs_apart 0x43000100 (sp_el0 (demo_cpu start x0 x1)) demo_contexts.
Proof.
  split; [done|right; simpl; lia|split; [done|simpl; lia]|].
  unfold demo_contexts. intros a k [<- <-]%lookup_singleton_Some. unfold separate, apart. simpl. lia.
Qed.

Lemma context_switch_refines_witness :
  exists c', run demo_env context_S 49 (demo_cpu (0x40080000 + 200) 0x43000100 0x43000000) = Some c' /\
    pc c' = 0x40090000 /\ sp_el0 c' = 0x42001000.
Proof.
  destruct (context_switch_refines demo_env (demo_cpu (0x40080000 + 200) 0x43000100 0x43000000) demo_context
    demo_contexts) as (c' & Hr & [] & _).
  - by apply demo_cpu_wf.
  - by vm_compute.
  - exact demo_rep.
  - apply demo_apart.
  - by vm_compute.
  - exists c'. exact (conj Hr (conj rs_pc0 rs_sp0)).
Defined.

Lemma interrupt_mask_refines_witness :
  exists c', run demo_env context_S 4 (demo_cpu (0x40080000 + 64) 1 2) = Some c' /\ daif c' = 0xC0.
Proof.
  destruct (interrupt_mask_refines demo_env (demo_cpu (0x40080000 + 64) 1 2) kstate_zero) as [H _].
  - by apply demo_cpu_wf.
  - by vm_compute.
  - by vm_compute.
  - by vm_compute.
  - destruct H as (c' & s' & v & Hr & Hs & _ & Hd & _); [by vm_compute|]. exists c'. split; [exact Hr|].
    rewrite Hd. vm_compute in Hs. by injection Hs as <- _.
Defined.

Lemma demo_request : request_words demo_env.
Proof. by split. Qed.

Lemma switch_request_refines_witness :
  exists c', run demo_env context_S 12 (demo_cpu (0x40080000 + 396) 0x43000100 0x43000000) = Some c' /\
    words c' !! 0x41000000 = Some 1 /\ words c' !! 0x41000008 = Some 0x43000100.
Proof.
  destruct (switch_request_refines demo_env (demo_cpu (0x40080000 + 396) 0x43000100 0x43000000) kstate_zero)
    as (c' & s' & Hr & Hs & (Hf & Hfr & _) & _).
  - exact demo_request.
  - by apply demo_cpu_wf.
  - by vm_compute.
  - by vm_compute.
  - by vm_compute.
  - by vm_compute.
  - exists c'. split; [exact Hr|]. vm_compute in Hs. injection Hs as <-. exact (conj Hf Hfr).
Defined.

(** A processor that finds in memory what [__thread_stack_init] wrote for a
    thread with the entry 0x40090000 and the parameter 9. *)
Definition demo_new : cpu :=
  let w := match __thread_stack_init 0x40090000 9 0x42001000 0x400A0000 kstate_zero with
           | Done s _ => ks_words s | _ => ∅ end in
  set_words (<[0x43000000 := 0x42001000 - 272]> w) (demo_cpu (0x40080000 + 104) 0x43000000 0).

Lemma new_thread_starts_witness :
  exists c', run demo_env context_S 24 demo_new = Some c' /\ pc c' = 0x40090000 /\ xr c' 0 = 9 /\
    sp_el0 c' = 0x42001000.
Proof.
  destruct (stack_init_correct 0x40090000 9 0x42001000 0x400A0000 kstate_zero) as (s1 & Hs1 & _).
  destruct (new_thread_starts demo_env demo_new kstate_zero s1 0x40090000 9 0x42001000 0x400A0000 (0x42001000 - 272))
    as (c' & Hr & Hp & H0 & _ & Hsp & _).
  - lia.
  - lia.
  - lia.
  - split; [done|]. lia.
  - exact Hs1.
  - by vm_compute.
  - by vm_compute.
  - by vm_compute.
  - intros a Ha. unfold demo_new. rewrite Hs1. apply lookup_insert_ne. lia.
  - exists c'. exact (conj Hr (conj Hp (conj H0 Hsp))).
Defined.
