(* ===== verification/Vector.v ===== *)
(** * Exception vectors

    The assembly of [src/arch/aarch64/src/vector.S] on the machine of [Cpu]: from
    the exception through the table of vectors, the saving of the context, the
    calls of the C handlers and a possible switch of threads to the return from
    the exception.  The C handlers are those of [Intc] and [Kernel]; here they are
    functions on the state of the processor that keep the calling convention. *)

From Stdlib Require Import String.
From S2P Require Import Prelude KList Slab Kernel Sched Thread Cpu Context.

Local Open Scope string_scope.
Local Open Scope list_scope.
Local Open Scope Z_scope.
Local Open Scope c_scope.

(** ** [vector.S] *)

Definition system_vectors : list item :=
  [ L "system_vectors"; Align 11; Org 0;
    Org 0x00; Ins (b "vector_error");
    Org 0x80; Ins (b "vector_irq");
    Org 0x100; Ins (b "vector_fiq");
    Org 0x180; Ins (b "vector_error") ].

Definition set_current_vbar : list item :=
  [ L "set_current_vbar";
    Ins (ldr_eq (X 0) "system_vectors");
    Ins (msr VBAR_EL1 (X 0));
    Ins ret ].

Definition vector_fiq_S : list item :=
  [ Align 8; L "vector_fiq" ] ++ (Ins <$> save_context) ++
  [ Ins (stp (X 0) (X 1) (-0x10));
    Ins (bl "sk_hw_trap_fiq");
    Ins (ldp (X 0) (X 1) 0x10) ] ++
  (Ins <$> restore_context).

Definition vector_irq_S : list item :=
  [ Align 8; L "vector_irq" ] ++ (Ins <$> save_context) ++
  [ Ins (stp (X 0) (X 1) (-0x10));
    Ins (bl "sk_interrupt_enter");
    Ins (bl "sk_hw_trap_irq");
    Ins (bl "sk_interrupt_leave");
    Ins (ldp (X 0) (X 1) 0x10);
    Ins (adr (X 1) "thread_switch_interrupt_flag");
    Ins (ldr (X 2) (X 1));
    Ins (cmp (X 2) (I 1));
    Ins (b_ NE "vector_irq_exit");
    Ins (mov (X 2) (I 0));
    Ins (str (X 2) (X 1));
    Ins (adr (X 3) "interrupt_from_thread");
    Ins (ldr (X 4) (X 3));
    Ins (str (X 0) (X 4));
    Ins (adr (X 3) "interrupt_to_thread");
    Ins (ldr (X 4) (X 3));
    Ins (ldr (X 0) (X 4));
    L "vector_irq_exit" ] ++
  (Ins <$> restore_context).

Definition vector_error_S : list item :=
  [ Align 8; L "vector_error" ] ++ (Ins <$> save_context) ++
  [ Ins (bl "sk_hw_trap_error"); L "."; Ins (b ".") ].

Definition vector_S : list item :=
  system_vectors ++ set_current_vbar ++ vector_fiq_S ++ vector_irq_S ++ vector_error_S.

(** An exception from the same level: the processor saves its status and the
    return address, masks all exceptions, selects [SP_EL1] and goes to the entry
    of the vector table for the kind of exception (0 synchronous, 0x80 IRQ, 0x100
    FIQ, 0x180 error), 0x200 further on when [SP_EL1] was in use. *)
Definition take_exception (kind : Z) (c : cpu) : cpu :=
  let entry := sys c VBAR_EL1 + (if spsel c =? 0 then 0 else 0x200) + kind in
  set_pc entry (set_daif 0x3C0 (set_sps (sp_el0 c) (sp_el1 c) 1
    (set_sys (upd (upd (sys c) SPSR_EL1 (pstate c)) ELR_EL1 (pc c)) c))).

(** ** An interrupt *)

(** The context of the interrupted thread. *)
Definition interrupted c : context := mk_context (xr c) (sp_el0 c) (pc c) (pstate c).

(** The processor as a thread runs on it: at level 1 with the stack [SP_EL0]. *)
Record in_thread (c : cpu) : Prop := {
  it_wf : wf64 c;
  it_sel : spsel c = 0;
  it_el : sys c CurrentEL = 4;
  it_daif : exists d, 0 <= d < 16 /\ daif c = Z.shiftl d 6;
  it_pc : 0 <= pc c < 2 ^ 64
}.

(** What is saved as program status is restored. *)
Lemma pstate_roundtrip c :
  in_thread c ->
  0 <= pstate c < 2 ^ 64 /\
  mk_flags (Z.testbit (pstate c) 31) (Z.testbit (pstate c) 30) (Z.testbit (pstate c) 29)
    (Z.testbit (pstate c) 28) = nzcv c /\
  pstate c & 0x3C0 = daif c /\ pstate c & 1 = 0 /\ pstate c & 0xC = 4.
Proof.
  intros [_ Hs He (d & Hd & Ed) _]. unfold pstate. rewrite Hs, He, Ed. destruct (nzcv c) as [n z cc v]. simpl.
  assert (d ∈ seqZ 0 16) as Hin by (apply elem_of_seqZ; lia). clear -Hin. revert d Hin.
  apply Forall_forall. destruct n, z, cc, v; by repeat constructor.
Qed.

Section irq.
Context (e : env) (a : Z) (T : gmap Z context).
Implicit Types c : cpu.

(** The request of a switch the handlers may leave: none, or one from the
    interrupted thread [a] to itself or to a thread whose context is saved. *)
Definition request_ok (w : gmap Z Z) : Prop :=
  (w !! FLAG e = Some 0 /\ is_Some (w !! FROM e) /\ is_Some (w !! TO e)) \/
  (w !! FLAG e = Some 1 /\ w !! FROM e = Some a /\
   exists t, w !! TO e = Some t /\ (t = a \/ is_Some (T !! t))).

(** What belongs to the threads and to the caller, and a handler leaves alone: the
    frame below [s], the slot below [s1] on the stack of exceptions, and the saved
    contexts. *)
Definition reserved (s s1 x : Z) : Prop :=
  s - 272 <= x < s \/ s1 - 16 <= x < s1 \/
  exists t k, T !! t = Some k /\ (x = t \/ csp k - 272 <= x < csp k).

Definition handlers : list string := ["sk_interrupt_enter"; "sk_hw_trap_irq"; "sk_interrupt_leave"].

(** The calling convention: a C function returns with the stack pointer it was
    called with and keeps what is reserved. *)
Definition handler_contract (s s1 : Z) : Prop :=
  forall f c, f ∈ handlers -> request_ok (words c) -> spsel c = 1 -> sp_el1 c = s1 - 16 ->
    exists c', ccall e f c = Some c' /\ sp_el1 c' = sp_el1 c /\ spsel c' = 1 /\ request_ok (words c') /\
      forall x, reserved s s1 x -> words c' !! x = words c !! x.

(** The places of the stack of exceptions and of the three words of [context.S]. *)
Record irq_layout (s s1 : Z) : Prop := {
  il_words : request_words e;
  il_stack : stack_ok s1 16;
  il_slot : forall x, s1 - 16 <= x < s1 -> apart x s /\ x <> a /\ x <> FLAG e /\ x <> FROM e /\ x <> TO e /\
    forall t k, T !! t = Some k -> x <> t /\ apart x (csp k);
  il_request : forall x, x = FLAG e \/ x = FROM e \/ x = TO e ->
    apart x s /\ x <> a /\ forall t k, T !! t = Some k -> x <> t /\ apart x (csp k)
}.

(** The state after the entry: the context is saved and its address is on the
    stack of exceptions. *)
Record entered c c1 : Prop := {
  en_sel : spsel c1 = 1;
  en_sp1 : sp_el1 c1 = sp_el1 c - 16;
  en_stored : stored (words c1) (interrupted c);
  en_slot : words c1 !! (sp_el1 c - 16) = Some (sp_el0 c - 272) /\ is_Some (words c1 !! (sp_el1 c - 8));
  en_contexts : forall t k x, T !! t = Some k -> x = t \/ csp k - 272 <= x < csp k ->
    words c1 !! x = words c !! x;
  en_request : request_ok (words c1)
}.

Definition entry_block : list instr := save_context ++ [stp (X 0) (X 1) (-0x10)].

Lemma irq_entry c :
  in_thread c -> sys c VBAR_EL1 = base e -> runs_apart a (sp_el0 c) T -> irq_layout (sp_el0 c) (sp_el1 c) ->
  request_ok (words c) ->
  exists c1, step_n e vector_S 24 (take_exception 0x80 c) = Some c1 /\
    pc c1 = base e + 860 /\ entered c c1.
Proof.
  intros Ht Hvb HA HL HQ. destruct (pstate_roundtrip c Ht) as (Hps & _). destruct Ht as [Hwf Hsel Hel Hd Hpc].
  set (c0 := take_exception 0x80 c).
  assert (pc c0 = base e + 0x80) as P0 by (simpl; rewrite Hvb, Hsel; simpl; lia).
  change 24%nat with (S (length entry_block)).
  rewrite (step_n_go e vector_S 0x80 (b "vector_irq") c0 _ _ P0 eq_refl eq_refl).
  rewrite (jump_to e vector_S true "vector_irq" c0 0x80 768 P0 eq_refl). set (c0' := set_pc (base e + 768) c0).
  assert (wf64 c0') as Hwf0.
  { split; [apply Hwf|]. intros r. simpl. unfold upd. repeat case_decide; try done. apply Hwf. }
  destruct (save_spec e vector_S (mrs (X 2) ELR_EL1) (pc c) c0' Hwf0 (ra_stack _ _ _ HA) Hpc)
    as (w & Hsave & Hat & Hfr).
  { intros c1 _ Es. simpl. by rewrite Es. }
  destruct (il_stack _ _ HL) as (Ha1 & Hb1 & _).
  set (w1 := <[sp_el1 c - 8 := xr c 1]> (<[sp_el1 c - 16 := sp_el0 c - 272]> w)).
  set (c1 := set_words w1 (set_sps (sp_el0 c - 272) (sp_el1 c - 16) 1 (saved_cpu w (pc c) c0'))).
  assert (block e vector_S entry_block c0' = Some c1) as Hblock.
  { unfold entry_block. rewrite block_app. change save_context with (save_with (mrs (X 2) ELR_EL1)). rewrite Hsave.
    cbn -[Z.pow]. replace (sp_el1 c + -16) with (sp_el1 c - 16) by lia.
    rewrite (uint_small 64 (sp_el1 c - 16)) by lia. replace (sp_el1 c - 16 + 8) with (sp_el1 c - 8) by lia.
    rewrite (uint_small 64 (sp_el1 c - 8)) by lia. unfold store. rewrite mod8_sub by done. simpl.
    assert ((sp_el1 c - 8) mod 8 = 0) as -> by (by rewrite Zminus_mod, Ha1). simpl.
    rewrite upd_eq, !upd_ne by done. done. }
  exists (set_pc (base e + 860) c1). split; [|split; [done|]].
  { by rewrite (step_n_block e vector_S entry_block 768 c0' c1 eq_refl) by (done || by vm_compute). }
  pose proof (ra_own _ _ _ HA) as Hown.
  assert (forall x, apart x (sp_el0 c) -> x < sp_el1 c - 16 \/ sp_el1 c <= x -> w1 !! x = words c !! x) as Hfr1.
  { intros x Hx Hy. unfold w1. rewrite !lookup_insert_ne by lia. rewrite Hfr by exact Hx. done. }
  assert (forall x, x = FLAG e \/ x = FROM e \/ x = TO e -> w1 !! x = words c !! x) as Hreq.
  { intros x Hx. apply Hfr1; [by apply (il_request _ _ HL)|].
    destruct (decide (sp_el1 c - 16 <= x < sp_el1 c)) as [Hin|]; [|lia].
    destruct (il_slot _ _ HL x Hin) as (_ & _ & ? & ? & ? & _). by destruct Hx as [->|[->| ->]]. }
  split; try done.
  - eapply stored_ext; [exact Hat|]. intros x Hx. simpl in Hx.
    change (words (set_pc (base e + 860) c1)) with w1. unfold w1.
    destruct (decide (sp_el1 c - 16 <= x < sp_el1 c)) as [Hin|].
    + destruct (il_slot _ _ HL x Hin) as (Hap & _). unfold apart in Hap. simpl in Hx. lia.
    + by rewrite !lookup_insert_ne by lia.
  - change (words (set_pc (base e + 860) c1)) with w1. unfold w1. rewrite lookup_insert_eq.
    rewrite lookup_insert_ne by lia. rewrite lookup_insert_eq. eauto.
  - intros t k x Hk Hx. change (words (set_pc (base e + 860) c1)) with w1.
    destruct (ra_others _ _ _ HA t k Hk) as (S1 & S2 & S3 & S4). apply Hfr1.
    + unfold apart in *. destruct Hx as [->|Hx]; [exact S3|lia].
    + destruct (decide (sp_el1 c - 16 <= x < sp_el1 c)) as [Hin|]; [|lia].
      destruct (il_slot _ _ HL x Hin) as (_ & _ & _ & _ & _ & Hs). destruct (Hs t k Hk) as [Hs1 Hs2].
      unfold apart in Hs2. destruct Hx as [->|Hx]; [done|lia].
  - unfold request_ok. change (words (set_pc (base e + 860) c1)) with w1. by rewrite !Hreq by auto.
Qed.

(** The calls of the three handlers. *)
Lemma irq_call c c1 f off :
  f ∈ handlers -> handler_contract (sp_el0 c) (sp_el1 c) ->
  find_instr off (layout 0 vector_S) = Some (bl f) -> find_label f (layout 0 vector_S) = None ->
  pc c1 = base e + off -> entered c c1 ->
  exists c2, step_n e vector_S 1 c1 = Some c2 /\ pc c2 = base e + (off + 4) /\ entered c c2.
Proof.
  intros Hf HC Hi Hl Hpc [Hsel Hsp Hst [Hs1 Hs2] Hctx Hreq].
  destruct (HC f (put (X 30) (pc c1 + 4) c1) Hf Hreq Hsel Hsp) as (c2 & Hcall & Esp & Esel & Hreq2 & Hkeep).
  change (words (put (X 30) (pc c1 + 4) c1)) with (words c1) in Hkeep.
  exists (set_pc (base e + (off + 4)) c2). split; [|split; [done|]].
  - rewrite (step_n_go e vector_S off (bl f) c1 (set_pc (base e + (off + 4)) c2) 0 Hpc Hi); [done|]. unfold exec. rewrite Hl, Hcall. simpl. rewrite Hpc.
    by replace (base e + off + 4) with (base e + (off + 4)) by lia.
  - change (sp_el1 (put (X 30) (pc c1 + 4) c1)) with (sp_el1 c1) in Esp.
    split; try done; simpl.
    + congruence.
    + eapply stored_ext; [exact Hst|]. intros x Hx. apply Hkeep. by left.
    + split.
      * rewrite Hkeep; [done|]. right; left. lia.
      * rewrite Hkeep; [done|]. right; left. lia.
    + intros t k x Hk Hx. rewrite Hkeep; [by eapply Hctx|]. right; right. eauto.
Qed.

Lemma irq_calls c c1 :
  handler_contract (sp_el0 c) (sp_el1 c) -> pc c1 = base e + 860 -> entered c c1 ->
  exists c2, step_n e vector_S 3 c1 = Some c2 /\ pc c2 = base e + 872 /\ entered c c2.
Proof.
  intros HC P1 H1.
  destruct (irq_call c c1 "sk_interrupt_enter" 860) as (c2 & E2 & P2 & H2); try done; [set_solver|].
  destruct (irq_call c c2 "sk_hw_trap_irq" 864) as (c3 & E3 & P3 & H3); try done; [set_solver|].
  destruct (irq_call c c3 "sk_interrupt_leave" 868) as (c4 & E4 & P4 & H4); try done; [set_solver|].
  exists c4. split; [|done]. change 3%nat with (1 + (1 + 1))%nat.
  by rewrite (step_n_app _ _ 1 _ _ _ E2), (step_n_app _ _ 1 _ _ _ E3).
Qed.

(** After the handlers: the address of the frame is taken from the stack and the
    request is tested. *)
Definition test_block : list instr :=
  [ldp (X 0) (X 1) 0x10; adr (X 1) "thread_switch_interrupt_flag"; ldr (X 2) (X 1); cmp (X 2) (I 1)].

Lemma irq_test c c1 v n :
  irq_layout (sp_el0 c) (sp_el1 c) -> pc c1 = base e + 872 -> entered c c1 ->
  stack_ok (sp_el0 c) 272 -> words c1 !! FLAG e = Some v -> 0 <= v < 2 ^ 64 ->
  exists c2, run e vector_S (5 + n) c1 = run e vector_S n c2 /\
    pc c2 = base e + (if v =? 1 then 892 else 924) /\ xr c2 0 = sp_el0 c - 272 /\ xr c2 1 = FLAG e /\
    sp_el1 c2 = sp_el1 c /\ words c2 = words c1.
Proof.
  intros HL P1 [Hsel Hsp _ [Hs1 [v1 Hs2]] _ _] (_ & Hs & _) Hflag Hv.
  destruct (il_words _ _ HL) as [(A & _) (B & _) _]. destruct (il_stack _ _ HL) as (Ha1 & Hb1 & _).
  set (c2 := set_nzcv (sub_flags v 1) (set_sps (sp_el0 c1) (sp_el1 c) 1
    (set_xr (upd (upd (upd (upd (xr c1) 0 (sp_el0 c - 272)) 1 (u64 v1)) 1 (FLAG e)) 2 v) c1))).
  assert (block e vector_S test_block c1 = Some c2) as Hblock.
  { unfold test_block, block, data.
    assert (sp_get c1 = sp_el1 c - 16) as -> by (unfold sp_get; by rewrite Hsel, Hsp).
    unfold load. rewrite mod8_sub by done. simpl (0 =? 0). cbv iota. rewrite Hs1.
    replace (sp_el1 c - 16 + 8) with (sp_el1 c - 8) by lia. rewrite (uint_small 64 (sp_el1 c - 8)) by lia.
    replace (sp_el1 c - 16 + 16) with (sp_el1 c) by lia. rewrite (uint_small 64 (sp_el1 c)) by lia.
    assert ((sp_el1 c - 8) mod 8 = 0) as -> by (by rewrite Zminus_mod, Ha1).
    cbn -[Z.pow sub_flags]. rewrite Hs2. cbn -[Z.pow sub_flags]. unfold sp_set. simpl spsel. rewrite Hsel.
    cbn -[Z.pow sub_flags]. fold (FLAG e). rewrite upd_eq, (uint_small 64 (FLAG e)) by lia. rewrite A. simpl (0 =? 0).
    cbn -[Z.pow sub_flags]. rewrite Hflag. cbn -[Z.pow sub_flags]. rewrite upd_eq, (uint_small 64 v) by lia.
    rewrite (uint_small 64 (sp_el0 c - 272)) by lia. done. }
  change (5 + n)%nat with (length test_block + S n)%nat.
  rewrite (run_block e vector_S test_block 872 c1 c2 (S n) P1) by (done || by vm_compute).
  set (c2' := set_pc _ c2).
  rewrite (run_go e vector_S 888 (b_ NE "vector_irq_exit") c2' _ n eq_refl eq_refl eq_refl).
  rewrite (jump_to e vector_S _ "vector_irq_exit" c2' 888 924 eq_refl eq_refl).
  change (holds NE (nzcv c2')) with (negb (fZ (sub_flags v 1))). rewrite sub_flags_zero by lia.
  eexists. split; [reflexivity|]. split_and!.
  - simpl pc. destruct (v =? 1); reflexivity.
  - simpl. by rewrite !upd_ne, upd_eq by done.
  - simpl. by rewrite upd_ne, upd_eq by done.
  - done.
  - done.
Qed.

(** A requested switch: the stack pointer of the interrupted thread is stored and
    that of the other one loaded. *)
Definition take_block : list instr :=
  [mov (X 2) (I 0); str (X 2) (X 1); adr (X 3) "interrupt_from_thread"; ldr (X 4) (X 3); str (X 0) (X 4);
   adr (X 3) "interrupt_to_thread"; ldr (X 4) (X 3); ldr (X 0) (X 4)].

Lemma irq_take c1 t v n :
  request_words e -> pc c1 = base e + 892 -> xr c1 1 = FLAG e -> 0 <= t < 2 ^ 64 -> t mod 8 = 0 ->
  a mod 8 = 0 -> 0 <= a < 2 ^ 64 -> a <> TO e -> a <> FROM e -> 0 <= v < 2 ^ 64 ->
  words c1 !! FROM e = Some a -> words c1 !! TO e = Some t ->
  (<[a := xr c1 0]> (<[FLAG e := 0]> (words c1))) !! t = Some v ->
  exists c2, run e vector_S (8 + n) c1 = run e vector_S n c2 /\ pc c2 = base e + 924 /\ xr c2 0 = v /\
    sp_el1 c2 = sp_el1 c1 /\ words c2 = <[a := xr c1 0]> (<[FLAG e := 0]> (words c1)).
Proof.
  intros [(A1 & A2 & A3) (B1 & B2 & B3) (N1 & N2 & N3)] P1 H1 Ht At Aa Ba Na1 Na2 Hv Hfrom Hto Hval.
  set (w2 := <[a := xr c1 0]> (<[FLAG e := 0]> (words c1))) in *.
  assert (exists c2, block e vector_S take_block c1 = Some c2 /\ xr c2 0 = v /\ sp_el1 c2 = sp_el1 c1 /\
    words c2 = w2) as (c2 & Hb & H0 & Hs & Hw).
  { unfold take_block, block, data, load, store. cbn -[Z.pow]. rewrite upd_ne, H1 by done. rewrite A1. simpl (0 =? 0).
    cbn -[Z.pow]. fold (FROM e) (TO e). rewrite !upd_eq. rewrite (uint_small 64 (FROM e)) by lia. rewrite A2. simpl (0 =? 0).
    cbn -[Z.pow]. rewrite lookup_insert_ne by done. rewrite Hfrom. cbn -[Z.pow]. rewrite !upd_eq.
    rewrite (uint_small 64 a) by lia. rewrite Aa. simpl (0 =? 0). cbn -[Z.pow].
    rewrite (uint_small 64 (TO e)) by lia. rewrite !upd_eq. rewrite A3. simpl (0 =? 0). cbn -[Z.pow].
    rewrite !(upd_ne _ _ 0) by done. rewrite lookup_insert_ne by done.
    rewrite lookup_insert_ne by done. rewrite Hto. cbn -[Z.pow]. rewrite !upd_eq.
    rewrite (uint_small 64 t) by lia. rewrite At. simpl (0 =? 0). cbn -[Z.pow].
    change (u64 0) with 0. fold w2. rewrite Hval. cbn -[Z.pow]. eexists. split; [reflexivity|].
    simpl. rewrite upd_eq. split_and!; try done. by apply uint_small. }
  exists (set_pc (base e + 924) c2). change (8 + n)%nat with (length take_block + n)%nat.
  rewrite (run_block e vector_S take_block 892 c1 c2 n P1) by (done || by vm_compute). done.
Qed.

Lemma interrupted_ok c : in_thread c -> stack_ok (sp_el0 c) 272 -> context_ok (interrupted c).
Proof. intros Ht Hs. split; simpl; [done|apply Ht|apply Ht|apply (pstate_roundtrip c Ht)]. Qed.

(** The end of the interrupt: a context [k] is restored. *)
Lemma irq_restore c k c1 n :
  context_ok k -> stored (words c1) k -> xr c1 0 = csp k - 272 -> pc c1 = base e + 924 ->
  sp_el1 c1 = sp_el1 c ->
  exists c', run e vector_S (23 + n) c1 = Some c' /\ resumes k c c' /\ words c' = words c1.
Proof.
  intros Hk Hst H0 Hpc Hs.
  destruct (restore_run e vector_S k c1 924 n Hk Hst H0 Hpc) as (c' & Hrun & Hres & Hw & _);
    [by vm_compute|by vm_compute|].
  exists c'. split; [done|]. split; [|done]. destruct Hres. split; try done. congruence.
Qed.

Lemma contexts_keep w w' :
  contexts_rep w T -> (forall t k x, T !! t = Some k -> x = t \/ csp k - 272 <= x < csp k -> w' !! x = w !! x) ->
  contexts_rep w' T.
Proof.
  intros [Hok Hsp Hst Hsep] H. split; try done.
  - intros t k Hk. rewrite (H t k) by auto. by apply Hsp.
  - intros t k Hk. eapply stored_ext; [by eapply Hst|]. eauto.
Qed.

(** An interrupt without a switch, or with a switch back to the same thread. *)
Lemma irq_no_switch c c1 n :
  in_thread c -> runs_apart a (sp_el0 c) T -> contexts_rep (words c) T -> irq_layout (sp_el0 c) (sp_el1 c) ->
  0 <= a < 2 ^ 64 -> pc c1 = base e + 872 -> entered c c1 ->
  (words c1 !! FLAG e = Some 0 \/
   words c1 !! FLAG e = Some 1 /\ words c1 !! FROM e = Some a /\ words c1 !! TO e = Some a) ->
  exists c', run e vector_S (36 + n) c1 = Some c' /\ resumes (interrupted c) c c' /\
    contexts_rep (words c') T /\ words c' !! FLAG e = Some 0.
Proof.
  intros Ht HA HT HL Ba P1 H1 Hreq. pose proof (ra_stack _ _ _ HA) as Hs.
  pose proof (interrupted_ok c Ht Hs) as Hk. pose proof (contexts_keep _ _ HT (en_contexts _ _ H1)) as HT1.
  destruct (il_request _ _ HL (FLAG e)) as (Hfl1 & Hfl2 & Hfl3); [auto|].
  destruct Hreq as [Hf|(Hf & Hfrom & Hto)].
  - destruct (irq_test c c1 0 (31 + n) HL P1 H1 Hs Hf) as (c2 & Hr & P2 & X0 & _ & S2 & W2); [lia|].
    change (36 + n)%nat with (5 + (31 + n))%nat. rewrite Hr. change (31 + n)%nat with (23 + (8 + n))%nat.
    destruct (irq_restore c (interrupted c) c2 (8 + n)) as (c' & Hr' & Hres & W'); try done.
    { rewrite W2. apply H1. }
    exists c'. by rewrite W', W2.
  - destruct (irq_test c c1 1 (31 + n) HL P1 H1 Hs Hf) as (c2 & Hr & P2 & X0 & X1 & S2 & W2); [lia|].
    change (36 + n)%nat with (5 + (31 + n))%nat. rewrite Hr. change (31 + n)%nat with (8 + (23 + n))%nat.
    destruct (il_request _ _ HL (FROM e)) as (_ & Hfr2 & _); [auto|].
    destruct (il_request _ _ HL (TO e)) as (_ & Hto2 & _); [auto|].
    destruct Hs as (Hs1 & Hs2 & _).
    destruct (irq_take c2 a (sp_el0 c - 272) (23 + n)) as (c3 & Hr3 & P3 & Y0 & S3 & W3); rewrite ?W2; try done;
      [by apply HL|by apply HA|by apply HA|lia|by rewrite lookup_insert_eq, X0|].
    rewrite Hr3. rewrite X0 in W3.
    assert (forall x, x <> a -> x <> FLAG e -> words c3 !! x = words c1 !! x) as Hfr3.
    { intros x Hx1 Hx2. rewrite W3, W2. by rewrite !lookup_insert_ne by done. }
    destruct (irq_restore c (interrupted c) c3 n) as (c' & Hr' & Hres & W'); try done; [| congruence|].
    { eapply stored_ext; [apply H1|]. intros x Hx. simpl in Hx. pose proof (ra_own _ _ _ HA).
      unfold apart in *. apply Hfr3; lia. }
    exists c'. split; [done|]. split; [done|]. rewrite W'. split.
    + eapply contexts_keep; [exact HT1|]. intros t k x Htk Hx. destruct (Hfl3 t k Htk) as [Hne Hap].
      destruct (ra_others _ _ _ HA t k Htk) as (? & ? & ? & ?). unfold apart in *.
      apply Hfr3; destruct Hx as [->|Hx]; try done; lia.
    + rewrite W3. rewrite lookup_insert_ne by done. by rewrite lookup_insert_eq.
Qed.

(** An interrupt that switches to another thread. *)
Lemma irq_switch c c1 t k n :
  in_thread c -> runs_apart a (sp_el0 c) T -> contexts_rep (words c) T -> irq_layout (sp_el0 c) (sp_el1 c) ->
  0 <= a < 2 ^ 64 -> 0 <= t < 2 ^ 64 -> pc c1 = base e + 872 -> entered c c1 ->
  words c1 !! FLAG e = Some 1 -> words c1 !! FROM e = Some a -> words c1 !! TO e = Some t -> T !! t = Some k ->
  exists c', run e vector_S (36 + n) c1 = Some c' /\ resumes k c c' /\
    contexts_rep (words c') (<[a := interrupted c]> (delete t T)) /\
    runs_apart t (csp k) (<[a := interrupted c]> (delete t T)) /\ words c' !! FLAG e = Some 0.
Proof.
  intros Ht HA HT HL Ba Bt P1 H1 Hf Hfrom Hto Htk. pose proof (ra_stack _ _ _ HA) as Hs.
  pose proof (interrupted_ok c Ht Hs) as Hk. pose proof (contexts_keep _ _ HT (en_contexts _ _ H1)) as HT1.
  destruct (il_request _ _ HL (FLAG e)) as (Hfl1 & Hfl2 & Hfl3); [auto|].
  destruct (irq_test c c1 1 (31 + n) HL P1 H1 Hs Hf) as (c2 & Hr & P2 & X0 & X1 & S2 & W2); [lia|].
  change (36 + n)%nat with (5 + (31 + n))%nat. rewrite Hr. change (31 + n)%nat with (8 + (23 + n))%nat.
  destruct (il_request _ _ HL (FROM e)) as (_ & Hfr2 & _); [auto|].
  destruct (il_request _ _ HL (TO e)) as (_ & Hto2 & _); [auto|].
  destruct (cr_ok _ _ HT1 t k Htk) as (Hkk & At & _). destruct (ck_stack _ Hkk) as (_ & Hs2 & _).
  destruct (ra_others _ _ _ HA t k Htk) as (Hat & S1 & S2' & S3). destruct (Hfl3 t k Htk) as [Hflt Hflk].
  destruct (irq_take c2 t (csp k - 272) (23 + n)) as (c3 & Hr3 & P3 & Y0 & S4 & W3); rewrite ?W2; try done;
    [by apply HL|by apply HA|lia| |].
  { rewrite !lookup_insert_ne by done. by apply (cr_sp _ _ HT1). }
  rewrite Hr3. rewrite X0 in W3.
  assert (forall x, x <> a -> x <> FLAG e -> words c3 !! x = words c1 !! x) as Hfr3.
  { intros x Hx1 Hx2. rewrite W3, W2. by rewrite !lookup_insert_ne by done. }
  destruct (irq_restore c k c3 n) as (c' & Hr' & Hres & W'); try done; [|congruence|].
  { eapply stored_ext; [exact (cr_stored _ _ HT1 _ _ Htk)|]. intros x Hx. unfold apart in *. apply Hfr3; lia. }
  exists c'. rewrite W'.
  assert (contexts_rep (<[FLAG e := 0]> (words c1)) T) as HT2.
  { eapply contexts_keep; [exact HT1|]. intros t' k' x Htk' Hx. destruct (Hfl3 t' k' Htk') as [Hne Hap].
    unfold apart in Hap. rewrite lookup_insert_ne; [done|]. destruct Hx as [->|Hx]; [done|lia]. }
  assert (words c3 !! a = Some (sp_el0 c - 272)) as Ha3 by (rewrite W3; by rewrite lookup_insert_eq).
  destruct (contexts_switch _ (words c3) T a (interrupted c) t k HT2 HA Hk Htk Ha3) as [HR1 HR2].
  { eapply stored_ext; [apply H1|]. intros x Hx. simpl in Hx. pose proof (ra_own _ _ _ HA).
    unfold apart in *. apply Hfr3; lia. }
  { intros x Hx _. rewrite W3, W2. by rewrite lookup_insert_ne. }
  split_and!; try done. rewrite W3. rewrite lookup_insert_ne by done. by rewrite lookup_insert_eq.
Qed.

End irq.

(** C7: an interrupt of a running thread [a] goes from the exception through the
    table of vectors and the handlers in C to the instruction after the last call,
    in a state [c1] in which the handlers have left their request.  If the flag of
    the request is set and names another thread [t], exactly that thread is
    continued, from its saved context, and the context of the interrupted thread
    is saved; without a request, or with one for the same thread, the interrupted
    thread is continued as it was.  The contexts of all other threads are
    unchanged, and the request is taken. *)
Theorem interrupt_refines e a T c :
  in_thread c -> sys c VBAR_EL1 = address e vector_S "system_vectors" -> runs_apart a (sp_el0 c) T ->
  contexts_rep (words c) T -> irq_layout e a T (sp_el0 c) (sp_el1 c) -> request_ok e a T (words c) ->
  handler_contract e a T (sp_el0 c) (sp_el1 c) -> 0 <= a < 2 ^ 64 -> (forall t, is_Some (T !! t) -> 0 <= t < 2 ^ 64) ->
  exists c1 c', step_n e vector_S 27 (take_exception 0x80 c) = Some c1 /\
    fetch e vector_S (pc c1 - 4) = Some (bl "sk_interrupt_leave") /\
    run e vector_S 63 (take_exception 0x80 c) = Some c' /\ words c' !! FLAG e = Some 0 /\
    if decide (words c1 !! FLAG e = Some 1 /\ words c1 !! TO e <> Some a)
    then exists t k, words c1 !! TO e = Some t /\ T !! t = Some k /\ resumes k c c' /\
       contexts_rep (words c') (<[a := interrupted c]> (delete t T)) /\
       runs_apart t (sp_el0 c') (<[a := interrupted c]> (delete t T))
    else resumes (interrupted c) c c' /\ contexts_rep (words c') T.
Proof.
  intros Ht Hvb HA HT HL HQ HC Ba Bt.
  destruct (irq_entry e a T c Ht) as (c1 & Hr1 & P1 & H1); try done; [rewrite Hvb; apply Z.add_0_r|].
  destruct (irq_calls e a T c c1 HC P1 H1) as (c2 & Hr2 & P2 & H2).
  assert (step_n e vector_S 27 (take_exception 0x80 c) = Some c2) as Hr.
  { change 27%nat with (24 + 3)%nat. by rewrite (step_n_app _ _ _ _ _ _ Hr1). }
  assert (fetch e vector_S (pc c2 - 4) = Some (bl "sk_interrupt_leave")) as Hfe.
  { rewrite P2. replace (base e + 872 - 4) with (base e + 868) by lia. by rewrite fetch_base. }
  exists c2. change 63%nat with (27 + 36)%nat. rewrite (step_n_run _ _ _ 36 _ _ Hr).
  destruct (en_request _ _ _ _ _ H2) as [(Hf & _)|(Hf & Hfrom & t & Hto & Ht')].
  - destruct (irq_no_switch e a T c c2 0) as (c' & Hr' & Hres & HR & HF); try done; [by left|].
    exists c'. split_and!; try done. rewrite decide_False; [done|]. intros [? _]. congruence.
  - destruct (decide (t = a)) as [->|Hta].
    + destruct (irq_no_switch e a T c c2 0) as (c' & Hr' & Hres & HR & HF); try done; [by right|].
      exists c'. split_and!; try done. rewrite decide_False; [done|]. intros [_ ?]. congruence.
    + destruct Ht' as [->|[k Hk]]; [done|].
      destruct (irq_switch e a T c c2 t k 0) as (c' & Hr' & Hres & HR & HR2 & HF); try done; [by apply Bt|].
      exists c'. split_and!; try done. rewrite decide_True; [|split; [done|congruence]].
      exists t, k. rewrite (rs_sp _ _ _ Hres). done.
Qed.

(** An interrupted thread that is continued finds the processor as it left it:
    registers, stack pointer, program counter, flags and interrupt mask. *)
Lemma interrupt_transparent c c' :
  in_thread c -> resumes (interrupted c) c c' ->
  (forall n, 0 <= n <= 30 -> xr c' n = xr c n) /\ sp_el0 c' = sp_el0 c /\ pc c' = pc c /\
  nzcv c' = nzcv c /\ daif c' = daif c /\ spsel c' = spsel c /\ sys c' CurrentEL = sys c CurrentEL.
Proof.
  intros Ht []. destruct (pstate_roundtrip c Ht) as (_ & Hf & Hd & Hs & He). simpl in *.
  split_and!; try done; [congruence..| |].
  - rewrite (it_sel _ Ht). congruence.
  - rewrite (it_el _ Ht). congruence.
Qed.

(** The table of vectors has entries for exceptions with [SP_EL0] only.  An
    exception while a handler runs on [SP_EL1] is directed 0x200 bytes further:
    there lies the code of [vector_fiq], so that a fault in a handler is taken for
    a fast interrupt, and an interrupt enters in the middle of that code, where it
    restores registers. *)
Theorem handler_faults_reach_fiq e c :
  spsel c = 1 -> sys c VBAR_EL1 = address e vector_S "system_vectors" ->
  pc (take_exception 0 c) = address e vector_S "vector_fiq" /\
  fetch e vector_S (pc (take_exception 0x80 c)) = Some (ldp (X 26) (X 27) 0x10).
Proof.
  intros Hs Hv. simpl. rewrite Hs, Hv. change (address e vector_S "system_vectors") with (base e + 0). split.
  - change (address e vector_S "vector_fiq") with (base e + 512). simpl. lia.
  - simpl. replace (base e + 0 + 512 + 128) with (base e + 640) by lia. by rewrite fetch_base.
Qed.

(** ** Instances *)

(** The processor of [demo_cpu] with the table of vectors installed, and handlers
    one of which requests a switch to the other thread. *)
Definition irq_env : env :=
  mk_env (base demo_env) (sym demo_env)
    (fun f c => Some (if String.eqb f "sk_hw_trap_irq" then
       set_words (<[0x41000000 := 1]> (<[0x41000008 := 0x43000100]> (<[0x41000010 := 0x43000000]> (words c)))) c
     else c)) (idreg demo_env).

Definition irq_cpu : cpu :=
  let c := demo_cpu 0x40001000 1 2 in set_sys (upd (sys c) VBAR_EL1 0x40080000) c.

Lemma irq_cpu_thread : in_thread irq_cpu.
Proof.
  split; try done.
  - split.
    + intros n. apply (wf_xr _ (demo_cpu_wf 0x40001000 1 2 ltac:(lia) ltac:(lia))).
    + intros r. simpl. unfold upd. repeat case_decide; lia.
  - by exists 0.
Qed.

Lemma irq_env_contract : handler_contract irq_env 0x43000100 demo_contexts 0x42002000 0x42003000.
Proof.
  intros f c Hf HQ Hsel Hsp. simpl. eexists. split; [reflexivity|].
  destruct (String.eqb f "sk_hw_trap_irq"); [|by split_and!]. split_and!; try done.
  - unfold request_ok. change (FLAG irq_env) with 0x41000000. change (FROM irq_env) with 0x41000008.
    change (TO irq_env) with 0x41000010. simpl words.
    right. split_and!; [by rewrite lookup_insert_eq|by rewrite lookup_insert_ne, lookup_insert_eq|].
    exists 0x43000000. split; [by rewrite lookup_insert_ne, lookup_insert_ne, lookup_insert_eq|]. right. by eexists.
  - unfold demo_contexts. intros x [Hx|[Hx|(t & k & Ht & Hx)]]; simpl.
    + by rewrite !lookup_insert_ne by lia.
    + by rewrite !lookup_insert_ne by lia.
    + apply lookup_singleton_Some in Ht as [<- <-]. simpl in Hx. by rewrite !lookup_insert_ne by lia.
Qed.

Lemma irq_env_layout : irq_layout irq_env 0x43000100 demo_contexts 0x42002000 0x42003000.
Proof.
  split.
  - by split.
  - split; [done|]. lia.
  - unfold demo_contexts, apart. intros x Hx. change (FLAG irq_env) with 0x41000000.
    change (FROM irq_env) with 0x41000008. change (TO irq_env) with 0x41000010. split_and!; try lia.
    intros t k [<- <-]%lookup_singleton_Some. simpl. lia.
  - change (FLAG irq_env) with 0x41000000. change (FROM irq_env) with 0x41000008.
    change (TO irq_env) with 0x41000010. unfold demo_contexts, apart. intros x Hx. split_and!; try lia.
    intros t k [<- <-]%lookup_singleton_Some. simpl. lia.
Qed.

(** The handlers ask for the other thread, and it is continued. *)
Lemma interrupt_refines_witness :
  exists c1 c', step_n irq_env vector_S 27 (take_exception 0x80 irq_cpu) = Some c1 /\
    fetch irq_env vector_S (pc c1 - 4) = Some (bl "sk_interrupt_leave") /\
    run irq_env vector_S 63 (take_exception 0x80 irq_cpu) = Some c' /\
    words c' !! FLAG irq_env = Some 0 /\
    if decide (words c1 !! FLAG irq_env = Some 1 /\ words c1 !! TO irq_env <> Some 0x43000100)
    then exists t k, words c1 !! TO irq_env = Some t /\ demo_contexts !! t = Some k /\ resumes k irq_cpu c' /\
       contexts_rep (words c') (<[0x43000100 := interrupted irq_cpu]> (delete t demo_contexts)) /\
       runs_apart t (sp_el0 c') (<[0x43000100 := interrupted irq_cpu]> (delete t demo_contexts))
    else resumes (interrupted irq_cpu) irq_cpu c' /\ contexts_rep (words c') demo_contexts.
Proof.
  apply (interrupt_refines irq_env 0x43000100 demo_contexts irq_cpu).
  - exact irq_cpu_thread.
  - by vm_compute.
  - exact (demo_apart 0 0 0).
  - exact demo_rep.
  - exact irq_env_layout.
  - left. split_and!; [by vm_compute|by eexists..].
  - exact irq_env_contract.
  - lia.
  - unfold demo_contexts. intros t [k [<- <-]%lookup_singleton_Some]. lia.
Defined.

(** In that run the request is set. *)
Lemma irq_env_requests :
  (c1 ← step_n irq_env vector_S 27 (take_exception 0x80 irq_cpu);
   Some (words c1 !! FLAG irq_env, words c1 !! TO irq_env)) = Some (Some 1, Some 0x43000000).
Proof. by vm_compute. Qed.

Lemma handler_faults_reach_fiq_witness :
  pc (take_exception 0 (set_sps 0 0x42003000 1 irq_cpu)) = address irq_env vector_S "vector_fiq".
Proof.
  apply (handler_faults_reach_fiq irq_env (set_sps 0 0x42003000 1 irq_cpu)).
  - reflexivity.
  - by vm_compute.
Defined.
