(* ===== verification/Cache.v ===== *)
(** * Cache maintenance: [src/arch/aarch64/src/cache.S]

    The loops over cache levels, sets and ways and over the lines of an address
    range, on the machine of [Cpu], and the operations they issue, in order, as
    lists. *)

From Stdlib Require Import String.
From S2P Require Import Prelude Cpu.

Local Open Scope string_scope.
Local Open Scope list_scope.
Local Open Scope Z_scope.
Local Open Scope c_scope.

Definition asm_dcache_level : list item :=
  [ L "__asm_dcache_level";
    Ins (lsl (X 12) (X 0) (I 1));
    Ins (msr CSSELR_EL1 (X 12));
    Ins isb;
    Ins (mrs (X 6) CCSIDR_EL1);
    Ins (and_ (X 2) (X 6) (I 7));
    Ins (add (X 2) (X 2) (I 4));
    Ins (mov (X 3) (I 0x3ff));
    Ins (and_ (X 3) (X 3) (Lsr (X 6) 3));
    Ins (mov (X 4) (I 0x7fff));
    Ins (and_ (X 4) (X 4) (Lsr (X 6) 13));
    L "loop_set";
    Ins (mov (X 6) (R (X 3)));
    L "loop_way";
    Ins (lsl (X 7) (X 6) (R (X 5)));
    Ins (orr (X 9) (X 12) (R (X 7)));
    Ins (lsl (X 7) (X 4) (R (X 2)));
    Ins (orr (X 9) (X 9) (R (X 7)));
    Ins (tbz (W 1) 0 "1f");
    Ins (dc ISW (X 9));
    Ins (b "2f");
    L "1f";
    Ins (dc CISW (X 9));
    L "2f";
    Ins (subs (X 6) (X 6) (I 1));
    Ins (b_ GE "loop_way");
    Ins (subs (X 4) (X 4) (I 1));
    Ins (b_ GE "loop_set");
    Ins ret ].

Definition asm_dcache_all : list item :=
  [ L "__asm_dcache_all";
    Ins (mov (X 1) (R (X 0)));
    Ins dsb;
    Ins (mrs (X 10) CLIDR_EL1);
    Ins (lsr (X 11) (X 10) (I 24));
    Ins (and_ (X 11) (X 11) (I 0x7));
    Ins (cbz (X 11) "finished");
    Ins (mov (X 15) (R (X 30)));
    Ins (mov (X 0) (I 0));
    L "loop_level";
    Ins (lsl (X 12) (X 0) (I 1));
    Ins (add (X 12) (X 12) (R (X 0)));
    Ins (lsr (X 12) (X 10) (R (X 12)));
    Ins (and_ (X 12) (X 12) (I 7));
    Ins (cmp (X 12) (I 2));
    Ins (b_ LT "skip");
    Ins (bl "__asm_dcache_level");
    L "skip";
    Ins (add (X 0) (X 0) (I 1));
    Ins (cmp (X 11) (R (X 0)));
    Ins (b_ GT "loop_level");
    Ins (mov (X 0) (I 0));
    Ins (msr CSSELR_EL1 (X 0));
    Ins dsb;
    Ins isb;
    Ins (mov (X 30) (R (X 15)));
    L "finished";
    Ins ret ].

Definition asm_flush_dcache_all : list item :=
  [ L "__asm_flush_dcache_all"; Ins (mov (X 0) (I 0)); Ins (b "__asm_dcache_all") ].

Definition asm_invalidate_dcache_all : list item :=
  [ L "__asm_invalidate_dcache_all"; Ins (mov (X 0) (I 0x1)); Ins (b "__asm_dcache_all") ].

Definition asm_flush_dcache_range : list item :=
  [ L "__asm_flush_dcache_range";
    Ins (mrs (X 3) CTR_EL0);
    Ins (lsr (X 3) (X 3) (I 16));
    Ins (and_ (X 3) (X 3) (I 0xf));
    Ins (mov (X 2) (I 4));
    Ins (lsl (X 2) (X 2) (R (X 3)));
    Ins (sub (X 3) (X 2) (I 1));
    Ins (bic (X 0) (X 0) (R (X 3)));
    L "1b";
    Ins (dc CIVAC (X 0));
    Ins (add (X 0) (X 0) (R (X 2)));
    Ins (cmp (X 0) (R (X 1)));
    Ins (b_ LO "1b");
    Ins dsb;
    Ins ret ].

Definition asm_invalidate_icache_all : list item :=
  [ L "__asm_invalidate_icache_all"; Ins ic_ialluis; Ins isb; Ins ret ].

Definition asm_flush_l3_cache : list item :=
  [ L "__asm_flush_l3_cache"; Ins (mov (X 0) (I 0)); Ins ret ].

Definition cache_S : list item :=
  asm_dcache_level ++ asm_dcache_all ++ asm_flush_dcache_all ++ asm_invalidate_dcache_all ++
  asm_flush_dcache_range ++ asm_invalidate_icache_all ++ asm_flush_l3_cache.

(** A 64-bit value. *)
Definition wf_value (v : Z) : Prop := 0 <= v < 2 ^ 64.

(** ** One level by set and way *)

(** The operand of the operation for a way and a set. *)
Definition way_value (x12 x5 x2 set way : Z) : Z :=
  u64 (u64 (x12 ||| u64 (Z.shiftl way (x5 mod 64))) ||| u64 (Z.shiftl set (x2 mod 64))).

Definition dc_of (mode v : Z) : cache_op := if Z.testbit mode 0 then DcIsw v else DcCisw v.

(** The numbers [n], ..., 1, 0. *)
Fixpoint down (n : nat) : list Z :=
  match n with O => [0] | S m => Z.of_nat n :: down m end.

(** The operations on all ways of a set, and on all sets. *)
Definition set_ops (mode x12 x5 x2 : Z) (ways : nat) (set : Z) : list cache_op :=
  (fun way => dc_of mode (way_value x12 x5 x2 set way)) <$> down ways.
Definition level_ops (mode x12 x5 x2 : Z) (ways sets : nat) : list cache_op :=
  concat (set_ops mode x12 x5 x2 ways <$> down sets).

Section level.
Context (e : env).
Implicit Types c : cpu.

(** Registers outside [ns] and the memory are unchanged. *)
Record only (ns : list Z) c c' : Prop := {
  on_xr : forall n, n ∉ ns -> xr c' n = xr c n;
  on_words : words c' = words c;
  on_sp : sp_get c' = sp_get c
}.

Lemma only_trans ns ms c c1 c2 : only ns c c1 -> only ms c1 c2 -> only (ns ++ ms) c c2.
Proof.
  intros [] []. split; [|congruence..]. intros n Hn. apply not_elem_of_app in Hn as [H1 H2].
  rewrite on_xr1 by done. by apply on_xr0.
Qed.

Lemma only_weaken ns ms c c' : only ns c c' -> (forall n, n ∈ ns -> n ∈ ms) -> only ms c c'.
Proof. intros [] H. split; try done. intros n Hn. apply on_xr0. intros Hin. by apply Hn, H. Qed.

Notation reach := (reaches e cache_S).

Lemma way_step c m :
  pc c = base e + 44 -> xr c 6 = m -> 0 <= m < 2 ^ 62 ->
  exists c', reach c c' /\ pc c' = base e + (if 1 <=? m then 44 else 84) /\ xr c' 6 = u64 (m - 1) /\
    ops c' = ops c ++ [dc_of (xr c 1) (way_value (xr c 12) (xr c 5) (xr c 2) (xr c 4) m)] /\
    only [6; 7; 9] c c'.
Proof.
  intros Hpc Hm Hrg. set (v := way_value (xr c 12) (xr c 5) (xr c 2) (xr c 4) m).
  set (c1 := set_xr (upd (upd (upd (upd (xr c) 7 (u64 (Z.shiftl m (xr c 5 mod 64))))
    9 (u64 (xr c 12 ||| u64 (Z.shiftl m (xr c 5 mod 64))))) 7 (u64 (Z.shiftl (xr c 4) (xr c 2 mod 64)))) 9 v) c).
  assert (reach c (set_pc (base e + 60) c1)) as R1.
  { apply (reaches_block e cache_S [lsl (X 7) (X 6) (R (X 5)); orr (X 9) (X 12) (R (X 7));
      lsl (X 7) (X 4) (R (X 2)); orr (X 9) (X 9) (R (X 7))] 44); [done|by vm_compute|].
    cbn -[Z.pow]. regs. rewrite Hm. done. }
  set (c1' := set_pc (base e + 60) c1).
  assert (reach c1' (set_pc (base e + if Z.testbit (xr c 1) 0 then 64 else 72) c1)) as R2.
  { eapply (reaches_go e cache_S 60 (tbz (W 1) 0 "1f") c1' _ eq_refl eq_refl). unfold exec.
    rewrite (jump_to e cache_S _ "1f" c1' 60 72 eq_refl eq_refl).
    change (get (W 1) c1') with (u32 (xr c 1)). unfold sk_uint at 1. rewrite Z.mod_pow2_bits_low by lia.
    by destruct (Z.testbit (xr c 1) 0). }
  set (c2 := add_op (dc_of (xr c 1) v) c1).
  assert (reach (set_pc (base e + if Z.testbit (xr c 1) 0 then 64 else 72) c1) (set_pc (base e + 76) c2)) as R3.
  { unfold c2, dc_of. destruct (Z.testbit (xr c 1) 0).
    - set (c2' := set_pc (base e + 68) (add_op (DcIsw v) c1)).
      apply (reaches_trans e cache_S _ c2').
      + eapply (reaches_go e cache_S 64 (dc ISW (X 9)) (set_pc (base e + 64) c1) _ eq_refl eq_refl).
        unfold exec, data. change (get (X 9) (set_pc (base e + 64) c1)) with v.
        change (pc (set_pc (base e + 64) c1)) with (base e + 64).
        by replace (base e + 64 + 4) with (base e + 68) by lia.
      + eapply (reaches_go e cache_S 68 (b "2f") c2' _ eq_refl eq_refl). unfold exec.
        by rewrite (jump_to e cache_S true "2f" c2' 68 76 eq_refl eq_refl).
    - eapply (reaches_go e cache_S 72 (dc CISW (X 9)) (set_pc (base e + 72) c1) _ eq_refl eq_refl).
      unfold exec, data. change (get (X 9) (set_pc (base e + 72) c1)) with v.
      change (pc (set_pc (base e + 72) c1)) with (base e + 72).
      by replace (base e + 72 + 4) with (base e + 76) by lia. }
  set (c3 := set_pc (base e + 80) (set_nzcv (sub_flags m 1) (set_xr (upd (xr c1) 6 (u64 (m - 1))) c2))).
  assert (reach (set_pc (base e + 76) c2) c3) as R4.
  { eapply (reaches_go e cache_S 76 (subs (X 6) (X 6) (I 1)) (set_pc (base e + 76) c2) _ eq_refl eq_refl).
    unfold exec, data. change (get (X 6) (set_pc (base e + 76) c2)) with (xr c 6). rewrite Hm.
    change (pc (set_pc (base e + 76) c2)) with (base e + 76). unfold c3.
    by replace (base e + 76 + 4) with (base e + 80) by lia. }
  set (c4 := set_pc (base e + if 1 <=? m then 44 else 84) c3).
  assert (reach c3 c4) as R5.
  { eapply (reaches_go e cache_S 80 (b_ GE "loop_way") c3 _ eq_refl eq_refl). unfold exec.
    rewrite (jump_to e cache_S _ "loop_way" c3 80 44 eq_refl eq_refl).
    change (holds GE (nzcv c3)) with (eqb (fN (sub_flags m 1)) (fV (sub_flags m 1))).
    rewrite sub_flags_ge by lia. done. }
  exists c4. split_and!; try done.
  - repeat (eapply reaches_trans; [eassumption|]). apply reaches_refl.
  - split; try done. intros n Hn. apply not_elem_of_cons in Hn as [? Hn].
    apply not_elem_of_cons in Hn as [? Hn]. apply not_elem_of_cons in Hn as [? _].
    change (xr c4) with (upd (xr c1) 6 (u64 (m - 1))). unfold c1. cbn [xr set_xr].
    by rewrite !upd_ne by done.
Qed.

Lemma way_loop m : forall c,
  pc c = base e + 44 -> xr c 6 = Z.of_nat m -> Z.of_nat m < 2 ^ 62 ->
  exists c', reach c c' /\ pc c' = base e + 84 /\
    ops c' = ops c ++ set_ops (xr c 1) (xr c 12) (xr c 5) (xr c 2) m (xr c 4) /\ only [6; 7; 9] c c'.
Proof.
  induction m as [|m IH]; intros c Hpc Hm Hlt;
    destruct (way_step c _ Hpc Hm ltac:(lia)) as (c1 & R1 & P1 & H6 & Hops & Hon).
  - exists c1. split_and!; try done.
  - replace (1 <=? Z.of_nat (S m)) with true in P1 by (symmetry; apply Z.leb_le; lia).
    destruct (IH c1 P1) as (c2 & R2 & P2 & Hops2 & Hon2); [|lia|].
    { rewrite H6. rewrite uint_small by lia. lia. }
    exists c2. split_and!; [by eapply reaches_trans|done| |].
    + rewrite Hops2, Hops, <- app_assoc. unfold set_ops. simpl down. rewrite fmap_cons.
      by rewrite !(on_xr _ _ _ Hon) by set_solver.
    + eapply only_weaken; [by eapply only_trans|set_solver].
Qed.

Lemma set_step c ways s :
  pc c = base e + 40 -> xr c 3 = Z.of_nat ways -> Z.of_nat ways < 2 ^ 62 -> xr c 4 = s -> 0 <= s < 2 ^ 62 ->
  exists c', reach c c' /\ pc c' = base e + (if 1 <=? s then 40 else 92) /\ xr c' 4 = u64 (s - 1) /\
    ops c' = ops c ++ set_ops (xr c 1) (xr c 12) (xr c 5) (xr c 2) ways s /\ only [4; 6; 7; 9] c c'.
Proof.
  intros Hpc H3 Hw H4 Hs. set (c1 := set_pc (base e + 44) (set_xr (upd (xr c) 6 (xr c 3)) c)).
  assert (reach c c1) as R1.
  { eapply (reaches_go e cache_S 40 (mov (X 6) (R (X 3))) c _ Hpc eq_refl). unfold exec, data. simpl.
    rewrite Hpc, (uint_small 64) by lia. by replace (base e + 40 + 4) with (base e + 44) by lia. }
  destruct (way_loop ways c1) as (c2 & R2 & P2 & Hops & Hon); [done|done|done|].
  assert (xr c2 4 = s) as Hx4 by (rewrite (on_xr _ _ _ Hon) by set_solver; done).
  set (c3 := set_pc (base e + 88) (set_nzcv (sub_flags s 1) (set_xr (upd (xr c2) 4 (u64 (s - 1))) c2))).
  assert (reach c2 c3) as R3.
  { eapply (reaches_go e cache_S 84 (subs (X 4) (X 4) (I 1)) c2 _ P2 eq_refl). unfold exec, data.
    change (get (X 4) c2) with (xr c2 4). rewrite Hx4, P2. unfold c3.
    by replace (base e + 84 + 4) with (base e + 88) by lia. }
  set (c4 := set_pc (base e + if 1 <=? s then 40 else 92) c3).
  assert (reach c3 c4) as R4.
  { eapply (reaches_go e cache_S 88 (b_ GE "loop_set") c3 _ eq_refl eq_refl). unfold exec.
    rewrite (jump_to e cache_S _ "loop_set" c3 88 40 eq_refl eq_refl).
    change (holds GE (nzcv c3)) with (eqb (fN (sub_flags s 1)) (fV (sub_flags s 1))).
    by rewrite sub_flags_ge by lia. }
  exists c4. split_and!; try done.
  - repeat (eapply reaches_trans; [eassumption|]). apply reaches_refl.
  - change (ops c4) with (ops c2). rewrite Hops. unfold c1. cbn [xr set_pc set_xr ops]. regs. by rewrite H4.
  - destruct Hon as [Hx Hwd Hsp]. split; try done. intros n Hn.
    change (xr c4) with (upd (xr c2) 4 (u64 (s - 1))).
    rewrite upd_ne by set_solver. rewrite Hx by set_solver. unfold c1. cbn [xr set_pc set_xr].
    by rewrite upd_ne by set_solver.
Qed.

Lemma set_loop sets : forall c ways,
  pc c = base e + 40 -> xr c 3 = Z.of_nat ways -> Z.of_nat ways < 2 ^ 62 ->
  xr c 4 = Z.of_nat sets -> Z.of_nat sets < 2 ^ 62 ->
  exists c', reach c c' /\ pc c' = base e + 92 /\
    ops c' = ops c ++ level_ops (xr c 1) (xr c 12) (xr c 5) (xr c 2) ways sets /\ only [4; 6; 7; 9] c c'.
Proof.
  induction sets as [|m IH]; intros c ways Hpc H3 Hw H4 Hs;
    destruct (set_step c ways _ Hpc H3 Hw H4 ltac:(lia)) as (c1 & R1 & P1 & Hx4 & Hops & Hon).
  - exists c1. split_and!; try done. unfold level_ops. simpl. by rewrite app_nil_r.
  - replace (1 <=? Z.of_nat (S m)) with true in P1 by (symmetry; apply Z.leb_le; lia).
    destruct (IH c1 ways P1) as (c2 & R2 & P2 & Hops2 & Hon2); [|lia| |lia|].
    { rewrite (on_xr _ _ _ Hon) by set_solver. done. }
    { rewrite Hx4. rewrite uint_small by lia. lia. }
    exists c2. split_and!; [by eapply reaches_trans|done| |].
    + rewrite Hops2, Hops, <- app_assoc. unfold level_ops. cbn [down fmap list_fmap concat].
      by rewrite !(on_xr _ _ _ Hon) by set_solver.
    + eapply only_weaken; [by eapply only_trans|set_solver].
Qed.

(** What [CCSIDR_EL1] says of a level: the logarithm of the line size, and the
    greatest numbers of a way and of a set. *)
Definition line_shift (cs : Z) : Z := (cs & 7) + 4.
Definition max_way (cs : Z) : Z := 0x3ff & Z.shiftr cs 3.
Definition max_set (cs : Z) : Z := 0x7fff & Z.shiftr cs 13.

Lemma land_small k x : 0 <= k -> 0 <= Z.land (Z.ones k) x < 2 ^ k.
Proof. intros Hk. rewrite Z.land_comm, Z.land_ones by done. apply Z.mod_pos_bound. lia. Qed.

Definition level_block : list instr :=
  [lsl (X 12) (X 0) (I 1); msr CSSELR_EL1 (X 12); isb; mrs (X 6) CCSIDR_EL1; and_ (X 2) (X 6) (I 7);
   add (X 2) (X 2) (I 4); mov (X 3) (I 0x3ff); and_ (X 3) (X 3) (Lsr (X 6) 3); mov (X 4) (I 0x7fff);
   and_ (X 4) (X 4) (Lsr (X 6) 13)].

Lemma level_block_run c level :
  xr c 0 = level -> 0 <= level < 8 -> let cs := idreg e CCSIDR_EL1 (2 * level) in 0 <= cs < 2 ^ 64 ->
  exists c1, block e cache_S level_block c = Some c1 /\ xr c1 12 = 2 * level /\ xr c1 2 = line_shift cs /\
    xr c1 3 = max_way cs /\ xr c1 4 = max_set cs /\ ops c1 = ops c ++ [Isb] /\ only [2; 3; 4; 6; 12] c c1.
Proof.
  intros H0 Hl cs Hcs. unfold level_block, block, data. cbn -[Z.pow Z.land Z.shiftr Z.shiftl]. rewrite H0. regs.
  change (1 mod 64) with 1. rewrite (Z.shiftl_mul_pow2 level 1) by lia. change (2 ^ 1) with 2.
  rewrite (uint_small 64 (level * 2)) by lia. replace (level * 2) with (2 * level) by lia. fold cs.
  rewrite (uint_small 64 cs) by done. regs.
  pose proof (land_small 3 cs ltac:(lia)) as B2. rewrite Z.land_comm in B2. change (Z.ones 3) with 7 in B2.
  pose proof (land_small 10 (Z.shiftr cs 3) ltac:(lia)) as B3. change (Z.ones 10) with 0x3ff in B3.
  pose proof (land_small 15 (Z.shiftr cs 13) ltac:(lia)) as B4. change (Z.ones 15) with 0x7fff in B4.
  change (u64 1023) with 1023. change (u64 32767) with 32767.
  rewrite (uint_small 64 (cs & 7)) by lia.
  rewrite (uint_small 64 (1023 & _)), (uint_small 64 (32767 & _)), (uint_small 64 (_ + 4)) by lia.
  eexists. split; [reflexivity|]. cbn [xr set_xr ops add_op set_sys]. regs. split_and!; try done.
  split; try done. intros n Hn. cbn [xr set_xr]. by rewrite !upd_ne by set_solver.
Qed.

(** The body of [__asm_dcache_level], up to the return. *)
Lemma level_spec c level :
  pc c = base e + 0 -> xr c 0 = level -> 0 <= level < 8 ->
  let cs := idreg e CCSIDR_EL1 (2 * level) in 0 <= cs < 2 ^ 64 ->
  exists c', reach c c' /\ pc c' = base e + 92 /\
    ops c' = ops c ++ Isb :: level_ops (xr c 1) (2 * level) (xr c 5) (line_shift cs)
      (Z.to_nat (max_way cs)) (Z.to_nat (max_set cs)) /\
    only [2; 3; 4; 6; 7; 9; 12] c c'.
Proof.
  intros Hpc H0 Hl cs Hcs. destruct (level_block_run c level H0 Hl Hcs) as (c1 & Hb & H12 & H2 & H3 & H4 & Hops & Hon).
  fold cs in H2, H3, H4.
  pose proof (reaches_block e cache_S level_block 0 c c1 Hpc ltac:(by vm_compute) Hb) as R1.
  set (c1' := set_pc _ c1) in R1.
  pose proof (land_small 10 (Z.shiftr cs 3) ltac:(lia)) as B3. change (Z.ones 10) with 0x3ff in B3.
  pose proof (land_small 15 (Z.shiftr cs 13) ltac:(lia)) as B4. change (Z.ones 15) with 0x7fff in B4.
  fold (max_way cs) in B3. fold (max_set cs) in B4.
  destruct (set_loop (Z.to_nat (max_set cs)) c1' (Z.to_nat (max_way cs))) as (c2 & R2 & P2 & Hops2 & Hon2);
    [done|simpl xr; lia|lia|simpl xr; lia|lia|].
  exists c2. split_and!; [by eapply reaches_trans|done| |].
  - rewrite Hops2. change (ops c1') with (ops c1). change (xr c1') with (xr c1). rewrite Hops, H12, H2.
    rewrite <- app_assoc. by rewrite !(on_xr _ _ _ Hon) by (clear; set_solver).
  - destruct Hon as [X1 W1 S1], Hon2 as [X2 W2 S2]. split; [|exact (eq_trans W2 W1)|exact (eq_trans S2 S1)].
    intros n Hn. rewrite X2 by (clear -Hn; set_solver). apply X1. clear -Hn. set_solver.
Qed.

(** ** All levels *)

(** The kind of the cache at a level, from [CLIDR_EL1]: from 2 on it holds data. *)
Definition ctype (clidr level : Z) : Z := Z.shiftr clidr (3 * level) & 7.

(** The operations on one level; there are none when it holds no data. *)
Definition one_level (clidr mode x5 level : Z) : list cache_op :=
  let cs := idreg e CCSIDR_EL1 (2 * level) in
  if 2 <=? ctype clidr level
  then Isb :: level_ops mode (2 * level) x5 (line_shift cs) (Z.to_nat (max_way cs)) (Z.to_nat (max_set cs))
  else [].

Hypothesis base_ok : 0 <= base e < 2 ^ 63.
Hypothesis ccsidr_ok : forall l, 0 <= idreg e CCSIDR_EL1 l < 2 ^ 64.

Definition type_block : list instr :=
  [lsl (X 12) (X 0) (I 1); add (X 12) (X 12) (R (X 0)); lsr (X 12) (X 10) (R (X 12)); and_ (X 12) (X 12) (I 7);
   cmp (X 12) (I 2)].

Lemma type_block_run c clidr level :
  xr c 0 = level -> 0 <= level < 8 -> xr c 10 = clidr -> 0 <= clidr < 2 ^ 64 ->
  exists c1, block e cache_S type_block c = Some c1 /\ nzcv c1 = sub_flags (ctype clidr level) 2 /\
    ops c1 = ops c /\ only [12] c c1.
Proof.
  intros H0 Hl H10 Hc. unfold type_block, block, data. cbn -[Z.pow Z.land Z.shiftr Z.shiftl sub_flags].
  regs. rewrite H0, H10. change (1 mod 64) with 1.
  rewrite (Z.shiftl_mul_pow2 level 1) by lia. change (2 ^ 1) with 2.
  rewrite (uint_small 64 (level * 2)) by lia. replace (level * 2 + level) with (3 * level) by lia.
  rewrite (uint_small 64 (3 * level)) by lia. rewrite (Z.mod_small (3 * level) 64) by lia.
  assert (0 <= Z.shiftr clidr (3 * level) < 2 ^ 64) as Hs.
  { rewrite Z.shiftr_div_pow2 by lia. split; [apply Z.div_pos; lia|].
    apply Z.le_lt_trans with clidr; [|lia]. apply Z.div_le_upper_bound; [lia|].
    assert (1 <= 2 ^ (3 * level)) by (apply (Z.pow_le_mono_r 2 0); lia). nia. }
  rewrite (uint_small 64 (Z.shiftr _ _)) by done.
  pose proof (land_small 3 (Z.shiftr clidr (3 * level)) ltac:(lia)) as B. rewrite Z.land_comm in B.
  change (Z.ones 3) with 7 in B. rewrite (uint_small 64 (_ & 7)) by lia.
  eexists. split; [reflexivity|]. split_and!; try done.
  split; try done. intros n Hn. cbn [xr set_xr set_nzcv]. by rewrite !upd_ne by (clear -Hn; set_solver).
Qed.

(** A call of [__asm_dcache_level] from the loop. *)
Lemma call_level c level :
  pc c = base e + 152 -> xr c 0 = level -> 0 <= level < 8 ->
  exists c', reach c c' /\ pc c' = base e + 156 /\
    ops c' = ops c ++ Isb :: level_ops (xr c 1) (2 * level) (xr c 5) (line_shift (idreg e CCSIDR_EL1 (2 * level)))
      (Z.to_nat (max_way (idreg e CCSIDR_EL1 (2 * level)))) (Z.to_nat (max_set (idreg e CCSIDR_EL1 (2 * level)))) /\
    only [2; 3; 4; 6; 7; 9; 12; 30] c c'.
Proof.
  intros Hpc H0 Hl. set (c1 := set_pc (base e + 0) (set_xr (upd (xr c) 30 (base e + 156)) c)).
  assert (reach c c1) as R1.
  { eapply (reaches_go e cache_S 152 (bl "__asm_dcache_level") c _ Hpc eq_refl). unfold exec.
    change (find_label "__asm_dcache_level" (layout 0 cache_S)) with (Some 0). unfold jump.
    change (address e cache_S "__asm_dcache_level") with (base e + 0). cbn [put]. rewrite Hpc.
    replace (base e + 152 + 4) with (base e + 156) by lia. by rewrite (uint_small 64 (base e + 156)) by lia. }
  destruct (level_spec c1 level eq_refl H0 Hl (ccsidr_ok _)) as (c2 & R2 & P2 & Hops & Hon).
  assert (xr c2 30 = base e + 156) as H30.
  { rewrite (on_xr _ _ _ Hon) by (clear; set_solver). unfold c1. cbn [xr set_xr set_pc]. by rewrite upd_eq. }
  exists (set_pc (base e + 156) c2). split_and!; try done.
  - eapply reaches_trans; [exact R1|]. eapply reaches_trans; [exact R2|].
    eapply (reaches_go e cache_S 92 ret c2 _ P2 eq_refl). unfold exec. by rewrite H30.
  - destruct Hon as [X1 W1 S1]. split; [|exact W1|exact S1]. intros n Hn. cbn [xr set_pc].
    rewrite X1 by (clear -Hn; set_solver). unfold c1. cbn [xr set_pc set_xr].
    by rewrite upd_ne by (clear -Hn; set_solver).
Qed.

(** One round of the loop over the levels. *)
Lemma level_step c clidr loc level :
  pc c = base e + 128 -> xr c 0 = level -> xr c 10 = clidr -> xr c 11 = loc -> 0 <= level < loc -> loc < 8 ->
  0 <= clidr < 2 ^ 64 ->
  exists c', reach c c' /\ pc c' = base e + (if level + 1 <? loc then 128 else 168) /\ xr c' 0 = level + 1 /\
    ops c' = ops c ++ one_level clidr (xr c 1) (xr c 5) level /\ only [0; 2; 3; 4; 6; 7; 9; 12; 30] c c'.
Proof.
  intros Hpc H0 H10 H11 Hl Hloc Hc.
  destruct (type_block_run c clidr level H0 ltac:(lia) H10 Hc) as (c1 & Hb & Hfl & Hops1 & Hon1).
  pose proof (reaches_block e cache_S type_block 128 c c1 Hpc ltac:(by vm_compute) Hb) as R1.
  change (base e + (128 + 4 * Z.of_nat (length type_block))) with (base e + 148) in R1.
  set (c1' := set_pc (base e + 148) c1) in R1.
  pose proof (land_small 3 (Z.shiftr clidr (3 * level)) ltac:(lia)) as B. rewrite Z.land_comm in B.
  change (Z.ones 3) with 7 in B. fold (ctype clidr level) in B.
  set (c2 := set_pc (base e + if 2 <=? ctype clidr level then 152 else 156) c1).
  assert (reach c1' c2) as R2.
  { eapply (reaches_go e cache_S 148 (b_ LT "skip") c1' _ eq_refl eq_refl). unfold exec.
    rewrite (jump_to e cache_S _ "skip" c1' 148 156 eq_refl eq_refl).
    change (nzcv c1') with (nzcv c1). rewrite Hfl.
    change (holds LT ?f) with (negb (eqb (fN f) (fV f))). rewrite sub_flags_ge by lia.
    unfold c2, c1'. by destruct (2 <=? ctype clidr level). }
  assert (exists c3, reach c2 c3 /\ pc c3 = base e + 156 /\
    ops c3 = ops c1 ++ one_level clidr (xr c 1) (xr c 5) level /\
    only [2; 3; 4; 6; 7; 9; 12; 30] c1 c3) as (c3 & R3 & P3 & Hops3 & Hon3).
  { unfold one_level. unfold c2. destruct (2 <=? ctype clidr level).
    - destruct (call_level (set_pc (base e + 152) c1) level) as (c3 & R3 & P3 & Hops3 & Hon3);
        [done|cbn [xr set_pc]; rewrite (on_xr _ _ _ Hon1) by (clear; set_solver); done|lia|].
      exists c3. cbn [xr set_pc ops] in Hops3.
      rewrite (on_xr _ _ _ Hon1 1), (on_xr _ _ _ Hon1 5) in Hops3 by (clear; set_solver).
      split_and!; try done. destruct Hon3 as [X3 W3 S3]. by split.
    - exists (set_pc (base e + 156) c1). split_and!; try done; [apply reaches_refl|by rewrite app_nil_r]. }
  assert (forall n, n ∉ [2; 3; 4; 6; 7; 9; 12; 30] -> xr c3 n = xr c n) as HX3.
  { intros n Hn. rewrite (on_xr _ _ _ Hon3) by done. apply (on_xr _ _ _ Hon1). clear -Hn. set_solver. }
  set (c4 := set_nzcv (sub_flags loc (level + 1)) (set_xr (upd (xr c3) 0 (level + 1)) c3)).
  assert (reach c3 (set_pc (base e + 164) c4)) as R4.
  { apply (reaches_block e cache_S [add (X 0) (X 0) (I 1); cmp (X 11) (R (X 0))] 156); [done|by vm_compute|].
    unfold block, data. cbn -[Z.pow sub_flags]. regs. rewrite !HX3 by (clear; set_solver). rewrite H0, H11.
    by rewrite (uint_small 64) by lia. }
  set (c4' := set_pc (base e + 164) c4) in R4.
  exists (set_pc (base e + if level + 1 <? loc then 128 else 168) c4). split_and!; try done.
  - do 4 (eapply reaches_trans; [eassumption|]).
    eapply (reaches_go e cache_S 164 (b_ GT "loop_level") c4' _ eq_refl eq_refl). unfold exec.
    rewrite (jump_to e cache_S _ "loop_level" c4' 164 128 eq_refl eq_refl).
    change (nzcv c4') with (sub_flags loc (level + 1)).
    change (holds GT ?f) with (negb (fZ f) && eqb (fN f) (fV f)).
    rewrite sub_flags_ge, sub_flags_zero by lia. unfold c4'.
    replace (negb (loc =? level + 1) && (level + 1 <=? loc)) with (level + 1 <? loc); [done|].
    destruct (Z.eqb_spec loc (level + 1)), (Z.leb_spec (level + 1) loc), (Z.ltb_spec (level + 1) loc); simpl; try lia; done.
  - transitivity (ops c3); [done|]. by rewrite Hops3, Hops1.
  - destruct Hon1 as [_ W1 S1], Hon3 as [_ W3 S3].
    split; [|exact (eq_trans W3 W1)|exact (eq_trans S3 S1)]. intros n Hn. unfold c4. cbn [xr set_pc set_nzcv set_xr].
    rewrite upd_ne by (clear -Hn; set_solver). apply HX3. clear -Hn. set_solver.
Qed.

(** The remaining levels. *)
Lemma level_loop k : forall c clidr loc level,
  pc c = base e + 128 -> xr c 0 = level -> xr c 10 = clidr -> xr c 11 = loc -> 0 <= level -> loc < 8 ->
  0 <= clidr < 2 ^ 64 -> loc = level + 1 + Z.of_nat k ->
  exists c', reach c c' /\ pc c' = base e + 168 /\
    ops c' = ops c ++ concat (one_level clidr (xr c 1) (xr c 5) <$> seqZ level (loc - level)) /\
    only [0; 2; 3; 4; 6; 7; 9; 12; 30] c c'.
Proof.
  induction k as [|k IH]; intros c clidr loc level Hpc H0 H10 H11 Hl Hloc Hc Hk;
    destruct (level_step c clidr loc level) as (c1 & R1 & P1 & H0' & Hops & Hon); try done; try lia.
  - exists c1. replace (level + 1 <? loc) with false in P1 by (symmetry; apply Z.ltb_ge; lia).
    split_and!; try done. rewrite Hops. replace (loc - level) with 1 by lia. simpl. by rewrite app_nil_r.
  - replace (level + 1 <? loc) with true in P1 by (symmetry; apply Z.ltb_lt; lia).
    destruct (IH c1 clidr loc (level + 1)) as (c2 & R2 & P2 & Hops2 & Hon2); try done; try lia.
    { rewrite (on_xr _ _ _ Hon) by (clear; set_solver). done. }
    { rewrite (on_xr _ _ _ Hon) by (clear; set_solver). done. }
    exists c2. split_and!; [by eapply reaches_trans|done| |].
    + rewrite Hops2, Hops, <- app_assoc. rewrite !(on_xr _ _ _ Hon) by (clear; set_solver).
      rewrite (seqZ_cons level) by lia. cbn [fmap list_fmap concat].
      by replace (loc - (level + 1)) with (Z.pred (loc - level)) by lia.
    + eapply only_weaken; [by eapply only_trans|clear; set_solver].
Qed.

Definition all_block : list instr :=
  [mov (X 1) (R (X 0)); dsb; mrs (X 10) CLIDR_EL1; lsr (X 11) (X 10) (I 24); and_ (X 11) (X 11) (I 0x7)].
Definition end_block : list instr :=
  [mov (X 0) (I 0); msr CSSELR_EL1 (X 0); dsb; isb; mov (X 30) (R (X 15))].

(** The level of coherence, of [CLIDR_EL1]. *)
Definition loc_of (clidr : Z) : Z := Z.shiftr clidr 24 & 7.

Lemma all_block_run c clidr :
  wf_value (xr c 0) -> idreg e CLIDR_EL1 (sys c CSSELR_EL1) = clidr -> wf_value clidr ->
  exists c1, block e cache_S all_block c = Some c1 /\ xr c1 1 = xr c 0 /\ xr c1 10 = clidr /\
    xr c1 11 = loc_of clidr /\ ops c1 = ops c ++ [Dsb] /\ only [1; 10; 11] c c1.
Proof.
  intros H0 Hc Hcr. unfold wf_value in *. unfold all_block, block, data.
  cbn -[Z.pow Z.land Z.shiftr Z.shiftl]. regs. rewrite Hc.
  change (24 mod 64) with 24. rewrite (uint_small 64 (xr c 0)), (uint_small 64 clidr) by done.
  assert (0 <= Z.shiftr clidr 24 < 2 ^ 64) as Hs.
  { rewrite Z.shiftr_div_pow2 by lia. split; [apply Z.div_pos; lia|].
    apply Z.le_lt_trans with clidr; [|lia]. apply Z.div_le_upper_bound; lia. }
  rewrite (uint_small 64 (Z.shiftr _ _)) by done.
  pose proof (land_small 3 (Z.shiftr clidr 24) ltac:(lia)) as B. rewrite Z.land_comm in B.
  change (Z.ones 3) with 7 in B. rewrite (uint_small 64 (_ & 7)) by lia.
  eexists. split; [reflexivity|]. cbn [xr set_xr add_op ops]. regs. split_and!; try done.
  split; try done. intros n Hn. cbn [xr set_xr set_nzcv]. by rewrite !upd_ne by (clear -Hn; set_solver).
Qed.

(** The operations of [__asm_dcache_all]. *)
Definition all_ops (clidr mode x5 : Z) : list cache_op :=
  Dsb :: (if loc_of clidr =? 0 then []
          else concat (one_level clidr mode x5 <$> seqZ 0 (loc_of clidr)) ++ [Dsb; Isb]).

Lemma all_spec c clidr :
  pc c = base e + 96 -> (forall n, wf_value (xr c n)) -> idreg e CLIDR_EL1 (sys c CSSELR_EL1) = clidr ->
  wf_value clidr -> fetch e cache_S (xr c 30) = None ->
  exists c', returns_with e cache_S c c' /\ pc c' = xr c 30 /\ words c' = words c /\ sp_get c' = sp_get c /\
    ops c' = ops c ++ all_ops clidr (xr c 0) (xr c 5).
Proof.
  intros Hpc Hwf Hc Hcr Hout.
  destruct (all_block_run c clidr (Hwf 0) Hc Hcr) as (c1 & Hb & H1 & H10 & H11 & Hops1 & Hon1).
  pose proof (reaches_block e cache_S all_block 96 c c1 Hpc ltac:(by vm_compute) Hb) as R1.
  change (base e + (96 + 4 * Z.of_nat (length all_block))) with (base e + 116) in R1.
  set (c1' := set_pc (base e + 116) c1) in R1. set (loc := loc_of clidr) in *.
  assert (0 <= loc < 8) as Bl.
  { pose proof (land_small 3 (Z.shiftr clidr 24) ltac:(lia)) as B. rewrite Z.land_comm in B. done. }
  assert (reach c1' (set_pc (base e + if loc =? 0 then 188 else 120) c1)) as R2.
  { eapply (reaches_go e cache_S 116 (cbz (X 11) "finished") c1' _ eq_refl eq_refl). unfold exec.
    rewrite (jump_to e cache_S _ "finished" c1' 116 188 eq_refl eq_refl).
    change (get (X 11) c1') with (xr c1 11). by rewrite H11. }
  assert (xr c1 30 = xr c 30) as H30 by (apply (on_xr _ _ _ Hon1); clear; set_solver).
  assert (xr c1 5 = xr c 5) as H5 by (apply (on_xr _ _ _ Hon1); clear; set_solver).
  destruct Hon1 as [_ W1 S1]. unfold all_ops. fold loc. destruct (Z.eqb_spec loc 0) as [El|Nl].
  - exists (set_pc (xr c 30) (set_pc (base e + 188) c1)). split_and!; try done.
    eapply returns_reaches; [exact R1|]. eapply returns_reaches; [exact R2|]. rewrite <- H30.
    apply (returns_ret e cache_S 188 (set_pc (base e + 188) c1)); [done|by vm_compute|].
    change (xr (set_pc (base e + 188) c1) 30) with (xr c1 30). by rewrite H30.
  - set (c2 := set_pc (base e + 128) (set_xr (upd (upd (xr c1) 15 (xr c 30)) 0 0) c1)).
    assert (reach (set_pc (base e + 120) c1) c2) as R3.
    { apply (reaches_block e cache_S [mov (X 15) (R (X 30)); mov (X 0) (I 0)] 120
        (set_pc (base e + 120) c1) (set_xr (upd (upd (xr c1) 15 (xr c 30)) 0 0) (set_pc (base e + 120) c1)));
        [done|by vm_compute|].
      unfold block, data. cbn -[Z.pow]. rewrite H30. by rewrite (uint_small 64 (xr c 30)) by apply Hwf. }
    destruct (level_loop (Z.to_nat (loc - 1)) c2 clidr loc 0) as (c3 & R4 & P4 & Hops3 & Hon3); try done; try lia.
    assert (xr c3 15 = xr c 30) as H15 by (rewrite (on_xr _ _ _ Hon3) by (clear; set_solver); done).
    set (c4 := add_op Isb (add_op Dsb (set_sys (upd (sys c3) CSSELR_EL1 0) (set_xr (upd (upd (xr c3) 0 0) 30 (xr c 30)) c3)))).
    assert (reach c3 (set_pc (base e + 188) c4)) as R5.
    { apply (reaches_block e cache_S end_block 168 c3); [done|by vm_compute|].
      unfold end_block, block, data. cbn -[Z.pow]. regs. rewrite H15.
      by rewrite (uint_small 64 (xr c 30)) by apply Hwf. }
    assert (xr (set_pc (base e + 188) c4) 30 = xr c 30) as H30' by done.
    exists (set_pc (xr c 30) (set_pc (base e + 188) c4)). destruct Hon3 as [_ W3 S3]. split_and!; try done.
    + do 5 (eapply returns_reaches; [eassumption|]). rewrite <- H30'.
      apply (returns_ret e cache_S 188 (set_pc (base e + 188) c4)); [done|by vm_compute|]. by rewrite H30'.
    + exact (eq_trans W3 W1).
    + exact (eq_trans S3 S1).
    + transitivity ((ops c3 ++ [Dsb]) ++ [Isb]); [done|]. rewrite Hops3.
      change (ops c2) with (ops c1). change (xr c2 1) with (xr c1 1). change (xr c2 5) with (xr c1 5).
      rewrite Hops1, H1, H5. rewrite Z.sub_0_r. by rewrite <- !app_assoc.
Qed.

End level.

(** ** Properties *)

(** C36: [__asm_dcache_all] terminates for every cache hierarchy the identification
    registers describe and returns to its caller; on each level below the level of
    coherence that holds data it issues one operation for every set and every way,
    in descending order, cleaning and invalidating or, when bit 0 of the argument
    is set, only invalidating.  The number of the way is shifted by what the caller
    left in x5. *)
Theorem dcache_all_covers e c :
  0 <= base e < 2 ^ 63 -> (forall l, 0 <= idreg e CCSIDR_EL1 l < 2 ^ 64) ->
  pc c = address e cache_S "__asm_dcache_all" -> (forall n, wf_value (xr c n)) ->
  fetch e cache_S (xr c 30) = None ->
  let clidr := idreg e CLIDR_EL1 (sys c CSSELR_EL1) in wf_value clidr ->
  exists c', returns_with e cache_S c c' /\ pc c' = xr c 30 /\ words c' = words c /\ sp_get c' = sp_get c /\
    ops c' = ops c ++ all_ops e clidr (xr c 0) (xr c 5).
Proof. intros Hb Hcs Hpc Hwf Hout clidr Hcr. by apply all_spec. Qed.

(** The two entries of [__asm_dcache_all] set its argument. *)
Lemma dcache_entries e c (inv : bool) :
  pc c = address e cache_S (if inv then "__asm_invalidate_dcache_all" else "__asm_flush_dcache_all") ->
  exists c', reaches e cache_S c c' /\ pc c' = address e cache_S "__asm_dcache_all" /\
    xr c' 0 = Z.b2z inv /\ only [0] c c' /\ ops c' = ops c /\ sys c' = sys c.
Proof.
  intros Hpc. set (off := if inv then 200 else 192).
  assert (pc c = base e + off) as P0 by (rewrite Hpc; by destruct inv).
  set (c1 := set_pc (base e + (off + 4)) (set_xr (upd (xr c) 0 (Z.b2z inv)) c)).
  exists (set_pc (base e + 96) c1). split; [|split_and!; try done].
  - eapply (reaches_trans e cache_S _ c1).
    + destruct inv.
      * eapply (reaches_go e cache_S 200 (mov (X 0) (I 1)) c _ P0 eq_refl). unfold exec, data. rewrite P0.
        cbn -[Z.pow]. unfold c1. by replace (base e + off + 4) with (base e + (off + 4)) by lia.
      * eapply (reaches_go e cache_S 192 (mov (X 0) (I 0)) c _ P0 eq_refl). unfold exec, data. rewrite P0.
        cbn -[Z.pow]. unfold c1. by replace (base e + off + 4) with (base e + (off + 4)) by lia.
    + destruct inv;
        [eapply (reaches_go e cache_S 204 (b "__asm_dcache_all") c1 _ eq_refl eq_refl)
        |eapply (reaches_go e cache_S 196 (b "__asm_dcache_all") c1 _ eq_refl eq_refl)]; unfold exec;
        [rewrite (jump_to e cache_S true "__asm_dcache_all" c1 204 96 eq_refl eq_refl)
        |rewrite (jump_to e cache_S true "__asm_dcache_all" c1 196 96 eq_refl eq_refl)]; done.
  - split; try done. intros n Hn. change (xr (set_pc (base e + 96) c1) n) with (upd (xr c) 0 (Z.b2z inv) n).
    by rewrite upd_ne by (clear -Hn; set_solver).
Qed.

(** With 0 in x5 the number of a way falls into the bits of the level: the
    operation for way 2 of level 0 is that for way 0 of level 1. *)
Example way_aliases_level : way_value 0 0 6 0 2 = way_value 2 0 6 0 0.
Proof. done. Qed.

(** ** Address ranges *)

Section range.
Context (e : env).
Implicit Types c : cpu.

Definition range_block : list instr :=
  [mrs (X 3) CTR_EL0; lsr (X 3) (X 3) (I 16); and_ (X 3) (X 3) (I 0xf); mov (X 2) (I 4);
   lsl (X 2) (X 2) (R (X 3)); sub (X 3) (X 2) (I 1); bic (X 0) (X 0) (R (X 3))].

(** The smallest line size, of [CTR_EL0]. *)
Definition line_size (ctr : Z) : Z := 4 * 2 ^ (Z.shiftr ctr 16 & 0xf).

Lemma line_size_pow ctr : exists k, 2 <= k <= 17 /\ line_size ctr = 2 ^ k.
Proof.
  pose proof (land_small 4 (Z.shiftr ctr 16) ltac:(lia)) as B. rewrite Z.land_comm in B. change (Z.ones 4) with 15 in B.
  exists (2 + (Z.shiftr ctr 16 & 15)). split; [lia|]. unfold line_size. rewrite Z.pow_add_r by lia. done.
Qed.

Lemma range_block_run c ctr :
  wf_value (xr c 0) -> idreg e CTR_EL0 (sys c CSSELR_EL1) = ctr -> wf_value ctr ->
  exists c1, block e cache_S range_block c = Some c1 /\ xr c1 2 = line_size ctr /\
    xr c1 0 = xr c 0 - xr c 0 mod line_size ctr /\ ops c1 = ops c /\ only [0; 2; 3] c c1.
Proof.
  intros H0 Hc Hcr. unfold wf_value in *. unfold range_block, block, data.
  cbn -[Z.pow Z.land Z.shiftr Z.shiftl Z.ldiff]. regs. rewrite Hc.
  change (16 mod 64) with 16. change (u64 4) with 4. rewrite (uint_small 64 ctr) by done.
  assert (0 <= Z.shiftr ctr 16 < 2 ^ 64) as Hs.
  { rewrite Z.shiftr_div_pow2 by lia. split; [apply Z.div_pos; lia|].
    apply Z.le_lt_trans with ctr; [|lia]. apply Z.div_le_upper_bound; lia. }
  rewrite (uint_small 64 (Z.shiftr _ _)) by done.
  pose proof (land_small 4 (Z.shiftr ctr 16) ltac:(lia)) as B. rewrite Z.land_comm in B.
  change (Z.ones 4) with 15 in B. rewrite (uint_small 64 (_ & 15)) by lia.
  rewrite (Z.mod_small (_ & 15) 64) by lia. rewrite Z.shiftl_mul_pow2 by lia. fold (line_size ctr).
  destruct (line_size_pow ctr) as (k & Hk & Ek).
  assert (4 <= 2 ^ k <= 2 ^ 17) as Hpow.
  { split; [change 4 with (2 ^ 2)|]; apply Z.pow_le_mono_r; lia. }
  rewrite Ek. rewrite (uint_small 64 (2 ^ k)), (uint_small 64 (2 ^ k - 1)) by lia.
  assert (Z.ldiff (xr c 0) (2 ^ k - 1) = xr c 0 - xr c 0 mod 2 ^ k) as Hal.
  { replace (2 ^ k - 1) with (Z.ones k) by (rewrite Z.ones_equiv; lia).
    rewrite Z.ldiff_ones_r by lia. rewrite Z.shiftl_mul_pow2, Z.shiftr_div_pow2 by lia.
    pose proof (Z.div_mod (xr c 0) (2 ^ k)). lia. }
  rewrite Hal. pose proof (Z.mod_pos_bound (xr c 0) (2 ^ k)).
  pose proof (Z.mod_le (xr c 0) (2 ^ k)). rewrite (uint_small 64 (xr c 0 - _)) by lia.
  eexists. split; [reflexivity|]. cbn [xr set_xr ops]. regs. split_and!; try done.
  split; try done. intros n Hn. cbn [xr set_xr]. by rewrite !upd_ne by (clear -Hn; set_solver).
Qed.

(** The operations on [n] lines from [a] on. *)
Definition range_ops (a ls : Z) (n : nat) : list cache_op :=
  (fun i => DcCivac (a + ls * Z.of_nat i)) <$> seq 0 n.

Lemma range_step c a z ls :
  pc c = base e + 236 -> xr c 0 = a -> xr c 1 = z -> xr c 2 = ls -> 0 <= a -> 0 < ls -> a + ls < 2 ^ 64 -> wf_value z ->
  exists c', reaches e cache_S c c' /\ pc c' = base e + (if a + ls <? z then 236 else 252) /\ xr c' 0 = a + ls /\
    ops c' = ops c ++ [DcCivac a] /\ only [0] c c'.
Proof.
  intros Hpc H0 H1 H2 Ha Hls Hb Hz. unfold wf_value in Hz.
  set (c1 := set_nzcv (sub_flags (a + ls) z) (set_xr (upd (xr c) 0 (a + ls)) (add_op (DcCivac a) c))).
  assert (reaches e cache_S c (set_pc (base e + 248) c1)) as R1.
  { apply (reaches_block e cache_S [dc CIVAC (X 0); add (X 0) (X 0) (R (X 2)); cmp (X 0) (R (X 1))] 236);
      [done|by vm_compute|]. unfold block, data. cbn -[Z.pow sub_flags]. regs. rewrite H0, H1, H2.
    by rewrite (uint_small 64 (a + ls)) by lia. }
  set (c1' := set_pc (base e + 248) c1) in R1.
  exists (set_pc (base e + if a + ls <? z then 236 else 252) c1). split_and!; try done.
  - eapply reaches_trans; [exact R1|].
    eapply (reaches_go e cache_S 248 (b_ LO "1b") c1' _ eq_refl eq_refl). unfold exec.
    rewrite (jump_to e cache_S _ "1b" c1' 248 236 eq_refl eq_refl).
    change (holds LO (nzcv c1')) with (negb (z <=? a + ls)). unfold c1'.
    replace (negb (z <=? a + ls)) with (a + ls <? z); [done|].
    destruct (Z.ltb_spec (a + ls) z), (Z.leb_spec z (a + ls)); simpl; lia || done.
  - split; try done. intros n Hn. change (xr (set_pc _ c1) n) with (upd (xr c) 0 (a + ls) n).
    by rewrite upd_ne by (clear -Hn; set_solver).
Qed.

Lemma range_ops_cons a ls n : range_ops a ls (S n) = DcCivac a :: range_ops (a + ls) ls n.
Proof.
  unfold range_ops. cbn [seq fmap list_fmap]. rewrite <- seq_shift. f_equal; [by rewrite Z.mul_0_r, Z.add_0_r|].
  rewrite <- (list_fmap_compose S). apply list_fmap_ext. intros i x _. simpl. f_equal. lia.
Qed.

Lemma range_loop k : forall c a z ls,
  pc c = base e + 236 -> xr c 0 = a -> xr c 1 = z -> xr c 2 = ls -> 0 <= a -> 0 < ls -> a + ls < 2 ^ 64 ->
  wf_value z -> z + ls <= 2 ^ 64 -> z <= a + ls * Z.of_nat (S k) ->
  exists c' n, reaches e cache_S c c' /\ pc c' = base e + 252 /\ ops c' = ops c ++ range_ops a ls (S n) /\
    only [0] c c' /\ z <= a + ls * Z.of_nat (S n) /\ (n <> O -> a + ls * Z.of_nat n < z).
Proof.
  induction k as [|k IH]; intros c a z ls Hpc H0 H1 H2 Ha Hls Hb Hz Hw Hk;
    destruct (range_step c a z ls) as (c1 & R1 & P1 & H0' & Hops & Hon); try done.
  - replace (a + ls <? z) with false in P1 by (symmetry; apply Z.ltb_ge; lia).
    exists c1, O. split_and!; try done. rewrite Hops, range_ops_cons. done.
  - destruct (Z.ltb_spec (a + ls) z) as [Hlt|Hge].
    + destruct (IH c1 (a + ls) z ls) as (c2 & n & R2 & P2 & Hops2 & Hon2 & Hn1 & Hn2); try done; try lia.
      { rewrite (on_xr _ _ _ Hon) by (clear; set_solver). done. }
      { rewrite (on_xr _ _ _ Hon) by (clear; set_solver). done. }
      exists c2, (S n). split_and!; [by eapply reaches_trans|done| | |lia|].
      * rewrite Hops2, Hops, <- app_assoc. by rewrite (range_ops_cons a).
      * eapply only_weaken; [by eapply only_trans|clear; set_solver].
      * intros _. destruct n as [|n]; [lia|]. specialize (Hn2 ltac:(done)). lia.
    + exists c1, O. split_and!; try done; [by rewrite Hops, range_ops_cons|lia].
Qed.

End range.

(** [__asm_flush_dcache_range] terminates and returns to its caller; it cleans
    and invalidates, in ascending order, the lines from the one that holds the
    start address on, so that every address of the range lies in one of them, and
    none beyond the line of the last address; of an empty range one line. *)
Theorem flush_range_covers e c :
  pc c = address e cache_S "__asm_flush_dcache_range" -> wf_value (xr c 0) -> wf_value (xr c 1) ->
  fetch e cache_S (xr c 30) = None ->
  let ctr := idreg e CTR_EL0 (sys c CSSELR_EL1) in let ls := line_size ctr in wf_value ctr ->
  xr c 0 + ls < 2 ^ 64 -> xr c 1 + ls <= 2 ^ 64 ->
  exists c' n, returns_with e cache_S c c' /\ pc c' = xr c 30 /\ words c' = words c /\ sp_get c' = sp_get c /\
    ops c' = ops c ++ range_ops (xr c 0 - xr c 0 mod ls) ls (S n) ++ [Dsb] /\
    (forall x, xr c 0 <= x < xr c 1 -> exists i, (i <= n)%nat /\
       xr c 0 - xr c 0 mod ls + ls * Z.of_nat i <= x < xr c 0 - xr c 0 mod ls + ls * Z.of_nat (S i)) /\
    (n <> O -> xr c 0 - xr c 0 mod ls + ls * Z.of_nat n < xr c 1).
Proof.
  intros Hpc H0 H1 Hout ctr ls Hctr Hb1 Hb2.
  destruct (range_block_run e c ctr H0 eq_refl Hctr) as (c1 & Hb & X2 & X0 & Hops1 & Hon1). fold ls in X2, X0.
  pose proof (reaches_block e cache_S range_block 208 c c1 Hpc ltac:(by vm_compute) Hb) as R1.
  change (base e + (208 + 4 * Z.of_nat (length range_block))) with (base e + 236) in R1.
  set (c1' := set_pc (base e + 236) c1) in R1.
  destruct (line_size_pow ctr) as (k & Hk & Ek). fold ls in Ek.
  assert (0 < ls) as Hls by (rewrite Ek; apply Z.pow_pos_nonneg; lia).
  pose proof (Z.mod_pos_bound (xr c 0) ls Hls) as Hm. pose proof (Z.mod_le (xr c 0) ls) as Hml.
  set (a := xr c 0 - xr c 0 mod ls) in *. unfold wf_value in *.
  destruct (range_loop e (Z.to_nat (xr c 1)) c1' a (xr c 1) ls) as (c2 & n & R2 & P2 & Hops2 & Hon2 & Hn1 & Hn2);
    try done; try lia.
  { change (xr c1' 1) with (xr c1 1). apply (on_xr _ _ _ Hon1). clear; set_solver. }
  { nia. }
  assert (xr c2 30 = xr c 30) as H30.
  { rewrite (on_xr _ _ _ Hon2) by (clear; set_solver). change (xr c1' 30) with (xr c1 30).
    apply (on_xr _ _ _ Hon1). clear; set_solver. }
  assert (reaches e cache_S c2 (set_pc (base e + 256) (add_op Dsb c2))) as R3.
  { by apply (reaches_block e cache_S [dsb] 252 c2); [|by vm_compute|]. }
  destruct Hon1 as [_ W1 S1], Hon2 as [_ W2 S2].
  exists (set_pc (xr c 30) (set_pc (base e + 256) (add_op Dsb c2))), n. split_and!; try done.
  - do 3 (eapply returns_reaches; [eassumption|]). rewrite <- H30.
    apply (returns_ret e cache_S 256 (set_pc (base e + 256) (add_op Dsb c2))); [done|by vm_compute|].
    change (xr (set_pc (base e + 256) (add_op Dsb c2)) 30) with (xr c2 30). by rewrite H30.
  - exact (eq_trans W2 W1).
  - exact (eq_trans S2 S1).
  - transitivity (ops c2 ++ [Dsb]); [done|]. rewrite Hops2. change (ops c1') with (ops c1). rewrite Hops1.
    by rewrite <- app_assoc.
  - intros x Hx. exists (Z.to_nat ((x - a) / ls)).
    pose proof (Z.div_mod (x - a) ls ltac:(lia)). pose proof (Z.mod_pos_bound (x - a) ls Hls).
    assert (0 <= (x - a) / ls) by (apply Z.div_pos; lia).
    assert ((x - a) / ls < Z.of_nat (S n)) by (apply Z.div_lt_upper_bound; lia).
    split; [lia|]. rewrite Nat2Z.inj_succ, Z2Nat.id by lia. lia.
Qed.

(** [__asm_invalidate_icache_all] invalidates the instruction cache;
    [__asm_flush_l3_cache] does nothing and returns 0. *)
Theorem icache_and_l3 e c :
  fetch e cache_S (xr c 30) = None ->
  (pc c = address e cache_S "__asm_invalidate_icache_all" ->
     run e cache_S 3 c = Some (set_pc (xr c 30) (add_op Isb (add_op IcIalluis c)))) /\
  (pc c = address e cache_S "__asm_flush_l3_cache" ->
     run e cache_S 2 c = Some (set_pc (xr c 30) (set_xr (upd (xr c) 0 0) c))).
Proof.
  intros Hout. split; intros Hpc.
  - change 3%nat with (length [ic_ialluis; isb] + 1)%nat.
    rewrite (run_block e cache_S [ic_ialluis; isb] 260 c _ 1 Hpc ltac:(by vm_compute) eq_refl).
    by rewrite (run_ret e cache_S 268 (set_pc (base e + 268) _) O eq_refl eq_refl).
  - change 2%nat with (length [mov (X 0) (I 0)] + 1)%nat.
    rewrite (run_block e cache_S [mov (X 0) (I 0)] 272 c _ 1 Hpc ltac:(by vm_compute) eq_refl).
    by rewrite (run_ret e cache_S 276 (set_pc (base e + 276) _) O eq_refl eq_refl).
Qed.

(** ** Instances *)

(** A processor with one level of unified cache of two sets and two ways with
    lines of 64 bytes. *)
Definition cache_env : env :=
  mk_env 0x40080000 (fun _ => 0) (fun _ c => Some c)
    (fun r _ => match r with
                | CCSIDR_EL1 => 2 + Z.shiftl 1 3 + Z.shiftl 1 13
                | CLIDR_EL1 => 4 + Z.shiftl 1 24
                | CTR_EL0 => Z.shiftl 4 16
                | _ => 0
                end).

Definition cache_cpu (start x0 x1 : Z) : cpu :=
  mk_cpu start (upd (upd (upd (fun _ => 31) 0 x0) 1 x1) 30 0x40000000) 0x42000000 0x42001000 1
    (mk_flags false false false false) 0 (fun _ => 0) (fun _ => 0) ∅ [].

Lemma dcache_all_covers_witness :
  exists c', ops c' = [Dsb; Isb; DcCisw (Z.shiftl 1 31 + Z.shiftl 1 6); DcCisw (Z.shiftl 1 6);
                       DcCisw (Z.shiftl 1 31); DcCisw 0; Dsb; Isb] /\ pc c' = 0x40000000.
Proof.
  destruct (dcache_all_covers cache_env (cache_cpu (0x40080000 + 96) 0 0)) as (c' & _ & Hp & _ & _ & Ho).
  - simpl. lia.
  - intros l. by vm_compute.
  - by vm_compute.
  - intros n. unfold wf_value. simpl. unfold upd. repeat case_decide; lia.
  - by vm_compute.
  - by vm_compute.
  - exists c'. split; [|exact Hp]. rewrite Ho. by vm_compute.
Defined.

Lemma flush_range_covers_witness :
  exists c' n, ops c' = range_ops 0x40001000 64 (S n) ++ [Dsb] /\ n <> O.
Proof.
  destruct (flush_range_covers cache_env (cache_cpu (0x40080000 + 208) 0x40001010 0x40001050))
    as (c' & n & _ & _ & _ & _ & Ho & Hin & _).
  - by vm_compute.
  - by vm_compute.
  - by vm_compute.
  - by vm_compute.
  - by vm_compute.
  - by vm_compute.
  - by vm_compute.
  - exists c', n. split.
    + rewrite Ho. reflexivity.
    + intros ->. destruct (Hin 0x4000104F ltac:(vm_compute; done)) as (i & Hi & _ & Hx).
      apply Nat.le_0_r in Hi as ->. by vm_compute in Hx.
Defined.
