(* ===== verification/Entry.v ===== *)
(** * The entry point: [src/arch/aarch64/src/entry_point.S] and [startup.S]

    From the first instruction of the image to the call of [skernel_startup]: the
    stack, the control registers and the loop that clears the section of
    uninitialised data, whose address and size in words are symbols of the linker
    script. *)

From Stdlib Require Import String.
From S2P Require Import Prelude Sched Cpu Cache.

Local Open Scope string_scope.
Local Open Scope list_scope.
Local Open Scope Z_scope.
Local Open Scope c_scope.

Definition entry_point_S : list item :=
  [ L "_start";
    Ins (bl "cpu_setup");
    L "cpu_idle";
    Ins wfe;
    Ins (b "cpu_idle");
    L "cpu_setup";
    Ins (ldr_eq (X 1) "_start");
    Ins (bl "cpu_in_el1");
    Ins eret;
    L "cpu_in_el1";
    Ins (mov SP (R (X 1)));
    Ins (mov (X 1) (I 0x00300000));
    Ins (msr CPACR_EL1 (X 1));
    Ins (mrs (X 1) SCTLR_EL1);
    Ins (orr (X 1) (X 1) (I (Z.shiftl 1 12)));
    Ins (bic (X 1) (X 1) (I (Z.shiftl 3 3)));
    Ins (bic (X 1) (X 1) (I (Z.shiftl 1 1)));
    Ins (msr SCTLR_EL1 (X 1));
    Ins (ldr_eq (X 1) "__bss_start");
    Ins (ldr_eq (W 2) "__bss_size");
    L "clean_bss_loop";
    Ins (cbz (W 2) "jump_to_entry");
    Ins (str_post XZR (X 1) 8);
    Ins (sub (W 2) (W 2) (I 1));
    Ins (cbnz (W 2) "clean_bss_loop");
    L "jump_to_entry";
    Ins (b "skernel_startup");
    Ins (b "cpu_idle") ].

(** [startup.S] *)
Definition Reset_Handler : list item := [ L "Reset_Handler"; Ins nop ].

Section entry.
Context (e : env).
Hypothesis base_ok : 0 <= base e < 2 ^ 63.
Implicit Types c : cpu.

Notation reach := (reaches e entry_point_S).

(** [n] words of zeros from [a] on. *)
Fixpoint zeros (n : nat) (a : Z) (w : gmap Z Z) : gmap Z Z :=
  match n with O => w | S n => zeros n (a + 8) (<[a := 0]> w) end.

Lemma zeros_lookup n : forall a w x,
  zeros n a w !! x = if decide (a <= x < a + 8 * Z.of_nat n /\ (x - a) mod 8 = 0) then Some 0 else w !! x.
Proof.
  induction n as [|n IH]; intros a w x; cbn [zeros].
  - by rewrite decide_False by lia.
  - rewrite IH. destruct (decide (x = a)) as [->|Hne].
    + rewrite decide_False by lia. rewrite lookup_insert_eq. rewrite decide_True; [done|].
      split; [lia|]. by rewrite Z.sub_diag.
    + rewrite lookup_insert_ne by done.
      assert ((x - (a + 8)) mod 8 = (x - a) mod 8) as E.
      { replace (x - a) with (x - (a + 8) + 1 * 8) by lia. by rewrite Z.mod_add. }
      repeat case_decide; try done; exfalso; rewrite E in *; try lia.
      destruct H0 as [Hr Hm]. apply H. split; [|done].
      destruct (decide (x < a + 8)); [|lia]. exfalso. apply Hne.
      rewrite Z.mod_small in Hm by lia. lia.
Qed.

(** One round of the loop. *)
Lemma clean_step c n :
  pc c = base e + 64 -> u32 (xr c 2) = Z.of_nat (S n) -> xr c 1 mod 8 = 0 -> 0 <= xr c 1 < 2 ^ 64 - 8 ->
  exists c', reach c c' /\ pc c' = base e + (if decide (n = O) then 80 else 64) /\
    u32 (xr c' 2) = Z.of_nat n /\ xr c' 1 = xr c 1 + 8 /\ words c' = <[xr c 1 := 0]> (words c) /\
    sp_get c' = sp_get c /\ sys c' = sys c.
Proof.
  intros Hpc H2 Ha Hb. pose proof (uint_range 32 (xr c 2) ltac:(lia)) as H2r.
  assert (reach c (set_pc (base e + 68) c)) as R1.
  { eapply (reaches_go e entry_point_S 64 (cbz (W 2) "jump_to_entry") c _ Hpc eq_refl). unfold exec.
    rewrite (jump_to e entry_point_S _ "jump_to_entry" c 64 80 Hpc eq_refl). simpl get. rewrite H2.
    by replace (Z.of_nat (S n) =? 0) with false by (symmetry; apply Z.eqb_neq; lia). }
  set (c1 := set_xr (upd (upd (xr c) 1 (xr c 1 + 8)) 2 (Z.of_nat n)) (set_words (<[xr c 1 := 0]> (words c)) c)).
  assert (reach (set_pc (base e + 68) c) (set_pc (base e + 76) c1)) as R2.
  { apply (reaches_block e entry_point_S [str_post XZR (X 1) 8; sub (W 2) (W 2) (I 1)] 68
      (set_pc (base e + 68) c) (set_pc (base e + 68) c1)); [done|by vm_compute|].
    unfold block, data, store. simpl get. rewrite Ha. cbn -[Z.pow Z.of_nat].
    rewrite (uint_small 64 (xr c 1 + 8)) by lia. regs. rewrite H2.
    replace (u32 (Z.of_nat (S n) - 1)) with (Z.of_nat n); [done|]. rewrite uint_small; lia. }
  set (c1' := set_pc (base e + 76) c1) in R2.
  assert (u32 (Z.of_nat n) = Z.of_nat n) as Hn by (apply uint_small; lia).
  exists (set_pc (base e + if decide (n = O) then 80 else 64) c1). split_and!; try done.
  eapply reaches_trans; [exact R1|]. eapply reaches_trans; [exact R2|].
  eapply (reaches_go e entry_point_S 76 (cbnz (W 2) "clean_bss_loop") c1' _ eq_refl eq_refl). unfold exec.
  rewrite (jump_to e entry_point_S _ "clean_bss_loop" c1' 76 64 eq_refl eq_refl).
  change (get (W 2) c1') with (u32 (Z.of_nat n)). rewrite Hn. unfold c1'.
  case_decide; [by subst|]. by replace (Z.of_nat n =? 0) with false by (symmetry; apply Z.eqb_neq; lia).
Qed.

Lemma clean_loop n : forall c,
  pc c = base e + 64 -> u32 (xr c 2) = Z.of_nat n -> xr c 1 mod 8 = 0 -> 0 <= xr c 1 ->
  xr c 1 + 8 * Z.of_nat n < 2 ^ 64 ->
  exists c', reach c c' /\ pc c' = base e + 80 /\ words c' = zeros n (xr c 1) (words c) /\
    sp_get c' = sp_get c /\ sys c' = sys c.
Proof.
  induction n as [|n IH]; intros c Hpc H2 Ha Hb Hlt.
  - exists (set_pc (base e + 80) c). split_and!; try done.
    eapply (reaches_go e entry_point_S 64 (cbz (W 2) "jump_to_entry") c _ Hpc eq_refl). unfold exec.
    rewrite (jump_to e entry_point_S _ "jump_to_entry" c 64 80 Hpc eq_refl). simpl get. by rewrite H2.
  - destruct (clean_step c n Hpc H2 Ha) as (c1 & R1 & P1 & H2' & H1' & Hw & Hs & Hy); [lia|].
    case_decide as Hn0.
    + subst n. exists c1. split_and!; try done.
    + destruct (IH c1 P1 H2') as (c2 & R2 & P2 & Hw2 & Hs2 & Hy2); rewrite ?H1'.
      * replace (xr c 1 + 8) with (xr c 1 + 8 * 1) by lia. rewrite Z.mul_comm, Z.mod_add; done.
      * lia.
      * lia.
      * exists c2. split_and!; [by eapply reaches_trans|done| |congruence..]. by rewrite Hw2, H1', Hw.
Qed.

Definition setup_block : list instr :=
  [mov SP (R (X 1)); mov (X 1) (I 0x00300000); msr CPACR_EL1 (X 1); mrs (X 1) SCTLR_EL1;
   orr (X 1) (X 1) (I (Z.shiftl 1 12)); bic (X 1) (X 1) (I (Z.shiftl 3 3)); bic (X 1) (X 1) (I (Z.shiftl 1 1));
   msr SCTLR_EL1 (X 1); ldr_eq (X 1) "__bss_start"; ldr_eq (W 2) "__bss_size"].

(** The value of the system control register: instruction cache on, checks of the
    alignment of the stack pointer and of data off. *)
Definition new_sctlr (v : Z) : Z := Z.ldiff (Z.ldiff (v ||| 0x1000) 0x18) 2.

Lemma lor_range a v : 0 <= a < 2 ^ 64 -> 0 <= v < 2 ^ 64 -> 0 <= a ||| v < 2 ^ 64.
Proof.
  intros Ha Hv. apply bits_range; [lia|]. intros i Hi. by rewrite Z.lor_spec, !(range_bits 64) by lia.
Qed.

Lemma ldiff_range a v : 0 <= a < 2 ^ 64 -> 0 <= Z.ldiff a v < 2 ^ 64.
Proof. intros Ha. apply bits_range; [lia|]. intros i Hi. by rewrite Z.ldiff_spec, (range_bits 64 a) by lia. Qed.

Lemma setup_block_run c :
  wf_value (xr c 1) -> wf_value (sys c SCTLR_EL1) -> wf_value (sym e "__bss_start") ->
  exists c1, block e entry_point_S setup_block c = Some c1 /\ sp_get c1 = xr c 1 /\
    xr c1 1 = sym e "__bss_start" /\ u32 (xr c1 2) = u32 (sym e "__bss_size") /\ words c1 = words c /\
    sys c1 CPACR_EL1 = 0x300000 /\ sys c1 SCTLR_EL1 = new_sctlr (sys c SCTLR_EL1).
Proof.
  intros H1 Hs Hb. unfold wf_value in *. unfold setup_block.
  set (c0 := sp_set (xr c 1) c).
  assert (data e entry_point_S (mov SP (R (X 1))) c = Some c0) as E0 by (simpl; by rewrite uint_small).
  cbn [block]. rewrite E0. cbn [mbind option_bind].
  assert (xr c0 = xr c /\ sys c0 = sys c /\ words c0 = words c /\ sp_get c0 = xr c 1) as (Ex & Es & Ew & Ep).
  { unfold c0, sp_set, sp_get. by destruct (spsel c =? 0) eqn:E; simpl; rewrite ?E. }
  clearbody c0. unfold data. cbn -[Z.pow Z.lor Z.ldiff].
  rewrite !upd_eq. rewrite (upd_ne _ CPACR_EL1) by done. rewrite Es.
  rewrite (uint_small 64 (sys c SCTLR_EL1)) by done.
  rewrite (uint_small 64 (_ ||| _)) by (by apply lor_range).
  rewrite (uint_small 64 (Z.ldiff (_ ||| _) _)) by (by apply ldiff_range, lor_range).
  rewrite (uint_small 64 (Z.ldiff (Z.ldiff _ _) _)) by (by apply ldiff_range, ldiff_range, lor_range).
  change (address e entry_point_S "__bss_start") with (sym e "__bss_start").
  change (address e entry_point_S "__bss_size") with (sym e "__bss_size").
  rewrite (uint_small 64 (sym e "__bss_start")) by done.
  eexists. split; [reflexivity|]. split_and!.
  - exact Ep.
  - cbn [xr set_xr]. by regs.
  - cbn [xr set_xr]. regs. unfold sk_uint. by rewrite Z.mod_mod.
  - exact Ew.
  - cbn [sys set_sys set_xr]. by regs.
  - cbn [sys set_sys set_xr]. by regs.
Qed.

End entry.

(** C37: the entry point leads to [skernel_startup].  From the first instruction the
    processor gets there with the stack pointer at the start of the image, floating
    point enabled, the alignment checks off, and every word of the section of
    uninitialised data, which the linker script counts in words, set to zero; no
    other word changes. *)
Theorem entry_clears_bss e c :
  0 <= base e < 2 ^ 63 -> pc c = address e entry_point_S "_start" -> wf_value (sys c SCTLR_EL1) ->
  let start := sym e "__bss_start" in let n := u32 (sym e "__bss_size") in
  0 <= start -> start mod 8 = 0 -> start + 8 * n < 2 ^ 64 ->
  fetch e entry_point_S (sym e "skernel_startup") = None ->
  exists c', returns_with e entry_point_S c c' /\ pc c' = sym e "skernel_startup" /\
    sp_get c' = address e entry_point_S "_start" /\ sys c' CPACR_EL1 = 0x300000 /\
    sys c' SCTLR_EL1 = new_sctlr (sys c SCTLR_EL1) /\
    (forall a, start <= a < start + 8 * n -> a mod 8 = 0 -> words c' !! a = Some 0) /\
    (forall a, a < start \/ start + 8 * n <= a -> words c' !! a = words c !! a).
Proof.
  intros Hbase Hpc Hsys start n Hs Ha Hlt Hout. unfold wf_value in Hsys.
  pose proof (uint_range 32 (sym e "__bss_size") ltac:(lia)) as Hn. fold n in Hn.
  set (c1 := set_pc (base e + 12) (set_xr (upd (xr c) 30 (u64 (base e + 4))) c)).
  assert (reaches e entry_point_S c c1) as R1.
  { eapply (reaches_go e entry_point_S 0 (bl "cpu_setup") c _ Hpc eq_refl). unfold exec. rewrite Hpc.
    change (find_label "cpu_setup" (layout 0 entry_point_S)) with (Some 12).
    change (address e entry_point_S "_start") with (base e + 0). unfold c1. rewrite Z.add_0_r. done. }
  set (c2 := set_pc (base e + 16) (set_xr (upd (xr c1) 1 (base e)) c1)).
  assert (reaches e entry_point_S c1 c2) as R2.
  { eapply (reaches_go e entry_point_S 12 (ldr_eq (X 1) "_start") c1 _ eq_refl eq_refl). unfold exec, data.
    change (address e entry_point_S "_start") with (base e + 0). cbn [put].
    rewrite Z.add_0_r, (uint_small 64 (base e)) by lia. change (pc c1) with (base e + 12).
    unfold c2. by replace (base e + 12 + 4) with (base e + 16) by lia. }
  set (c3 := set_pc (base e + 24) (set_xr (upd (xr c2) 30 (u64 (base e + 20))) c2)).
  assert (reaches e entry_point_S c2 c3) as R3.
  { eapply (reaches_go e entry_point_S 16 (bl "cpu_in_el1") c2 _ eq_refl eq_refl). unfold exec.
    change (find_label "cpu_in_el1" (layout 0 entry_point_S)) with (Some 24).
    change (pc c2) with (base e + 16). replace (base e + 16 + 4) with (base e + 20) by lia. done. }
  destruct (setup_block_run e c3) as (c4 & Hb & Sp & X1 & X2 & W4 & Y1 & Y2); [| done|unfold wf_value; fold start; lia|].
  { unfold wf_value. change (xr c3 1) with (base e). lia. }
  pose proof (reaches_block e entry_point_S setup_block 24 c3 c4 eq_refl ltac:(by vm_compute) Hb) as R4.
  change (base e + (24 + 4 * Z.of_nat (length setup_block))) with (base e + 64) in R4.
  destruct (clean_loop e (Z.to_nat n) (set_pc (base e + 64) c4)) as (c5 & R5 & P5 & W5 & S5 & Y5);
    change (xr (set_pc (base e + 64) c4)) with (xr c4); rewrite ?X1, ?X2; fold start n; try done; try lia.
  set (c6 := set_pc (sym e "skernel_startup") c5).
  assert (reaches e entry_point_S c5 c6) as R6.
  { eapply (reaches_go e entry_point_S 80 (b "skernel_startup") c5 _ P5 eq_refl). done. }
  exists c6. change (words c6) with (words c5). change (sys c6) with (sys c5). rewrite W5, Y5.
  change (xr (set_pc (base e + 64) c4) 1) with (xr c4 1). change (words (set_pc (base e + 64) c4)) with (words c4).
  change (sys (set_pc (base e + 64) c4)) with (sys c4). rewrite X1, W4. fold start. split_and!; try done.
  - do 6 (eapply returns_reaches; [eassumption|]). exists O. intros k. by apply run_out.
  - transitivity (sp_get c5); [done|]. rewrite S5. transitivity (sp_get c4); [done|]. rewrite Sp.
    change (address e entry_point_S "_start") with (base e + 0). rewrite Z.add_0_r. done.
  - intros a Hr Hm. rewrite zeros_lookup, decide_True; [done|]. split; [lia|]. by rewrite Zminus_mod, Hm, Ha.
  - intros a Hr. rewrite zeros_lookup, decide_False by lia. done.
Qed.

(** ** Instance *)

(** An image at 0x40080000 with three words of uninitialised data. *)
Definition image_env : env :=
  mk_env 0x40080000
    (fun l => if String.eqb l "__bss_start" then 0x40100000 else if String.eqb l "__bss_size" then 3 else 0x40090000)
    (fun _ c => Some c) (fun _ _ => 0).

Definition reset_cpu : cpu :=
  mk_cpu 0x40080000 (fun _ => 0) 0 0 1 (mk_flags false false false false) 0x3C0 (fun _ => 0) (fun _ => 0)
    {[0x40100000 := 17; 0x40100018 := 18]} [].

Lemma entry_clears_bss_witness :
  exists c', pc c' = 0x40090000 /\ words c' !! 0x40100000 = Some 0 /\ words c' !! 0x40100018 = Some 18.
Proof.
  destruct (entry_clears_bss image_env reset_cpu) as (c' & _ & Hp & _ & _ & _ & H0 & Hfr).
  - simpl. lia.
  - by vm_compute.
  - by vm_compute.
  - simpl. lia.
  - by vm_compute.
  - by vm_compute.
  - by vm_compute.
  - exists c'. split; [exact Hp|]. split.
    + apply H0; [|done]. change (u32 (sym image_env "__bss_size")) with 3. simpl. lia.
    + rewrite Hfr; [by vm_compute|]. change (u32 (sym image_env "__bss_size")) with 3. simpl. lia.
Defined.
