(* ===== verification/SysInv.v ===== *)
(** * The invariant of the system

    What holds of the whole kernel between two steps: where every thread is, whose
    timers are on the timer list, who waits for which semaphore or mutex.  The
    scheduler and the waking of a thread keep it; an executable check establishes it
    for a concrete state. *)

From S2P Require Import Prelude BaseDef KList Slab IoDef Kernel Sched KObj Timer Thread IpcBase Semaphore Mutex Event Mailbox Bus Intc Board Boot.

Local Open Scope c_scope.

(** ** The invariant *)

Section invariant.
Implicit Types (L : lists) (s : kstate).

(** The thread is in a ready queue; on a waiting list. *)
Definition queued L (t : Z) : Prop := exists i us, 0 <= i < 32 /\ queue L i us /\ t ∈ us.
Definition on_wait L (t : Z) : Prop := exists hd ws, wait_head hd /\ waiting L hd ws /\ t ∈ ws.

(** A suspended thread: it sleeps, on no list, or waits. *)
Definition off L (t : Z) (th : sk_thread) : Prop :=
  stat th = SK_THREAD_SUSPEND /\ (detached L t \/ on_wait L t).

Definition runs L (t : Z) (th : sk_thread) : Prop :=
  stat th & SK_THREAD_MASK = SK_THREAD_RUNNING /\ detached L t.

(** Every thread has its own timer, with the timeout function of threads; only
    those timers are on the timer list [tms]. *)
Record timers_ok L s (tms : list Z) : Prop := {
  tk_list : timers_on L tms;
  tk_own : forall t, is_Some (ks_threads s !! t) -> exists tmr o,
    timer_of L s tms t tmr o /\ timeout_func tmr = FN_sk_thread_timeout /\ tparam tmr = t /\ periodic o = false;
  tk_all : forall tm, tm ∈ tms -> exists t, tm = thread_timer t /\ is_Some (ks_threads s !! t)
}.

(** An object threads wait for: its list, and its header, which is not that of a
    timer of a thread. *)
Definition ipc_obj L s (x : Z) : Prop :=
  (exists ws, waiting L (NSuspend x) ws) /\
  (exists o, ks_objs s !! x = Some o /\ (obj_flag o = SK_IPC_FLAG_FIFO \/ obj_flag o = SK_IPC_FLAG_PRIO)) /\
  (forall t, is_Some (ks_threads s !! t) -> x <> thread_timer t).

(** The counters of a mailbox. *)
Record mb_wf (b : sk_mailbox) : Prop := {
  mw_size : 0 < mb_size b < 2 ^ 16;
  mw_in : 0 <= in_offset b < mb_size b;
  mw_out : 0 <= out_offset b < mb_size b;
  mw_entry : 0 <= mb_entry b <= mb_size b
}.

(** The events and the mailboxes, with their waiting lists. *)
Record boxes_ok L s : Prop := {
  bx_event : forall ev, is_Some (ks_events s !! ev) -> ipc_obj L s ev;
  bx_mailbox : forall mb b, ks_mailboxes s !! mb = Some b ->
    ipc_obj L s mb /\ (exists ss, waiting L (NSender mb) ss) /\ mb_wf b;
  bx_kinds : forall x, is_Some (ks_events s !! x) \/ is_Some (ks_mailboxes s !! x) ->
    ks_sems s !! x = None /\ ks_mutexes s !! x = None
}.

(** The semaphores and mutexes, with their waiting lists, and the others. *)
Record ipc_ok L s : Prop := {
  ip_wait : forall hd xs, wait_head hd -> L !! hd = Some xs -> exists ws, xs = NTlist <$> ws /\
    forall w, w ∈ ws -> exists wh, ks_threads s !! w = Some wh /\ stat wh = SK_THREAD_SUSPEND;
  ip_sem : forall sem v, ks_sems s !! sem = Some v -> exists ws o,
    waiting L (NSuspend sem) ws /\ 0 <= v <= SK_SEM_VALUE_MAX /\ (ws <> [] -> v = 0) /\
    ks_objs s !! sem = Some o /\ (obj_flag o = SK_IPC_FLAG_FIFO \/ obj_flag o = SK_IPC_FLAG_PRIO) /\
    (forall t, is_Some (ks_threads s !! t) -> sem <> thread_timer t);
  ip_mutex : forall mx m, ks_mutexes s !! mx = Some m -> exists a,
    abs_fields a m /\ waiting L (NSuspend mx) (abs_waiters a);
  ip_disjoint : forall x, is_Some (ks_sems s !! x) -> ks_mutexes s !! x = None;
  ip_boxes : boxes_ok L s
}.

(** The state between two steps of the scheduler: the current thread runs, or has
    been suspended and must give up the processor; [idle] never waits. *)
Record sys_mid (idle : Z) L s : Prop := {
  sm_sched : sched_inv L s;
  sm_cur : exists cth, ks_threads s !! ks_current s = Some cth /\
    (runs L (ks_current s) cth \/ (off L (ks_current s) cth /\ ks_current s <> idle));
  sm_placed : forall t th, ks_threads s !! t = Some th -> t <> ks_current s -> queued L t \/ off L t th;
  sm_ipc : ipc_ok L s;
  sm_timers : exists tms, timers_ok L s tms;
  sm_idle : idle = ks_current s \/ queued L idle;
  sm_null : ks_threads s !! SK_NULL = None
}.

(** The invariant: the current thread runs. *)
Record sys_inv (idle : Z) L s : Prop := {
  sv_mid : sys_mid idle L s;
  sv_runs : exists cth, ks_threads s !! ks_current s = Some cth /\ runs L (ks_current s) cth
}.

Lemma thread_timer_inj t u : thread_timer t = thread_timer u -> t = u.
Proof. unfold thread_timer. lia. Qed.

Lemma runs_requeues L t th : runs L t th -> requeues th = true.
Proof.
  intros [Hs _]. unfold requeues. destruct (Z.eqb_spec (stat th) SK_THREAD_SUSPEND) as [E|_]; [by rewrite E in Hs|].
  destruct (Z.eqb_spec (stat th) SK_THREAD_CLOSE) as [E|_]; [by rewrite E in Hs|]. done.
Qed.

Lemma off_requeues L t th : off L t th -> requeues th = false.
Proof. intros [Hs _]. unfold requeues. by rewrite Hs. Qed.

Lemma off_not_queued L s t th i us : sched_inv L s -> off L t th -> queue L i us -> t ∉ us.
Proof.
  intros HI [_ [Hd|(hd & ws & Hh & Hw & Hin)]] Hq; [by eapply detached_not_ready|by eapply waiting_not_ready].
Qed.

Lemma queued_not_detached L s t : sched_inv L s -> queued L t -> ~ detached L t.
Proof. intros HI (i & us & Hi & Hq & Hin) Hd. by eapply detached_not_ready. Qed.

Lemma mid_cur_ok idle L s :
  sys_mid idle L s -> exists cth, cur_ok L s cth /\
    (runs L (ks_current s) cth \/ (off L (ks_current s) cth /\ ks_current s <> idle)).
Proof.
  intros HM. pose proof (sm_sched _ _ _ HM) as HI. destruct (sm_cur _ _ _ HM) as (cth & Hc & Hst). exists cth.
  split; [|done]. split; [done| |].
  - intros Hr. destruct Hst as [[_ Hd]|[Ho _]]; [done|]. by rewrite (off_requeues _ _ _ Ho) in Hr.
  - intros i us Hq. destruct Hst as [[_ Hd]|[Ho _]]; [by eapply detached_not_ready|by eapply off_not_queued].
Qed.

(** Changes of the mask of interrupts, of the nesting, of the requested switch and
    of the registers of devices. *)
Definition core_eq s s' : Prop :=
  ks_nodes s' = ks_nodes s /\ ks_objs s' = ks_objs s /\ ks_threads s' = ks_threads s /\
  ks_timers s' = ks_timers s /\ ks_current s' = ks_current s /\ ks_group s' = ks_group s /\
  ks_sems s' = ks_sems s /\ ks_mutexes s' = ks_mutexes s /\ ks_events s' = ks_events s /\
  ks_mailboxes s' = ks_mailboxes s.

(** What events and mailboxes depend on: their waiting lists exist, their headers
    are left alone, and no object appears. *)
Lemma boxes_frame L L' s s' :
  boxes_ok L s ->
  (forall hd ws, wait_head hd -> waiting L hd ws -> exists ws', waiting L' hd ws') ->
  (forall t, is_Some (ks_threads s' !! t) -> is_Some (ks_threads s !! t)) ->
  (forall x o, ks_objs s !! x = Some o -> (forall t, is_Some (ks_threads s !! t) -> x <> thread_timer t) ->
     ks_objs s' !! x = Some o) ->
  (forall x, ks_sems s !! x = None -> ks_sems s' !! x = None) ->
  (forall x, ks_mutexes s !! x = None -> ks_mutexes s' !! x = None) ->
  (forall x, is_Some (ks_events s' !! x) -> is_Some (ks_events s !! x)) ->
  (forall x b, ks_mailboxes s' !! x = Some b -> exists b0, ks_mailboxes s !! x = Some b0 /\ (mb_wf b0 -> mb_wf b)) ->
  boxes_ok L' s'.
Proof.
  intros [B1 B2 B3] HL Hdom Hob Hs Hm He Hb.
  assert (forall x, ipc_obj L s x -> ipc_obj L' s' x) as Hobj.
  { intros x ((ws & Hw) & (o & Ho & Hf) & Hn). split; [by apply (HL (NSuspend x) ws)|]. split; [|by auto].
    exists o. split; [by apply Hob|done]. }
  split.
  - intros ev Hev. apply Hobj, B1. by apply He.
  - intros mb b Hmb. destruct (Hb mb b Hmb) as (b0 & Hb0 & Hwf). destruct (B2 mb b0 Hb0) as (Ho & (ss & Hss) & Hw).
    split; [by apply Hobj|]. split; [by apply (HL (NSender mb) ss)|by apply Hwf].
  - intros x Hx. destruct (B3 x) as [H1 H2]; [|by auto].
    destruct Hx as [Hx|[b Hx]]; [left; by apply He|right; destruct (Hb x b Hx) as (b0 & ? & _); by exists b0].
Qed.

Lemma boxes_ext L L' s s' :
  boxes_ok L s ->
  (forall hd ws, wait_head hd -> waiting L hd ws -> exists ws', waiting L' hd ws') ->
  (forall t, is_Some (ks_threads s' !! t) -> is_Some (ks_threads s !! t)) ->
  (forall x o, ks_objs s !! x = Some o -> (forall t, is_Some (ks_threads s !! t) -> x <> thread_timer t) ->
     ks_objs s' !! x = Some o) ->
  ks_sems s' = ks_sems s -> ks_mutexes s' = ks_mutexes s -> ks_events s' = ks_events s ->
  ks_mailboxes s' = ks_mailboxes s -> boxes_ok L' s'.
Proof.
  intros HB HL Hdom Hob Es Em Ee Eb. eapply boxes_frame; [exact HB|exact HL|exact Hdom|exact Hob|..];
    rewrite ?Es, ?Em, ?Ee, ?Eb; eauto.
Qed.

Lemma timers_ok_ext L s s' tms :
  timers_ok L s tms -> (forall t, is_Some (ks_threads s' !! t) <-> is_Some (ks_threads s !! t)) ->
  ks_timers s' = ks_timers s -> ks_objs s' = ks_objs s -> timers_ok L s' tms.
Proof.
  intros [H1 H2 H3] Et Em Eo. split; [done| |].
  - intros t Ht. destruct (H2 t (proj1 (Et t) Ht)) as (tmr & o & [] & ?). exists tmr, o.
    split; [split; by rewrite ?Em, ?Eo|done].
  - intros tm Hin. destruct (H3 tm Hin) as (t & ? & ?). exists t. by rewrite Et.
Qed.

Lemma mid_core idle L s s' : sys_mid idle L s -> core_eq s s' -> irq_wf s' -> sys_mid idle L s'.
Proof.
  intros [HS HC HP [I1 I2 I3 I4 I5] [tms HT] HD HN] (E1 & E2 & E3 & E4 & E5 & E6 & E7 & E8 & E9 & E10) Hirq.
  split; rewrite ?E3, ?E5; try done.
  - eapply sched_inv_ext; [exact HS|rewrite E1; apply HS|done..].
  - split; rewrite ?E2, ?E3, ?E7, ?E8; try done.
    eapply boxes_ext; [exact I5|..]; rewrite ?E2, ?E3; eauto.
  - exists tms. eapply timers_ok_ext; [exact HT| |done|done]. intros t. by rewrite E3.
Qed.

Lemma inv_core idle L s s' : sys_inv idle L s -> core_eq s s' -> irq_wf s' -> sys_inv idle L s'.
Proof.
  intros [HM (cth & Hc & Hr)] HE Hirq. split; [by eapply mid_core|].
  destruct HE as (_ & _ & E3 & _ & E5 & _). exists cth. by rewrite E3, E5.
Qed.

(** ** Scheduling *)

(** Where the threads are after a switch from [cur] to [t]. *)
Lemma dispatch_placed_sys L L' s p t ts cur cth u uh :
  sched_inv L s -> highest L p t ts -> queues_after L L' p t cur cth -> u <> t -> u <> cur ->
  queued L u \/ off L u uh -> queued L' u \/ off L' u uh.
Proof.
  intros HI Hh HQ Hut Huc [(i & us & Hi & Hq & Hin)|[Hst Hoff]].
  - left. destruct (queues_after_keep L L' p t ts cur cth Hh HQ i us u Hi Hq Hin) as [->|(us' & Hq' & Hin')]; [done|].
    by exists i, us'.
  - right. split; [done|]. destruct Hoff as [Hd|(hd & ws & Hhd & Hw & Hin)].
    + left. unfold detached. rewrite (qa_frame _ _ _ _ _ _ HQ); [done|done| |congruence].
      intros _ [= E]. by apply Huc.
    + right. exists hd, ws. split; [done|]. split; [|done]. unfold waiting.
      rewrite (qa_frame _ _ _ _ _ _ HQ); [done|by destruct hd..].
Qed.

(** The IPC objects do not see a change of the states of threads that wait on none
    of them. *)
Lemma ipc_ok_frame L L' s s' :
  ipc_ok L s -> (forall hd, wait_head hd -> L' !! hd = L !! hd) ->
  (forall t, is_Some (ks_threads s' !! t) -> is_Some (ks_threads s !! t)) ->
  (forall hd ws w wh, wait_head hd -> waiting L hd ws -> w ∈ ws -> ks_threads s !! w = Some wh ->
     exists wh', ks_threads s' !! w = Some wh' /\ stat wh' = stat wh) ->
  ks_objs s' = ks_objs s -> ks_sems s' = ks_sems s -> ks_mutexes s' = ks_mutexes s ->
  ks_events s' = ks_events s -> ks_mailboxes s' = ks_mailboxes s -> ipc_ok L' s'.
Proof.
  intros [I1 I2 I3 I4 I5] HL Hdom Hth Eo Es Em Ee Eb. split; rewrite ?Es, ?Em, ?Eo.
  - intros hd xs Hh. rewrite HL by done. intros Hl. destruct (I1 hd xs Hh Hl) as (ws & -> & Hws).
    exists ws. split; [done|]. intros w Hin. destruct (Hws w Hin) as (wh & Hw & Hst).
    destruct (Hth hd ws w wh Hh Hl Hin Hw) as (wh' & Hw' & Es'). exists wh'. split; [done|congruence].
  - intros sem v Hv. destruct (I2 sem v Hv) as (ws & o & Hw & Hr & Hx & Ho & Hf & Hn). exists ws, o.
    split; [unfold waiting; by rewrite HL|]. do 4 (split; [done|]). intros t Ht. by apply Hn, Hdom.
  - intros mx m Hm. destruct (I3 mx m Hm) as (a & Ha & Hw). exists a. split; [done|].
    unfold waiting. by rewrite HL.
  - done.
  - eapply boxes_ext; [exact I5|..]; rewrite ?Eo; eauto.
    intros hd ws Hh Hw. exists ws. unfold waiting. by rewrite HL.
Qed.

Lemma dispatch_ipc L L' s p t ts cth th h g :
  sched_inv L s -> ipc_ok L s -> highest L p t ts -> queues_after L L' p t (ks_current s) cth ->
  cur_ok L s cth -> ks_threads s !! t = Some th ->
  ipc_ok L' (dispatched (masked s) (ks_current s) cth t th h g).
Proof.
  intros HI HP Hh HQ HC Ht. eapply ipc_ok_frame; [exact HP| | | |done..].
  - intros hd Hhd. apply (qa_frame _ _ _ _ _ _ HQ); by destruct hd.
  - intros u. simpl. pose proof (co_thread _ _ _ HC) as Hc.
    destruct (requeues cth); rewrite !lookup_insert; repeat case_decide; subst; by eauto.
  - intros hd ws w wh Hhd Hw Hin Hwh. exists wh. split; [|done]. simpl. destruct Hh as (_ & Hq & _).
    rewrite lookup_insert_ne.
    + destruct (requeues cth) eqn:Hr; [|done]. rewrite lookup_insert_ne; [done|]. intros <-.
      pose proof (co_detached _ _ _ HC Hr) as Hd. unfold detached in Hd.
      rewrite (rep_head_alone _ _ _ _ (NTlist (ks_current s)) (si_rep _ _ HI) Hw) in Hd; [done|].
      by apply list_elem_of_fmap_2.
    + intros <-. eapply (waiting_not_ready L s hd ws t p (t :: ts)); try done. by left.
Qed.

Lemma dispatch_timers L L' s p t cth th h g tms :
  timers_ok L s tms -> queues_after L L' p t (ks_current s) cth -> ks_threads s !! t = Some th ->
  ks_threads s !! ks_current s = Some cth ->
  timers_ok L' (dispatched (masked s) (ks_current s) cth t th h g) tms.
Proof.
  intros [H1 H2 H3] HQ Ht Hc.
  assert (forall n, n = NTimerList \/ (exists tm, n = NTimer tm) -> L' !! n = L !! n) as HL.
  { intros n [->|[tm ->]]; by apply (qa_frame _ _ _ _ _ _ HQ). }
  assert (forall u, is_Some (ks_threads (dispatched (masked s) (ks_current s) cth t th h g) !! u) <->
    is_Some (ks_threads s !! u)) as Hdom.
  { intros u. simpl. destruct (requeues cth); rewrite !lookup_insert; repeat case_decide; subst; split; by eauto. }
  split.
  - unfold timers_on. by rewrite HL by auto.
  - intros u Hu. destruct (H2 u (proj1 (Hdom u) Hu)) as (tmr & o & [A B D E] & Hf). exists tmr, o. split; [|done].
    split; try done; unfold timers_on, timer_placed; rewrite HL by eauto; done.
  - intros tm Hin. destruct (H3 tm Hin) as (u & ? & Hu). exists u. by rewrite Hdom.
Qed.

(** The state in which another thread has taken the processor. *)
Lemma dispatch_inv idle L L' s p t ts cth th h g :
  sys_mid idle L s -> cur_ok L s cth ->
  (runs L (ks_current s) cth \/ (off L (ks_current s) cth /\ ks_current s <> idle)) ->
  highest L p t ts -> ks_threads s !! t = Some th -> t <> ks_current s ->
  let s' := dispatched (masked s) (ks_current s) cth t th h g in
  sched_inv L' s' -> detached L' t -> queues_after L L' p t (ks_current s) cth ->
  sys_inv idle L' s'.
Proof.
  intros HM HC Hst Hh Ht Hne s' HI' Hd HQ. pose proof (sm_sched _ _ _ HM) as HI.
  pose proof (co_thread _ _ _ HC) as Hc.
  assert (requeues cth = true -> queued L' (ks_current s)) as Hrq.
  { intros Hr. destruct (si_thread _ _ HI _ _ Hc) as [Hp _]. destruct (si_queue _ _ HI _ Hp) as (us & Hus & _).
    eexists (current_pri cth), _. split; [done|]. split; [by apply (qa_queue _ _ _ _ _ _ HQ)|].
    rewrite Hr, Z.eqb_refl. simpl. set_solver. }
  assert (exists th', ks_threads s' !! ks_current s' = Some th' /\ runs L' (ks_current s') th') as Hruns.
  { exists (set_stat SK_THREAD_RUNNING th). split; [simpl; by rewrite lookup_insert_eq|done]. }
  split; [|done]. split; try done.
  - destruct Hruns as (th' & H1 & H2). exists th'. auto.
  - intros u uh Hu Hut. change (ks_current s') with t in Hut.
    simpl in Hu. rewrite lookup_insert_ne in Hu by done.
    destruct (decide (u = ks_current s)) as [->|Huc].
    + destruct Hst as [Hr|[Ho _]].
      * left. apply Hrq. by eapply runs_requeues.
      * right. rewrite (off_requeues _ _ _ Ho) in Hu. rewrite Hc in Hu. injection Hu as <-.
        destruct Ho as [Hs [Hdt|(hd & ws & Hhd & Hw & Hin)]]; (split; [done|]).
        -- left. unfold detached. rewrite (qa_frame _ _ _ _ _ _ HQ); [done|done| |congruence].
           intros Hr. unfold requeues in Hr. by rewrite Hs in Hr.
        -- right. exists hd, ws. split; [done|]. split; [|done]. unfold waiting.
           rewrite (qa_frame _ _ _ _ _ _ HQ); [done|by destruct hd..].
    + assert (ks_threads s !! u = Some uh) as Hu'.
      { destruct (requeues cth); [|done]. by rewrite lookup_insert_ne in Hu. }
      eapply dispatch_placed_sys; try done. by eapply (sm_placed _ _ _ HM).
  - by eapply (dispatch_ipc L L' s p t ts); try done; apply HM.
  - destruct (sm_timers _ _ _ HM) as [tms HT]. exists tms. by eapply dispatch_timers.
  - destruct (sm_idle _ _ _ HM) as [->|(i & us & Hi & Hq & Hin)].
    + right. destruct Hst as [Hr|[_ ?]]; [|done]. apply Hrq. by eapply runs_requeues.
    + destruct (queues_after_keep L L' p t ts _ cth Hh HQ i us idle Hi Hq Hin) as [->|(us' & ? & ?)]; [by left|].
      right. by exists i, us'.
  - simpl. pose proof (sm_null _ _ _ HM) as HN. rewrite lookup_insert_ne by (intros ->; congruence).
    destruct (requeues cth); [|done]. rewrite lookup_insert_ne; [done|]. intros E. rewrite E in Hc. congruence.
Qed.

(** The requested switch, in an interrupt of the thread [a]: none while [a] is
    still the current thread, otherwise from [a] to the current thread. *)
Definition request_for (a : Z) s : Prop :=
  (sw_flag (ks_switch s) = 0 /\ ks_current s = a) \/
  (sw_flag (ks_switch s) = 1 /\ sw_from (ks_switch s) = thread_sp a /\
   sw_to (ks_switch s) = thread_sp (ks_current s)).

(** The same objects exist. *)
Record same_objects s s' : Prop := {
  so_sems : forall x, is_Some (ks_sems s' !! x) <-> is_Some (ks_sems s !! x);
  so_mutexes : forall x, is_Some (ks_mutexes s' !! x) <-> is_Some (ks_mutexes s !! x);
  so_events : forall x, is_Some (ks_events s' !! x) <-> is_Some (ks_events s !! x);
  so_mailboxes : forall x, is_Some (ks_mailboxes s' !! x) <-> is_Some (ks_mailboxes s !! x)
}.

Lemma same_objects_refl s : same_objects s s.
Proof. by split. Qed.

Lemma same_objects_sym s s' : same_objects s s' -> same_objects s' s.
Proof. intros []. by split. Qed.

Lemma same_objects_trans s1 s2 s3 : same_objects s1 s2 -> same_objects s2 s3 -> same_objects s1 s3.
Proof. intros [] []. split; intros x; etrans; eauto. Qed.

Lemma same_objects_eq s s' :
  ks_sems s' = ks_sems s -> ks_mutexes s' = ks_mutexes s -> ks_events s' = ks_events s ->
  ks_mailboxes s' = ks_mailboxes s -> same_objects s s'.
Proof. intros E1 E2 E3 E4. split; intros x; rewrite ?E1, ?E2, ?E3, ?E4; done. Qed.

#[local] Hint Extern 1 (same_objects _ _) => apply same_objects_eq; reflexivity : core.

(** What the steps of the kernel leave alone. *)
Record same_frame s s' : Prop := {
  sf_nest : ks_nest s' = ks_nest s;
  sf_tick : ks_tick s' = ks_tick s;
  sf_io : ks_io s' = ks_io s;
  sf_mem : ks_mem s' = ks_mem s;
  sf_heap : ks_heap s' = ks_heap s;
  sf_threads : forall t, is_Some (ks_threads s' !! t) <-> is_Some (ks_threads s !! t);
  sf_objects : same_objects s s'
}.

Lemma same_frame_refl s : same_frame s s.
Proof. by split; auto. Qed.

Lemma same_frame_trans s1 s2 s3 : same_frame s1 s2 -> same_frame s2 s3 -> same_frame s1 s3.
Proof.
  intros [] []. split; try congruence; [intros t; etrans; eauto|by eapply same_objects_trans].
Qed.

Lemma insert_dom {A} (m : gmap Z A) t th a u :
  m !! t = Some th -> is_Some (<[t := a]> m !! u) <-> is_Some (m !! u).
Proof. intros Ht. rewrite lookup_insert. case_decide; [subst|done]. rewrite Ht. split; eauto. Qed.

Lemma dispatched_dom s cth t th h g u :
  ks_threads s !! ks_current s = Some cth -> ks_threads s !! t = Some th -> t <> ks_current s ->
  is_Some (ks_threads (dispatched (masked s) (ks_current s) cth t th h g) !! u) <-> is_Some (ks_threads s !! u).
Proof.
  intros Hc Ht Hne. simpl. destruct (requeues cth).
  - erewrite insert_dom by (rewrite lookup_insert_ne by done; exact Ht). by eapply insert_dom.
  - by eapply insert_dom.
Qed.

(** A suspended thread never keeps the processor: at least [idle] is ready. *)
Lemma keeps_runs idle L s cth :
  sys_mid idle L s -> keeps L cth ->
  (runs L (ks_current s) cth \/ (off L (ks_current s) cth /\ ks_current s <> idle)) ->
  runs L (ks_current s) cth.
Proof.
  intros HM Hk [?|[[Hst _] Hni]]; [done|]. exfalso.
  destruct (sm_idle _ _ _ HM) as [?|(i & us & Hi & Hq & Hin)]; [congruence|].
  destruct (Hk i us Hi Hq) as [->|[E _]]; [by apply elem_of_nil in Hin|]. by rewrite Hst in E.
Qed.

(** The scheduler in thread context: it returns at once, or another thread has the
    processor, and the call returns when the thread gets it back. *)
Lemma schedule_thread idle L s :
  sys_mid idle L s -> ks_nest s = 0 ->
  (sk_schedule s = Done s tt /\ sys_inv idle L s) \/
  exists s' k L', sk_schedule s = Switch s' k /\ (forall s2, k s2 = hw_interrupt_enable (ks_daif s) s2) /\
    sys_inv idle L' s' /\ same_frame s s' /\ ks_switch s' = ks_switch s /\ ks_daif s' = 0xC0 /\
    ks_current s' <> ks_current s.
Proof.
  intros HM Hn. destruct (mid_cur_ok _ _ _ HM) as (cth & HC & Hst). pose proof (sm_sched _ _ _ HM) as HI.
  destruct (schedule_spec L s cth HI HC) as [[Hrun Hk]|(p & t & ts & th & h & g & L' & H)].
  - left. split; [done|]. split; [done|]. exists cth. split; [apply HC|]. by eapply keeps_runs.
  - right. destruct H as (Hh & Ht & Hne & _ & HI' & Hd & HQ & Hrun). rewrite Hn in Hrun.
    destruct Hrun as (k & Hrun & Hk). eexists _, k, L'. split; [exact Hrun|]. split; [done|].
    split; [by eapply dispatch_inv|]. split; [|done]. split; try done.
    intros u. apply dispatched_dom; [apply HC|done|done].
Qed.

(** ** Waking without suspending *)

(** A thread that has the processor or is ready for it; a suspended one. *)
Definition awake L s (t : Z) : Prop := ks_current s = t \/ queued L t.

Definition asleep L s (t : Z) (th : sk_thread) : Prop :=
  ks_threads s !! t = Some th /\ off L t th /\ ks_current s <> t.

(** What an interrupt does to the threads: nobody who is awake is suspended, and
    only the threads of [X] are woken. *)
Record wakes (X : Z -> Prop) L s L' s' : Prop := {
  wk_awake : forall t, awake L s t -> awake L' s' t;
  wk_asleep : forall t th, asleep L s t th -> ~ X t -> asleep L' s' t th
}.

Lemma wakes_refl X L s s' : ks_threads s' = ks_threads s -> ks_current s' = ks_current s -> wakes X L s L s'.
Proof. intros Et Ec. split; unfold awake, asleep; rewrite ?Et, Ec; done. Qed.

Lemma wakes_trans X L1 s1 L2 s2 L3 s3 : wakes X L1 s1 L2 s2 -> wakes X L2 s2 L3 s3 -> wakes X L1 s1 L3 s3.
Proof. intros [] []. split; auto. Qed.

Lemma wakes_mono (X Y : Z -> Prop) L s L' s' : (forall t, X t -> Y t) -> wakes X L s L' s' -> wakes Y L s L' s'.
Proof. intros H []. split; auto. Qed.

Lemma wakes_current X L s s' g :
  ks_current s' = ks_current s -> ks_threads s' = <[ks_current s := g]> (ks_threads s) -> wakes X L s L s'.
Proof.
  intros Ec Et. split; unfold awake, asleep; rewrite Ec, ?Et; [done|].
  intros t th (Ht & Ho & Hc) _. split; [by rewrite lookup_insert_ne|done].
Qed.

(** A switch from a running thread. *)
Lemma dispatch_wakes X L L' s p t ts cth th h g :
  sched_inv L s -> highest L p t ts -> queues_after L L' p t (ks_current s) cth -> requeues cth = true ->
  ks_threads s !! ks_current s = Some cth ->
  wakes X L s L' (dispatched (masked s) (ks_current s) cth t th h g).
Proof.
  intros HI Hh HQ Hrq Hc. split.
  - intros u [<-|(i & us & Hi & Hq & Hin)].
    + right. destruct (si_thread _ _ HI _ _ Hc) as [Hp _]. destruct (si_queue _ _ HI _ Hp) as (us & Hus & _).
      eexists (current_pri cth), _. split; [done|]. split; [by apply (qa_queue _ _ _ _ _ _ HQ)|].
      rewrite Hrq, Z.eqb_refl. simpl. set_solver.
    + destruct (queues_after_keep L L' p t ts _ cth Hh HQ i us u Hi Hq Hin) as [E|(us' & Hq' & Hin')];
        [by left|right; by exists i, us'].
  - intros u uh (Hu & Ho & Hne) _. destruct Hh as (_ & Hq & _).
    assert (u <> t) as Hut.
    { intros ->. by apply (off_not_queued L s t uh p (t :: ts) HI Ho Hq); left. }
    split; [simpl; rewrite lookup_insert_ne by done; rewrite Hrq; by rewrite lookup_insert_ne|]. split; [|done].
    destruct Ho as [Hst [Hd|(hd & ws & Hhd & Hw & Hin)]]; (split; [done|]).
    + left. unfold detached. rewrite (qa_frame _ _ _ _ _ _ HQ); [done|done|congruence|congruence].
    + right. exists hd, ws. split; [done|]. split; [|done]. unfold waiting.
      rewrite (qa_frame _ _ _ _ _ _ HQ); [done|by destruct hd..].
Qed.

(** The scheduler in an interrupt returns. *)
Lemma schedule_interrupt idle L s a :
  sys_inv idle L s -> ks_nest s <> 0 -> request_for a s ->
  exists s' L', sk_schedule s = Done s' tt /\ sys_inv idle L' s' /\ same_frame s s' /\ request_for a s' /\
    ks_daif s' = ks_daif s /\ ks_timers s' = ks_timers s /\ ks_objs s' = ks_objs s /\
    L' !! NTimerList = L !! NTimerList /\ forall X, wakes X L s L' s'.
Proof.
  intros HV Hn HQ. pose proof (sv_mid _ _ _ HV) as HM. pose proof (sm_sched _ _ _ HM) as HI.
  destruct (mid_cur_ok _ _ _ HM) as (cth & HC & Hst). destruct (sv_runs _ _ _ HV) as (c & Hc & Hr).
  assert (c = cth) as -> by (pose proof (co_thread _ _ _ HC); congruence).
  destruct (schedule_spec L s cth HI HC) as [[Hrun Hk]|(p & t & ts & th & h & g & L' & H)].
  - exists s, L. do 2 (split; [done|]). split; [apply same_frame_refl|]. do 5 (split; [done|]).
    intros X. by apply wakes_refl.
  - destruct H as (Hh & Ht & Hne & _ & HI' & Hd & HA & Hrun). rewrite (proj2 (Z.eqb_neq _ _) Hn) in Hrun.
    eexists _, L'. split; [exact Hrun|]. split; [|split; [|split]].
    + eapply inv_core; [by eapply (dispatch_inv idle L L' s)|done|apply HI].
    + split; try done. intros u. apply dispatched_dom; [apply HC|done|done].
    + right. unfold request_for. simpl. destruct HQ as [[Hf Ha]|(Hf & Hfr & _)]; rewrite Hf; simpl; [|done].
      by rewrite Ha.
    + do 3 (split; [done|]). split; [by apply (qa_frame _ _ _ _ _ _ HA)|]. intros X.
      eapply wakes_trans; [eapply (dispatch_wakes X L L' s p t ts cth th h g HI Hh HA (runs_requeues _ _ _ Hr) Hc)|].
      by apply wakes_refl.
Qed.

(** ** Waking a thread *)

Lemma filter_waiters t (ws : list Z) :
  filter (fun n => n <> NTlist t) (NTlist <$> ws) = NTlist <$> filter (fun w => w <> t) ws.
Proof.
  induction ws as [|w ws IH]; [done|]. rewrite fmap_cons. destruct (decide (w = t)) as [->|Hw].
  - rewrite !filter_cons_False by tauto. done.
  - rewrite !filter_cons_True by congruence. by rewrite fmap_cons, IH.
Qed.

Definition abs_filter (t : Z) (a : mutex_abs) : mutex_abs :=
  match a with MFree => MFree | MHeld u n ws => MHeld u n (filter (fun w => w <> t) ws) end.

Section wake.
Context (idle : Z) (L L1 : lists) (s : kstate) (t : Z) (th : sk_thread) (h1 : gmap node (sk_list_node node)).
Context (g : Z) (ts : list Z).
Hypothesis HV : sys_inv idle L s.
Hypothesis Ht : ks_threads s !! t = Some th.
Hypothesis Hne : t <> ks_current s.
Hypothesis HU : unlinks L s t th h1 L1 g.
Hypothesis Hts : queue L1 (current_pri th) ts.

Notation L' := (enqueue L1 t (current_pri th) ts).

Lemma wake_lists hd : (forall i, hd <> NPrio i) -> hd <> NTlist t ->
  L' !! hd = filter (fun n => n <> NTlist t) <$> L !! hd.
Proof.
  intros H1 H2. unfold enqueue. rewrite lookup_insert_ne, lookup_delete_ne by congruence.
  by apply (ul_lists _ _ _ _ _ _ _ HU).
Qed.

Lemma wake_queued u : queued L u -> queued L' u.
Proof.
  intros (i & us & Hi & Hq & Hin). pose proof (sm_sched _ _ _ (sv_mid _ _ _ HV)) as HI.
  destruct (decide (u = t)) as [->|Hu].
  - exists (current_pri th), (ts ++ [t]). split; [by apply (si_thread _ _ HI t)|].
    unfold queue, enqueue. rewrite lookup_insert_eq. split; [done|set_solver].
  - destruct (ul_stays _ _ _ _ _ _ _ HU i us u Hq Hin Hu) as (us' & Hq' & Hin').
    destruct (decide (i = current_pri th)) as [->|Hip].
    + exists (current_pri th), (ts ++ [t]). split; [done|]. unfold queue, enqueue. rewrite lookup_insert_eq.
      split; [done|]. rewrite (queue_inj _ _ _ _ Hq' Hts) in Hin'. set_solver.
    + exists i, us'. split; [done|]. split; [by apply queue_insert_other|done].
Qed.

Lemma wake_joins : queued L' t.
Proof.
  exists (current_pri th), (ts ++ [t]). split; [by apply (si_thread _ _ (sm_sched _ _ _ (sv_mid _ _ _ HV)) t)|].
  unfold queue, enqueue. rewrite lookup_insert_eq. split; [done|set_solver].
Qed.

Lemma wake_detached u : u <> t -> detached L u -> detached L' u.
Proof.
  intros Hu Hd. unfold detached. rewrite wake_lists by congruence. unfold detached in Hd. by rewrite Hd.
Qed.

Lemma wake_waiting hd ws : wait_head hd -> waiting L hd ws -> waiting L' hd (filter (fun w => w <> t) ws).
Proof.
  intros Hh Hw. unfold waiting. rewrite wake_lists by (by destruct hd).
  unfold waiting in Hw. rewrite Hw. simpl. by rewrite filter_waiters.
Qed.

Lemma wake_off u uh : u <> t -> off L u uh -> off L' u uh.
Proof.
  intros Hu [Hs [Hd|(hd & ws & Hh & Hw & Hin)]]; (split; [done|]).
  - left. by apply wake_detached.
  - right. exists hd, (filter (fun w => w <> t) ws). split; [done|]. split; [by apply wake_waiting|].
    by apply list_elem_of_filter.
Qed.

Lemma wake_ipc s' :
  ks_threads s' = <[t := set_stat SK_THREAD_READY th]> (ks_threads s) -> ks_objs s' = ks_objs s ->
  ks_sems s' = ks_sems s -> ks_mutexes s' = ks_mutexes s -> ks_events s' = ks_events s ->
  ks_mailboxes s' = ks_mailboxes s -> ipc_ok L' s'.
Proof.
  intros Et Eo Es Em Ee Eb. destruct (sm_ipc _ _ _ (sv_mid _ _ _ HV)) as [I1 I2 I3 I4 I5].
  split; rewrite ?Es, ?Em, ?Eo, ?Et; try done.
  - intros hd xs Hh Hl. rewrite wake_lists in Hl by (by destruct hd).
    destruct (L !! hd) as [zs|] eqn:E; [|done]. destruct (I1 hd zs Hh E) as (ws & -> & Hws).
    simpl in Hl. rewrite filter_waiters in Hl. injection Hl as <-. eexists. split; [reflexivity|].
    intros w [Hw Hin]%list_elem_of_filter. rewrite lookup_insert_ne by done. by apply Hws.
  - intros sem v Hv. destruct (I2 sem v Hv) as (ws & o & Hw & Hr & Hx & Ho & Hf & Hn). eexists _, o.
    split; [apply (wake_waiting (NSuspend sem) ws I Hw)|]. split; [done|]. split.
    { intros H. apply Hx. by intros ->. }
    do 2 (split; [done|]). intros u Hu. apply Hn. by rewrite <- (insert_dom _ _ _ (set_stat SK_THREAD_READY th) u Ht).
  - intros mx m Hm. destruct (I3 mx m Hm) as (a & Ha & Hw). exists (abs_filter t a). split; [by destruct a|].
    destruct a as [|u n ws]; [exact (wake_waiting (NSuspend mx) [] I Hw)|exact (wake_waiting (NSuspend mx) ws I Hw)].
  - eapply boxes_ext; [exact I5|..]; rewrite ?Eo, ?Et; eauto.
    + intros hd ws Hh Hw. eexists. by apply wake_waiting.
    + intros u Hu. by rewrite <- (insert_dom _ _ _ (set_stat SK_THREAD_READY th) u Ht).
Qed.

Lemma wake_timers s' tms :
  (forall u, is_Some (ks_threads s' !! u) <-> is_Some (ks_threads s !! u)) ->
  ks_timers s' = ks_timers s -> ks_objs s' = ks_objs s -> timers_ok L s tms -> timers_ok L' s' tms.
Proof.
  intros Hdom Em Eo [H1 H2 H3].
  assert (timers_on L' tms) as Hon.
  { unfold timers_on. rewrite wake_lists by done. unfold timers_on in H1. rewrite H1. simpl.
    rewrite filter_absent; [done|]. intros (x & ? & _)%list_elem_of_fmap. done. }
  split; [done| |].
  - intros u Hu. destruct (H2 u (proj1 (Hdom u) Hu)) as (tmr & o & [A B C D] & Hf). exists tmr, o. split; [|done].
    split; rewrite ?Em, ?Eo; try done. destruct D as [D|D]; [by left|right].
    rewrite wake_lists by done. by rewrite D.
  - intros tm Hin. destruct (H3 tm Hin) as (u & ? & ?). exists u. by rewrite Hdom.
Qed.

(** The thread has left the list it was on and joined its ready queue. *)
Lemma wake_inv h :
  sched_inv L' (inserted t th h s) -> sys_inv idle L' (inserted t th h s) /\ L' !! NTimerList = L !! NTimerList.
Proof.
  intros HS. destruct HV as [HM (cth & Hc & Hr)].
  assert (forall u, is_Some (ks_threads (inserted t th h s) !! u) <-> is_Some (ks_threads s !! u)) as Hdom
    by (intros u; by apply (insert_dom _ _ th)).
  assert (exists cth, ks_threads (inserted t th h s) !! ks_current s = Some cth /\ runs L' (ks_current s) cth) as Hcur.
  { exists cth. split; [simpl; by rewrite lookup_insert_ne|]. destruct Hr as [Hs Hd]. split; [done|].
    apply wake_detached; [congruence|done]. }
  split; [split; [|done]; split; try done|].
  - destruct Hcur as (c & ? & ?). exists c. auto.
  - intros u uh Hu Huc. change (ks_current (inserted t th h s)) with (ks_current s) in Huc.
    simpl in Hu. apply lookup_insert_Some in Hu as [[<- <-]|[Hut Hu]]; [left; apply wake_joins|].
    destruct (sm_placed _ _ _ HM u uh Hu Huc) as [Hq|Ho]; [left; by apply wake_queued|right; by apply wake_off].
  - by apply wake_ipc.
  - destruct (sm_timers _ _ _ HM) as [tms HT]. exists tms. by apply wake_timers.
  - destruct (sm_idle _ _ _ HM) as [->|Hi]; [by left|right; by apply wake_queued].
  - simpl. rewrite lookup_insert_ne; [apply HM|]. intros E. pose proof (sm_null _ _ _ HM). congruence.
  - destruct (sm_timers _ _ _ HM) as [tms HT]. rewrite wake_lists by done. rewrite (tk_list _ _ _ HT). simpl.
    rewrite filter_absent; [done|]. intros (x & ? & _)%list_elem_of_fmap. done.
Qed.

Lemma wake_wakes h : wakes (fun u => u = t) L s L' (inserted t th h s).
Proof.
  split.
  - intros u [Hu|Hu]; [by left|right; by apply wake_queued].
  - intros u uh (Hu & Ho & Hc) Hut. split; [simpl; by rewrite lookup_insert_ne|]. split; [by apply wake_off|done].
Qed.

End wake.

Lemma inv_placed idle L s t th : sys_inv idle L s -> ks_threads s !! t = Some th -> thread_placed L t th.
Proof.
  intros [HM (cth & Hc & Hr)] Ht. destruct (decide (t = ks_current s)) as [->|Hne]; [left; apply Hr|].
  pose proof (sm_sched _ _ _ HM) as HI.
  destruct (sm_placed _ _ _ HM t th Ht Hne) as [(i & us & Hi & Hq & Hin)|[_ [Hd|(hd & ws & Hh & Hw & Hin)]]].
  - right; left. destruct (si_queue _ _ HI i Hi) as (us' & Hq' & Hus).
    rewrite (queue_inj _ _ _ _ Hq Hq') in Hin. destruct (Hus t Hin) as (th' & Ht' & Hp).
    assert (th' = th) as -> by congruence. exists us'. by rewrite Hp.
  - by left.
  - right; right. exists hd, (NTlist <$> ws). split; [done|]. split; [by apply list_elem_of_fmap_2|].
    by destruct hd.
Qed.

(** The list operations of [sk_thread_resume] and [sk_thread_timeout]. *)
Lemma wake_spec idle L s t th :
  sys_inv idle L s -> ks_threads s !! t = Some th -> t <> ks_current s ->
  exists h1 h L', sk_list_del (NTlist t) (ks_nodes s) = Some h1 /\
    sk_list_add_tail (NPrio (current_pri th)) (NTlist t) h1 = Some h /\
    sys_inv idle L' (inserted t th h s) /\ L' !! NTimerList = L !! NTimerList /\
    wakes (fun u => u = t) L s L' (inserted t th h s) /\ queued L' t.
Proof.
  intros HV Ht Hne. pose proof (sm_sched _ _ _ (sv_mid _ _ _ HV)) as HI.
  destruct (unlink_spec L s t th HI Ht (inv_placed _ _ _ _ _ HV Ht)) as (h1 & L1 & g & HU).
  destruct (si_thread _ _ HI t th Ht) as [Hp _]. pose proof (ul_inv _ _ _ _ _ _ _ HU) as HS1.
  destruct (si_queue _ _ HS1 _ Hp) as (ts & Hts & _).
  destruct (insert_link_spec L1 _ t th ts HS1 Ht (ul_detached _ _ _ _ _ _ _ HU) Hts) as (h & Hadd & HS2).
  assert (inserted t th h (upd_group (fun _ => g) (upd_nodes (fun _ => h1) s)) = inserted t th h s) as Es.
  { unfold inserted, upd_group. cbn [ks_group upd_nodes upd_threads]. by rewrite (ul_group _ _ _ _ _ _ _ HU). }
  rewrite Es in HS2. exists h1, h. eexists. split; [apply HU|]. split; [exact Hadd|].
  destruct (wake_inv idle L L1 s t th h1 g ts HV Ht Hne HU Hts h HS2) as [HV' Hl]. split; [done|]. split; [done|].
  split; [by apply (wake_wakes idle L L1 s t th h1 g ts)|by apply (wake_joins idle L L1 s t th h1 g ts)].
Qed.

Lemma resume_sys idle L s t th :
  sys_inv idle L s -> ks_threads s !! t = Some th -> t <> ks_current s -> stat th = SK_THREAD_SUSPEND ->
  exists h L', sk_thread_resume t s = Done (inserted t th h s) SK_EOK /\ sys_inv idle L' (inserted t th h s).
Proof.
  intros HV Ht Hne Hst. pose proof (sm_sched _ _ _ (sv_mid _ _ _ HV)) as HI.
  destruct (wake_spec idle L s t th HV Ht Hne) as (h1 & h & L' & Hdel & Hadd & HV' & _).
  exists h, L'. split; [|done]. unfold sk_thread_resume, get_thread.
  erewrite bind_done by (apply read_at_ok; exact Ht). rewrite Hst, Z.eqb_refl. kif.
  kstep (disable_ok s (si_irq _ _ HI)). unfold list_del. erewrite bind_done by (apply on_nodes_ok; exact Hdel).
  erewrite bind_done by (apply insert_thread_run; [by right|exact Ht|exact Hne|exact Hadd]).
  erewrite bind_done by (apply enable_ok; [apply HI|done]). unfold mret, M_ret. by destruct s.
Qed.

(** A change of the state of the running thread. *)
Lemma inv_running idle L s th g :
  sys_inv idle L s -> ks_threads s !! ks_current s = Some th ->
  stat (g th) & SK_THREAD_MASK = SK_THREAD_RUNNING -> current_pri (g th) = current_pri th ->
  number_mask (g th) = number_mask th ->
  sys_inv idle L (upd_threads (<[ks_current s := g th]>) s).
Proof.
  intros [HM (cth & Hc & Hr)] Hth Hst Hp Hm. pose proof (sm_sched _ _ _ HM) as HI.
  assert (forall u, is_Some (<[ks_current s := g th]> (ks_threads s) !! u) <-> is_Some (ks_threads s !! u)) as Hdom
    by (intros u; by apply (insert_dom _ _ th)).
  assert (forall u, u <> ks_current s -> <[ks_current s := g th]> (ks_threads s) !! u = ks_threads s !! u) as Hoth
    by (intros; by apply lookup_insert_ne).
  assert (exists c, <[ks_current s := g th]> (ks_threads s) !! ks_current s = Some c /\ runs L (ks_current s) c) as Hcur.
  { exists (g th). rewrite lookup_insert_eq. split; [done|]. split; [done|apply Hr]. }
  split; [|done]. split; try done.
  - split; try apply HI.
    + intros i Hi. destruct (si_queue _ _ HI i Hi) as (us & Hq & Hus). exists us. split; [done|].
      intros u Hu. destruct (Hus u Hu) as (uh & Huh & Hup). simpl. destruct (decide (u = ks_current s)) as [->|Hne].
      * exists (g th). rewrite lookup_insert_eq. split; [done|]. rewrite Hp. congruence.
      * exists uh. by rewrite Hoth.
    + intros u uh. simpl. intros [[<- <-]|[_ Hu]]%lookup_insert_Some; [|by apply (si_thread _ _ HI u)].
      rewrite Hp, Hm. by apply (si_thread _ _ HI (ks_current s)).
  - destruct Hcur as (c & ? & ?). exists c. auto.
  - intros u uh Hu Hne. simpl in Hu, Hne. rewrite Hoth in Hu by done. by apply (sm_placed _ _ _ HM u uh).
  - eapply ipc_ok_frame; [apply HM|done|intros u; apply Hdom| |done..].
    intros hd ws w wh Hh Hw Hin Hwh. exists wh. split; [|done]. simpl. rewrite Hoth; [done|]. intros ->.
    destruct Hr as [_ Hd]. unfold detached in Hd.
    rewrite (rep_head_alone _ _ _ _ (NTlist (ks_current s)) (si_rep _ _ HI) Hw) in Hd; [done|].
    by apply list_elem_of_fmap_2.
  - destruct (sm_timers _ _ _ HM) as [tms HT]. exists tms. by eapply timers_ok_ext.
  - apply HM.
  - simpl. rewrite Hoth; [apply HM|]. intros E. pose proof (sm_null _ _ _ HM) as HN. rewrite E in HN. congruence.
Qed.
End invariant.

#[export] Hint Extern 1 (same_objects _ _) => apply same_objects_eq; reflexivity : core.

(** ** Checking the invariant on a concrete state *)

Definition queued_check (L : lists) (t : Z) : bool :=
  existsb (fun i => bool_decide (NTlist t ∈ default [] (L !! NPrio i))) (seqZ 0 32).

Definition is_wait (n : node) : bool := match n with NSuspend _ | NSender _ => true | _ => false end.

Definition off_check (L : lists) (t : Z) (th : sk_thread) : bool :=
  (stat th =? SK_THREAD_SUSPEND) &&
  (bool_decide (L !! NTlist t = Some []) ||
   existsb (fun p : node * list node => is_wait p.1 && bool_decide (NTlist t ∈ p.2)) (map_to_list L)).

Definition timer_of_node (n : node) : option Z := match n with NTimer tm => Some tm | _ => None end.

Definition timers_check (L : lists) (s : kstate) : bool :=
  match L !! NTimerList ≫= mapM timer_of_node with
  | Some tms =>
      forallb (fun p =>
        match ks_timers s !! thread_timer p.1, ks_objs s !! thread_timer p.1 with
        | Some tmr, Some o =>
            (bool_decide (thread_timer p.1 ∈ tms) || bool_decide (L !! NTimer (thread_timer p.1) = Some [])) &&
            (timeout_func tmr =? FN_sk_thread_timeout) && (tparam tmr =? p.1) && negb (periodic o)
        | _, _ => false
        end) (map_to_list (ks_threads s)) &&
      forallb (fun tm => bool_decide (is_Some (ks_threads s !! (tm - 120)))) tms
  | None => false
  end.

Definition wait_check (s : kstate) (p : node * list node) : bool :=
  negb (is_wait p.1) ||
  match mapM thread_of p.2 with
  | Some ws => forallb (fun w => match ks_threads s !! w with
                                 | Some wh => stat wh =? SK_THREAD_SUSPEND
                                 | None => false
                                 end) ws
  | None => false
  end.

Definition sem_check (L : lists) (s : kstate) (p : Z * Z) : bool :=
  match L !! NSuspend p.1, ks_objs s !! p.1 with
  | Some xs, Some o =>
      (0 <=? p.2) && (p.2 <=? SK_SEM_VALUE_MAX) && (bool_decide (xs = []) || (p.2 =? 0)) &&
      ((obj_flag o =? SK_IPC_FLAG_FIFO) || (obj_flag o =? SK_IPC_FLAG_PRIO)) &&
      bool_decide (ks_threads s !! (p.1 - 120) = None) && bool_decide (ks_mutexes s !! p.1 = None)
  | _, _ => false
  end.

Definition mutex_check (L : lists) (p : Z * sk_mutex) : bool :=
  match L !! NSuspend p.1 with
  | Some xs =>
      bool_decide (xs = []) && (mvalue p.2 =? 1) && (owner p.2 =? SK_NULL) && (hold p.2 =? 0) ||
      (mvalue p.2 =? 0) && negb (owner p.2 =? SK_NULL) && (1 <=? hold p.2) && (hold p.2 <=? SK_MUTEX_HOLD_MAX)
  | None => false
  end.

Definition obj_check (L : lists) (s : kstate) (x : Z) : bool :=
  match L !! NSuspend x, ks_objs s !! x with
  | Some _, Some o =>
      ((obj_flag o =? SK_IPC_FLAG_FIFO) || (obj_flag o =? SK_IPC_FLAG_PRIO)) &&
      bool_decide (ks_threads s !! (x - 120) = None) && bool_decide (ks_sems s !! x = None) &&
      bool_decide (ks_mutexes s !! x = None)
  | _, _ => false
  end.

Definition mailbox_check (L : lists) (s : kstate) (p : Z * sk_mailbox) : bool :=
  obj_check L s p.1 && bool_decide (is_Some (L !! NSender p.1)) &&
  (0 <? mb_size p.2) && (mb_size p.2 <? 2 ^ 16) && (0 <=? in_offset p.2) && (in_offset p.2 <? mb_size p.2) &&
  (0 <=? out_offset p.2) && (out_offset p.2 <? mb_size p.2) && (0 <=? mb_entry p.2) && (mb_entry p.2 <=? mb_size p.2).

Definition boxes_check (L : lists) (s : kstate) : bool :=
  forallb (fun p => obj_check L s p.1) (map_to_list (ks_events s)) &&
  forallb (mailbox_check L s) (map_to_list (ks_mailboxes s)).

Definition sys_check (idle : Z) (L : lists) (s : kstate) : bool :=
  sched_check L s &&
  match ks_threads s !! ks_current s with
  | Some cth => (stat cth & SK_THREAD_MASK =? SK_THREAD_RUNNING) && bool_decide (L !! NTlist (ks_current s) = Some [])
  | None => false
  end &&
  forallb (fun p => (p.1 =? ks_current s) || queued_check L p.1 || off_check L p.1 p.2) (map_to_list (ks_threads s)) &&
  timers_check L s && forallb (wait_check s) (map_to_list L) &&
  forallb (sem_check L s) (map_to_list (ks_sems s)) && forallb (mutex_check L) (map_to_list (ks_mutexes s)) &&
  boxes_check L s && ((idle =? ks_current s) || queued_check L idle) && bool_decide (ks_threads s !! SK_NULL = None).

Lemma forallb_map {A} (f : Z * A -> bool) (m : gmap Z A) k a :
  forallb f (map_to_list m) = true -> m !! k = Some a -> f (k, a) = true.
Proof. rewrite forallb_forall. intros H Hk. apply H, list_elem_of_In. by apply elem_of_map_to_list. Qed.

Section check.
Implicit Types (L : lists) (s : kstate).

Lemma queued_check_sound L s t : sched_inv L s -> queued_check L t = true -> queued L t.
Proof.
  intros HI (i & Hi & Ht)%existsb_exists. apply list_elem_of_In, elem_of_seqZ in Hi. apply bool_decide_eq_true in Ht.
  destruct (si_queue _ _ HI i) as (us & Hq & _); [lia|]. exists i, us. split; [lia|]. split; [done|].
  unfold queue in Hq. rewrite Hq in Ht. simpl in Ht. by apply list_elem_of_fmap_inj in Ht; [|apply _].
Qed.

Lemma is_wait_head n : is_wait n = true -> wait_head n.
Proof. by destruct n. Qed.

Lemma wait_check_sound L s hd xs :
  forallb (wait_check s) (map_to_list L) = true -> wait_head hd -> L !! hd = Some xs ->
  exists ws, xs = NTlist <$> ws /\
    forall w, w ∈ ws -> exists wh, ks_threads s !! w = Some wh /\ stat wh = SK_THREAD_SUSPEND.
Proof.
  intros H Hh Hl. rewrite forallb_forall in H.
  specialize (H (hd, xs) (proj1 (list_elem_of_In _ _) (proj2 (elem_of_map_to_list _ _ _) Hl))).
  unfold wait_check in H. simpl in H. destruct (is_wait hd) eqn:E; [|by destruct hd]. simpl in H.
  destruct (mapM thread_of xs) as [ws|] eqn:Ew; [|done]. exists ws. split; [by apply mapM_thread_of|].
  intros w Hin. rewrite forallb_forall in H. specialize (H w (proj1 (list_elem_of_In _ _) Hin)). simpl in H.
  destruct (ks_threads s !! w) as [wh|]; [|done]. exists wh. split; [done|]. by apply Z.eqb_eq.
Qed.

Lemma off_check_sound L s t th :
  forallb (wait_check s) (map_to_list L) = true -> off_check L t th = true -> off L t th.
Proof.
  intros HW [Hs H]%andb_true_iff. apply Z.eqb_eq in Hs. split; [done|]. apply orb_true_iff in H as [H|H].
  - left. by apply bool_decide_eq_true in H.
  - right. apply existsb_exists in H as ([hd xs] & Hin & [Hw Ht]%andb_true_iff). simpl in *.
    apply list_elem_of_In, elem_of_map_to_list in Hin. apply is_wait_head in Hw. apply bool_decide_eq_true in Ht.
    destruct (wait_check_sound L s hd xs HW Hw Hin) as (ws & -> & _). exists hd, ws. split; [done|]. split; [done|].
    by apply list_elem_of_fmap_inj in Ht; [|apply _].
Qed.

Lemma mapM_timer_of xs tms : mapM timer_of_node xs = Some tms -> xs = NTimer <$> tms.
Proof.
  revert tms; induction xs as [|x xs IH]; intros ts; simpl; [by intros [= <-]|].
  destruct x; simpl; try done. destruct (mapM timer_of_node xs) as [us|]; simpl; [|done].
  intros [= <-]. simpl. f_equal. by apply IH.
Qed.

Lemma timers_check_sound L s : timers_check L s = true -> exists tms, timers_ok L s tms.
Proof.
  unfold timers_check. destruct (L !! NTimerList) as [xs|] eqn:El; [|done]. simpl.
  destruct (mapM timer_of_node xs) as [tms|] eqn:Em; [|done]. apply mapM_timer_of in Em as ->.
  intros [H1 H2]%andb_true_iff. exists tms. split; [done| |].
  - intros t [th Ht]. pose proof (forallb_map _ _ t th H1 Ht) as H. simpl in H.
    destruct (ks_timers s !! thread_timer t) as [tmr|] eqn:E1; [|done].
    destruct (ks_objs s !! thread_timer t) as [o|] eqn:E2; [|done].
    rewrite !andb_true_iff, orb_true_iff, !bool_decide_eq_true, !Z.eqb_eq, negb_true_iff in H.
    destruct H as [[[Hpl Hf] Hp] Hper]. exists tmr, o. by repeat split.
  - intros tm Hin. rewrite forallb_forall in H2. specialize (H2 tm (proj1 (list_elem_of_In _ _) Hin)).
    apply bool_decide_eq_true in H2. exists (tm - 120). split; [unfold thread_timer; lia|done].
Qed.

Lemma obj_check_sound L s x :
  forallb (wait_check s) (map_to_list L) = true -> obj_check L s x = true ->
  ipc_obj L s x /\ ks_sems s !! x = None /\ ks_mutexes s !! x = None.
Proof.
  intros HW. unfold obj_check. destruct (L !! NSuspend x) as [xs|] eqn:El; [|done].
  destruct (ks_objs s !! x) as [o|] eqn:Eo; [|done].
  rewrite !andb_true_iff, orb_true_iff, !bool_decide_eq_true, !Z.eqb_eq. intros [[[H1 H2] H3] H4].
  split; [|done]. destruct (wait_check_sound L s (NSuspend x) xs HW Logic.I El) as (ws & -> & _).
  split; [by exists ws|]. split; [by exists o|]. intros t [th Ht] ->. unfold thread_timer in H2.
  by replace (t + 120 - 120) with t in H2 by lia; rewrite Ht in H2.
Qed.

Lemma boxes_check_sound L s :
  forallb (wait_check s) (map_to_list L) = true -> boxes_check L s = true -> boxes_ok L s.
Proof.
  intros HW [H1 H2]%andb_true_iff.
  assert (forall mb b, ks_mailboxes s !! mb = Some b -> mailbox_check L s (mb, b) = true) as Hm
    by (intros mb b; by apply forallb_map).
  split.
  - intros ev [e He]. pose proof (forallb_map _ _ ev e H1 He) as H. by apply obj_check_sound.
  - intros mb b Hb. specialize (Hm mb b Hb). unfold mailbox_check in Hm. simpl in Hm.
    rewrite !andb_true_iff, bool_decide_eq_true, !Z.ltb_lt, !Z.leb_le in Hm.
    destruct Hm as [[[[[[[[[Ho [xs Hs]] ?] ?] ?] ?] ?] ?] ?] ?]. split; [by apply obj_check_sound|].
    destruct (wait_check_sound L s (NSender mb) xs HW Logic.I Hs) as (ws & -> & _). split; [by exists ws|].
    by split.
  - intros x [[e He]|[b Hb]]; apply (obj_check_sound L s x HW).
    + exact (forallb_map _ _ x e H1 He).
    + specialize (Hm x b Hb). unfold mailbox_check in Hm. rewrite !andb_true_iff in Hm. apply Hm.
Qed.

Lemma sys_check_sound idle L s : sys_check idle L s = true -> sys_inv idle L s.
Proof.
  unfold sys_check. rewrite !andb_true_iff, orb_true_iff, bool_decide_eq_true.
  intros [[[[[[[[[HS HC] HP] HT] HW] Hsem] Hmx] Hbx] Hid] Hnull]. apply sched_check_sound in HS.
  assert (exists cth, ks_threads s !! ks_current s = Some cth /\ runs L (ks_current s) cth) as Hr.
  { destruct (ks_threads s !! ks_current s) as [cth|]; [|done]. apply andb_true_iff in HC as [H1 H2].
    exists cth. split; [done|]. split; [by apply Z.eqb_eq|by apply bool_decide_eq_true in H2]. }
  split; [|done]. split; try done.
  - destruct Hr as (cth & ? & ?). exists cth. auto.
  - intros t th Ht Hne. pose proof (forallb_map _ _ t th HP Ht) as H. simpl in H.
    rewrite !orb_true_iff in H. destruct H as [[H|H]|H]; [apply Z.eqb_eq in H; congruence| |].
    + left. by eapply queued_check_sound.
    + right. by eapply off_check_sound.
  - split.
    + intros hd xs. by apply wait_check_sound.
    + intros sem v Hv. pose proof (forallb_map _ _ sem v Hsem Hv) as H. unfold sem_check in H. simpl in H.
      destruct (L !! NSuspend sem) as [xs|] eqn:El; [|done]. destruct (ks_objs s !! sem) as [o|] eqn:Eo; [|done].
      rewrite !andb_true_iff, !orb_true_iff, !bool_decide_eq_true, !Z.eqb_eq, !Z.leb_le in H.
      destruct H as [[[[[H1 H2] H3] H4] H5] H6].
      destruct (wait_check_sound L s (NSuspend sem) xs HW Logic.I El) as (ws & -> & _). exists ws, o.
      split; [done|]. split; [done|]. split; [|split; [done|split; [done|]]].
      * intros Hne. destruct H3 as [E|]; [|done]. by apply fmap_nil_inv in E.
      * intros t [th Ht] ->. unfold thread_timer in H5. by replace (t + 120 - 120) with t in H5 by lia; rewrite Ht in H5.
    + intros mx m Hm. pose proof (forallb_map _ _ mx m Hmx Hm) as H. unfold mutex_check in H. simpl in H.
      destruct (L !! NSuspend mx) as [xs|] eqn:El; [|done].
      destruct (wait_check_sound L s (NSuspend mx) xs HW Logic.I El) as (ws & -> & _).
      rewrite orb_true_iff, !andb_true_iff, bool_decide_eq_true, negb_true_iff, !Z.eqb_eq, Z.eqb_neq, !Z.leb_le in H.
      destruct H as [[[[H1 H2] H3] H4]|[[[H1 H2] H3] H4]].
      * exists MFree. split; [done|]. unfold waiting. rewrite El. by apply fmap_nil_inv in H1 as ->.
      * exists (MHeld (owner m) (hold m) ws). split; [done|]. done.
    + intros x [v Hv]. pose proof (forallb_map _ _ x v Hsem Hv) as H. unfold sem_check in H. simpl in H.
      destruct (L !! NSuspend x); [|done]. destruct (ks_objs s !! x); [|done].
      rewrite !andb_true_iff, !bool_decide_eq_true in H. apply H.
    + by apply boxes_check_sound.
  - by apply timers_check_sound.
  - destruct Hid as [E|H]; [left; by apply Z.eqb_eq in E|right; by eapply queued_check_sound].
Qed.

End check.
