(* ===== verification/SysTick.v ===== *)
(** * The timer interrupt in the system

    From the vector through the dispatch of interrupts, the tick, the end of a time
    slice and the timer check with its timeouts: the invariant of [SysInv] is kept,
    and the switch that is requested goes from the interrupted thread to the one that
    is then the current thread.  The handlers of other devices are behind the
    interface [Handlers]. *)

From S2P Require Import Prelude BaseDef KList Slab IoDef Kernel Sched KObj Timer Thread IpcBase Semaphore Mutex Bus Intc Board Boot SysInv.

Local Open Scope c_scope.

(** ** The timer interrupt *)

Section timeout.
Implicit Types (L : lists) (s : kstate).
(** The timeout of a thread, whatever it does and wherever it is. *)
Lemma timeout_sys idle a L s t th :
  sys_inv idle L s -> ks_daif s = 0xC0 -> ks_nest s <> 0 -> request_for a s -> ks_threads s !! t = Some th ->
  exists s' L', sk_thread_timeout t s = Done s' tt /\ sys_inv idle L' s' /\ same_frame s s' /\ request_for a s' /\
    ks_daif s' = 0xC0 /\ ks_timers s' = ks_timers s /\ ks_objs s' = ks_objs s /\
    L' !! NTimerList = L !! NTimerList /\ wakes (fun u => u = t) L s L' s' /\ awake L' s' t.
Proof.
  intros HV Hirq Hn HQ Ht. assert (irq_wf s) as Hwf by (by right).
  assert (masked s = s) as Hm by (destruct s; simpl in *; by subst).
  assert (exists s1 L1, (forall k : M unit, (level ← hw_interrupt_disable; list_del (NTlist t);;
      sk_schedule_insert_thread t;; hw_interrupt_enable level;; k) s = k s1) /\
    sys_inv idle L1 s1 /\ same_frame s s1 /\ ks_switch s1 = ks_switch s /\ ks_current s1 = ks_current s /\
    ks_daif s1 = 0xC0 /\ ks_timers s1 = ks_timers s /\ ks_objs s1 = ks_objs s /\
    L1 !! NTimerList = L !! NTimerList /\ wakes (fun u => u = t) L s L1 s1 /\ awake L1 s1 t)
    as (s1 & L1 & Hrun & HV1 & HF1 & Hsw & Hc1 & Hd1 & Htm1 & Hob1 & Hl1 & HW1 & Ha1).
  { destruct (decide (t = ks_current s)) as [->|Hne].
    - exists (upd_threads (<[ks_current s := set_stat SK_THREAD_RUNNING th]>) s), L. split_and!; try done.
      + intros k. kstep (disable_ok s Hwf). rewrite Hm. unfold list_del.
        destruct (sv_runs _ _ _ HV) as (cth & _ & _ & Hd).
        erewrite bind_done by (apply on_nodes_ok; apply (rep_del_self _ L); [apply HV|exact Hd]).
        replace (upd_nodes (fun _ => ks_nodes s) s) with s by (by destruct s).
        assert (sk_schedule_insert_thread (ks_current s) s =
          Done (upd_threads (<[ks_current s := set_stat SK_THREAD_RUNNING th]>) s) tt) as Hi.
        { unfold sk_schedule_insert_thread. kstep (disable_ok s Hwf). rewrite Hm.
          erewrite bind_done by reflexivity. rewrite Z.eqb_refl. unfold upd_thread. by apply update_at_ok. }
        kstep Hi. rewrite Hirq. erewrite bind_done by (apply enable_ok; [by right|done]).
        destruct s; simpl in *; by subst.
      + by apply (inv_running idle L s th (set_stat SK_THREAD_RUNNING)).
      + split; try done. intros u. by apply (insert_dom _ _ th).
      + by eapply wakes_current.
      + by left.
    - destruct (wake_spec idle L s t th HV Ht Hne) as (h1 & h & L' & Hdel & Hadd & HV' & Hl & HW & Hq).
      exists (inserted t th h s), L'. split_and!; try done.
      + intros k. kstep (disable_ok s Hwf). rewrite Hm. unfold list_del.
        erewrite bind_done by (apply on_nodes_ok; exact Hdel).
        erewrite bind_done by (apply insert_thread_run; [by right|exact Ht|exact Hne|exact Hadd]).
        rewrite Hirq. erewrite bind_done by (apply enable_ok; [by right|done]). destruct s; simpl in *; by subst.
      + split; try done. intros u. by apply (insert_dom _ _ th).
      + by right. }
  destruct (schedule_interrupt idle L1 s1 a HV1) as (s' & L' & Hsch & HV' & HF' & HQ' & Hd' & Htm' & Hob' & Hl' & HW').
  { rewrite (sf_nest _ _ HF1). done. }
  { unfold request_for. by rewrite Hsw, Hc1. }
  exists s', L'. split; [unfold sk_thread_timeout; by rewrite Hrun|].
  split; [done|]. split; [by eapply same_frame_trans|]. split; [done|]. do 4 (split; [congruence|]).
  split; [by eapply wakes_trans|by apply (wk_awake _ _ _ _ _ (HW' (fun _ => False)))].
Qed.

End timeout.

(** The timer of the thread has expired in [r]. *)
Definition expired (r : kstate) (t : Z) : Prop :=
  forall tmr, ks_timers r !! thread_timer t = Some tmr -> timeout_tick tmr <= ks_tick r.

(** The timers that have not expired in [r] are as they were. *)
Definition early_kept (r s : kstate) : Prop :=
  forall x t, ks_timers r !! x = Some t -> ks_tick r < timeout_tick t ->
    ks_timers s !! x = Some t /\ ks_objs s !! x = ks_objs r !! x.

(** What the timeout functions of the kernel keep in an interrupt of the thread [a],
    from the state [r] on. *)
Record tick_inv (idle a : Z) (R : lists) (r : kstate) (L : lists) (s : kstate) : Prop := {
  ti_inv : sys_inv idle L s;
  ti_nest : ks_nest s <> 0;
  ti_request : request_for a s;
  ti_frame : same_frame r s;
  ti_wakes : wakes (expired r) R r L s;
  ti_early : early_kept r s
}.

(** What the timer of a thread is for. *)
Definition tick_effect (tm : Z) (L : lists) (s : kstate) : Prop :=
  forall t, tm = thread_timer t -> awake L s t.

(** The timer check itself changes only timers and their list. *)
Lemma timer_only_timers L L' s s' tms :
  timers_ok L s tms -> timer_only L L' s s' -> exists tms', timers_ok L' s' tms'.
Proof.
  intros [H1 H2 H3] (Es & Hn & Htm & Hob & _ & tms0 & tms' & Hon & Hon' & Hp & Hpl & _).
  assert (tms0 = tms) as ->.
  { unfold timers_on in Hon, H1. rewrite H1 in Hon. injection Hon as E. symmetry. by apply list_fmap_eq_inj in E; [|apply _]. }
  assert (ks_threads s' = ks_threads s) as Et by (by rewrite Es).
  exists tms'. split; [done| |].
  - intros t. rewrite Et. intros Ht. destruct (H2 t Ht) as (tmr & o & [A B _ D] & Hf & Hpar & Hper).
    pose proof (Htm (thread_timer t)) as E1. rewrite A in E1.
    destruct (ks_timers s' !! thread_timer t) as [tmr'|] eqn:A'; [|done]. injection E1 as E1 E2.
    pose proof (Hob (thread_timer t)) as E3. rewrite B in E3.
    destruct (ks_objs s' !! thread_timer t) as [o'|] eqn:B'; [|done]. injection E3 as E3 E4.
    exists tmr', o'. split; [by split; [done|done|done|apply Hpl]|]. split_and!; congruence.
  - intros tm. rewrite Hp, Et. apply H3.
Qed.

Lemma timer_only_sys idle L L' s s' :
  sys_inv idle L s -> Rep (ks_nodes s') L' -> timer_only L L' s s' -> sys_inv idle L' s'.
Proof.
  intros [HM (cth & Hc & Hr)] HR HO. destruct (sm_timers _ _ _ HM) as [tms HT].
  destruct (timer_only_timers _ _ _ _ _ HT HO) as [tms' HT'].
  destruct HO as (Es & Hn & _ & _ & _ & tms0 & _ & Hon & _ & _ & _ & Hob).
  assert (tms0 = tms) as ->.
  { pose proof (tk_list _ _ _ HT) as H1. unfold timers_on in Hon, H1. rewrite H1 in Hon.
    injection Hon as E. symmetry. by apply list_fmap_eq_inj in E; [|apply _]. }
  assert (ks_threads s' = ks_threads s /\ ks_group s' = ks_group s /\ ks_daif s' = ks_daif s /\
    ks_current s' = ks_current s /\ ks_sems s' = ks_sems s /\ ks_mutexes s' = ks_mutexes s)
    as (E1 & E2 & E3 & E4 & E5 & E6) by (rewrite Es; done).
  assert (forall t, detached L t -> detached L' t) as Hdet by (intros t; unfold detached; by rewrite Hn).
  assert (forall t, queued L t -> queued L' t) as Hq.
  { intros t (i & us & Hi & Hq & Hin). exists i, us. unfold queue. by rewrite Hn. }
  assert (forall t th, off L t th -> off L' t th) as Hoff.
  { intros t th [Hs [Hd|(hd & ws & Hh & Hw & Hin)]]; (split; [done|]); [left; by apply Hdet|right].
    exists hd, ws. split; [done|]. split; [|done]. unfold waiting. by rewrite Hn by (by destruct hd). }
  split.
  - split; rewrite ?E1, ?E4.
    + eapply sched_inv_ext; [apply HM|done| |done|done|intros i _; by apply Hn].
      unfold irq_wf. rewrite E3. apply HM.
    + destruct (sm_cur _ _ _ HM) as (c & Hc' & Hst). exists c. split; [done|].
      destruct Hst as [[? ?]|[? ?]]; [left; split; auto|right; auto].
    + intros t th Ht Hne. destruct (sm_placed _ _ _ HM t th Ht Hne); auto.
    + destruct (sm_ipc _ _ _ HM) as [I1 I2 I3 I4 I5]. split; rewrite ?E1, ?E5, ?E6; try done.
      * intros hd xs Hh. rewrite Hn by (by destruct hd). by apply I1.
      * intros sem v Hv. destruct (I2 sem v Hv) as (ws & o & Hw & Hx & Hy & Ho & Hz & Hnt). exists ws, o.
        split; [unfold waiting; by rewrite Hn|]. do 2 (split; [done|]). split; [|done]. rewrite Hob; [done|].
        intros Hin. destruct (tk_all _ _ _ HT sem Hin) as (t & -> & Ht). by apply (Hnt t Ht).
      * intros mx m Hm. destruct (I3 mx m Hm) as (a & Ha & Hw). exists a. split; [done|].
        unfold waiting. by rewrite Hn.
      * eapply boxes_ext; [exact I5|..]; rewrite ?E1; try done; try (by rewrite Es).
        -- intros hd ws Hh Hw. exists ws. unfold waiting. by rewrite Hn by (by destruct hd).
        -- intros x o Ho Hnt. rewrite Hob; [done|].
           intros Hin. destruct (tk_all _ _ _ HT x Hin) as (t & -> & Ht). by apply (Hnt t Ht).
    + by exists tms'.
    + destruct (sm_idle _ _ _ HM); auto.
    + apply HM.
  - exists cth. rewrite E1, E4. split; [done|]. destruct Hr. split; auto.
Qed.

(** The check leaves the threads where they are. *)
Lemma timer_only_wakes X L L' s s' : timer_only L L' s s' -> wakes X L s L' s'.
Proof.
  intros (Es & Hn & _). assert (ks_threads s' = ks_threads s /\ ks_current s' = ks_current s) as [Et Ec] by (by rewrite Es).
  split; unfold awake, asleep; rewrite ?Et, Ec.
  - intros t [Hc|(i & us & Hi & Hq & Hin)]; [by left|right]. exists i, us. unfold queue. by rewrite Hn.
  - intros t th (Ht & [Hs [Hd|(hd & ws & Hh & Hw & Hin)]] & Hc) _; (split; [done|split; [split; [done|]|done]]).
    + left. unfold detached. by rewrite Hn.
    + right. exists hd, ws. split; [done|]. split; [|done]. unfold waiting. by rewrite Hn by (by destruct hd).
Qed.

#[export] Instance tick_client user idle a R r :
  TimerClient (timer_call user) (tick_inv idle a R r) tick_effect.
Proof.
  split.
  - intros L s tms tm t o0 [HV Hn HQ HF0 HW0 HE0] HR Hirq Hon Hin Ht _ _ Hexp.
    destruct (sm_timers _ _ _ (sv_mid _ _ _ HV)) as [tms0 HT].
    assert (tms0 = tms) as ->.
    { pose proof (tk_list _ _ _ HT) as H1. unfold timers_on in Hon, H1. rewrite H1 in Hon.
      injection Hon as E. by apply list_fmap_eq_inj in E; [|apply _]. }
    destruct (tk_all _ _ _ HT tm Hin) as (u & -> & Hu). destruct (tk_own _ _ _ HT u Hu) as (tmr & o & HO & Hf & Hp & _).
    pose proof (to_timer _ _ _ _ _ _ HO) as Htm. rewrite Ht in Htm. injection Htm as <-. destruct Hu as [uh Hu].
    destruct (timeout_sys idle a L s u uh HV Hirq)
      as (s' & L' & Hrun & HV' & HF & HQ' & Hd & Em & Eo & El & HW & Ha); [done..|].
    exists s', L'. unfold timer_call. rewrite Hf, Z.eqb_refl, Hp. split; [done|]. split.
    { split; try done.
      - by rewrite (sf_nest _ _ HF).
      - by eapply same_frame_trans.
      - eapply wakes_trans; [exact HW0|]. eapply wakes_mono; [|exact HW]. intros x ->.
        intros tr Er. destruct (Z.le_gt_cases (timeout_tick tr) (ks_tick r)) as [|Hgt]; [done|].
        destruct (HE0 _ _ Er ltac:(lia)) as [Er' _]. rewrite Ht in Er'. injection Er' as <-.
        rewrite (sf_tick _ _ HF0) in Hexp. lia.
      - intros x tx Hx Hlt. rewrite Em, Eo. by apply HE0. }
    split_and!; try done.
    + apply HV'.
    + unfold timers_on. by rewrite El.
    + apply HF.
    + intros x Hx%thread_timer_inj. by subst x.
    + intros x Hx y ->. apply (wk_awake _ _ _ _ _ HW). by apply Hx.
  - intros L L' s s' [HV Hn HQ HF HW HE] HR HO. pose proof HO as (Es & _ & _ & _ & Hkept & _). split.
    + split; [by eapply timer_only_sys|by rewrite Es|by rewrite Es| | |].
      * eapply same_frame_trans; [exact HF|]. rewrite Es. by split.
      * eapply wakes_trans; [exact HW|]. by apply timer_only_wakes.
      * intros x t Hx Hlt. destruct (HE x t Hx Hlt) as [H1 H2]. rewrite <- (sf_tick _ _ HF) in Hlt.
        destruct (Hkept x t H1 Hlt) as [H3 H4]. split; [done|congruence].
    + intros x Hx y ->. apply (wk_awake _ _ _ _ _ (timer_only_wakes (fun _ => False) _ _ _ _ HO)). by apply Hx.
Qed.

(** There are no more timers on the list than threads. *)
Lemma timers_bound idle L s tms :
  sys_inv idle L s -> timers_ok L s tms -> (length tms <= size (ks_threads s))%nat.
Proof.
  intros HV HT. pose proof (timers_NoDup _ _ _ (si_rep _ _ (sm_sched _ _ _ (sv_mid _ _ _ HV))) (tk_list _ _ _ HT)) as Hnd.
  assert (tms ⊆+ (thread_timer ∘ fst <$> map_to_list (ks_threads s))) as Hsub.
  { apply NoDup_submseteq; [done|]. intros tm Hin. destruct (tk_all _ _ _ HT tm Hin) as (t & -> & th & Hth).
    apply list_elem_of_fmap. exists (t, th). split; [done|]. by apply elem_of_map_to_list. }
  apply submseteq_length in Hsub. by rewrite length_fmap, length_map_to_list in Hsub.
Qed.

Lemma timers_ok_check L s tms tm : timers_ok L s tms -> tm ∈ tms -> timer_ok s tm.
Proof.
  intros HT Hin. destruct (tk_all _ _ _ HT tm Hin) as (t & -> & Ht).
  destruct (tk_own _ _ _ HT t Ht) as (tmr & o & [] & _ & _ & Hper). exists tmr, o. split_and!; try done. congruence.
Qed.

(** [sk_tick_increase] up to the timer check: the time slice of the current thread
    and, at its end, the choice of another one. *)
Lemma slice_sys idle a L s call fuel :
  sys_inv idle L s -> ks_daif s = 0xC0 -> ks_nest s <> 0 -> request_for a s ->
  exists s' L', sk_tick_increase call fuel s = sk_timer_check call fuel s' /\ sys_inv idle L' s' /\
    same_frame (upd_tick (fun t => u32 (t + 1)) s) s' /\ request_for a s' /\ ks_daif s' = 0xC0 /\
    ks_timers s' = ks_timers s /\ ks_objs s' = ks_objs s /\ L' !! NTimerList = L !! NTimerList /\
    wakes (fun _ => False) L s L' s'.
Proof.
  intros HV Hd Hn HQ. destruct (sv_runs _ _ _ HV) as (cth & Hc & Hr).
  assert (irq_wf s) as Hwf by (by right). assert (masked s = s) as Hm by (destruct s; simpl in *; by subst).
  set (s1 := upd_tick (fun t => u32 (t + 1)) s).
  set (c1 := set_remain_tick (u64 (remain_tick cth - 1)) cth).
  assert (sys_inv idle L s1) as HV1 by (by eapply (inv_core idle L s s1); [done|done|right]).
  pose proof (inv_running idle L s1 cth (set_remain_tick (u64 (remain_tick cth - 1))) HV1 Hc (proj1 Hr) eq_refl eq_refl) as HV2.
  set (s2 := upd_threads _ s1) in HV2.
  assert (ks_threads s2 !! ks_current s = Some c1) as Hc2 by (simpl; by rewrite lookup_insert_eq).
  unfold sk_tick_increase. kstep (disable_ok s Hwf). rewrite Hm. do 2 erewrite bind_done by reflexivity.
  unfold upd_thread at 1. erewrite bind_done by (apply update_at_ok; exact Hc). fold s1.
  change (upd_threads (<[ks_current s1 := _]>) s1) with s2. unfold get_thread.
  erewrite bind_done by (apply read_at_ok; exact Hc2).
  assert (forall u, is_Some (ks_threads s2 !! u) <-> is_Some (ks_threads s !! u)) as Hdom2
    by (intros u; by apply (insert_dom _ _ cth)).
  assert (forall x, ks_daif x = 0xC0 -> hw_interrupt_enable (ks_daif s) x = Done x tt) as Hen.
  { intros x Hx. rewrite Hd, enable_ok by auto. f_equal. destruct x; simpl in *; by subst. }
  destruct (remain_tick c1 =? 0).
  - pose proof (inv_running idle L s2 c1 (fun t => set_stat (stat t ||| SK_THREAD_YIELD) (set_remain_tick (init_tick t) t))
      HV2 Hc2) as HV3. cbv beta in HV3. specialize (HV3 ltac:(simpl; rewrite Z.land_lor_distr_l;
        change (SK_THREAD_YIELD & SK_THREAD_MASK) with 0; rewrite Z.lor_0_r; apply Hr) eq_refl eq_refl).
    set (s3 := upd_threads _ s2) in HV3. set (s4 := upd_need_schedule (fun _ => true) s3).
    assert (sys_inv idle L s4) as HV4 by (by eapply (inv_core idle L s3 s4); [done|done|right]).
    destruct (schedule_interrupt idle L s4 a HV4) as (s5 & L5 & Hsch & HV5 & HF & HQ5 & Hd5 & Em & Eo & El & HW); [done|done|].
    exists s5, L5. split; [|split; [done|split; [|split; [done|split; [|do 3 (split; [done|])]]]]].
    + unfold upd_thread. erewrite bind_done; [reflexivity|].
      erewrite bind_done by (apply update_at_ok; exact Hc2).
      erewrite bind_done by (apply update_at_ok; simpl; rewrite lookup_insert_eq; reflexivity).
      rewrite <- Hsch. cbv beta.
      assert (upd_threads (<[ks_current s := set_stat (stat (set_remain_tick (init_tick c1) c1) ||| SK_THREAD_YIELD)
          (set_remain_tick (init_tick c1) c1)]>)
          (upd_threads (<[ks_current s := set_remain_tick (init_tick c1) c1]>) s2) = s3) as Es.
      { unfold s3, upd_threads. cbn [ks_threads]. by rewrite insert_insert_eq. }
      erewrite bind_done by (apply Hen; exact Hd). erewrite bind_done by reflexivity.
      unfold s4. rewrite <- Es. reflexivity.
    + eapply same_frame_trans; [|exact HF]. split; try done.
      intros u. simpl. rewrite (insert_dom _ _ c1); [apply Hdom2|done].
    + by rewrite Hd5.
    + apply (wakes_trans _ L s L s4); [|apply HW].
      apply (wakes_trans _ L s L s2); [by eapply wakes_current|].
      apply (wakes_trans _ L s2 L s3); [by eapply wakes_current|by apply wakes_refl].
  - exists s2, L. split; [by erewrite bind_done by (by apply Hen)|]. split; [done|].
    split; [by split|]. do 5 (split; [done|]). by eapply wakes_current.
Qed.

(** The thread sleeps, or waits, until the tick [d]: it is suspended, its timer is on
    the list, active and due at [d]. *)
Record sleeps L s (t : Z) (th : sk_thread) (d : Z) : Prop := {
  sl_asleep : asleep L s t th;
  sl_before : ks_tick s < d;
  sl_timer : exists tmr, ks_timers s !! thread_timer t = Some tmr /\ timeout_tick tmr = d;
  sl_active : exists o, ks_objs s !! thread_timer t = Some o /\ active o = true;
  sl_listed : exists tms, timers_on L tms /\ thread_timer t ∈ tms
}.

(** What a tick does: nobody is suspended, and a thread that sleeps until [d] is
    awake if [d] has come and otherwise sleeps on. *)
Record ticked L s L' s' : Prop := {
  td_tick : ks_tick s' = u32 (ks_tick s + 1);
  td_awake : forall t, awake L s t -> awake L' s' t;
  td_early : forall t th d, sleeps L s t th d -> ks_tick s' < d -> sleeps L' s' t th d;
  td_due : forall t th d, sleeps L s t th d -> d <= ks_tick s' -> awake L' s' t
}.

(** A change that the threads, the timers and the tick do not see. *)
Definition quiet s s' : Prop := core_eq s s' /\ ks_tick s' = ks_tick s.

Lemma awake_core L s s' t : core_eq s s' -> awake L s t -> awake L s' t.
Proof. intros (_ & _ & _ & _ & E & _). unfold awake. by rewrite E. Qed.

Lemma sleeps_core L s s' t th d : core_eq s s' -> ks_tick s' < d -> sleeps L s t th d -> sleeps L s' t th d.
Proof.
  intros (_ & Eo & Et & Em & Ec & _) Hlt [HA _ Htm Ha Hl]. split; rewrite ?Eo, ?Em; try done.
  unfold asleep. by rewrite Et, Ec.
Qed.

Lemma core_sym s s' : core_eq s s' -> core_eq s' s.
Proof. intros (? & ? & ? & ? & ? & ? & ? & ? & ? & ?). by split_and!. Qed.

Lemma core_trans s1 s2 s3 : core_eq s1 s2 -> core_eq s2 s3 -> core_eq s1 s3.
Proof.
  intros (E1 & E2 & E3 & E4 & E5 & E6 & E7 & E8 & E9 & E10) (F1 & F2 & F3 & F4 & F5 & F6 & F7 & F8 & F9 & F10).
  split_and!; congruence.
Qed.

Lemma ticked_quiet L s1 s2 L' s3 s4 : quiet s1 s2 -> ticked L s2 L' s3 -> quiet s3 s4 -> ticked L s1 L' s4.
Proof.
  intros [C1 T1] [T A E D] [C2 T2]. split; rewrite ?T2, <- ?T1; try done.
  - intros t Ht. apply (awake_core _ s3); [done|]. apply A. by apply (awake_core _ s1).
  - intros t th d Hs Hlt. apply (sleeps_core _ s3); [done|congruence|]. apply E; [|done].
    apply (sleeps_core _ s1); [done|rewrite T1; by apply Hs|done].
  - intros t th d Hs Hle. apply (awake_core _ s3); [done|]. apply (D t th d); [|done].
    apply (sleeps_core _ s1); [done|rewrite T1; by apply Hs|done].
Qed.

(** The slice and the timer check together. *)
Lemma tick_effects L s L1 s1 L' s' tms tms' :
  ks_timers s1 = ks_timers s -> ks_objs s1 = ks_objs s -> L1 !! NTimerList = L !! NTimerList ->
  ks_tick s1 = u32 (ks_tick s + 1) -> ks_tick s' = ks_tick s1 ->
  wakes (fun _ => False) L s L1 s1 -> wakes (expired s1) L1 s1 L' s' -> early_kept s1 s' ->
  timers_on L1 tms -> timers_on L' tms' -> tms' ≡ₚ tms ->
  (forall tm, tm ∈ tms -> fires s1 tm = true -> tick_effect tm L' s') ->
  ticked L s L' s'.
Proof.
  intros Em Eo El Et1 Et' HW1 HW HK Hon Hon' Hp HE.
  assert (forall t, (exists us, timers_on L us /\ t ∈ us) -> t ∈ tms) as Hin.
  { intros t (us & Hus & Hin). unfold timers_on in Hon, Hus. rewrite El, Hus in Hon. injection Hon as E.
    by apply list_fmap_eq_inj in E as ->; [|apply _]. }
  split; [congruence| | |].
  - intros t Ht. by apply (wk_awake _ _ _ _ _ HW), (wk_awake _ _ _ _ _ HW1).
  - intros t th d [HA _ (tmr & Htm & Hd) (o & Ho & Ha) Hl] Hlt. rewrite Et' in Hlt.
    destruct (HK (thread_timer t) tmr) as [H1 H2]; [by rewrite Em|lia|]. split.
    + apply (wk_asleep _ _ _ _ _ HW); [by apply (wk_asleep _ _ _ _ _ HW1); auto|].
      intros Hx. specialize (Hx tmr). rewrite Em in Hx. specialize (Hx Htm). lia.
    + by rewrite Et'.
    + by exists tmr.
    + exists o. by rewrite H2, Eo.
    + exists tms'. split; [done|]. rewrite Hp. by apply Hin.
  - intros t th d [HA _ (tmr & Htm & Hd) (o & Ho & Ha) Hl] Hle. rewrite Et' in Hle.
    apply (HE (thread_timer t)); [by apply Hin| |done]. unfold fires. rewrite Em, Eo, Htm, Ho, Ha. lia.
Qed.

(** [sk_tick_increase] in an interrupt returns and keeps the invariant. *)
Lemma tick_sys idle a L s user fuel :
  sys_inv idle L s -> ks_daif s = 0xC0 -> ks_nest s <> 0 -> request_for a s ->
  ((size (ks_threads s) + 1) * (size (ks_threads s) + 1) < fuel)%nat ->
  exists s' L', sk_tick_increase (timer_call user) fuel s = Done s' tt /\ sys_inv idle L' s' /\
    same_frame (upd_tick (fun t => u32 (t + 1)) s) s' /\ request_for a s' /\ ks_daif s' = 0xC0 /\
    ticked L s L' s'.
Proof.
  intros HV Hd Hn HQ Hf.
  destruct (slice_sys idle a L s (timer_call user) fuel HV Hd Hn HQ)
    as (s1 & L1 & -> & HV1 & HF1 & HQ1 & Hd1 & Em1 & Eo1 & El1 & HW1).
  assert (masked s1 = s1) as Hm by (destruct s1; simpl in *; by subst).
  destruct (sm_timers _ _ _ (sv_mid _ _ _ HV1)) as [tms HT].
  pose proof (timers_bound _ _ _ _ HV1 HT) as Hb.
  assert (size (ks_threads s1) = size (ks_threads s)) as Es.
  { rewrite <- !size_dom. f_equal. apply set_eq. intros t. rewrite !elem_of_dom. apply HF1. }
  assert (0 <= ks_tick s1) as Htick.
  { rewrite (sf_tick _ _ HF1). simpl. apply uint_range. lia. }
  destruct (timer_check_total (timer_call user) (tick_inv idle a L1 s1) tick_effect L1 s1 tms fuel)
    as (s' & L' & Hrun & Hd' & HI' & HR' & (tms' & Hon' & Hp) & HE).
  - rewrite Hm. split; try done; [by rewrite (sf_nest _ _ HF1)].
  - apply HV1.
  - by right.
  - apply HT.
  - intros tm Hin. by eapply timers_ok_check.
  - done.
  - nia.
  - assert (masked s' = s') as Hm' by (rewrite Hd1 in Hd'; destruct s'; simpl in *; by subst).
    rewrite Hm' in HI', HE. destruct HI' as [HV' Hn' HQ' HF' HW' HK']. exists s', L'. split; [done|].
    assert (same_frame (upd_tick (fun t => u32 (t + 1)) s) s') as HF by (by eapply same_frame_trans).
    do 3 (split; [done|]). split; [congruence|].
    apply (tick_effects L s L1 s1 L' s' tms tms'); try done; [apply (sf_tick _ _ HF1)|apply (sf_tick _ _ HF')|apply HT].
Qed.

(** ** Interrupts, from the vector on *)

(** The part of the state that belongs to the drivers. *)
Definition same_drivers (s s' : kstate) : Prop :=
  ks_io s' = set_io_timer (fun _ => io_timer (ks_io s')) (set_io_bus (fun _ => io_bus (ks_io s')) (ks_io s)) /\
  ks_mem s' = ks_mem s /\ ks_heap s' = ks_heap s.

(** What the handlers of other devices promise: they return, touch the state of the
    drivers only, and keep its invariant [DI]; the kernel in turn leaves that part
    of the state alone. *)
Class Handlers (isr : Z -> Z -> Z -> M unit) (timer_isr : Z) (DI : kstate -> Prop) : Prop := {
  hd_driver s i d : DI s -> isr_table s !! i = Some d -> handler d <> SK_NULL -> handler d <> timer_isr ->
    exists s', isr (handler d) (Z.of_nat i) (irq_param d) s = Done s' tt /\ core_eq s s' /\ DI s' /\
      ks_nest s' = ks_nest s /\ ks_switch s' = ks_switch s /\ ks_daif s' = ks_daif s /\
      gic_ctl s' = gic_ctl s /\ isr_table s' = isr_table s;
  hd_frame s s' : DI s -> same_drivers s s' -> DI s'
}.

(** No other device has a handler. *)
#[export] Instance no_handlers isr timer_isr :
  Handlers isr timer_isr (fun s => forall i d, isr_table s !! i = Some d -> handler d = SK_NULL \/ handler d = timer_isr).
Proof.
  split.
  - intros s i d HD Hd H1 H2. by destruct (HD i d Hd).
  - intros s s' HD (E & _) i d. unfold isr_table. rewrite E. apply HD.
Qed.

Section interrupts.
Context (hw : hardware) (isr : Z -> Z -> Z -> M unit) (timer_isr : Z) (user : Z -> Z -> M unit) (fuel : nat).
Context (DI : kstate -> Prop) `{!Handlers isr timer_isr DI}.
Hypothesis isr_timer : isr timer_isr = sk_hw_timer_isr (timer_call user) fuel.
Implicit Types (L : lists) (s : kstate).

(** The interrupt controller and the table of handlers are set up, and the
    controller reports the numbers of interrupts of the table, or none. *)
Record irq_ready s : Prop := {
  ir_offset : offset (gic_ctl s) = 0;
  ir_table : length (isr_table s) = 96%nat;
  ir_numbers : forall b, let v := u32 (hw b (GIC_CPU_INTACK (cpu_base (gic_ctl s)))) in v = 1023 \/ v < 96;
  ir_drivers : DI s
}.

Lemma irq_ready_drivers s s' : irq_ready s -> same_drivers s s' -> irq_ready s'.
Proof.
  intros [H1 H2 H3 H4] HS. pose proof HS as (E & _).
  assert (gic_ctl s' = gic_ctl s) as Eg by (unfold gic_ctl; by rewrite E).
  assert (isr_table s' = isr_table s) as Ei by (unfold isr_table; by rewrite E).
  split; rewrite ?Eg, ?Ei; try done. by eapply hd_frame.
Qed.

Lemma same_drivers_trans s1 s2 s3 : same_drivers s1 s2 -> same_drivers s2 s3 -> same_drivers s1 s3.
Proof. intros (E1 & F1 & G1) (E2 & F2 & G2). split; [rewrite E2, E1; done|split; congruence]. Qed.

Lemma same_frame_drivers s s' : same_frame s s' -> same_drivers s s'.
Proof. intros [_ _ E Em Eh _]. split; [rewrite E; by destruct (ks_io s)|done]. Qed.

Lemma same_drivers_bus g s : same_drivers s (upd_bus g s).
Proof. split; [simpl; by destruct (ks_io s)|done]. Qed.

(** What an interrupt has done to the threads: a tick, or nothing; a handler of
    another device may change the count of ticks unless it promises not to. *)
Definition drivers_keep_tick : Prop := forall i d s s',
  handler d <> timer_isr -> isr (handler d) (Z.of_nat i) (irq_param d) s = Done s' tt -> ks_tick s' = ks_tick s.

Definition irq_effect L s L' s' : Prop :=
  ticked L s L' s' \/ (L' = L /\ core_eq s s' /\ (drivers_keep_tick -> ks_tick s' = ks_tick s)).

Lemma irq_effect_quiet L s1 s2 L' s3 s4 :
  quiet s1 s2 -> irq_effect L s2 L' s3 -> quiet s3 s4 -> irq_effect L s1 L' s4.
Proof.
  intros H1 [H|(-> & Hc & Ht)] H2; [left; by eapply ticked_quiet|right]. split; [done|].
  destruct H1 as [C1 T1], H2 as [C2 T2]. split; [by eapply core_trans, core_trans|].
  intros Hk. rewrite T2, Ht, T1; done.
Qed.

(** What an interrupt keeps while it is served. *)
Record irq_step_inv (idle a : Z) L s s' : Prop := {
  iv_inv : exists L', sys_inv idle L' s' /\ irq_effect L s L' s';
  iv_ready : irq_ready s';
  iv_request : request_for a s';
  iv_nest : ks_nest s' = ks_nest s;
  iv_daif : ks_daif s' = 0xC0;
  iv_dom : forall t, is_Some (ks_threads s' !! t) <-> is_Some (ks_threads s !! t);
  iv_objects : same_objects s s'
}.

Lemma step_inv_bus idle a L s s' g : irq_step_inv idle a L s s' -> irq_step_inv idle a L s (upd_bus g s').
Proof.
  intros [(L' & H1 & HE) H2 H3 H4 H5 H6 H7]. split; try done.
  - exists L'. split; [eapply inv_core; [done|done|by right]|]. by eapply irq_effect_quiet.
  - eapply irq_ready_drivers; [done|apply same_drivers_bus].
  - eapply same_objects_trans; [exact H7|auto].
Qed.

(** A handler of the table. *)
Lemma handler_sys idle a L s i d :
  sys_inv idle L s -> ks_daif s = 0xC0 -> ks_nest s <> 0 -> request_for a s -> irq_ready s ->
  ((size (ks_threads s) + 1) * (size (ks_threads s) + 1) < fuel)%nat ->
  isr_table s !! i = Some d -> handler d <> SK_NULL ->
  exists s', isr (handler d) (Z.of_nat i) (irq_param d) s = Done s' tt /\ irq_step_inv idle a L s s'.
Proof.
  intros HV Hd Hn HQ HR Hf Hi Hnull. destruct (decide (handler d = timer_isr)) as [->|Ht].
  - rewrite isr_timer. unfold sk_hw_timer_isr. do 3 erewrite bind_done by reflexivity. set (s1 := upd_bus _ _).
    assert (core_eq s s1) as HE by done. assert (same_drivers s s1) as HD1 by (by split; [destruct s as [? ? ? ? ? ? ? ? ? ? ? ? ? ? ? ? ? ? ? []]|]).
    destruct (tick_sys idle a L s1 user fuel) as (s' & L' & Hrun & HV' & HF & HQ' & Hd' & HT); try done.
    { eapply inv_core; [exact HV|done|by right]. }
    exists s'. split; [exact Hrun|]. split; try done.
    + exists L'. split; [done|]. left. by eapply (ticked_quiet L s s1 L' s' s').
    + eapply irq_ready_drivers; [exact HR|]. eapply same_drivers_trans; [exact HD1|].
      apply same_frame_drivers in HF. eapply same_drivers_trans; [|exact HF].
      split; [cbn [ks_io upd_tick]; by destruct (ks_io s1)|done].
    + by rewrite (sf_nest _ _ HF).
    + intros t. rewrite (sf_threads _ _ HF). done.
    + eapply same_objects_trans; [|apply HF]. auto.
  - destruct (hd_driver s i d (ir_drivers _ HR) Hi Hnull Ht) as (s' & Hrun & HE & HD' & En & Esw & Ed & Eg & Ei).
    exists s'. split; [done|]. split.
    + exists L. split; [eapply inv_core; [exact HV|done|]; right; congruence|]. right.
      split; [done|]. split; [done|]. intros Hk. by apply (Hk i d).
    + destruct HR as [R1 R2 R3 R4]. split; rewrite ?Eg, ?Ei; done.
    + unfold request_for. destruct HE as (_ & _ & _ & _ & -> & _). by rewrite Esw.
    + done.
    + congruence.
    + destruct HE as (_ & _ & -> & _). done.
    + destruct HE as (_ & _ & _ & _ & _ & _ & E1 & E2 & E3 & E4). by apply same_objects_eq.
Qed.

Lemma trap_sys idle a L s :
  sys_inv idle L s -> ks_daif s = 0xC0 -> ks_nest s <> 0 -> request_for a s -> irq_ready s ->
  ((size (ks_threads s) + 1) * (size (ks_threads s) + 1) < fuel)%nat ->
  exists s', sk_hw_trap_irq hw isr s = Done s' tt /\ irq_step_inv idle a L s s'.
Proof.
  intros HV Hd Hn HQ HR Hf. set (v := u32 (hw (io_accesses s) (GIC_CPU_INTACK (cpu_base (gic_ctl s))))).
  pose proof (uint_range 32 (hw (io_accesses s) (GIC_CPU_INTACK (cpu_base (gic_ctl s)))) ltac:(lia)) as Hv. fold v in Hv.
  pose proof (ir_numbers _ HR (io_accesses s)) as Hnum. cbv zeta in Hnum. fold v in Hnum.
  destruct (trap_irq_dispatches hw isr s (ir_offset _ HR) (ir_table _ HR)) as (H1 & _ & H3); [fold v; lia|].
  fold v in H1, H3. set (s1 := upd_bus _ s) in *.
  assert (irq_step_inv idle a L s s) as H0.
  { split; try done. exists L. split; [done|]. by right. }
  pose proof (step_inv_bus idle a L s s (fun b => b ++ [BusRead (GIC_CPU_INTACK (cpu_base (gic_ctl s))) v]) H0) as H0'.
  fold s1 in H0'. destruct Hnum as [E|Hlt].
  { exists s1. split; [by apply H1|done]. }
  destruct (lookup_lt_is_Some_2 (isr_table s) (Z.to_nat v)) as [d Hd']; [rewrite (ir_table _ HR); lia|].
  destruct (H3 d Hd' Hlt) as [Hnull Hrun]. destruct (decide (handler d = SK_NULL)) as [E|Hne].
  { eexists. split; [by apply Hnull|]. by apply step_inv_bus. }
  assert (sys_inv idle L s1) as HV1 by (eapply inv_core; [exact HV|done|by right]).
  destruct (handler_sys idle a L s1 (Z.to_nat v) d HV1) as (s2 & Hisr & HS2); try done; [apply H0'|].
  rewrite Z2Nat.id in Hisr by lia. eexists.
  split; [apply (Hrun Hne s2 Hisr), (ir_offset _ (iv_ready _ _ _ _ _ HS2))|]. apply step_inv_bus.
  destruct HS2 as [(L2 & HV2 & HE2) ? ? ? ? ? HO]. split; try done.
  - exists L2. split; [done|]. by eapply (irq_effect_quiet L s s1 L2 s2 s2).
  - eapply same_objects_trans; [|exact HO]. auto.
Qed.

(** An interrupt of the running thread: it returns to it, or gives the processor to
    the thread that is now the current one, after which the interrupted thread
    continues with its own interrupt mask. *)
Lemma interrupt_sys idle L s :
  sys_inv idle L s -> ks_nest s = 0 -> sw_flag (ks_switch s) = 0 -> irq_ready s ->
  ((size (ks_threads s) + 1) * (size (ks_threads s) + 1) < fuel)%nat ->
  exists s' L', sys_inv idle L' s' /\ irq_ready s' /\ ks_nest s' = 0 /\ sw_flag (ks_switch s') = 0 /\
    (forall t, is_Some (ks_threads s' !! t) <-> is_Some (ks_threads s !! t)) /\ same_objects s s' /\
    irq_effect L s L' s' /\
    ((vector_irq hw isr s = Done s' tt /\ ks_current s' = ks_current s /\ ks_daif s' = ks_daif s) \/
     exists k, vector_irq hw isr s = Switch s' k /\ ks_daif s' = 0xC0 /\
       sw_from (ks_switch s') = thread_sp (ks_current s) /\ sw_to (ks_switch s') = thread_sp (ks_current s') /\
       forall s2, k s2 = Done (upd_daif (fun _ => ks_daif s) s2) tt).
Proof.
  intros HV Hn Hsw HR Hf. pose proof (si_irq _ _ (sm_sched _ _ _ (sv_mid _ _ _ HV))) as Hwf.
  set (s1 := upd_nest (fun _ => 1) (masked s)).
  assert (upd_daif (fun d => d ||| 0xC0) s = masked s) as Em.
  { destruct Hwf as [E|E]; destruct s; simpl in *; by subst. }
  assert (sk_interrupt_enter (masked s) = Done s1 tt) as Hent.
  { unfold sk_interrupt_enter. kstep (disable_ok (masked s) (irq_wf_masked s)). erewrite bind_done by reflexivity.
    rewrite enable_ok by (by right || done). unfold s1. destruct s; simpl in *; by subst. }
  assert (sys_inv idle L s1) as HV1 by (eapply inv_core; [exact HV|done|by right]).
  assert (irq_ready s1) as HR1.
  { eapply irq_ready_drivers; [exact HR|]. split; [simpl; by destruct (ks_io s)|done]. }
  destruct (trap_sys idle (ks_current s) L s1 HV1) as (s2 & Htrap & HS); try done; [by left|].
  destruct HS as [(L2 & HV2 & HE2) HR2 HQ2 Hn2 Hd2 Hdom2 HO2]. simpl in Hn2.
  set (s3 := upd_nest (fun _ => 0) s2).
  assert (sk_interrupt_leave s2 = Done s3 tt) as Hlv.
  { assert (irq_wf s2) as Hwf2 by (by right). unfold sk_interrupt_leave. kstep (disable_ok s2 Hwf2).
    erewrite bind_done by reflexivity. rewrite Hd2, enable_ok by (by right || done).
    unfold s3. destruct s2; simpl in *; by subst. }
  assert (sys_inv idle L2 s3) as HV3 by (eapply inv_core; [exact HV2|done|by right]).
  assert (irq_ready s3) as HR3.
  { eapply irq_ready_drivers; [exact HR2|]. split; [simpl; by destruct (ks_io s2)|done]. }
  assert (vector_irq hw isr s = (w ← gets ks_switch;
    (if negb (sw_flag w =? 1) then mret tt
     else modify (upd_switch (fun w => mk_switch 0 (sw_from w) (sw_to w)));; hw_context_switch (sw_from w) (sw_to w));;
    modify (upd_daif (fun _ => ks_daif s))) s3) as Hrun.
  { unfold vector_irq. do 2 erewrite bind_done by reflexivity. rewrite Em. kstep Hent. kstep Htrap. by kstep Hlv. }
  destruct HQ2 as [[Hf2 Hc2]|(Hf2 & Hfr & Hto)].
  - exists (upd_daif (fun _ => ks_daif s) s3), L2. split; [eapply inv_core; [exact HV3|done|exact Hwf]|].
    split; [eapply irq_ready_drivers; [exact HR3|]; split; [simpl; by destruct (ks_io s2)|done]|].
    do 3 (split; [done|]). split; [eapply same_objects_trans; [|eapply same_objects_trans; [exact HO2|]]; auto|].
    split; [by eapply (irq_effect_quiet L s s1 L2 s2)|]. left. rewrite Hrun. erewrite bind_done by reflexivity.
    change (sw_flag (ks_switch s3)) with (sw_flag (ks_switch s2)). rewrite Hf2. done.
  - exists (upd_switch (fun w => mk_switch 0 (sw_from w) (sw_to w)) s3), L2.
    split; [eapply inv_core; [exact HV3|done|by right]|].
    split; [eapply irq_ready_drivers; [exact HR3|]; split; [simpl; by destruct (ks_io s2)|done]|].
    do 3 (split; [done|]). split; [eapply same_objects_trans; [|eapply same_objects_trans; [exact HO2|]]; auto|].
    split; [by eapply (irq_effect_quiet L s s1 L2 s2)|]. right. rewrite Hrun. erewrite bind_done by reflexivity.
    change (sw_flag (ks_switch s3)) with (sw_flag (ks_switch s2)). rewrite Hf2. simpl negb. cbv iota.
    eexists. split; [reflexivity|]. done.
Qed.

End interrupts.
