(* ===== verification/SysCalls.v ===== *)
(** * Calls of the running thread in the system

    Semaphores, mutexes, sleeping and yielding keep the invariant of [SysInv]: a call
    returns to its thread, or another thread has the processor and only the interrupt
    mask is left to be restored. *)

From S2P Require Import Prelude BaseDef KList Slab IoDef Kernel Sched KObj Timer Thread IpcBase Semaphore Mutex Event Mailbox SysInv.

Local Open Scope c_scope.

Section calls.
Implicit Types (L : lists) (s : kstate).

(** A change of the timer of one thread. *)
Lemma timers_update L L' s s' tms tms' t tmr o :
  timers_ok L s tms -> (forall u, is_Some (ks_threads s' !! u) <-> is_Some (ks_threads s !! u)) ->
  (forall x, x <> thread_timer t -> L' !! NTimer x = L !! NTimer x) ->
  (forall x, x <> thread_timer t -> ks_timers s' !! x = ks_timers s !! x) ->
  (forall x, x <> thread_timer t -> ks_objs s' !! x = ks_objs s !! x) ->
  (forall x, x <> thread_timer t -> x ∈ tms' <-> x ∈ tms) -> is_Some (ks_threads s !! t) ->
  timer_of L' s' tms' t tmr o -> timeout_func tmr = FN_sk_thread_timeout -> tparam tmr = t -> periodic o = false ->
  timers_ok L' s' tms'.
Proof.
  intros [H1 H2 H3] Hdom HL Htm Hob Hin Ht HT Hf Hp Hper. split; [apply HT| |].
  - intros u Hu. destruct (decide (u = t)) as [->|Hne]; [by exists tmr, o|].
    assert (thread_timer u <> thread_timer t) as Hn by (by intros ?%thread_timer_inj).
    destruct (H2 u (proj1 (Hdom u) Hu)) as (tmr' & o' & [A B C D] & Hrest). exists tmr', o'. split; [|done].
    split; rewrite ?Htm, ?Hob by done; try done; [apply HT|].
    destruct D as [D|D]; [left; by apply Hin|right; by rewrite HL].
  - intros x Hx. destruct (decide (x = thread_timer t)) as [->|Hne].
    + exists t. split; [done|]. by apply Hdom.
    + destruct (H3 x) as (u & -> & Hu); [by apply Hin|]. exists u. by rewrite Hdom.
Qed.

Lemma others_in tm x tms : x <> tm -> x ∈ others tm tms <-> x ∈ tms.
Proof. intros. unfold others. rewrite list_elem_of_filter. tauto. Qed.

(** Arming the timer of the thread [t]. *)
Lemma arm_sys L s tms t v :
  sched_inv L s -> timers_ok L s tms -> is_Some (ks_threads s !! t) ->
  exists s1 h ob tm L' tms', let s' := upd_nodes (fun _ => h) (upd_objs (fun _ => ob) (upd_timers (fun _ => tm) s)) in
    sk_timer_control (thread_timer t) SK_TIMER_CTRL_SET_TIME v s = Done s1 (SK_EOK, v) /\
    sk_timer_start (thread_timer t) s1 = Done s' SK_EOK /\
    sched_inv L' s' /\ timers_ok L' s' tms' /\ timer_frame (thread_timer t) L L' /\
    (forall x, x <> thread_timer t -> ob !! x = ks_objs s !! x).
Proof.
  intros HI HT Ht. destruct (tk_own _ _ _ HT t Ht) as (tmr & o & HO & Hf & Hp & Hper).
  destruct (arm_timer_spec L s t tms tmr o v HI HO) as (h & L' & s1 & Hset & Hst & HI' & Hon & Hfr).
  eexists s1, h, _, _, L', (thread_timer t :: others (thread_timer t) tms). cbv zeta.
  split; [exact Hset|]. split; [exact Hst|]. split; [exact HI'|]. split; [|split; [exact Hfr|]].
  - eapply (timers_update L L' s _ tms _ t (set_timeout_tick (u32 (ks_tick s + u32 v)) (set_init_tick (u32 v) tmr))
      (raise_flag SK_TIMER_FLAG_ACTIVE o)); try done.
    + intros x Hx. apply Hfr; [done|congruence].
    + intros x Hx. simpl. by rewrite !lookup_insert_ne.
    + intros x Hx. simpl. by rewrite !lookup_insert_ne.
    + intros x Hx. rewrite elem_of_cons, others_in by done. naive_solver.
    + split; [apply lookup_insert_eq|apply lookup_insert_eq|exact Hon|left; by left].
    + by rewrite periodic_raise.
  - intros x Hx. by rewrite lookup_insert_ne.
Qed.

Lemma arm_timeout_sys L s tms t time :
  sched_inv L s -> timers_ok L s tms -> is_Some (ks_threads s !! t) ->
  exists h ob tm L' tms', let s' := upd_nodes (fun _ => h) (upd_objs (fun _ => ob) (upd_timers (fun _ => tm) s)) in
    arm_timeout t time s = Done s' tt /\
    sched_inv L' s' /\ timers_ok L' s' tms' /\ timer_frame (thread_timer t) L L' /\
    (forall x, x <> thread_timer t -> ob !! x = ks_objs s !! x).
Proof.
  intros HI HT Ht. unfold arm_timeout. destruct (0 <? time); simpl when_.
  - destruct (arm_sys L s tms t time HI HT Ht) as (s1 & h & ob & tm & L' & tms' & Hset & Hst & H).
    exists h, ob, tm, L', tms'. cbv zeta. split; [|exact H]. kstep Hset. by kstep Hst.
  - exists (ks_nodes s), (ks_objs s), (ks_timers s), L, tms. cbv zeta. replace (upd_nodes _ _) with s by (by destruct s).
    done.
Qed.

(** Suspending the running thread and stopping its timer. *)
Lemma stopped_timers L L' s s' tms t tmr o :
  timers_ok L s tms -> timer_of L s tms t tmr o -> timeout_func tmr = FN_sk_thread_timeout -> tparam tmr = t ->
  periodic o = false -> is_Some (ks_threads s !! t) ->
  (forall u, is_Some (ks_threads s' !! u) <-> is_Some (ks_threads s !! u)) ->
  (forall x, x <> thread_timer t -> L' !! NTimer x = L !! NTimer x) ->
  ks_timers s' = ks_timers s -> ks_objs s' = <[thread_timer t := stopped_obj o]> (ks_objs s) ->
  timer_of L' s' (stopped_list o (thread_timer t) tms) t tmr (stopped_obj o) ->
  timers_ok L' s' (stopped_list o (thread_timer t) tms).
Proof.
  intros HT HO Hf Hp Hper Ht Hdom HL Etm Eob HO'. eapply (timers_update L L' s s' tms _ t); try done.
  - intros x _. by rewrite Etm.
  - intros x Hx. by rewrite Eob, lookup_insert_ne.
  - intros x Hx. unfold stopped_list. destruct (active o); [by apply others_in|done].
  - unfold stopped_obj. destruct (active o); [by rewrite periodic_clear|done].
Qed.

Record after_call (idle : Z) s s' : Prop := {
  ac_inv : exists L', sys_inv idle L' s';
  ac_frame : same_frame s s';
  ac_switch : ks_switch s' = ks_switch s
}.

(** The states in which the thread [c], which lost the processor in [s0], may get
    it back. *)
Record gets_back (idle : Z) s0 (c : Z) s : Prop := {
  gb_inv : exists L, sys_inv idle L s;
  gb_nest : ks_nest s = 0;
  gb_cur : ks_current s = c;
  gb_objects : same_objects s0 s
}.

(** A call returns to its thread, or another thread has the processor and the rest
    of the call does the same in whatever state its thread goes on. *)
Inductive call_ok (idle : Z) : kstate -> res Z -> Prop :=
  | ok_done s s' a :
      after_call idle s s' -> ks_current s' = ks_current s -> call_ok idle s (Done s' a)
  | ok_switch s s' k :
      after_call idle s s' -> ks_current s' <> ks_current s -> ks_daif s' = 0xC0 ->
      resumable idle s (ks_current s) k -> call_ok idle s (Switch s' k)
with resumable (idle : Z) : kstate -> Z -> (kstate -> res Z) -> Prop :=
  | resumable_intro s0 c k :
      (forall s, gets_back idle s0 c s -> call_ok idle s (k s)) -> resumable idle s0 c k.

Lemma resumable_run idle s0 c k s : resumable idle s0 c k -> gets_back idle s0 c s -> call_ok idle s (k s).
Proof. destruct 1. auto. Qed.

Lemma resumable_objects idle s0 s1 c k : resumable idle s0 c k -> same_objects s0 s1 -> resumable idle s1 c k.
Proof.
  intros [s0' c' k' H] HO. constructor. intros s [? ? ? HO']. apply H. split; try done.
  by eapply same_objects_trans.
Qed.

Lemma call_ok_from idle s s1 r :
  same_frame s s1 -> ks_switch s1 = ks_switch s -> ks_current s1 = ks_current s ->
  call_ok idle s1 r -> call_ok idle s r.
Proof.
  intros HF Hs Hc H. inversion H as [? s' a [H1 H2 H3] H4|? s' k [H1 H2 H3] H4 H5 H6]; subst; constructor;
    try congruence; try (split; [done|by eapply same_frame_trans|congruence]).
  rewrite <- Hc. eapply resumable_objects; [done|]. apply same_objects_sym, HF.
Qed.

Lemma frame_daif d s : same_frame s (upd_daif (fun _ => d) s).
Proof. by split. Qed.

(** The end of the calls that may give up the processor. *)
Lemma schedule_then idle L s (rest : M Z) :
  sys_mid idle L s -> ks_nest s = 0 ->
  (forall s2, gets_back idle s (ks_current s) s2 -> call_ok idle s2 (rest s2)) ->
  call_ok idle s ((sk_schedule;; rest) s).
Proof.
  intros HM Hn Hrest. pose proof (si_irq _ _ (sm_sched _ _ _ HM)) as Hwf. unfold mbind, M_bind.
  destruct (schedule_thread idle L s HM Hn) as [[-> HV]|(s' & k & L' & -> & Hk & HV & HF & Hsw & Hd & Hc)]; simpl.
  - apply Hrest. split; [by exists L|done|done|apply same_objects_refl].
  - constructor; try done; [split; [by exists L'|done|done]|]. constructor. intros s2 [[L2 HV2] Hn2 Hc2 HO2]. rewrite Hk.
    pose proof (si_irq _ _ (sm_sched _ _ _ (sv_mid _ _ _ HV2))) as Hw2.
    destruct (enable_any (ks_daif s) s2 Hwf Hw2) as (d & Hdd & ->). simpl.
    apply (call_ok_from idle s2 (upd_daif (fun _ => d) s2)); [apply frame_daif|done..|]. apply Hrest. split; try done.
    + exists L2. by eapply inv_core.
    + eapply same_objects_trans; [exact HO2|auto].
Qed.

Lemma return_ok idle s0 c s a : gets_back idle s0 c s -> call_ok idle s (Done s a).
Proof. intros [HV _ _ _]. constructor; [|done]. split; [done|apply same_frame_refl|done]. Qed.

Lemma schedule_call idle L s a :
  sys_mid idle L s -> ks_nest s = 0 -> call_ok idle s ((sk_schedule;; mret a) s).
Proof. intros HM Hn. apply (schedule_then idle L); [done..|]. intros s2. apply return_ok. Qed.

(** The IPC objects after the running thread [c] has joined the waiters of [x]. *)
Lemma block_ipc L L' s s' c th hd0 ws ws' :
  ipc_ok L s -> ks_threads s !! c = Some th ->
  ks_threads s' = <[c := set_stat SK_THREAD_SUSPEND th]> (ks_threads s) ->
  ks_sems s' = ks_sems s -> ks_mutexes s' = ks_mutexes s -> ks_events s' = ks_events s ->
  ks_mailboxes s' = ks_mailboxes s ->
  (forall y, y <> thread_timer c -> ks_objs s' !! y = ks_objs s !! y) -> wait_head hd0 ->
  waiting L hd0 ws -> waiting L' hd0 ws' -> (forall w, w ∈ ws' <-> w = c \/ w ∈ ws) ->
  (forall hd, wait_head hd -> hd <> hd0 -> L' !! hd = L !! hd) ->
  (forall x v, hd0 = NSuspend x -> ks_sems s !! x = Some v -> v = 0) ->
  (forall x m, hd0 = NSuspend x -> ks_mutexes s !! x = Some m -> mvalue m = 0) -> ipc_ok L' s'.
Proof.
  intros [I1 I2 I3 I4 I5] Hc Et Es Em Ee Eb Eo Hh0 Hw Hw' Hin HL Hv Hm. split; rewrite ?Es, ?Em, ?Et; try done.
  - intros hd xs Hh Hl. assert (forall w wh, ks_threads s !! w = Some wh -> stat wh = SK_THREAD_SUSPEND ->
      exists wh', <[c := set_stat SK_THREAD_SUSPEND th]> (ks_threads s) !! w = Some wh' /\
        stat wh' = SK_THREAD_SUSPEND) as Hst.
    { intros w wh Hwh Hst. rewrite lookup_insert. case_decide; [by eexists|by exists wh]. }
    destruct (decide (hd = hd0)) as [->|Hne].
    + unfold waiting in Hw'. rewrite Hw' in Hl. injection Hl as <-. exists ws'. split; [done|].
      intros w [->|Hin']%Hin; [rewrite lookup_insert_eq; by eexists|].
      destruct (I1 _ _ Hh Hw) as (ws0 & E & Hws). apply list_fmap_eq_inj in E as <-; [|apply _].
      destruct (Hws w Hin') as (wh & ? & ?). by apply (Hst w wh).
    + rewrite HL in Hl by done. destruct (I1 hd xs Hh Hl) as (ws0 & -> & Hws). exists ws0. split; [done|].
      intros w Hw0. destruct (Hws w Hw0) as (wh & ? & ?). by apply (Hst w wh).
  - intros sem v Hv'. destruct (I2 sem v Hv') as (ws0 & o & Hw0 & Hr & Hx & Ho & Hf & Hn).
    assert (ks_objs s' !! sem = Some o) as Ho' by (rewrite Eo; [done|by apply Hn]).
    assert (forall t, is_Some (<[c := set_stat SK_THREAD_SUSPEND th]> (ks_threads s) !! t) -> sem <> thread_timer t) as Hn'
      by (intros t Ht; apply Hn; by rewrite <- (insert_dom _ c th (set_stat SK_THREAD_SUSPEND th) t Hc)).
    destruct (decide (NSuspend sem = hd0)) as [E|Hne].
    + exists ws', o. split; [by rewrite E|]. split; [done|]. split; [|done]. intros _. by apply (Hv sem).
    + exists ws0, o. split; [|done]. unfold waiting. rewrite HL; [done|done|congruence].
  - intros mx m Hm'. destruct (I3 mx m Hm') as (a & Ha & Hw0). destruct (decide (NSuspend mx = hd0)) as [E|Hne].
    + destruct a as [|t n ws0]; simpl in Ha; [destruct Ha as (E' & _); rewrite (Hm mx m) in E'; done|].
      exists (MHeld t n ws'). by rewrite E.
    + exists a. split; [done|]. unfold waiting. rewrite HL; [done|done|congruence].
  - eapply boxes_ext; [exact I5|..]; rewrite ?Et; try done.
    + intros hd us Hh Hus. destruct (decide (hd = hd0)) as [->|Hne]; [by exists ws'|].
      exists us. unfold waiting. by rewrite HL.
    + intros u Hu. by rewrite <- (insert_dom _ c th (set_stat SK_THREAD_SUSPEND th) u Hc).
    + intros x o Ho Hn. rewrite Eo; [done|]. apply Hn. by exists th.
Qed.

Lemma wait_place_mem flag ths p t ws w : w ∈ wait_place flag ths p t ws <-> w = t \/ w ∈ ws.
Proof.
  unfold wait_place. destruct (flag =? _); [rewrite elem_of_app, list_elem_of_singleton; tauto|].
  rewrite prio_place_perm, elem_of_cons. tauto.
Qed.

(** The state in which the running thread has been suspended. *)
Lemma suspend_mid idle L L' s s' th :
  sys_inv idle L s -> ks_threads s !! ks_current s = Some th -> ks_current s <> idle ->
  ks_threads s' = <[ks_current s := set_stat SK_THREAD_SUSPEND th]> (ks_threads s) ->
  ks_current s' = ks_current s -> sched_inv L' s' -> ipc_ok L' s' -> (exists tms, timers_ok L' s' tms) ->
  (forall i, L' !! NPrio i = L !! NPrio i) ->
  (forall u, u <> ks_current s -> detached L u -> detached L' u) ->
  (forall u, on_wait L u -> on_wait L' u) -> (detached L' (ks_current s) \/ on_wait L' (ks_current s)) ->
  sys_mid idle L' s'.
Proof.
  intros [HM (cth & Hc & Hr)] Hth Hni Et Ec HI' HP' HT' HQ Hd Hw Hoff.
  assert (forall u, queued L u -> queued L' u) as Hqd.
  { intros u (i & us & Hi & Hq & Hin). exists i, us. unfold queue. by rewrite HQ. }
  split; rewrite ?Et, ?Ec; try done.
  - exists (set_stat SK_THREAD_SUSPEND th). rewrite lookup_insert_eq. split; [done|]. right. by split.
  - intros t uh Hu Hne. rewrite lookup_insert_ne in Hu by done.
    destruct (sm_placed _ _ _ HM t uh Hu Hne) as [Hq|[Hs [?|?]]]; [left; auto|right; split; auto..].
  - destruct (sm_idle _ _ _ HM) as [E|]; [congruence|]. auto.
  - rewrite lookup_insert_ne; [apply HM|]. intros E. pose proof (sm_null _ _ _ HM) as HN. rewrite <- E in HN. congruence.
Qed.

(** Waiting on the list [hd0] of an object that has nothing to give; [rest] is what
    the call does when its thread goes on. *)
Lemma block_then idle L s hd0 ws flag time (rest : M Z) :
  sys_inv idle L s -> ks_nest s = 0 -> ks_current s <> idle -> wait_head hd0 -> waiting L hd0 ws ->
  flag = SK_IPC_FLAG_FIFO \/ flag = SK_IPC_FLAG_PRIO ->
  (forall x v, hd0 = NSuspend x -> ks_sems s !! x = Some v -> v = 0) ->
  (forall x m, hd0 = NSuspend x -> ks_mutexes s !! x = Some m -> mvalue m = 0) ->
  (forall s2, gets_back idle s (ks_current s) s2 -> call_ok idle s2 (rest s2)) ->
  call_ok idle s ((__ipc_list_suspend hd0 (ks_current s) flag;; arm_timeout (ks_current s) time;;
    hw_interrupt_enable (ks_daif s);; sk_schedule;; rest) (masked s)).
Proof.
  intros HV Hn Hni Hh0 Hw Hflag Hv0 Hm0 Hrest. pose proof (sv_mid _ _ _ HV) as HM. pose proof (sm_sched _ _ _ HM) as HI.
  destruct (sv_runs _ _ _ HV) as (th & Hth & Hst & Hdet). set (c := ks_current s) in *.
  destruct (sm_timers _ _ _ HM) as [tms HT]. destruct (tk_own _ _ _ HT c) as (tmr & o & HO & Hf & Hp & Hper); [by eexists|].
  pose proof (sm_ipc _ _ _ HM) as HP.
  assert (forall n, ~ wait_head n -> n <> hd0) as Hnw by (by intros n Hn' ->).
  assert (forall w, w ∈ ws -> is_Some (ks_threads s !! w)) as Hws.
  { destruct (ip_wait _ _ HP hd0 _ Hh0 Hw) as (ws0 & E & Hws0). apply list_fmap_eq_inj in E as <-; [|apply _].
    intros w Hin. destruct (Hws0 w Hin) as (wh & ? & _). by exists wh. }
  destruct (ipc_list_suspend_spec L (masked s) hd0 ws c th flag tms tmr o)
    as (h1 & L1 & Hrun & HI1 & Hw1 & HT1 & _ & Hfr1); try done; [by apply sched_inv_masked|by destruct HO|].
  set (s1 := suspended _ _ _ _ _) in *.
  assert (forall u, is_Some (ks_threads s1 !! u) <-> is_Some (ks_threads s !! u)) as Hdom1
    by (intros u; by apply (insert_dom _ _ th)).
  pose proof (stopped_timers L L1 s s1 tms c tmr o HT HO Hf Hp Hper ltac:(by eexists) Hdom1) as HTok.
  specialize (HTok ltac:(intros y Hy; apply Hfr1; [by apply Hnw; intros []|done|done|congruence]) eq_refl eq_refl HT1).
  destruct (arm_timeout_sys L1 s1 _ c time HI1 HTok) as (h & ob & tm & L2 & tms2 & Harm & HI2 & HT2 & Hfr2 & Hob);
    [by apply Hdom1; eexists|].
  set (s2 := upd_nodes _ _) in *. set (s3 := upd_daif (fun _ => ks_daif s) s2).
  assert (forall n, n <> hd0 -> n <> NTlist c -> n <> NTimerList -> n <> NTimer (thread_timer c) ->
    L2 !! n = L !! n) as HL.
  { intros n H1 H2 H3 H4. rewrite Hfr2 by done. by apply Hfr1. }
  assert (waiting L2 hd0 (wait_place flag (ks_threads s) (current_pri th) c ws)) as Hw2
    by (unfold waiting; rewrite Hfr2; [exact Hw1|by intros ->..]).
  assert (same_frame s s3) as HF3 by (by split).
  eapply (call_ok_from idle s s3); [exact HF3|done|done|].
  kstep Hrun. kstep Harm. erewrite bind_done by (apply enable_ok; [apply HI|done]).
  apply (schedule_then idle L2 s3); [|done|].
  2: { intros s2' [? ? ? HO2]. apply Hrest. split; try done. eapply same_objects_trans; [apply HF3|exact HO2]. }
  apply (suspend_mid idle L L2 s s3 th HV); try done.
  - eapply sched_inv_ext; [exact HI2|apply HI2|apply HI|done..].
  - eapply (block_ipc L L2 s s3 c th hd0 ws); try done.
    + intros y Hy. simpl. rewrite Hob by done. simpl. by rewrite lookup_insert_ne.
    + intros w. apply wait_place_mem.
    + intros hd Hh Hne. apply HL; by destruct hd.
  - exists tms2. by eapply timers_ok_ext.
  - intros i. apply HL; [by apply Hnw; intros []|done..].
  - intros u Hu Hd. unfold detached. rewrite HL; [done|by apply Hnw; intros []|intros [= E]; by apply Hu|done|done].
  - intros u (hd & us & Hh & Hus & Hin). destruct (decide (hd = hd0)) as [->|Hne].
    + exists hd0. eexists. split; [done|]. split; [exact Hw2|]. apply wait_place_mem. right.
      unfold waiting in Hus, Hw. rewrite Hw in Hus. injection Hus as E. by apply list_fmap_eq_inj in E as ->; [|apply _].
    + exists hd, us. split; [done|]. split; [|done]. unfold waiting. rewrite HL; by destruct hd.
  - right. exists hd0. eexists. split; [done|]. split; [exact Hw2|]. apply wait_place_in.
Qed.

Lemma block_sys idle L s x ws flag time a :
  sys_inv idle L s -> ks_nest s = 0 -> ks_current s <> idle -> waiting L (NSuspend x) ws ->
  flag = SK_IPC_FLAG_FIFO \/ flag = SK_IPC_FLAG_PRIO ->
  (forall v, ks_sems s !! x = Some v -> v = 0) -> (forall m, ks_mutexes s !! x = Some m -> mvalue m = 0) ->
  call_ok idle s ((__ipc_list_suspend (NSuspend x) (ks_current s) flag;; arm_timeout (ks_current s) time;;
    hw_interrupt_enable (ks_daif s);; sk_schedule;; mret a) (masked s)).
Proof.
  intros HV Hn Hni Hw Hflag Hv0 Hm0. apply (block_then idle L s (NSuspend x) ws); try done.
  - intros y v [= <-]. apply Hv0.
  - intros y m [= <-]. apply Hm0.
  - intros s2. apply return_ok.
Qed.

(** [sk_thread_sleep] *)
Lemma sleep_sys idle L s tick :
  sys_inv idle L s -> ks_nest s = 0 -> ks_current s <> idle -> call_ok idle s (sk_thread_sleep tick s).
Proof.
  intros HV Hn Hni. pose proof (sv_mid _ _ _ HV) as HM. pose proof (sm_sched _ _ _ HM) as HI.
  destruct (sv_runs _ _ _ HV) as (th & Hth & Hst & Hdet). set (c := ks_current s) in *.
  destruct (sm_timers _ _ _ HM) as [tms HT]. destruct (tk_own _ _ _ HT c) as (tmr & o & HO & Hf & Hp & Hper); [by eexists|].
  destruct (suspend_current_spec L (masked s) c th tms tmr o) as (h1 & L1 & Hsus & HI1 & Hd1 & HT1 & Hfr1);
    try done; [by apply sched_inv_masked|by destruct HO|].
  set (s1 := suspended _ _ _ _ _) in *.
  assert (forall u, is_Some (ks_threads s1 !! u) <-> is_Some (ks_threads s !! u)) as Hdom1
    by (intros u; by apply (insert_dom _ _ th)).
  pose proof (stopped_timers L L1 s s1 tms c tmr o HT HO Hf Hp Hper ltac:(by eexists) Hdom1) as HTok.
  specialize (HTok ltac:(intros y Hy; apply Hfr1; [done|congruence]) eq_refl eq_refl HT1).
  destruct (arm_sys L1 s1 _ c tick HI1 HTok) as (s1' & h & ob & tm & L2 & tms2 & Hset & Hstart & HI2 & HT2 & Hfr2 & Hob);
    [by apply Hdom1; eexists|].
  set (s2 := upd_nodes _ _) in *. set (s3 := upd_daif (fun _ => ks_daif s) s2).
  assert (forall n, n <> NTimerList -> n <> NTimer (thread_timer c) -> L2 !! n = L !! n) as HL.
  { intros n H1 H2. rewrite Hfr2 by done. by apply Hfr1. }
  assert (forall hd, wait_head hd -> L2 !! hd = L !! hd) as HLw by (intros hd Hh; apply HL; by destruct hd).
  eapply (call_ok_from idle s s3); [by split|done|done|].
  assert (sk_thread_sleep tick s = (sk_schedule;; mret SK_EOK) s3) as ->.
  { unfold sk_thread_sleep. erewrite bind_done by reflexivity. fold c. kstep (disable_ok s (si_irq _ _ HI)).
    kstep Hsus. kstep Hset. kstep Hstart. by erewrite bind_done by (apply enable_ok; [apply HI|done]). }
  apply (schedule_call idle L2 s3); [|done].
  apply (suspend_mid idle L L2 s s3 th HV); try done.
  - eapply sched_inv_ext; [exact HI2|apply HI2|apply HI|done..].
  - destruct (sm_ipc _ _ _ HM) as [I1 I2 I3 I4 I5]. split; try done.
    + intros hd xs Hh Hl. rewrite HLw in Hl by done. destruct (I1 hd xs Hh Hl) as (ws & -> & Hws). exists ws.
      split; [done|]. intros w Hin. destruct (Hws w Hin) as (wh & Hwh & Hs). simpl. rewrite lookup_insert.
      case_decide; [by eexists|by exists wh].
    + intros sem v Hv. destruct (I2 sem v Hv) as (ws & ob' & Hw & Hr & Hx & Ho & Hfl & Hnt). exists ws, ob'.
      split; [unfold waiting; by rewrite HLw|]. do 2 (split; [done|]). split; [|split; [done|]].
      * simpl. rewrite Hob by (apply Hnt; by eexists). simpl. rewrite lookup_insert_ne; [done|].
        apply not_eq_sym, Hnt. by eexists.
      * intros t Ht. apply Hnt. by apply Hdom1.
    + intros mx m Hm. destruct (I3 mx m Hm) as (b & Hb & Hw). exists b. split; [done|]. unfold waiting. by rewrite HLw.
    + eapply boxes_ext; [exact I5|..]; try done.
      * intros hd ws Hh Hw. exists ws. unfold waiting. by rewrite HLw.
      * intros u. apply Hdom1.
      * intros y ob' Ho Hnt. simpl. rewrite Hob by (apply Hnt; by eexists). simpl. rewrite lookup_insert_ne; [done|].
        apply not_eq_sym, Hnt. by eexists.
  - exists tms2. by eapply timers_ok_ext.
  - intros i. by apply HL.
  - intros u Hu Hd. unfold detached. by rewrite HL.
  - intros u (hd & us & Hh & Hus & Hin). exists hd, us. split; [done|]. split; [|done]. unfold waiting. by rewrite HLw.
  - left. unfold detached. rewrite HL; [exact Hdet|done|done].
Qed.

(** Waking the first waiter of the object [x]. *)
Lemma wake_then idle L s x w ws d a :
  sys_inv idle L s -> ks_nest s = 0 -> waiting L (NSuspend x) (w :: ws) -> d = 0 \/ d = 0xC0 ->
  call_ok idle s ((sk_thread_resume w;; hw_interrupt_enable d;; sk_schedule;; mret a) s).
Proof.
  intros HV Hn Hw Hd. pose proof (sv_mid _ _ _ HV) as HM. pose proof (sm_sched _ _ _ HM) as HI.
  destruct (ip_wait _ _ (sm_ipc _ _ _ HM) (NSuspend x) _ Logic.I Hw) as (ws0 & E & Hws).
  apply list_fmap_eq_inj in E as <-; [|apply _]. destruct (Hws w) as (wh & Hwh & Hst); [by left|].
  assert (w <> ks_current s) as Hne.
  { intros ->. destruct (sv_runs _ _ _ HV) as (cth & _ & _ & Hdt). unfold detached in Hdt.
    rewrite (rep_head_alone _ _ _ _ (NTlist (ks_current s)) (si_rep _ _ HI) Hw) in Hdt; [done|].
    apply list_elem_of_fmap_2. by left. }
  destruct (resume_sys idle L s w wh HV Hwh Hne Hst) as (h & L' & Hrun & HV').
  kstep Hrun. destruct (enable_any d (inserted w wh h s) Hd (si_irq _ _ HI)) as (d' & Hdd & Hen). kstep Hen.
  eapply (call_ok_from idle s (upd_daif (fun _ => d') (inserted w wh h s))); [|done|done|].
  { split; try done. intros u. by apply (insert_dom _ _ wh). }
  apply (schedule_call idle L'); [|done]. eapply mid_core; [apply HV'|done|done].
Qed.

Lemma inv_masked idle L s : sys_inv idle L s -> sys_inv idle L (masked s).
Proof. intros HV. eapply inv_core; [exact HV|done|by right]. Qed.

Lemma wake_call idle L s x w ws a :
  sys_inv idle L s -> ks_nest s = 0 -> waiting L (NSuspend x) (w :: ws) ->
  call_ok idle s ((sk_thread_resume w;; hw_interrupt_enable (ks_daif s);; sk_schedule;; mret a) (masked s)).
Proof.
  intros HV Hn Hw. apply (call_ok_from idle s (masked s)); [by split|done|done|].
  apply (wake_then idle L (masked s) x w ws); [by apply inv_masked|done|done|apply HV].
Qed.

(** Changes of the value of a semaphore and of a mutex. *)
Lemma inv_sem idle L s sem v v' :
  sys_inv idle L s -> ks_sems s !! sem = Some v -> 0 <= v' <= SK_SEM_VALUE_MAX ->
  (forall ws, waiting L (NSuspend sem) ws -> ws <> [] -> v' = 0) ->
  sys_inv idle L (upd_sems (<[sem := v']>) s).
Proof.
  intros [HM Hr] Hv Hrg Hx. split; [|done]. destruct HM as [H1 H2 H3 [I1 I2 I3 I4 I5] [tms HT] H6 H7].
  split; try done; [by eapply sched_inv_ext; try apply H1| |exists tms; by eapply timers_ok_ext].
  split; try done.
  - intros x y. simpl. intros [[<- <-]|[_ Hy]]%lookup_insert_Some; [|by apply I2].
    destruct (I2 sem v Hv) as (ws & o & Hw & _ & _ & H). exists ws, o. split; [done|]. split; [done|].
    split; [by apply Hx|done].
  - intros x Hs. simpl in *. apply I4. revert Hs. rewrite lookup_insert. case_decide; [subst; by eauto|done].
  - eapply boxes_frame; [exact I5|..]; simpl; eauto. intros x Hnone. rewrite lookup_insert_ne; congruence.
Qed.

Lemma inv_mutex idle L s mx m a m' :
  sys_inv idle L s -> ks_mutexes s !! mx = Some m -> abs_fields a m' ->
  waiting L (NSuspend mx) (abs_waiters a) -> sys_inv idle L (upd_mutexes (<[mx := m']>) s).
Proof.
  intros [HM Hr] Hm Ha Hw. split; [|done]. destruct HM as [H1 H2 H3 [I1 I2 I3 I4 I5] [tms HT] H6 H7].
  split; try done; [by eapply sched_inv_ext; try apply H1| |exists tms; by eapply timers_ok_ext].
  split; try done.
  - intros x y. simpl. intros [[<- <-]|[_ Hy]]%lookup_insert_Some; [by exists a|by apply I3].
  - intros x Hs. simpl in *. pose proof (I4 x Hs) as Hx. rewrite lookup_insert_ne; [done|]. intros <-. congruence.
  - eapply boxes_frame; [exact I5|..]; simpl; eauto. intros x Hnone. rewrite lookup_insert_ne; congruence.
Qed.

Lemma call_done idle L s s' a :
  sys_inv idle L s' -> same_frame s s' -> ks_switch s' = ks_switch s -> ks_current s' = ks_current s ->
  call_ok idle s (Done s' a).
Proof. intros. constructor; [split; [by exists L|done|done]|done]. Qed.

(** A change of one object keeps the frame. *)
Lemma frame_sem s x v v' : ks_sems s !! x = Some v -> same_frame s (upd_sems (<[x := v']>) s).
Proof. intros Hv. split; try done. split; try done. intros y. by apply (insert_dom _ _ v). Qed.

Lemma frame_mutex s x m m' : ks_mutexes s !! x = Some m -> same_frame s (upd_mutexes (<[x := m']>) s).
Proof. intros Hm. split; try done. split; try done. intros y. by apply (insert_dom _ _ m). Qed.

Lemma sem_wait_sys idle L s sem time :
  sys_inv idle L s -> ks_nest s = 0 -> ks_current s <> idle -> is_Some (ks_sems s !! sem) ->
  call_ok idle s (sk_sem_wait sem time s).
Proof.
  intros HV Hn Hni [v Hv]. pose proof (sv_mid _ _ _ HV) as HM. pose proof (sm_sched _ _ _ HM) as HI.
  destruct (ip_sem _ _ (sm_ipc _ _ _ HM) sem v Hv) as (ws & o & Hw & Hr & Hx & Ho & Hf & _).
  rewrite (sem_wait_run s sem v time (si_irq _ _ HI) Hv). unfold SK_SEM_VALUE_MAX in *.
  destruct (Z.ltb_spec 0 v) as [Hlt|Hge]; [|destruct (time =? 0)].
  - apply (call_done idle L); try done; [|by apply (frame_sem _ _ v)]. apply (inv_sem idle L s sem v); try done.
    + unfold SK_SEM_VALUE_MAX. rewrite uint_small; lia.
    + intros ws' Hw' Hne. exfalso. unfold waiting in Hw, Hw'. rewrite Hw in Hw'. injection Hw' as E.
      apply list_fmap_eq_inj in E as <-; [|apply _]. specialize (Hx Hne). lia.
  - by apply (call_done idle L).
  - unfold get_obj. erewrite bind_done by (apply read_at_ok; exact Ho).
    apply (block_sys idle L s sem ws); try done.
    + intros v' Hv'. assert (v' = v) as -> by congruence. lia.
    + intros m Hm. by rewrite (ip_disjoint _ _ (sm_ipc _ _ _ HM) sem) in Hm by (by eexists).
Qed.

Lemma sem_post_sys idle L s sem :
  sys_inv idle L s -> ks_nest s = 0 -> is_Some (ks_sems s !! sem) -> call_ok idle s (sk_sem_post sem s).
Proof.
  intros HV Hn [v Hv]. pose proof (sv_mid _ _ _ HV) as HM. pose proof (sm_sched _ _ _ HM) as HI.
  destruct (ip_sem _ _ (sm_ipc _ _ _ HM) sem v Hv) as (ws & o & Hw & Hr & Hx & _). destruct ws as [|w ws].
  - rewrite (sem_post_run_empty L s sem v HI Hv Hw). unfold SK_SEM_VALUE_MAX in *.
    destruct (Z.ltb_spec v 0xFFFF) as [Hlt|Hge]; [|by apply (call_done idle L)].
    apply (call_done idle L); try done; [|by apply (frame_sem _ _ v)]. apply (inv_sem idle L s sem v); try done.
    + unfold SK_SEM_VALUE_MAX. rewrite uint_small; lia.
    + intros ws' Hw' Hne. exfalso. unfold waiting in Hw, Hw'. rewrite Hw in Hw'. injection Hw' as E.
      by destruct ws'.
  - assert (sk_sem_post sem s = (sk_thread_resume w;; hw_interrupt_enable (ks_daif s);; sk_schedule;; mret SK_EOK) (masked s)) as ->.
    { unfold sk_sem_post. erewrite bind_done by reflexivity. kstep (disable_ok s (si_irq _ _ HI)).
      by erewrite (first_waiter L _ _ (w :: ws)) by (apply HI || exact Hw). }
    by apply (wake_call idle L s sem w ws).
Qed.

Lemma current_not_null idle L s : sys_inv idle L s -> ks_current s <> SK_NULL.
Proof.
  intros HV E. destruct (sv_runs _ _ _ HV) as (th & Hth & _). rewrite E, (sm_null _ _ _ (sv_mid _ _ _ HV)) in Hth. done.
Qed.

Lemma mutex_lock_sys idle L s mx time :
  sys_inv idle L s -> ks_nest s = 0 -> ks_current s <> idle -> is_Some (ks_mutexes s !! mx) ->
  call_ok idle s (sk_mutex_lock mx time s).
Proof.
  intros HV Hn Hni [m Hm]. pose proof (sv_mid _ _ _ HV) as HM. pose proof (sm_sched _ _ _ HM) as HI.
  pose proof (current_not_null _ _ _ HV) as Hnull. destruct (sv_runs _ _ _ HV) as (th & Hth & _).
  destruct (ip_mutex _ _ (sm_ipc _ _ _ HM) mx m Hm) as (a & Ha & Hw).
  rewrite (mutex_lock_run s mx m th time (si_irq _ _ HI) Hm Hth). unfold SK_MUTEX_HOLD_MAX in *.
  destruct a as [|t n ws]; simpl in Ha, Hw; unfold SK_MUTEX_HOLD_MAX in *.
  - destruct Ha as (Ev & Eo & Eh). rewrite Eo, Ev, Eh, (proj2 (Z.eqb_neq _ _)) by congruence. kif.
    apply (call_done idle L); try done; [|by apply (frame_mutex _ _ m)]. apply (inv_mutex idle L s mx m (MHeld (ks_current s) 1 [])); try done.
  - destruct Ha as (Ev & Eo & Eh & Ht & Hr). rewrite Eo, Ev, Eh. destruct (Z.eqb_spec t (ks_current s)) as [->|Hne].
    + destruct (Z.ltb_spec n 255) as [Hlt|Hge]; [|by apply (call_done idle L)].
      apply (call_done idle L); try done; [|by apply (frame_mutex _ _ m)]. apply (inv_mutex idle L s mx m (MHeld (ks_current s) (n + 1) ws)); try done.
      simpl. unfold SK_MUTEX_HOLD_MAX. rewrite uint_small by lia. split_and!; try done; lia.
    + kif. destruct (time =? 0); [by apply (call_done idle L)|]. apply (block_sys idle L s mx ws); try done; [by right| |].
      * intros v Hv. by rewrite (ip_disjoint _ _ (sm_ipc _ _ _ HM) mx) in Hm by (by eexists).
      * intros m' Hm'. congruence.
Qed.

Lemma mutex_unlock_sys idle L s mx :
  sys_inv idle L s -> ks_nest s = 0 -> is_Some (ks_mutexes s !! mx) -> call_ok idle s (sk_mutex_unlock mx s).
Proof.
  intros HV Hn [m Hm]. pose proof (sv_mid _ _ _ HV) as HM. pose proof (sm_sched _ _ _ HM) as HI.
  pose proof (current_not_null _ _ _ HV) as Hnull.
  destruct (ip_mutex _ _ (sm_ipc _ _ _ HM) mx m Hm) as (a & Ha & Hw).
  rewrite (mutex_unlock_run L s mx m _ HI Hm Hw).
  destruct (Z.eqb_spec (ks_current s) (owner m)) as [Eo|]; kif; [|by apply (call_done idle L)].
  destruct a as [|t n ws]; simpl in Ha, Hw; unfold SK_MUTEX_HOLD_MAX in *; [destruct Ha as (_ & ? & _); congruence|].
  destruct Ha as (Ev & Eo' & Eh & Ht & Hr). cbn [set_hold hold abs_waiters]. rewrite Eh, uint_small by lia.
  destruct (Z.eqb_spec (n - 1) 0) as [En|En].
  - destruct ws as [|w ws].
    + apply (call_done idle L); try done; [|by apply (frame_mutex _ _ m)]. apply (inv_mutex idle L s mx m MFree); try done.
      simpl. rewrite Ev, ?Eh, En. by split_and!.
    + destruct (ip_wait _ _ (sm_ipc _ _ _ HM) (NSuspend mx) _ Logic.I Hw) as (ws0 & E & Hws).
      apply list_fmap_eq_inj in E as <-; [|apply _]. destruct (Hws w) as (wh & Hwh & _); [by left|].
      unfold get_thread, upd_mutex. erewrite bind_done by (apply read_at_ok; exact Hwh).
      erewrite bind_done by (apply update_at_ok; simpl; rewrite lookup_insert_eq; reflexivity).
      erewrite bind_done by (apply update_at_ok; simpl; rewrite lookup_insert_eq; reflexivity).
      set (m1 := set_owner w (current_pri wh) (set_hold (n - 1) m)). cbv beta. set (m' := set_hold (hold m1 + 1) m1).
      assert (upd_mutexes (<[mx := m']>) (upd_mutexes (<[mx := m1]>)
        (upd_mutexes (<[mx := set_hold (n - 1) m]>) (masked s))) = masked (upd_mutexes (<[mx := m']>) s)) as Es.
      { unfold masked, upd_mutexes, upd_daif. simpl. by rewrite !insert_insert_eq. }
      rewrite Es. set (s1 := upd_mutexes (<[mx := m']>) s).
      change (ks_daif s) with (ks_daif s1).
      apply (call_ok_from idle s s1); [by apply (frame_mutex _ _ m)|done|done|]. apply (wake_call idle L s1 mx w ws); try done.
      apply (inv_mutex idle L s mx m (MHeld w 1 (w :: ws))); try done.
      simpl. unfold SK_MUTEX_HOLD_MAX. rewrite Ev, En. split_and!; try done.
      intros ->. pose proof (sm_null _ _ _ HM). congruence.
  - apply (call_done idle L); try done; [|by apply (frame_mutex _ _ m)]. apply (inv_mutex idle L s mx m (MHeld t (n - 1) ws)); try done.
    simpl. unfold SK_MUTEX_HOLD_MAX. rewrite uint_small by lia. split_and!; try done; lia.
Qed.

End calls.
