(* ===== verification/SysBox.v ===== *)
(** * Events and mailboxes in the system

    The calls on events and mailboxes keep the invariant of [SysInv], up to their
    switch and, when their thread has the processor again, to their end: a receiver
    of an event reads its bits, a sender or receiver of a mailbox tries again. *)

From S2P Require Import Prelude BaseDef KList Slab IoDef Kernel Sched KObj Timer Thread IpcBase Semaphore Mutex Event Mailbox SysInv SysCalls.

Local Open Scope c_scope.

Section boxes.
Implicit Types (L : lists) (s : kstate).

(** ** Changes of one thread, event or mailbox *)

Lemma inv_thread idle L s t th th' :
  sys_inv idle L s -> ks_threads s !! t = Some th -> stat th' = stat th -> current_pri th' = current_pri th ->
  number_mask th' = number_mask th -> sys_inv idle L (upd_threads (<[t := th']>) s).
Proof.
  intros [HM (cth & Hc & Hr)] Ht Hst Hp Hm.
  assert (forall u uh', <[t := th']> (ks_threads s) !! u = Some uh' ->
    exists uh, ks_threads s !! u = Some uh /\ stat uh' = stat uh) as Hback.
  { intros u uh'. rewrite lookup_insert. case_decide as E; [|by eauto]. subst. intros [= <-]. by exists th. }
  assert (forall u uh, ks_threads s !! u = Some uh ->
    exists uh', <[t := th']> (ks_threads s) !! u = Some uh' /\ stat uh' = stat uh) as Hforth.
  { intros u uh Hu. rewrite lookup_insert. case_decide; [|by eauto]. exists th'. split; [done|]. congruence. }
  assert (forall u, is_Some (<[t := th']> (ks_threads s) !! u) <-> is_Some (ks_threads s !! u)) as Hdom
    by (intros u; by apply (insert_dom _ _ th)).
  destruct (Hforth _ _ Hc) as (cth' & Hc' & Es).
  assert (runs L (ks_current s) cth') as Hr' by (destruct Hr; split; [congruence|done]).
  split; [|by exists cth']. split; try done.
  - by apply (sched_inv_thread L s t th th'); try apply HM.
  - exists cth'. auto.
  - intros u uh' Hu Hne. destruct (Hback u uh' Hu) as (uh & Huh & E).
    destruct (sm_placed _ _ _ HM u uh Huh Hne) as [|[? ?]]; [by left|right]. split; [congruence|done].
  - eapply ipc_ok_frame; [apply HM|done|intros u; apply Hdom| |done..]. intros hd ws w wh _ _ _. apply Hforth.
  - destruct (sm_timers _ _ _ HM) as [tms HT]. exists tms. by eapply timers_ok_ext.
  - apply HM.
  - simpl. pose proof (sm_null _ _ _ HM) as HN. rewrite lookup_insert_ne; [done|]. intros ->. congruence.
Qed.

(** Events and mailboxes change within their invariant. *)
Lemma inv_boxes idle L s ge gb :
  sys_inv idle L s ->
  (forall x, is_Some (ge (ks_events s) !! x) -> is_Some (ks_events s !! x)) ->
  (forall x b, gb (ks_mailboxes s) !! x = Some b -> exists b0, ks_mailboxes s !! x = Some b0 /\ (mb_wf b0 -> mb_wf b)) ->
  sys_inv idle L (upd_events ge (upd_mailboxes gb s)).
Proof.
  intros HV He Hb. destruct HV as [[H1 H2 H3 [I1 I2 I3 I4 I5] [tms HT] H6 H7] Hr]. split; [|done].
  split; try done; [by eapply sched_inv_ext; try apply H1| |exists tms; by eapply timers_ok_ext].
  split; try done. eapply boxes_frame; [exact I5|..]; simpl in *; eauto.
Qed.

Lemma inv_event idle L s ev e e' :
  sys_inv idle L s -> ks_events s !! ev = Some e -> sys_inv idle L (upd_events (<[ev := e']>) s).
Proof.
  intros HV He. replace s with (upd_mailboxes id s) by (by destruct s). apply inv_boxes; [done| |by eauto].
  intros x. by rewrite (insert_dom _ _ e).
Qed.

Lemma inv_mailbox idle L s mb b b' :
  sys_inv idle L s -> ks_mailboxes s !! mb = Some b -> (mb_wf b -> mb_wf b') ->
  sys_inv idle L (upd_mailboxes (<[mb := b']>) s).
Proof.
  intros HV Hb Hwf. replace (upd_mailboxes _ s) with (upd_events id (upd_mailboxes (<[mb := b']>) s)) by (by destruct s).
  apply inv_boxes; [done|done|]. intros x c [[<- <-]|[_ Hc]]%lookup_insert_Some; [by exists b|by exists c].
Qed.

Lemma frame_event s x e e' : ks_events s !! x = Some e -> same_frame s (upd_events (<[x := e']>) s).
Proof. intros He. split; try done. split; try done. intros y. by apply (insert_dom _ _ e). Qed.

Lemma frame_mailbox s x b b' : ks_mailboxes s !! x = Some b -> same_frame s (upd_mailboxes (<[x := b']>) s).
Proof. intros Hb. split; try done. split; try done. intros y. by apply (insert_dom _ _ b). Qed.

Lemma frame_thread s t th th' : ks_threads s !! t = Some th -> same_frame s (upd_threads (<[t := th']>) s).
Proof. intros Ht. split; try done. intros y. by apply (insert_dom _ _ th). Qed.

(** Nothing of the invariant is in the words of memory. *)
Lemma inv_words idle L s g : sys_inv idle L s -> sys_inv idle L (upd_words g s).
Proof. intros HV. eapply inv_core; [exact HV|done|apply HV]. Qed.

Lemma frame_words s g : same_frame s (upd_words g s).
Proof. by split. Qed.

(** ** Events *)

Lemma event_obj idle L s ev e :
  sys_inv idle L s -> ks_events s !! ev = Some e -> ipc_obj L s ev /\ ks_sems s !! ev = None /\ ks_mutexes s !! ev = None.
Proof.
  intros HV He. pose proof (ip_boxes _ _ (sm_ipc _ _ _ (sv_mid _ _ _ HV))) as HB.
  split; [apply (bx_event _ _ HB); by eexists|]. apply (bx_kinds _ _ HB). left. by eexists.
Qed.

(** The end of a receive that had to wait. *)
Lemma event_recv_rest idle s0 c recved s :
  gets_back idle s0 c s ->
  call_ok idle s ((level ← hw_interrupt_disable; th ← get_thread c; store_recved recved (event_set th);;
    hw_interrupt_enable level;; mret SK_EOK) s).
Proof.
  intros [[L HV] Hn Hc HO]. pose proof (si_irq _ _ (sm_sched _ _ _ (sv_mid _ _ _ HV))) as Hirq.
  destruct (sv_runs _ _ _ HV) as (th & Hth & _). rewrite Hc in Hth. kstep (disable_ok s Hirq). unfold get_thread.
  erewrite bind_done by (apply read_at_ok; exact Hth). kstep (store_recved_run recved (event_set th) (masked s)).
  erewrite bind_done by (by apply enable_ok). unfold mret, M_ret.
  set (s1 := upd_words _ (masked s)).
  replace (upd_daif (fun _ => ks_daif s) s1)
    with (upd_words (fun w => if recved =? SK_NULL then w else <[recved := u32 (event_set th)]> w) s) by (by destruct s).
  apply (call_done idle L); [by apply inv_words|apply frame_words|done..].
Qed.

Lemma event_recv_sys idle L s ev set info time recved :
  sys_inv idle L s -> ks_nest s = 0 -> ks_current s <> idle -> is_Some (ks_events s !! ev) ->
  call_ok idle s (sk_event_recv ev set info time recved s).
Proof.
  intros HV Hn Hni [e He]. pose proof (si_irq _ _ (sm_sched _ _ _ (sv_mid _ _ _ HV))) as Hirq.
  destruct (decide (set = 0)) as [->|Hset]; [by apply (call_done idle L)|].
  destruct (sv_runs _ _ _ HV) as (th & Hth & Hst & _).
  rewrite (event_recv_run s ev set info time recved e th Hirq He Hth Hset).
  destruct (event_check info set e) as [[]|]; [| |by apply (call_done idle L)].
  - apply (call_done idle L); try done.
    + apply (inv_event idle L _ ev e); [|done]. apply (inv_thread idle L _ _ th); try done. by apply inv_words.
    + unfold taken. eapply same_frame_trans; [apply frame_words|].
      eapply same_frame_trans; [by eapply (frame_thread _ (ks_current s) th)|by eapply (frame_event _ ev e)].
  - destruct (time =? 0); [by apply (call_done idle L)|].
    destruct (event_obj idle L s ev e HV He) as (((ws & Hw) & (o & Ho & Hf) & _) & Hs & Hm).
    unfold get_obj. erewrite bind_done by (apply read_at_ok; exact Ho). set (th1 := set_event_info _ _).
    set (s1 := upd_threads (<[ks_current s := th1]>) s). apply (call_ok_from idle s s1); [by apply (frame_thread _ _ th)|done..|].
    apply (block_then idle L s1 (NSuspend ev) ws); try done.
    + by apply (inv_thread idle L s _ th).
    + intros x v [= <-]. simpl. congruence.
    + intros x m [= <-]. simpl. congruence.
    + intros s2. apply event_recv_rest.
Qed.

Lemma send_end_sys idle L s (b : bool) : sys_inv idle L s -> ks_nest s = 0 -> call_ok idle s (send_end b s).
Proof. intros HV Hn. destruct b; [apply (schedule_call idle L); [apply HV|done]|by apply (call_done idle L)]. Qed.

Lemma event_send_sys idle L s g ev set :
  sys_inv idle L s -> ks_nest s = 0 -> is_Some (ks_events s !! ev) -> call_ok idle s (sk_event_send g ev set s).
Proof.
  intros HV Hn [e He]. pose proof (sv_mid _ _ _ HV) as HM. pose proof (sm_sched _ _ _ HM) as HI.
  destruct (decide (set = 0)) as [->|Hset]; [by apply (call_done idle L)|].
  destruct (event_obj idle L s ev e HV He) as (((ws & Hw) & _) & _).
  rewrite (event_send_run L s g ev set e ws HI He Hw Hset). cbv zeta. set (e' := e ||| set).
  set (s1 := upd_events (<[ev := e']>) s).
  assert (sys_inv idle L s1) as HV1 by (by apply (inv_event idle L s ev e)).
  assert (same_frame s s1) as HF1 by (by apply (frame_event _ _ e)).
  assert (forall b, call_ok idle s (send_end b s1)) as Hend
    by (intros b; apply (call_ok_from idle s s1); [done..|by apply (send_end_sys idle L)]).
  destruct ws as [|w ws]; [apply Hend|].
  destruct (ip_wait _ _ (sm_ipc _ _ _ HM) (NSuspend ev) _ Logic.I Hw) as (ws0 & E & Hws).
  apply list_fmap_eq_inj in E as <-; [|apply _]. destruct (Hws w) as (wh & Hwh & _); [by left|]. rewrite Hwh.
  destruct (event_check (event_info wh) (event_set wh) e') as [[]|]; [|apply Hend|by apply (call_done idle L)].
  set (e2 := event_take _ _ _). set (s2 := upd_events _ (upd_threads _ s)).
  assert (stat (woken e' wh) = stat wh /\ current_pri (woken e' wh) = current_pri wh /\
    number_mask (woken e' wh) = number_mask wh) as (Es & Ep & Em) by (unfold woken; by destruct (has_flag _ _)).
  apply (call_ok_from idle s s2); [|done..|].
  - eapply same_frame_trans; [by eapply (frame_thread _ w wh)|by eapply (frame_event _ ev e)].
  - change (ks_daif s) with (ks_daif s2). apply (wake_call idle L s2 ev w ws); [|done..].
    apply (inv_event idle L _ ev e); [|done]. by apply (inv_thread idle L s w wh).
Qed.

(** ** Mailboxes *)

Lemma mailbox_obj idle L s mb b :
  sys_inv idle L s -> ks_mailboxes s !! mb = Some b ->
  ipc_obj L s mb /\ (exists ss, waiting L (NSender mb) ss) /\ mb_wf b /\ ks_sems s !! mb = None /\ ks_mutexes s !! mb = None.
Proof.
  intros HV Hb. pose proof (ip_boxes _ _ (sm_ipc _ _ _ (sv_mid _ _ _ HV))) as HB.
  destruct (bx_mailbox _ _ HB mb b Hb) as (? & ? & ?). do 3 (split; [done|]). apply (bx_kinds _ _ HB). right. by eexists.
Qed.

Lemma step_in_wf b : mb_wf b -> mb_wf (step_in b) /\ mb_entry (step_in b) = mb_entry b /\ mb_size (step_in b) = mb_size b.
Proof.
  intros [Hs Hi Ho He]. rewrite step_in_eq by done. split; [|done]. split; simpl; try done.
  destruct (Z.leb_spec (mb_size b) (in_offset b + 1)); lia.
Qed.

Lemma step_out_wf b : mb_wf b -> mb_wf (step_out b) /\ mb_entry (step_out b) = mb_entry b /\ mb_size (step_out b) = mb_size b.
Proof.
  intros [Hs Hi Ho He]. rewrite step_out_eq by done. split; [|done]. split; simpl; try done.
  destruct (Z.leb_spec (mb_size b) (out_offset b + 1)); lia.
Qed.

Lemma entry_wf b n : mb_wf b -> 0 <= n <= mb_size b -> mb_wf (set_mb_entry n b).
Proof. intros [Hs Hi Ho He] Hn. split; simpl; try done. rewrite uint_small; lia. Qed.

(** The common end of the calls. *)
Lemma resume_first_sys idle L s mb d :
  sys_inv idle L s -> ks_nest s = 0 -> is_Some (ks_mailboxes s !! mb) -> d = 0 \/ d = 0xC0 ->
  call_ok idle s (resume_first mb d s).
Proof.
  intros HV Hn [b Hb] Hd. pose proof (sm_sched _ _ _ (sv_mid _ _ _ HV)) as HI.
  destruct (mailbox_obj idle L s mb b HV Hb) as (((ws & Hw) & _) & _).
  unfold resume_first. erewrite (first_waiter L _ _ ws) by (apply HI || exact Hw). destruct ws as [|w ws].
  - destruct (enable_any d s Hd (si_irq _ _ HI)) as (d' & Hdd & Hen). kstep Hen.
    apply (call_done idle L); [by eapply inv_core|apply frame_daif|done..].
  - by apply (wake_then idle L s mb w ws).
Qed.

Lemma mailbox_put_sys idle L s mb v d :
  sys_inv idle L s -> ks_nest s = 0 -> is_Some (ks_mailboxes s !! mb) -> d = 0 \/ d = 0xC0 ->
  call_ok idle s (mailbox_put mb v d s).
Proof.
  intros HV Hn [b Hb] Hd. destruct (mailbox_obj idle L s mb b HV Hb) as (_ & _ & Hwf & _).
  destruct (step_in_wf b Hwf) as (Hwf1 & Ee & Es). pose proof (mw_entry _ Hwf) as Hent.
  unfold mailbox_put, get_mailbox, upd_mailbox. erewrite bind_done by (apply read_at_ok; exact Hb).
  destruct (Z.eqb_spec (mb_entry b) (mb_size b)) as [|Hne]; [by apply (call_done idle L)|].
  erewrite bind_done by reflexivity. erewrite bind_done by (apply update_at_ok; exact Hb).
  erewrite bind_done by (apply read_at_ok; simpl; apply lookup_insert_eq). rewrite Ee, Es.
  destruct (Z.ltb_spec (mb_entry b) (mb_size b)) as [Hlt|]; [|lia].
  erewrite bind_done by (apply update_at_ok; simpl; apply lookup_insert_eq).
  set (s1 := upd_words _ s). set (s2 := upd_mailboxes (<[mb := step_in b]>) s1). set (s3 := upd_mailboxes _ s2).
  assert (ks_mailboxes s2 !! mb = Some (step_in b)) as Hb2 by apply lookup_insert_eq.
  assert (sys_inv idle L s2) as HV2 by (apply (inv_mailbox idle L s1 mb b); [by apply inv_words|done|done]).
  assert (sys_inv idle L s3) as HV3.
  { apply (inv_mailbox idle L s2 mb (step_in b)); [done|done|]. intros _. apply entry_wf; [done|]. rewrite Ee, Es. lia. }
  apply (call_ok_from idle s s3); [|done..|].
  - eapply same_frame_trans; [apply frame_words|].
    eapply same_frame_trans; [by apply (frame_mailbox s1 mb b (step_in b))|by eapply (frame_mailbox s2 mb)].
  - apply (resume_first_sys idle L); [done|done| |done]. eexists. apply lookup_insert_eq.
Qed.

Lemma mailbox_take_sys idle L s mb value d :
  sys_inv idle L s -> ks_nest s = 0 -> is_Some (ks_mailboxes s !! mb) -> d = 0 \/ d = 0xC0 ->
  call_ok idle s (mailbox_take mb value d s).
Proof.
  intros HV Hn [b Hb] Hd. destruct (mailbox_obj idle L s mb b HV Hb) as (_ & _ & Hwf & _).
  destruct (step_out_wf b Hwf) as (Hwf1 & Ee & Es). pose proof (mw_entry _ Hwf) as Hent.
  unfold mailbox_take, get_mailbox, upd_mailbox. erewrite bind_done by (apply read_at_ok; exact Hb).
  destruct (Z.eqb_spec (mb_entry b) 0) as [|Hne]; [by apply (call_done idle L)|].
  do 2 erewrite bind_done by reflexivity. erewrite bind_done by (apply update_at_ok; exact Hb).
  erewrite bind_done by (apply read_at_ok; simpl; apply lookup_insert_eq). rewrite Ee.
  destruct (Z.ltb_spec 0 (mb_entry b)) as [Hlt|]; [|lia]. simpl when_.
  erewrite bind_done by (apply update_at_ok; simpl; apply lookup_insert_eq).
  set (s1 := upd_words _ s). set (s2 := upd_mailboxes (<[mb := step_out b]>) s1). set (s3 := upd_mailboxes _ s2).
  assert (ks_mailboxes s2 !! mb = Some (step_out b)) as Hb2 by apply lookup_insert_eq.
  assert (sys_inv idle L s2) as HV2 by (apply (inv_mailbox idle L s1 mb b); [by apply inv_words|done|done]).
  assert (sys_inv idle L s3) as HV3.
  { apply (inv_mailbox idle L s2 mb (step_out b)); [done|done|]. intros _. apply entry_wf; [done|]. rewrite Ee, Es. lia. }
  apply (call_ok_from idle s s3); [|done..|].
  - eapply same_frame_trans; [apply frame_words|].
    eapply same_frame_trans; [by apply (frame_mailbox s1 mb b (step_out b))|by eapply (frame_mailbox s2 mb)].
  - apply (resume_first_sys idle L); [done|done| |done]. eexists. apply lookup_insert_eq.
Qed.

(** Waiting on either list of a mailbox, and trying again. *)
Lemma mailbox_wait_sys idle L s mb hd b time (rest : M Z) :
  sys_inv idle L s -> ks_nest s = 0 -> ks_current s <> idle -> ks_mailboxes s !! mb = Some b ->
  hd = NSuspend mb \/ hd = NSender mb ->
  (forall L2 s2, sys_inv idle L2 s2 -> ks_nest s2 = 0 -> is_Some (ks_mailboxes s2 !! mb) -> call_ok idle s2 (rest s2)) ->
  call_ok idle s ((o ← get_obj mb; __ipc_list_suspend hd (ks_current s) (obj_flag o);; arm_timeout (ks_current s) time;;
    hw_interrupt_enable (ks_daif s);; sk_schedule;; rest) (masked s)).
Proof.
  intros HV Hn Hni Hb Hhd Hrest.
  destruct (mailbox_obj idle L s mb b HV Hb) as (((ws & Hw) & (o & Ho & Hf) & _) & (ss & Hss) & _ & Hs & Hm).
  unfold get_obj. erewrite bind_done by (apply read_at_ok; exact Ho).
  assert (exists us, waiting L hd us) as [us Hus] by (destruct Hhd as [-> | ->]; eauto).
  apply (block_then idle L s hd us); try done.
  - by destruct Hhd as [-> | ->].
  - intros x v ->. destruct Hhd as [[= ->]|]; [congruence|done].
  - intros x m ->. destruct Hhd as [[= ->]|]; [congruence|done].
  - intros s2 [[L2 HV2] Hn2 _ HO]. apply (Hrest L2); [done|done|]. apply (so_mailboxes _ _ HO). by eexists.
Qed.

Lemma mailbox_send_sys idle L s mb v time :
  sys_inv idle L s -> ks_nest s = 0 -> ks_current s <> idle -> is_Some (ks_mailboxes s !! mb) ->
  call_ok idle s (sk_mailbox_send_wait mb v time s).
Proof.
  intros HV Hn Hni [b Hb]. pose proof (si_irq _ _ (sm_sched _ _ _ (sv_mid _ _ _ HV))) as Hirq.
  unfold sk_mailbox_send_wait. erewrite bind_done by reflexivity. kstep (disable_ok s Hirq).
  unfold get_mailbox at 1. erewrite bind_done by (apply read_at_ok; exact Hb).
  destruct (mb_entry b =? mb_size b); simpl; [destruct (time =? 0)|].
  - erewrite bind_done by (by apply enable_ok). apply (call_done idle L); [by eapply inv_core|by split|done..].
  - apply (mailbox_wait_sys idle L s mb (NSender mb) b); [done..|by right|].
    intros L2 s2 HV2 Hn2 Hb2. by apply (mailbox_put_sys idle L2).
  - apply (call_ok_from idle s (masked s)); [by split|done..|].
    apply (mailbox_put_sys idle L); [by apply inv_masked|done|by eexists|done].
Qed.

Lemma mailbox_recv_sys idle L s mb value time :
  sys_inv idle L s -> ks_nest s = 0 -> ks_current s <> idle -> is_Some (ks_mailboxes s !! mb) ->
  call_ok idle s (sk_mailbox_recv mb value time s).
Proof.
  intros HV Hn Hni [b Hb]. pose proof (si_irq _ _ (sm_sched _ _ _ (sv_mid _ _ _ HV))) as Hirq.
  unfold sk_mailbox_recv. erewrite bind_done by reflexivity. kstep (disable_ok s Hirq).
  unfold get_mailbox at 1. erewrite bind_done by (apply read_at_ok; exact Hb).
  destruct (mb_entry b =? 0); simpl; [destruct (time =? 0)|].
  - erewrite bind_done by (by apply enable_ok). apply (call_done idle L); [by eapply inv_core|by split|done..].
  - apply (mailbox_wait_sys idle L s mb (NSuspend mb) b); [done..|by left|].
    intros L2 s2 HV2 Hn2 Hb2. by apply (mailbox_take_sys idle L2).
  - apply (call_ok_from idle s (masked s)); [by split|done..|].
    apply (mailbox_take_sys idle L); [by apply inv_masked|done|by eexists|done].
Qed.

End boxes.
