(* ===== verification/System.v ===== *)
(** * The system: threads, IPC objects and the timer interrupt together

    The components composed.  A configuration is the state of the kernel with,
    for every thread that has lost the processor, what it will do when it gets it
    back.  A step is a call of the running thread, the continuation of a thread
    that has been switched to, or an interrupt from the vector to the return of
    the handlers.  The invariant of the whole system holds in every configuration
    that can be reached, and in every one of them each call returns or gives the
    processor to a thread that can continue. *)

From S2P Require Import Prelude BaseDef KList Slab IoDef Kernel Sched KObj Timer Thread IpcBase Semaphore Mutex Event Mailbox Bus Intc Board Boot SysInv SysTick SysCalls SysBox.

Local Open Scope c_scope.

(** ** Configurations and steps *)

Inductive call :=
  | CWait (sem time : Z)
  | CPost (sem : Z)
  | CLock (mutex time : Z)
  | CUnlock (mutex : Z)
  | CSend (garbage : bool) (event set : Z)
  | CRecv (event set option_ timeout recved : Z)
  | CPut (mb value timeout : Z)
  | CTake (mb value timeout : Z)
  | CSleep (tick : Z)
  | CDelay (ms : Z)
  | CYield.

Definition run_call (c : call) : M Z :=
  match c with
  | CWait sem time => sk_sem_wait sem time
  | CPost sem => sk_sem_post sem
  | CLock mutex time => sk_mutex_lock mutex time
  | CUnlock mutex => sk_mutex_unlock mutex
  | CSend garbage event set => sk_event_send garbage event set
  | CRecv event set option_ timeout recved => sk_event_recv event set option_ timeout recved
  | CPut mb value timeout => sk_mailbox_send_wait mb value timeout
  | CTake mb value timeout => sk_mailbox_recv mb value timeout
  | CSleep tick => sk_thread_sleep tick
  | CDelay ms => sk_thread_delay ms
  | CYield => sk_schedule;; mret SK_EOK
  end.

(** The object of the call exists. *)
Definition call_valid (c : call) (s : kstate) : Prop :=
  match c with
  | CWait sem _ | CPost sem => is_Some (ks_sems s !! sem)
  | CLock mutex _ | CUnlock mutex => is_Some (ks_mutexes s !! mutex)
  | CSend _ event _ | CRecv event _ _ _ _ => is_Some (ks_events s !! event)
  | CPut mb _ _ | CTake mb _ _ => is_Some (ks_mailboxes s !! mb)
  | _ => True
  end.

Lemma run_call_ok idle L s c :
  sys_inv idle L s -> ks_nest s = 0 -> ks_current s <> idle -> call_valid c s -> call_ok idle s (run_call c s).
Proof.
  intros HV Hn Hni Hc. destruct c; simpl in *.
  - by apply (sem_wait_sys idle L).
  - by apply (sem_post_sys idle L).
  - by apply (mutex_lock_sys idle L).
  - by apply (mutex_unlock_sys idle L).
  - by apply (event_send_sys idle L).
  - by apply (event_recv_sys idle L).
  - by apply (mailbox_send_sys idle L).
  - by apply (mailbox_recv_sys idle L).
  - by apply (sleep_sys idle L).
  - by apply (sleep_sys idle L).
  - apply (schedule_call idle L); [apply HV|done].
Qed.

(** The kernel and, for every thread that is not in a call of its own, what it does
    when it has the processor again. *)
Record config := mk_config { cf_state : kstate; cf_pending : gmap Z (kstate -> res Z) }.

Section system.
Context (hw : hardware) (isr : Z -> Z -> Z -> M unit) (idle : Z).

(** [idle] only waits for interrupts.  An interrupt is taken when it is not masked;
    the rest of [vector_irq] is then what the interrupted thread does next. *)
Inductive step : config -> config -> Prop :=
  | step_return s P c s' a :
      P !! ks_current s = None -> ks_current s <> idle -> call_valid c s ->
      run_call c s = Done s' a -> step (mk_config s P) (mk_config s' P)
  | step_block s P c s' k :
      P !! ks_current s = None -> ks_current s <> idle -> call_valid c s ->
      run_call c s = Switch s' k -> step (mk_config s P) (mk_config s' (<[ks_current s := k]> P))
  | step_continue s P k s' a :
      P !! ks_current s = Some k -> k s = Done s' a ->
      step (mk_config s P) (mk_config s' (delete (ks_current s) P))
  | step_again s P k s' k' :
      P !! ks_current s = Some k -> k s = Switch s' k' ->
      step (mk_config s P) (mk_config s' (<[ks_current s := k']> P))
  | step_irq s P s' :
      ks_daif s = 0 -> vector_irq hw isr s = Done s' tt -> step (mk_config s P) (mk_config s' P)
  | step_preempt s P s' k :
      ks_daif s = 0 -> vector_irq hw isr s = Switch s' k ->
      step (mk_config s P) (mk_config s' (<[ks_current s := fun s => bind_res (k s) (fun _ => mret SK_EOK)]> P)).

Context (timer_isr : Z) (user : Z -> Z -> M unit) (fuel : nat).
Context (DI : kstate -> Prop) `{!Handlers isr timer_isr DI}.
Hypothesis isr_timer : isr timer_isr = sk_hw_timer_isr (timer_call user) fuel.

(** The invariant of a configuration: that of the kernel, outside interrupts; every
    thread without the processor can continue; and a thread that has yet to
    continue runs with interrupts masked. *)
Record config_inv (c : config) : Prop := {
  cv_inv : exists L, sys_inv idle L (cf_state c);
  cv_nest : ks_nest (cf_state c) = 0;
  cv_flag : sw_flag (ks_switch (cf_state c)) = 0;
  cv_ready : irq_ready hw DI (cf_state c);
  cv_fuel : ((size (ks_threads (cf_state c)) + 1) * (size (ks_threads (cf_state c)) + 1) < fuel)%nat;
  cv_pending : forall t, is_Some (ks_threads (cf_state c) !! t) -> t <> ks_current (cf_state c) ->
    is_Some (cf_pending c !! t);
  cv_resumable : forall t k, cf_pending c !! t = Some k -> resumable idle (cf_state c) t k;
  cv_masked : is_Some (cf_pending c !! ks_current (cf_state c)) -> ks_daif (cf_state c) = 0xC0
}.

Lemma size_same (m m' : gmap Z sk_thread) :
  (forall t, is_Some (m' !! t) <-> is_Some (m !! t)) -> size m' = size m.
Proof. intros H. rewrite <- !size_dom. f_equal. apply set_eq. intros t. rewrite !elem_of_dom. apply H. Qed.

(** A step of the kernel from [s] to [s'] that leaves the current thread with
    [P'] pending. *)
Lemma config_step s s' P P' :
  config_inv (mk_config s P) -> (exists L, sys_inv idle L s') -> ks_nest s' = 0 -> sw_flag (ks_switch s') = 0 ->
  irq_ready hw DI s' -> (forall t, is_Some (ks_threads s' !! t) <-> is_Some (ks_threads s !! t)) ->
  same_objects s s' ->
  (forall t, is_Some (ks_threads s !! t) -> t <> ks_current s' -> is_Some (P' !! t)) ->
  (forall t k, P' !! t = Some k -> P !! t = Some k \/ resumable idle s t k) ->
  (is_Some (P' !! ks_current s') -> ks_daif s' = 0xC0) ->
  config_inv (mk_config s' P').
Proof.
  intros HC H1 H2 H3 H4 H5 H6 H7 H8 H9. split; simpl; try done.
  - rewrite (size_same _ _ H5). apply (cv_fuel _ HC).
  - intros t Ht. apply H7. by apply H5.
  - intros t k Hk. eapply resumable_objects; [|exact H6]. destruct (H8 t k Hk) as [Hp|]; [|done].
    exact (cv_resumable _ HC t k Hp).
Qed.

Lemma config_frame s s' : irq_ready hw DI s -> same_frame s s' -> irq_ready hw DI s'.
Proof. intros HR HF. eapply irq_ready_drivers; [apply _|exact HR|by apply same_frame_drivers]. Qed.

(** A thread that loses the processor has its continuation stored. *)
Lemma pending_switch s s' P k :
  config_inv (mk_config s P) -> forall t, is_Some (ks_threads s !! t) -> t <> ks_current s' ->
  is_Some ((<[ks_current s := k]> P) !! t).
Proof.
  intros HC t Ht _. rewrite lookup_insert. case_decide; [by eexists|]. apply (cv_pending _ HC t Ht). simpl. congruence.
Qed.

(** The thread that runs, in a call of its own or in the rest of one, returns to
    its program or loses the processor. *)
Lemma config_done s P s' a :
  config_inv (mk_config s P) -> call_ok idle s (Done s' a) -> config_inv (mk_config s' (delete (ks_current s) P)).
Proof.
  intros HC Hok. inversion Hok as [? ? ? [HV' HF Hsw] Hcur|]; subst.
  apply (config_step s s' P _ HC); try done.
  - rewrite (sf_nest _ _ HF). apply (cv_nest _ HC).
  - rewrite Hsw. apply (cv_flag _ HC).
  - by eapply config_frame; [apply (cv_ready _ HC)|].
  - apply HF.
  - apply HF.
  - intros t Ht Hne. rewrite lookup_delete_ne by congruence. apply (cv_pending _ HC t Ht). simpl. congruence.
  - intros t k [_ Ht]%lookup_delete_Some. by left.
  - rewrite Hcur, lookup_delete_eq. by intros [? ?].
Qed.

Lemma config_switch s P s' k :
  config_inv (mk_config s P) -> call_ok idle s (Switch s' k) -> config_inv (mk_config s' (<[ks_current s := k]> P)).
Proof.
  intros HC Hok. inversion Hok as [|? ? ? [HV' HF Hsw] Hcur Hda Hk]; subst.
  apply (config_step s s' P _ HC); try done.
  - rewrite (sf_nest _ _ HF). apply (cv_nest _ HC).
  - rewrite Hsw. apply (cv_flag _ HC).
  - by eapply config_frame; [apply (cv_ready _ HC)|].
  - apply HF.
  - apply HF.
  - by eapply pending_switch.
  - intros t k'. rewrite lookup_insert_Some. intros [[<- <-]|[_ Ht]]; [by right|by left].
Qed.

(** The rest of a call, when its thread has the processor. *)
Lemma pending_ok s P k :
  config_inv (mk_config s P) -> P !! ks_current s = Some k -> call_ok idle s (k s).
Proof.
  intros HC Hk. eapply resumable_run; [exact (cv_resumable _ HC _ _ Hk)|].
  split; [apply (cv_inv _ HC)|apply (cv_nest _ HC)|done|apply same_objects_refl].
Qed.

Lemma step_inv c c' : config_inv c -> step c c' -> config_inv c'.
Proof.
  intros HC Hst. destruct (cv_inv _ HC) as [L HV]. pose proof (cv_ready _ HC) as HR.
  pose proof (cv_nest _ HC) as Hn. pose proof (cv_flag _ HC) as Hf.
  destruct Hst as [s P c s' a HP Hni Hc Hrun|s P c s' k HP Hni Hc Hrun|s P k s' a HP Hrun|s P k s' k' HP Hrun
    |s P s' Hd Hrun|s P s' k Hd Hrun]; simpl in *.
  - pose proof (run_call_ok idle L s c HV Hn Hni Hc) as Hok. rewrite Hrun in Hok.
    rewrite <- (delete_id P (ks_current s) HP). by eapply config_done.
  - pose proof (run_call_ok idle L s c HV Hn Hni Hc) as Hok. rewrite Hrun in Hok. by apply config_switch.
  - pose proof (pending_ok s P k HC HP) as Hok. rewrite Hrun in Hok. by eapply config_done.
  - pose proof (pending_ok s P k HC HP) as Hok. rewrite Hrun in Hok. by apply config_switch.
  - destruct (interrupt_sys hw isr timer_isr user fuel DI isr_timer idle L s HV Hn Hf HR (cv_fuel _ HC))
      as (s1 & L' & HV' & HR' & Hn' & Hf' & Hdom & HO & _ & [(E & Hcur & Hda)|(k & E & _)]); [|congruence].
    rewrite Hrun in E. injection E as <-. apply (config_step s s' P P HC); try done.
    + by exists L'.
    + rewrite Hcur. apply (cv_pending _ HC).
    + by left.
    + rewrite Hcur, Hda. apply (cv_masked _ HC).
  - destruct (interrupt_sys hw isr timer_isr user fuel DI isr_timer idle L s HV Hn Hf HR (cv_fuel _ HC))
      as (s1 & L' & HV' & HR' & Hn' & Hf' & Hdom & HO & _ & [(E & _)|(k1 & E & Hda & _ & _ & Hk)]); [congruence|].
    rewrite Hrun in E. injection E as <- <-. apply (config_step s s' P _ HC); try done.
    + by exists L'.
    + by eapply pending_switch.
    + intros t k'. rewrite lookup_insert_Some. intros [[<- <-]|[_ Ht]]; [right|by left].
      constructor. intros s2 [[L2 HV2] _ _ _]. rewrite Hk. simpl.
      apply (call_done idle L2); [|apply frame_daif|done..]. eapply inv_core; [exact HV2|done|apply HV].
Qed.

Lemma reachable_inv c c' : config_inv c -> rtc step c c' -> config_inv c'.
Proof. intros HC H. induction H as [|c1 c2 c3 H1 _ IH]; [done|]. apply IH. by eapply step_inv. Qed.

(** What can happen next in a configuration. *)
Definition progresses (c : config) : Prop :=
  let s := cf_state c in let P := cf_pending c in
  (forall k, P !! ks_current s = Some k ->
    (exists s' a, k s = Done s' a /\ ks_current s' = ks_current s) \/
    exists s' k', k s = Switch s' k' /\ ks_current s' <> ks_current s /\ is_Some (P !! ks_current s')) /\
  (forall q, P !! ks_current s = None -> ks_current s <> idle -> call_valid q s ->
    (exists s' a, run_call q s = Done s' a /\ ks_current s' = ks_current s) \/
    exists s' k, run_call q s = Switch s' k /\ ks_current s' <> ks_current s /\ is_Some (P !! ks_current s')) /\
  (ks_daif s = 0 ->
    (exists s', vector_irq hw isr s = Done s' tt /\ ks_current s' = ks_current s) \/
    exists s' k, vector_irq hw isr s = Switch s' k /\
      sw_from (ks_switch s') = thread_sp (ks_current s) /\ sw_to (ks_switch s') = thread_sp (ks_current s') /\
      (ks_current s' = ks_current s \/ is_Some (P !! ks_current s'))).

Lemma config_progresses c : config_inv c -> progresses c.
Proof.
  intros HC. destruct c as [s P]. destruct (cv_inv _ HC) as [L HV]. pose proof (cv_nest _ HC) as Hn. simpl in *.
  assert (forall s', (exists L', sys_inv idle L' s') ->
    (forall t, is_Some (ks_threads s' !! t) <-> is_Some (ks_threads s !! t)) -> ks_current s' <> ks_current s ->
    is_Some (P !! ks_current s')) as HP.
  { intros s' [L' HV'] Hdom Hne. apply (cv_pending _ HC); [|done]. simpl. apply Hdom.
    destruct (sv_runs _ _ _ HV') as (th & Hth & _). by exists th. }
  assert (forall r, call_ok idle s r -> (exists s' a, r = Done s' a /\ ks_current s' = ks_current s) \/
    exists s' k', r = Switch s' k' /\ ks_current s' <> ks_current s /\ is_Some (P !! ks_current s')) as Hgo.
  { intros r Hok. inversion Hok as [? s' a _ Hcur|? s' k [HV' HF _] Hcur _ _]; subst; [left; by exists s', a|right].
    exists s', k. split_and!; try done. apply HP; [done|apply HF|done]. }
  split_and!; simpl.
  - intros k Hk. apply Hgo. by eapply pending_ok.
  - intros q _ Hni Hq. apply Hgo. by apply (run_call_ok idle L).
  - intros Hd.
    destruct (interrupt_sys hw isr timer_isr user fuel DI isr_timer idle L s HV Hn (cv_flag _ HC) (cv_ready _ HC) (cv_fuel _ HC))
      as (s1 & L' & HV' & HR' & Hn' & Hf' & Hdom & _ & _ & [(E & Hcur & _)|(k1 & E & _ & Hfr & Hto & _)]).
    + left. by exists s1.
    + right. exists s1, k1. split_and!; try done.
      destruct (decide (ks_current s1 = ks_current s)) as [|Hne]; [by left|right]. apply HP; [by exists L'|done|done].
Qed.

(** ** Sleeping *)

(** An interrupt returns to its thread, or another thread has the processor. *)
Definition served s s' : Prop :=
  vector_irq hw isr s = Done s' tt \/ exists k, vector_irq hw isr s = Switch s' k.

(** A run of interrupts, [n] of them ticks; whoever has the processor in between
    computes with interrupts on. *)
Inductive interrupted : nat -> kstate -> kstate -> Prop :=
  | int_none s : interrupted 0 s s
  | int_tick n s s1 s' :
      served s s1 -> ks_tick s1 = u32 (ks_tick s + 1) ->
      interrupted n (upd_daif (fun _ => 0) s1) s' -> interrupted (S n) s s'
  | int_other n s s1 s' :
      served s s1 -> ks_tick s1 = ks_tick s ->
      interrupted n (upd_daif (fun _ => 0) s1) s' -> interrupted n s s'.

(** The thread is suspended, with its timer on the list, active and due at [d]; it
    has the processor or is ready. *)
Definition sleeping s (t d : Z) : Prop := exists L th, sys_inv idle L s /\ sleeps L s t th d.
Definition up s (t : Z) : Prop := exists L, sys_inv idle L s /\ awake L s t.

(** A state between two interrupts. *)
Record calm s : Prop := {
  cl_nest : ks_nest s = 0;
  cl_flag : sw_flag (ks_switch s) = 0;
  cl_ready : irq_ready hw DI s;
  cl_fuel : ((size (ks_threads s) + 1) * (size (ks_threads s) + 1) < fuel)%nat
}.

Lemma served_effect L s s1 :
  sys_inv idle L s -> calm s -> served s s1 ->
  exists L', let s2 := upd_daif (fun _ => 0) s1 in
    sys_inv idle L' s2 /\ calm s2 /\ irq_effect isr timer_isr L s L' s2.
Proof.
  intros HV [Hn Hf HR Hfu] Hs.
  destruct (interrupt_sys hw isr timer_isr user fuel DI isr_timer idle L s HV Hn Hf HR Hfu)
    as (s' & L' & HV' & HR' & Hn' & Hf' & Hdom & _ & HE & Hrun).
  assert (s' = s1) as ->.
  { destruct Hrun as [(E & _)|(k & E & _)], Hs as [E'|[k' E']]; rewrite E in E'; congruence. }
  exists L'. cbv zeta. split; [eapply inv_core; [exact HV'|done|by left]|]. split.
  - split; try done; [|simpl; by rewrite (size_same _ _ Hdom)].
    eapply irq_ready_drivers; [apply _|exact HR'|by apply same_frame_drivers, frame_daif].
  - by eapply (irq_effect_quiet isr timer_isr L s s L' s1).
Qed.

Lemma up_interrupted n s s' t : interrupted n s s' -> calm s -> up s t -> up s' t.
Proof.
  intros H. induction H as [s|n s s1 s' Hs _ _ IH|n s s1 s' Hs _ _ IH]; intros HC [L [HV Ha]]; [by exists L|..];
    (destruct (served_effect L s s1 HV HC Hs) as (L1 & HV1 & HC1 & HE); apply IH; [done|]; exists L1; split; [done|];
     destruct HE as [HT|(-> & Hc & _)]; [by apply (td_awake _ _ _ _ HT)|by apply (awake_core _ s)]).
Qed.

(** A sleeper sleeps on until its tick has come, and is then awake. *)
Lemma sleeping_interrupted n s s' t d :
  drivers_keep_tick isr timer_isr -> interrupted n s s' -> calm s -> sleeping s t d -> 0 <= ks_tick s -> d < 2 ^ 32 ->
  (ks_tick s + Z.of_nat n < d -> sleeping s' t d) /\ (d <= ks_tick s + Z.of_nat n -> up s' t).
Proof.
  intros Hk H. induction H as [s|n s s1 s' Hs Htk Hrun IH|n s s1 s' Hs Htk Hrun IH];
    intros HC (L & th & HV & Hsl) Ht0 Hd32; pose proof (sl_before _ _ _ _ _ Hsl) as Hlt.
  - split; [intros _; by exists L, th|lia].
  - destruct (served_effect L s s1 HV HC Hs) as (L1 & HV1 & HC1 & [HT|(_ & _ & Hsame)]).
    2:{ specialize (Hsame Hk). simpl in Hsame. rewrite Htk in Hsame. rewrite (uint_small 32) in Hsame by lia. lia. }
    set (s2 := upd_daif (fun _ => 0) s1) in *.
    assert (ks_tick s2 = ks_tick s + 1) as E by (simpl; rewrite Htk; by apply (uint_small 32); lia).
    destruct (Z.lt_ge_cases (ks_tick s + 1) d) as [Hearly|Hdue].
    + pose proof (td_early _ _ _ _ HT t th d Hsl ltac:(lia)) as Hsl'.
      destruct (IH HC1 (ex_intro _ L1 (ex_intro _ th (conj HV1 Hsl'))) ltac:(lia) Hd32) as [H1 H2].
      split; intros; [apply H1|apply H2]; lia.
    + pose proof (td_due _ _ _ _ HT t th d Hsl ltac:(lia)) as Ha. split; [lia|]. intros _.
      apply (up_interrupted n s2); [done|done|]. by exists L1.
  - destruct (served_effect L s s1 HV HC Hs) as (L1 & HV1 & HC1 & [HT|(-> & Hc & _)]).
    { pose proof (td_tick _ _ _ _ HT) as E. simpl in E. rewrite Htk, (uint_small 32) in E by lia. lia. }
    set (s2 := upd_daif (fun _ => 0) s1) in *. assert (ks_tick s2 = ks_tick s) as E by done. rewrite <- E.
    apply IH; [done| |lia|done]. exists L, th. split; [done|]. apply (sleeps_core _ s); [done|lia|done].
Qed.

(** [sk_thread_sleep] of the running thread puts it to sleep for the given ticks. *)
Lemma sleep_starts L s tick :
  sys_inv idle L s -> ks_nest s = 0 -> ks_current s <> idle -> 0 <= ks_tick s -> 0 < tick ->
  ks_tick s + tick < 2 ^ 32 ->
  exists s' k, sk_thread_sleep tick s = Switch s' k /\
    (forall s2, irq_wf s2 -> exists s3, k s2 = Done s3 SK_EOK) /\ ks_tick s' = ks_tick s /\
    call_ok idle s (Switch s' k) /\ sleeping s' (ks_current s) (ks_tick s + tick).
Proof.
  intros HV Hn Hni Ht0 Ht Hb. pose proof (sv_mid _ _ _ HV) as HM. pose proof (sm_sched _ _ _ HM) as HI.
  destruct (sv_runs _ _ _ HV) as (th & Hth & Hst & Hdet). destruct (sm_timers _ _ _ HM) as [tms HT].
  destruct (tk_own _ _ _ HT (ks_current s)) as (tmr & o & HO & _); [by eexists|].
  assert (ks_group s <> 0) as Hg.
  { intros Hg. destruct (sm_idle _ _ _ HM) as [|(i & us & Hi & Hq & Hin)]; [congruence|].
    rewrite (group_zero_empty _ _ _ _ HI Hg Hi Hq) in Hin. by apply elem_of_nil in Hin. }
  destruct (thread_sleep_spec L s th tms tmr o tick HI Hn Hg Hth Hst Hdet HO)
    as (s' & k & L1 & p & u & us & Hrun & Hk & _ & Hcur & HI1 & Hth' & Hd1 & Hne & (tms1 & Hon1 & Hin1) & Htm & Hac).
  pose proof (sleep_sys idle L s tick HV Hn Hni) as Hok. rewrite Hrun in Hok.
  inversion Hok as [|? ? ? [(L2 & HV2) HF _] _ _ _]; subst. exists s', k. split; [done|]. split; [done|].
  split; [apply HF|]. split; [done|]. exists L2, (set_stat SK_THREAD_SUSPEND th). split; [done|].
  pose proof (sv_mid _ _ _ HV2) as HM2. pose proof (sm_sched _ _ _ HM2) as HI2.
  destruct (sm_timers _ _ _ HM2) as [tms2 HT2]. split.
  - split; [done|]. split; [|congruence].
    destruct (sm_placed _ _ _ HM2 _ _ Hth') as [(i & vs & Hi & Hq & Hin)|Ho]; [congruence| |done]. exfalso.
    destruct (si_queue _ _ HI1 i Hi) as (ws & Hws & _).
    pose proof (rep_agree _ _ _ _ _ _ (si_rep _ _ HI1) (si_rep _ _ HI2) Hws Hq) as E.
    apply list_fmap_eq_inj in E as ->; [|apply _]. by apply (detached_not_ready L1 s' (ks_current s) i vs).
  - rewrite (sf_tick _ _ HF). lia.
  - destruct (ks_timers s' !! thread_timer (ks_current s)) as [tmr'|]; [|done]. exists tmr'. split; [done|].
    simpl in Htm. injection Htm as ->. rewrite !(uint_small 32) by (rewrite ?(uint_small 32) by lia; lia). done.
  - destruct (ks_objs s' !! thread_timer (ks_current s)) as [o'|]; [|done]. exists o'. split; [done|]. by injection Hac.
  - exists tms2. split; [apply HT2|].
    pose proof (rep_agree _ _ _ _ _ _ (si_rep _ _ HI1) (si_rep _ _ HI2) Hon1 (tk_list _ _ _ HT2)) as E.
    apply list_fmap_eq_inj in E as <-; [|apply _]. done.
Qed.

End system.

(** ** Properties *)

(** C1: the invariant of the system.  From a configuration that satisfies it, every
    sequence of calls, of continuations of threads that get the processor back, and
    of interrupts, in any order, leads to configurations that satisfy it: ready
    queues, waiting lists, timers, semaphores, mutexes, events and mailboxes are
    consistent, exactly the current thread runs, every other thread is ready or suspended in its place, and
    every thread without the processor can continue. *)
Theorem system_invariant hw isr idle timer_isr user fuel DI `{!Handlers isr timer_isr DI} c c' :
  isr timer_isr = sk_hw_timer_isr (timer_call user) fuel ->
  config_inv hw idle fuel DI c -> rtc (step hw isr idle) c c' -> config_inv hw idle fuel DI c'.
Proof. intros Hisr. by apply (reachable_inv hw isr idle timer_isr user fuel DI). Qed.

(** C2: the system never fails and never gets stuck.  In every configuration that can
    be reached, the rest of the call of a thread that has been switched to, and each
    call of the running thread on an existing object, return or give the processor
    to another thread that can continue; and an interrupt, through vector, dispatch,
    tick and timer check, returns to the thread or switches to the thread that is
    now the current one.  No access faults and no loop spins. *)
Theorem system_never_fails hw isr idle timer_isr user fuel DI `{!Handlers isr timer_isr DI} c c' :
  isr timer_isr = sk_hw_timer_isr (timer_call user) fuel ->
  config_inv hw idle fuel DI c -> rtc (step hw isr idle) c c' -> progresses hw isr idle c'.
Proof.
  intros Hisr HC Hst. apply (config_progresses hw isr idle timer_isr user fuel DI); [done..|].
  by apply (reachable_inv hw isr idle timer_isr user fuel DI Hisr c).
Qed.

(** C10: a sleep lasts its time.  When the running thread of a configuration of the
    system calls [sk_thread_sleep] for [tick] ticks, another thread gets the
    processor.  Whatever interrupts follow, through vector, dispatch, tick, time
    slice and timer check, as long as the threads in between compute and handlers of
    other devices leave the tick alone: while fewer than [tick] of them are ticks
    the thread stays suspended with its timer active, on the list and due at the same
    tick; with the last of these ticks it is ready or running, and remains so; and
    its call returns [SK_EOK] when it has the processor. *)
Theorem sleep_lasts_its_time hw isr idle timer_isr user fuel DI `{!Handlers isr timer_isr DI} c tick :
  isr timer_isr = sk_hw_timer_isr (timer_call user) fuel -> drivers_keep_tick isr timer_isr ->
  config_inv hw idle fuel DI c ->
  let s := cf_state c in let t := ks_current s in
  t <> idle -> 0 <= ks_tick s -> 0 < tick -> ks_tick s + tick < 2 ^ 32 ->
  exists s1 k, sk_thread_sleep tick s = Switch s1 k /\ ks_current s1 <> t /\
    (forall s2, irq_wf s2 -> exists s3, k s2 = Done s3 SK_EOK) /\
    forall n s2, interrupted hw isr n (upd_daif (fun _ => 0) s1) s2 ->
      (Z.of_nat n < tick -> sleeping idle s2 t (ks_tick s + tick)) /\
      (tick <= Z.of_nat n -> up idle s2 t).
Proof.
  intros Hisr Hk HC s t Hni Ht0 Ht Hb. assert (exists L, sys_inv idle L s) as [L HV] by apply HC.
  destruct (sleep_starts idle L s tick HV ltac:(apply HC) Hni Ht0 Ht Hb)
    as (s1 & k & Hrun & Hend & Htk & Hok & HS).
  exists s1, k. inversion Hok as [|? ? ? _ Hcur _ _]; subst. do 3 (split; [done|]). intros n s2 Hint.
  assert (config_inv hw idle fuel DI (mk_config s1 (<[t := k]> (cf_pending c)))) as HC1.
  { eapply config_switch; [done| |exact Hok]. by destruct c. }
  set (s1' := upd_daif (fun _ => 0) s1) in *.
  assert (calm hw fuel DI s1') as HCa.
  { split; [apply HC1|apply HC1| |apply HC1].
    eapply irq_ready_drivers; [apply _|apply HC1|by apply same_frame_drivers, frame_daif]. }
  destruct (sleeping_interrupted hw isr idle timer_isr user fuel DI Hisr n s1' s2 t (ks_tick s + tick) Hk Hint HCa)
    as [H1 H2]; [|simpl; lia|done|].
  - destruct HS as (L1 & th & HV1 & Hsl). exists L1, th. split; [eapply inv_core; [exact HV1|done|by left]|].
    apply (sleeps_core _ s1); [done|apply Hsl|done].
  - change (ks_tick s1') with (ks_tick s1) in H1, H2. rewrite Htk in *. split; intros; [apply H1|apply H2]; lia.
Qed.

(** ** The booted system *)

(** A thread that has not run yet: [INITIAL_SPSR_EL1] lets interrupts in. *)
Definition fresh_thread (s : kstate) : res Z := Done (first_run s) 0.





Lemma fresh_resumable idle s0 t : resumable idle s0 t fresh_thread.
Proof.
  constructor. intros s [[L HV] _ _ _]. apply (call_done idle L); [|apply frame_daif|done..].
  eapply inv_core; [exact HV|done|by left].
Qed.

Section boot.
Context (hw : hardware) (frequency : Z) (b : list access) (fuel : nat) (DI : kstate -> Prop).
Hypothesis numbers : forall x, let v := u32 (hw x (GIC_CPU_INTACK GIC_CPU_BASE)) in v = 1023 \/ v < 96.
Hypothesis enough : (16 < fuel)%nat.
Hypothesis drivers : DI (first_run (boot_final hw frequency b)).


End boot.


(** ** Instances *)

#[local] Instance the_handlers : Handlers the_isr (st_timer_isr the_statics) (fun _ => True).
Proof.
  split; [|done]. intros s i d _ _ _ Hne. exists s. unfold the_isr. by rewrite (proj2 (Z.eqb_neq _ _) Hne).
Qed.


(** Thread 100 runs, 300 is the idle thread, 500 waits for the semaphore 9000; the
    mutex 9100 is held by 500, the event 9200 has no bits, the mailbox 9300 is empty. *)
Definition sys_lists : lists :=
  <[NPrio 31 := [NTlist 300]]> (<[NTlist 100 := []]> (<[NSuspend 9000 := [NTlist 500]]> (<[NSuspend 9100 := []]>
  (<[NSuspend 9200 := []]> (<[NSuspend 9300 := []]> (<[NSender 9300 := []]>
  (<[NTimerList := []]> (<[NTimer 220 := []]> (<[NTimer 420 := []]> (<[NTimer 620 := []]> prio_lists)))))))))).

Definition sys_state : kstate :=
  upd_objs (fun _ => {[220 := mk_object 7 0; 420 := mk_object 7 0; 620 := mk_object 7 0; 9000 := mk_object 1 0;
      9200 := mk_object 3 0; 9300 := mk_object 4 1]})
  (upd_timers (fun _ => {[220 := mk_timer FN_sk_thread_timeout 100 0 0; 420 := mk_timer FN_sk_thread_timeout 300 0 0;
      620 := mk_timer FN_sk_thread_timeout 500 0 0]})
  (upd_events (fun _ => {[9200 := 0]}) (upd_mailboxes (fun _ => {[9300 := mk_mailbox 16384 4 0 0 0]})
  (upd_sems (fun _ => {[9000 := 0]}) (upd_mutexes (fun _ => {[9100 := mk_mutex 0 7 1 500]})
  (upd_current (fun _ => 100) (upd_io (fun i => set_io_isr (fun _ =>
      <[27%nat := mk_irq (st_timer_isr the_statics) SK_NULL]> (replicate 96 (mk_irq SK_NULL SK_NULL)))
      (set_io_gic (fun _ => mk_gic 0 GIC_DIST_BASE GIC_CPU_BASE) i))
  (demo sys_lists (<[100 := a_thread SK_THREAD_RUNNING 10 5]> (<[300 := a_thread SK_THREAD_READY 31 5]>
    {[500 := a_thread SK_THREAD_SUSPEND 7 5]})) (2 ^ 31))))))))).

Definition sys_config : config := mk_config sys_state {[300 := fresh_thread; 500 := fresh_thread]}.

Lemma sys_config_inv : config_inv timer_hw 300 100 (fun _ => True) sys_config.
Proof.
  split; simpl; try done.
  - exists sys_lists. apply sys_check_sound. by vm_compute.
  - split; try done. intros x. right. unfold timer_hw.
    change (cpu_base (gic_ctl sys_state)) with GIC_CPU_BASE. rewrite Z.eqb_refl. by vm_compute.
  - vm_compute. lia.
  - intros t [th Ht] Hne. change (ks_current sys_state) with 100 in Hne.
    change (ks_threads sys_state) with (<[100 := a_thread SK_THREAD_RUNNING 10 5]>
      (<[300 := a_thread SK_THREAD_READY 31 5]> {[500 := a_thread SK_THREAD_SUSPEND 7 5]}) : gmap Z sk_thread) in Ht.
    rewrite !lookup_insert_Some, lookup_singleton_Some in Ht.
    destruct Ht as [[<- _]|[_ [[<- _]|[_ [<- _]]]]]; [done|by eexists..].
  - intros t k. rewrite lookup_insert_Some, lookup_singleton_Some. intros [[_ <-]|[_ [_ <-]]]; apply fresh_resumable.
  - by intros [? ?].
Qed.

(** Thread 100 waits for a mail; the idle thread gets the processor. *)
Lemma sys_blocks : exists s k, run_call (CTake 9300 8000 5) sys_state = Switch s k /\ ks_current s = 300.
Proof.
  assert (match run_call (CTake 9300 8000 5) sys_state with Switch s _ => ks_current s =? 300 | _ => false end = true) as H
    by (vm_compute; reflexivity).
  destruct (run_call (CTake 9300 8000 5) sys_state) as [|s k| | |]; try done. exists s, k. by apply Z.eqb_eq in H.
Qed.

Lemma system_invariant_witness :
  exists s k, ks_current s = 300 /\
    config_inv timer_hw 300 100 (fun _ => True) (mk_config s (<[100 := k]> (cf_pending sys_config))).
Proof.
  destruct sys_blocks as (s & k & E & Hc). exists s, k. split; [exact Hc|].
  apply (system_invariant timer_hw the_isr 300 (st_timer_isr the_statics) (fun _ _ => mret tt) 100 (fun _ => True) sys_config).
  - reflexivity.
  - exact sys_config_inv.
  - apply rtc_once. apply (step_block timer_hw the_isr 300 sys_state _ (CTake 9300 8000 5) s k); [done|done|by eexists|exact E].
Defined.

Lemma system_never_fails_witness :
  exists s k, ks_current s = 300 /\
    progresses timer_hw the_isr 300 (mk_config s (<[100 := k]> (cf_pending sys_config))).
Proof.
  destruct sys_blocks as (s & k & E & Hc). exists s, k. split; [exact Hc|].
  apply (system_never_fails timer_hw the_isr 300 (st_timer_isr the_statics) (fun _ _ => mret tt) 100 (fun _ => True) sys_config).
  - reflexivity.
  - exact sys_config_inv.
  - apply rtc_once. apply (step_block timer_hw the_isr 300 sys_state _ (CTake 9300 8000 5) s k); [done|done|by eexists|exact E].
Defined.

(** The state after [n] interrupts, each of which must be a tick. *)
Fixpoint tick_run (hw : hardware) (isr : Z -> Z -> Z -> M unit) (n : nat) (s : kstate) : option kstate :=
  match n with
  | O => Some s
  | S n =>
      match vector_irq hw isr s with
      | Done s1 _ | Switch s1 _ =>
          if ks_tick s1 =? u32 (ks_tick s + 1) then tick_run hw isr n (upd_daif (fun _ => 0) s1) else None
      | _ => None
      end
  end.

Lemma tick_run_sound hw isr n : forall s s', tick_run hw isr n s = Some s' -> interrupted hw isr n s s'.
Proof.
  induction n as [|n IH]; intros s s' H; simpl in H; [injection H as <-; constructor|].
  destruct (vector_irq hw isr s) as [s1 []|s1 k| | |] eqn:E; try done;
    (destruct (Z.eqb_spec (ks_tick s1) (u32 (ks_tick s + 1))) as [Et|]; [|done]); eapply int_tick; try done; auto.
  - by left.
  - right. by exists k.
Qed.

(** Thread 100 sleeps for 3 ticks; after 2 it sleeps, after 3 it is awake. *)
Lemma sys_sleep_runs s1 k :
  sk_thread_sleep 3 sys_state = Switch s1 k ->
  (exists s2, interrupted timer_hw the_isr 2 (upd_daif (fun _ => 0) s1) s2) /\
  exists s3, interrupted timer_hw the_isr 3 (upd_daif (fun _ => 0) s1) s3.
Proof.
  assert (match sk_thread_sleep 3 sys_state with
    | Switch s1 _ => bool_decide (is_Some (tick_run timer_hw the_isr 2 (upd_daif (fun _ => 0) s1))) &&
                     bool_decide (is_Some (tick_run timer_hw the_isr 3 (upd_daif (fun _ => 0) s1)))
    | _ => false end = true) as H by (vm_compute; reflexivity).
  intros E. rewrite E in H. apply andb_true_iff in H as [[s2 H2]%bool_decide_eq_true [s3 H3]%bool_decide_eq_true].
  split; [exists s2|exists s3]; by apply tick_run_sound.
Qed.

Lemma sleep_lasts_its_time_witness :
  exists s2 s3, sleeping 300 s2 100 3 /\ up 300 s3 100.
Proof.
  destruct (sleep_lasts_its_time timer_hw the_isr 300 (st_timer_isr the_statics) (fun _ _ => mret tt) 100
    (fun _ => True) sys_config 3) as (s1 & k & E & _ & _ & H).
  - reflexivity.
  - intros i d s s' Hne. unfold the_isr. rewrite (proj2 (Z.eqb_neq _ _) Hne). by intros [= <-].
  - exact sys_config_inv.
  - done.
  - by vm_compute.
  - done.
  - by vm_compute.
  - destruct (sys_sleep_runs s1 k E) as [[s2 R2] [s3 R3]]. exists s2, s3.
    split; [apply (H 2%nat s2 R2); done|apply (H 3%nat s3 R3); done].
Defined.
