(* ===== verification/User.v ===== *)
(** * The application: [src/user/main.c], [src/user/test_ipc.c], and the loop of the idle thread

    The application thread "main", the commands that exercise the kernel, and
    [sk_idle_entry] of [src/thread/thread.c].  The commands create pairs of
    threads; [run_system] executes all threads of a booted system together, with
    the continuations of those that wait, and gives the text that reaches the
    UART. *)

From Stdlib Require Import String Ascii SpecFloat.
From S2P Require Import Prelude BaseDef RingBuffer KList Slab IoDef Kernel Sched KObj Timer Thread.
From S2P Require Import IpcBase Semaphore Mutex Event Mailbox MsgQueue Device Console Bus Serial Intc Board Shell Boot.

Local Open Scope c_scope.
Local Open Scope list_scope.

(** ** [float] *)

(** The arithmetic of [float] is that of IEEE binary32, that of [double] binary64,
    both of the Standard Library. *)
Definition sf32_of_Z (n : Z) : spec_float := binary_normalize 24 128 n 0 false.
Definition sf64_of_sf32 (x : spec_float) : spec_float :=
  match x with
  | S754_finite s m e => binary_normalize 53 1024 (cond_Zopp s (Z.pos m)) e s
  | _ => x
  end.
Definition sf32_of_sf64 (x : spec_float) : spec_float :=
  match x with
  | S754_finite s m e => binary_normalize 24 128 (cond_Zopp s (Z.pos m)) e s
  | _ => x
  end.

(** Conversion to an unsigned integer of [w] bits truncates; outside the range of
    the type it is undefined. *)
Definition uint_of_sf (w : Z) (x : spec_float) : option Z :=
  match x with
  | S754_zero _ => Some 0
  | S754_finite s m e =>
      let n := cond_Zopp s (Z.shiftl (Z.pos m) e) in
      if (0 <=? n) && (n <? 2 ^ w) then Some n else None
  | _ => None
  end.

(** The 32 bits of a [float] in memory. *)
Definition bits_of_sf32 (x : spec_float) : Z :=
  let sign (s : bool) := if s then 2 ^ 31 else 0 in
  match x with
  | S754_zero s => sign s
  | S754_infinity s => sign s + 255 * 2 ^ 23
  | S754_nan => 255 * 2 ^ 23 + 2 ^ 22
  | S754_finite s m e =>
      if Z.pos m <? 2 ^ 23 then sign s + Z.pos m else sign s + (e + 150) * 2 ^ 23 + (Z.pos m - 2 ^ 23)
  end.

Definition sf32_of_bits (b : Z) : spec_float :=
  let s := Z.testbit b 31 in
  let e := (b / 2 ^ 23) mod 256 in
  let f := b mod 2 ^ 23 in
  if e =? 255 then if f =? 0 then S754_infinity s else S754_nan
  else if e =? 0 then if f =? 0 then S754_zero s else S754_finite s (Z.to_pos f) (-149)
  else S754_finite s (Z.to_pos (f + 2 ^ 23)) (e - 150).

(** ** Statics and locals *)

(** Addresses of the static objects, of the functions given to the kernel, and of
    the local variables whose address is taken. *)
Record user_statics := mk_user {
  us_idle_tick : Z;
  us_cpu_usage : Z;
  us_timer : Z;
  us_timer_cnt : Z;
  us_mutex : Z;
  us_sem : Z;
  us_event : Z;
  us_mb : Z;
  us_mb_pool : Z;
  us_mq : Z;
  us_mq_pool : Z;
  us_fn : string -> Z;
  us_names : Z;
  us_e : Z;
  us_value : Z;
  us_send_msg : Z;
  us_recv_msg : Z
}.

(** [char dst[n] = t]: the characters that fit, and zeros. *)
Definition char_array (dst n : Z) (t : list Z) : M unit :=
  modify (upd_mem (fun m => list_to_map (zip (seqZ dst n) (t ++ replicate (Z.to_nat n) 0)) ∪ m)).

Section user.
Context (ops_at : Z -> option sk_device_ops) (a : boot_statics) (u : user_statics).

(** [lit t] is the address of the literal [t]; [garbage] is the value of the
    uninitialised variable of [sk_event_send]. *)
Context (lit : list Z -> Z) (garbage : bool).

Notation printf fmt args := (kprintf ops_at a (lit fmt) args).

(** ** The idle thread *)

Definition idle_tick_inc : M unit :=
  idle_tick ← read_word (us_idle_tick u);
  write_word (us_idle_tick u) (u32 (idle_tick + 1)).

(** [wfi] stands for the interrupts taken until the processor goes on. *)
Fixpoint sk_idle_entry (fuel : nat) (wfi : M unit) : M unit :=
  match fuel with
  | O => spin
  | S fuel =>
      idle_tick_inc;;
      wfi;;
      sk_idle_entry fuel wfi
  end.

Definition sk_idle_tick_get : M Z := read_word (us_idle_tick u).

(** ** [main.c] *)

(** One round of the loop; [cnt] is never read. *)
Definition main_round : M unit :=
  idle_tick ← sk_idle_tick_get;
  tick ← sk_tick_get;
  let q := SFdiv 24 128 (sf32_of_Z idle_tick) (sf32_of_Z tick) in
  let usage := sf32_of_sf64 (SFsub 53 1024 (binary_normalize 53 1024 1 0 false) (sf64_of_sf32 q)) in
  write_word (us_cpu_usage u) (bits_of_sf32 usage);;
  sk_thread_delay 1000;;
  mret tt.

Fixpoint main (fuel : nat) : M unit :=
  match fuel with
  | O => spin
  | S fuel => main_round;; main fuel
  end.

(** A conversion that is undefined faults. *)
Definition show_cpu_usage : M unit :=
  b ← read_word (us_cpu_usage u);
  n ← lift_option (uint_of_sf 8 (SFmul 24 128 (sf32_of_bits b) (sf32_of_Z 100)));
  printf (nl "current cpu usage is %d%") [n].

(** ** [test_ipc.c] *)

Definition EVENT_FLAG0 : Z := Z.shiftl 1 0.
Definition EVENT_FLAG1 : Z := Z.shiftl 1 1.

Definition test_timer_func (param : Z) : M unit :=
  let timer := param in
  cnt ← read_word (us_timer_cnt u);
  write_word (us_timer_cnt u) (u8 (cnt + 1));;
  cnt ← read_word (us_timer_cnt u);
  printf (nl "timer timeout(%d) ... ") [cnt];;
  when_ (cnt =? 5) (
    printf (nl "stop timer ") [];;
    sk_timer_stop timer;;
    mret tt).

Definition test_sys_timer : M unit :=
  sk_timer_init (us_timer u) (lit (zs "debug_timer")) (us_fn u "test_timer_func") (us_timer u) 1000
    SK_TIMER_FLAG_PERIODIC;;
  sk_timer_start (us_timer u);;
  mret tt.

(** The name of the current thread is at the address of its object. *)
Definition mutex_thread_1 (mutex : Z) : M unit :=
  name ← sk_current_thread;
  printf (nl "%s take mutex") [name];;
  sk_mutex_lock mutex 10000;;
  sk_thread_delay 2000;;
  sk_mutex_unlock mutex;;
  name ← sk_current_thread;
  printf (nl "%s release mutex") [name].

Definition mutex_thread_2 (mutex : Z) : M unit :=
  name ← sk_current_thread;
  printf (nl "%s take mutex") [name];;
  sk_mutex_lock mutex (-1);;
  sk_thread_delay 100;;
  sk_mutex_unlock mutex;;
  name ← sk_current_thread;
  printf (nl "%s release mutex") [name].

(** The five commands end alike: two threads of priority 20 with 20 ticks and
    2048 bytes of stack get the object as their parameter.  The name is an array
    of 16 characters on the stack. *)
Definition test_threads (obj : Z) (name_1 fn_1 name_2 fn_2 : string) : M unit :=
  char_array (us_names u) SK_NAME_MAX (zs name_1);;
  thread_1 ← sk_thread_create (us_names u) (us_fn u fn_1) obj 2048 20 20;
  sk_thread_startup thread_1;;
  char_array (us_names u + SK_NAME_MAX) SK_NAME_MAX (zs name_2);;
  thread_2 ← sk_thread_create (us_names u + SK_NAME_MAX) (us_fn u fn_2) obj 2048 20 20;
  sk_thread_startup thread_2;;
  mret tt.

Definition test_mutex : M unit :=
  sk_mutex_init (us_mutex u) (lit (zs "test_mutex")) SK_IPC_FLAG_PRIO;;
  test_threads (us_mutex u) "mutex_thread_1" "mutex_thread_1" "mutex_thread_2" "mutex_thread_2".

Definition sem_thread_1 (sem : Z) : M unit :=
  name ← sk_current_thread;
  printf (nl "%s wait semaphore") [name];;
  sk_sem_wait sem 10000;;
  sk_thread_delay 2000;;
  sk_sem_post sem;;
  name ← sk_current_thread;
  printf (nl "%s post semaphore ") [name].

Definition sem_thread_2 (sem : Z) : M unit :=
  sk_sem_wait sem (-1);;
  name ← sk_current_thread;
  printf (nl "%s get semaphore") [name];;
  sk_thread_delay 100;;
  sk_sem_post sem;;
  name ← sk_current_thread;
  printf (nl "%s post semaphore ") [name].

Definition test_sem : M unit :=
  sk_sem_init (us_sem u) (lit (zs "test_sem")) 2 SK_IPC_FLAG_PRIO;;
  test_threads (us_sem u) "sem_thread_1" "sem_thread_1" "mutex_thread_2" "sem_thread_2".

Definition event_thread_1 (event : Z) : M unit :=
  sk_thread_delay 100;;
  sk_event_send garbage event EVENT_FLAG1;;
  sk_thread_delay 100;;
  sk_event_send garbage event EVENT_FLAG0;;
  mret tt.

Definition event_thread_2 (event : Z) : M unit :=
  ret ← sk_event_recv event (EVENT_FLAG0 ||| EVENT_FLAG1) SK_EVENT_FLAG_OR (-1) (us_e u);
  when_ (ret =? SK_EOK) (
    name ← sk_current_thread;
    e ← read_word (us_e u);
    printf (nl "%s recv event: %d") [name; e]);;
  ret ← sk_event_recv event (EVENT_FLAG0 ||| EVENT_FLAG1) (SK_EVENT_FLAG_AND ||| SK_EVENT_FLAG_CLEAR) (-1) (us_e u);
  when_ (ret =? SK_EOK) (
    name ← sk_current_thread;
    e ← read_word (us_e u);
    printf (nl "%s recv event: %d") [name; e]).

Definition test_event : M unit :=
  sk_event_init (us_event u) (lit (zs "test_event")) SK_IPC_FLAG_PRIO;;
  test_threads (us_event u) "sem_thread_1" "event_thread_1" "mutex_thread_2" "event_thread_2".

(** [for(i = 0; i < 128; i++)], [n] rounds left. *)
Fixpoint mailbox_send_loop (n : nat) (mb i : Z) : M unit :=
  match n with
  | O => mret tt
  | S n =>
      sk_mailbox_send_wait mb i 1000;;
      sk_thread_delay 100;;
      mailbox_send_loop n mb (u8 (i + 1))
  end.

Definition mailbox_thread_1 (mb : Z) : M unit := mailbox_send_loop 128 mb 0.

Fixpoint mailbox_thread_2 (fuel : nat) (mb : Z) : M unit :=
  match fuel with
  | O => spin
  | S fuel =>
      ret ← sk_mailbox_recv mb (us_value u) 10000;
      if SK_EOK =? ret then
        name ← sk_current_thread;
        value ← read_word (us_value u);
        printf (nl "%s recv mail: %d") [name; value];;
        mailbox_thread_2 fuel mb
      else mret tt
  end.

Definition test_mailbox : M unit :=
  sk_mailbox_init (us_mb u) (lit (zs "test_mailbox")) (us_mb_pool u) 64 SK_IPC_FLAG_PRIO;;
  test_threads (us_mb u) "mailbox_thread_1" "mailbox_thread_1" "mailbox_thread_2" "mailbox_thread_2".

Definition send_msg : list Z := zs "test message queue...".

Fixpoint msg_send_loop (n : nat) (mq : Z) : M unit :=
  match n with
  | O => mret tt
  | S n =>
      sk_msg_queue_send_wait mq (us_send_msg u) 22 1000;;
      sk_thread_delay 100;;
      msg_send_loop n mq
  end.

Definition msg_queue_thread_1 (mq : Z) : M unit :=
  char_array (us_send_msg u) 22 send_msg;;
  msg_send_loop 5 mq.

Fixpoint msg_queue_thread_2 (fuel : nat) (mq : Z) : M unit :=
  match fuel with
  | O => spin
  | S fuel =>
      ret ← sk_msg_queue_recv mq (us_recv_msg u) 64 10000;
      if SK_EOK =? ret then
        name ← sk_current_thread;
        printf (nl "%s recv message: %s") [name; us_recv_msg u];;
        msg_queue_thread_2 fuel mq
      else mret tt
  end.

Definition test_msg_queue : M unit :=
  sk_msg_queue_init (us_mq u) (lit (zs "test_message_queue")) (us_mq_pool u) 22 256 SK_IPC_FLAG_PRIO;;
  test_threads (us_mq u) "mq_thread_1" "msg_queue_thread_1" "mq_thread_2" "msg_queue_thread_2".

End user.

(** ** All threads together *)

(** [prog f p] is what a thread with the entry function [f] and the parameter [p]
    does.  A run that is [Done] is a thread that polls: it does [poll t] between
    any two interrupts, until one takes the processor from it. *)
Section run.
Context (hw : hardware) (isr : Z -> Z -> Z -> M unit) (prog : Z -> Z -> M unit) (poll : Z -> M unit).

(** A thread that runs for the first time has interrupts on. *)
Definition start_thread (t : Z) (s : kstate) : res unit :=
  match ks_threads s !! t with
  | Some th => prog (entry th) (param th) (first_run s)
  | None => Fault
  end.

(** Run until [n] interrupts have been taken.  The run of the current thread [t]
    has come to [r]; [rest] holds what the other threads that have started do
    next.  Interrupts arrive while a thread polls; one may switch from a thread to
    itself.  The accesses to registers are collected at every interrupt, the last
    ones first. *)
Fixpoint run_system (fuel n : nat) (rest : gmap Z (kstate -> res unit)) (log : list (list access)) (t : Z)
  (r : res unit) : res (list (list access)) :=
  match fuel with
  | O => Spin
  | S fuel =>
      match r with
      | Done s _ =>
          let log := io_bus (ks_io s) :: log in
          match n with
          | O => Done s log
          | S n => run_system fuel n rest log t ((poll t;; vector_irq hw isr) (upd_bus (fun _ => []) s))
          end
      | Switch s k =>
          let t' := ks_current s in
          let rest := <[t := k]> rest in
          run_system fuel n (delete t' rest) log t' (default (start_thread t') (rest !! t') s)
      | NoReturn _ | Fault => Fault
      | Spin => Spin
      end
  end.

End run.

(** The bytes written to the data register of the UART, in order. *)
Definition uart_text (b : list access) : list Z :=
  omap (fun x => if x is BusWrite a v then if a =? PL011_UART0_BASE then Some v else None else None) b.

(** ** The application on the booted kernel *)

Definition fn_names : list string :=
  ["test_timer_func"; "mutex_thread_1"; "mutex_thread_2"; "sem_thread_1"; "sem_thread_2"; "event_thread_1";
   "event_thread_2"; "mailbox_thread_1"; "mailbox_thread_2"; "msg_queue_thread_1"; "msg_queue_thread_2"]%string.

Definition the_fn (f : string) : Z := default 0 ((fun p => 500 + Z.of_nat p.1) <$> list_find (fun g => g = f) fn_names).

Definition the_user : user_statics := {|
  us_idle_tick := 20000; us_cpu_usage := 20008; us_timer := 20100; us_timer_cnt := 20200; us_mutex := 20300;
  us_sem := 20400; us_event := 20500; us_mb := 20600; us_mb_pool := 21000; us_mq := 20700; us_mq_pool := 22000;
  us_fn := the_fn; us_names := 30000; us_e := 30100; us_value := 30108; us_send_msg := 30200; us_recv_msg := 30300
|}.

Definition literals : list (list Z) :=
  [nl "current cpu usage is %d%"; nl "timer timeout(%d) ... "; nl "stop timer "; zs "debug_timer";
   nl "%s take mutex"; nl "%s release mutex"; zs "test_mutex"; nl "%s wait semaphore"; nl "%s post semaphore ";
   nl "%s get semaphore"; zs "test_sem"; nl "%s recv event: %d"; zs "test_event"; nl "%s recv mail: %d";
   zs "test_mailbox"; nl "%s recv message: %s"; zs "test_message_queue"].

Definition the_lit (t : list Z) : Z :=
  default 0 ((fun p => 10000 + 50 * Z.of_nat p.1) <$> list_find (fun x => x = t) literals).

Definition user_nodes : list node :=
  [NObj 20100; NTimer 20100; NObj 20300; NSuspend 20300; NObj 20400; NSuspend 20400; NObj 20500; NSuspend 20500;
   NObj 20600; NSuspend 20600; NSender 20600; NObj 20700; NSuspend 20700; NSender 20700].

Definition user_state (s : kstate) : kstate :=
  upd_nodes (fun h => list_to_map ((fun n => (n, mk_node NNull NNull)) <$> user_nodes) ∪ h)
  (upd_objs (fun m => list_to_map ((fun a => (a, mk_object 0 0)) <$> [20100; 20300; 20400; 20500; 20600; 20700]) ∪ m)
  (upd_timers (<[20100 := mk_timer 0 0 0 0]>)
  (upd_mutexes (<[20300 := mk_mutex 0 0 0 0]>)
  (upd_sems (<[20400 := 0]>) (upd_events (<[20500 := 0]>)
  (upd_mailboxes (<[20600 := mk_mailbox 0 0 0 0 0]>)
  (upd_mqs (<[20700 := mk_mq 0 0 0 0 0 0 0]>)
  (upd_words (fun w => <[20000 := 10]> (<[20008 := 0]> (<[20200 := 0]> w)))
  (upd_mem (fun m => list_to_map (concat (imap (fun i t => place (10000 + 50 * Z.of_nat i) t) literals)) ∪ m) s))))))))).

(** The thread of the shell has called the command [cmd] and polls for input, the
    idle thread polls, the others return to [__thread_exit]. *)
Definition the_prog (ops : Z -> option sk_device_ops) (cmd : M unit) (fuel : nat) (f p : Z) : M unit :=
  let ends (body : M unit) := body;; __thread_exit (fun _ _ => mret tt) in
  let at_fn g := f =? the_fn g in
  if f =? st_shell_entry the_statics then cmd
  else if f =? FN_sk_idle_entry then mret tt
  else if f =? st_main the_statics then main the_user fuel
  else if at_fn "mutex_thread_1"%string then ends (mutex_thread_1 ops the_statics the_lit p)
  else if at_fn "mutex_thread_2"%string then ends (mutex_thread_2 ops the_statics the_lit p)
  else if at_fn "sem_thread_1"%string then ends (sem_thread_1 ops the_statics the_lit p)
  else if at_fn "sem_thread_2"%string then ends (sem_thread_2 ops the_statics the_lit p)
  else if at_fn "event_thread_1"%string then ends (event_thread_1 false p)
  else if at_fn "event_thread_2"%string then ends (event_thread_2 ops the_statics the_user the_lit p)
  else if at_fn "mailbox_thread_1"%string then ends (mailbox_thread_1 p)
  else if at_fn "mailbox_thread_2"%string then ends (mailbox_thread_2 ops the_statics the_user the_lit fuel p)
  else if at_fn "msg_queue_thread_1"%string then ends (msg_queue_thread_1 the_user p)
  else if at_fn "msg_queue_thread_2"%string then ends (msg_queue_thread_2 ops the_statics the_user the_lit fuel p)
  else fun _ => Fault.

Definition user_timer (ops : Z -> option sk_device_ops) (f p : Z) : M unit :=
  if f =? the_fn "test_timer_func" then test_timer_func ops the_statics the_user the_lit p else mret tt.

Definition user_isr (ops : Z -> option sk_device_ops) (f vector param : Z) : M unit :=
  if f =? st_timer_isr the_statics
  then sk_hw_timer_isr (timer_call (user_timer ops)) 1000 vector param
  else mret tt.

Definition user_poll (t : Z) : M unit := when_ (t =? idle_thread) (idle_tick_inc the_user).

(** The command run by the shell of the booted system, and [n] interrupts; the
    accesses to registers are recorded from here on. *)
Definition run_command (ops : Z -> option sk_device_ops) (cmd : M unit) (n : nat) (s : kstate) : res (list (list access)) :=
  run_system timer_hw (user_isr ops) (the_prog ops cmd 300) user_poll (n + 1000) n ∅ [] main_thread
    (main the_user 300 (first_run (upd_bus (fun _ => []) (user_state s)))).

(** The run ends, and the lines are all that was printed. *)
Definition prints (r : res (list (list access))) (lines : list string) : bool :=
  match r with
  | Done _ log => bool_decide (uart_text (concat (reverse log)) = concat (nl <$> lines))
  | _ => false
  end.

(** Concrete runs: the state in which one boot has left the kernel, the interrupt
    controller reporting nothing but the timer, one command beside "main" and the idle
    thread, a fixed number of interrupts.  The test of mailboxes, which takes 128
    rounds, is run through its first four. *)
Section tests.
Context (frequency : Z) (b : list access).
Local Open Scope string_scope.

Notation after n cmd := (run_command (demo_ops timer_hw) cmd n (boot_final timer_hw frequency b)).

Example mutex_run :
  prints (after 2300 (test_mutex the_user the_lit))
    ["mutex_thread_1 take mutex"; "mutex_thread_2 take mutex"; "mutex_thread_1 release mutex";
     "mutex_thread_2 release mutex"] = true.
Proof. vm_compute. reflexivity. Qed.

Example sem_run :
  prints (after 2100 (test_sem the_user the_lit))
    ["sem_thread_1 wait semaphore"; "mutex_thread_2 get semaphore"; "mutex_thread_2 post semaphore ";
     "sem_thread_1 post semaphore "] = true.
Proof. vm_compute. reflexivity. Qed.

Example event_run :
  prints (after 300 (test_event the_user the_lit))
    ["mutex_thread_2 recv event: 2"; "mutex_thread_2 recv event: 3"] = true.
Proof. vm_compute. reflexivity. Qed.

Example mailbox_run :
  prints (after 400 (test_mailbox the_user the_lit))
    ["mailbox_thread_2 recv mail: 0"; "mailbox_thread_2 recv mail: 1"; "mailbox_thread_2 recv mail: 2";
     "mailbox_thread_2 recv mail: 3"] = true.
Proof. vm_compute. reflexivity. Qed.

Example msg_queue_run :
  prints (after 600 (test_msg_queue the_user the_lit))
    (replicate 5 "mq_thread_2 recv message: test message queue...") = true.
Proof. vm_compute. reflexivity. Qed.

Example timer_run :
  prints (after 5200 (test_sys_timer the_user the_lit))
    ["timer timeout(1) ... "; "timer timeout(2) ... "; "timer timeout(3) ... "; "timer timeout(4) ... ";
     "timer timeout(5) ... "; "stop timer "] = true.
Proof. vm_compute. reflexivity. Qed.

(** The share of the processor the application counts at the first second: 770
    rounds of the idle thread in 1010 ticks. *)
Example usage_run :
  match after 1010 (mret tt) with
  | Done s _ =>
      match show_cpu_usage (demo_ops timer_hw) the_statics the_user the_lit (upd_bus (fun _ => []) s) with
      | Done s _ => bool_decide (uart_text (io_bus (ks_io s)) = nl "current cpu usage is 23%")
      | _ => false
      end
  | _ => false
  end = true.
Proof. vm_compute. reflexivity. Qed.

End tests.

(** The bits of a [float] stand for it. *)
Definition sf32_valid (x : spec_float) : Prop :=
  match x with
  | S754_finite _ m e =>
      2 ^ 23 <= Z.pos m < 2 ^ 24 /\ -149 <= e <= 104 \/ Z.pos m < 2 ^ 23 /\ e = -149
  | _ => True
  end.

Lemma sf32_fields s e f :
  0 <= e < 256 -> 0 <= f < 2 ^ 23 ->
  let b := (if s : bool then 2 ^ 31 else 0) + e * 2 ^ 23 + f in
  Z.testbit b 31 = s /\ (b / 2 ^ 23) mod 256 = e /\ b mod 2 ^ 23 = f.
Proof.
  intros He Hf b. assert (b / 2 ^ 23 = (if s then 256 else 0) + e) as E.
  { symmetry. apply (Z.div_unique _ _ _ f); [lia|]. unfold b. destruct s; lia. }
  split; [|split].
  - rewrite Z.testbit_eqb by lia. replace (b / 2 ^ 31) with (if s then 1 else 0); [by destruct s|].
    apply (Z.div_unique _ _ _ (e * 2 ^ 23 + f)); unfold b; destruct s; lia.
  - rewrite E. destruct s; [rewrite <- Z.add_mod_idemp_l by lia|]; change (256 mod 256) with 0;
      rewrite Z.add_0_l, Z.mod_small; lia.
  - symmetry. apply (Z.mod_unique _ _ (b / 2 ^ 23)); [lia|]. rewrite E. unfold b. destruct s; lia.
Qed.

Theorem float_bits_roundtrip x : sf32_valid x -> sf32_of_bits (bits_of_sf32 x) = x.
Proof.
  destruct x as [[]|[]| |s m e]; try done. intros Hv. unfold bits_of_sf32, sf32_of_bits. cbn [sf32_valid] in Hv.
  destruct (Z.ltb_spec (Z.pos m) (2 ^ 23)).
  - destruct (sf32_fields s 0 (Z.pos m)) as (E1 & E2 & E3); [lia..|].
    replace (0 * 2 ^ 23) with 0 in E1, E2, E3 by done. rewrite !Z.add_0_r in E1, E2, E3.
    rewrite E1, E2, E3. cbn -[Z.pow]. destruct Hv as [?|[_ ->]]; [lia|done].
  - destruct (sf32_fields s (e + 150) (Z.pos m - 2 ^ 23)) as (E1 & E2 & E3); [lia..|].
    rewrite E1, E2, E3. rewrite (proj2 (Z.eqb_neq _ _)), (proj2 (Z.eqb_neq (e + 150) _)) by lia.
    f_equal; [|lia]. replace (Z.pos m - 2 ^ 23 + 2 ^ 23) with (Z.pos m) by lia. done.
Qed.

(** ** The load in the first second *)

(** In the first second the load is that of tick 0, a division by zero: minus
    infinity, whose conversion to an integer is undefined. *)
Theorem first_usage_undefined frequency n :
  exists s, skernel_startup timer_hw (demo_ops timer_hw) the_statics frequency [] [] boot_state = NoReturn s /\
    run_command (demo_ops timer_hw) (show_cpu_usage (demo_ops timer_hw) the_statics the_user the_lit) n s = Fault.
Proof.
  destruct (startup_rest timer_hw frequency boot_state) as [b E]; [by left|by eexists|].
  exists (boot_final timer_hw frequency b). split; [rewrite E; exact (boot_rest_ends timer_hw frequency b)|].
  unfold run_command. rewrite Nat.add_comm. change (1000 + n)%nat with (S (S (998 + n))). vm_compute. reflexivity.
Qed.
